(* ===== verification/_CoqProject ===== *)
-Q . S2P
Prelude.v
CLib.v
ParseUtil.v
Sds.v
SdsMem.v
SdsFmt.v
SdsJson.v
SdsText.v
Json.v
Lists.v
LinkedList.v
MsgQueue.v
LuaAsync.v
GpioUtil.v
Config.v
Kernel.v
Sim.v
Timer.v
InputNames.v
Events.v
Gpio.v
Actions.v
ConfigParse.v
Log.v
GpioEvent.v
LuaThread.v
Protocol.v
Http.v
Socket.v
EventLoop.v
Release.v
Invariant.v
InvOps.v
InvProtocol.v
InvHttp.v
InvLoop.v
Start.v
PollTable.v
Daemon.v
ReleaseSpec.v
EventSpec.v
SocketSpec.v
GpioSpec.v
ConfigSpec.v
StartSpec.v
Lifetime.v
ConfigFile.v
Requests.v
HttpSpec.v
ClientIo.v
Client.v
Cli.v
ClientSpec.v
EndToEnd.v
CliSpec.v
InfoSpec.v
CliMain.v
