(* ===== verification/Prelude.v ===== *)
(** * myGPIOd: verification library

    myGPIOd is a daemon that owns the GPIO lines of a machine. It serves a line
    protocol on a Unix socket and a REST API over HTTP, distributes line events to
    waiting clients, and runs configured actions on line events, timers, input
    events and hooks; Lua scripts run in the daemon or in threads. libmygpio is the
    C client library of the socket protocol, mygpioc a command line client. The
    library models these programs as they are in src/ and proves what makes them
    correct. All paths below are under src/.

    ** Conventions

    An [sds] or C string is a list of bytes, an integer a [Z] with the wrap
    functions below where it can leave its type, a [struct t_list] the sequence of
    its nodes, each with its address; writing through a pointer is an update of the
    node with that address, so that aliasing is as in the code. The daemon runs in
    the state monad [M] of Kernel.v over a [world]: the configuration with all run
    time state (config/config.h), the flag update_pollfds, the HTTP requests, the
    threads of the scripts with their queues, and an abstract state of the
    environment. A run is [Done], with a result, or [Stop], with its [ending]:
    undefined behaviour (a NULL or dangling pointer is followed, or an [int]
    overflows), a Lua script that does not come back (lua_call is unprotected), or
    a call of a thread on a Lua state that is closed. Functions without effects
    return [None] for undefined behaviour. Memory is never exhausted (the sources
    abort then). Calls of the kernel, libgpiod, libmicrohttpd,
    libmpdclient, libcurl and Lua are operations of the class [Kernel];
    [KernelLaws] states the documented facts that proofs use, and Sim.v is an
    instance on which the witnesses run. The build has all optional features.
    Log.v says what a line of the log is; the rest leaves log output out.

    ** Parts

    - Bytes and numbers. CLib.v: the C library functions the sources call.
      ParseUtil.v: mygpio-common/util.c. Sds.v: dist/sds/sds.c,
      lib/sds_extras.c, lib/json_print.c of mygpiod, on lists of bytes. SdsMem.v,
      SdsFmt.v, SdsJson.v: the same library and json_print.c on memory, with headers,
      capacities and blocks. SdsText.v: the functions that compare, split and quote.
      Json.v: a JSON reader, to say what replies mean.
    - Lists. Lists.v: the abstract list; LinkedList.v: lib/list.c on a heap, with
      the refinement of Lists.v.
    - Scripts in threads. MsgQueue.v: event_loop/msg_queue.c on a heap, refining a
      sequence of messages. LuaAsync.v: lua/async/queue_msg.c, the calls of script
      threads into the main thread, as a step relation; scripts start, call, end
      and close their Lua state. LuaThread.v:
      lua/async/functions, lib/http_client.c and actions/http.c, what a thread does
      between its calls.
    - Data. GpioUtil.v (gpio/util.c), Config.v (the structs), Kernel.v, InputNames.v
      (input_ev/event_type.c, event_code.c).
    - The daemon, an operation per function: Timer.v (lib/timer.c, response.c),
      Events.v (lib/events.c, server_socket/idle.c, server_http/util.c), Gpio.v
      (gpio/gpio.c, output.c), Actions.v (actions, lua/sync), GpioEvent.v
      (gpio/action.c, event.c, timer.c, input_ev, timer_ev, hook), Protocol.v
      (server_socket/protocol.c and its handlers, raspberry/vcgencmd.c), Http.v
      (server_http), Socket.v (server_socket/socket.c), EventLoop.v
      (event_loop/event_loop.c, eventfd_wrap.c, the main thread's half of
      lua/async/queue_msg.c, and the loop of main.c), ConfigParse.v (config),
      Start.v (main.c up to its loop and the functions that open everything), Log.v
      (lib/log.c),
      Release.v (main.c after its loop, config_clear and the functions it calls).
    - The client. ClientIo.v and Client.v: libmygpio/src. Cli.v: mygpioc, every
      command with what it prints and its exit code.

    How they interact: [main] of Start.v reads the configuration (ConfigParse.v)
    and opens everything; EventLoop.[loop_step] is one iteration of its loop: the
    table of descriptors is rebuilt, poll returns anything, libmicrohttpd makes any
    sequence of the calls it is allowed (Http.[http_step]), and
    [event_read_delegate] runs the handler of the first ready descriptor. Handlers
    raise events (Events.v), which answer idle clients and suspended HTTP requests.
    Scripts in threads reach the main thread through the queues only: the world
    holds the system of LuaAsync.v, [lua_async_handle_msg] takes the main thread's
    steps of it, and the threads take theirs before and in between, as the
    environment chooses. [main_exit] of
    Release.v runs when the start-up fails or the loop is left ([loop_exit]).

    ** Theorems

    - Safety of the whole. StartSpec.v: with any arguments and configuration files that
      get_config accepts, and no interval that overflows, [main] gives up
      and releases what it had opened, or enters its loop in a state that satisfies
      [boot], unless lua_file does not come back when it is loaded. ReleaseSpec.v: however the loop is left, nothing stays open (over the
      class [Descriptors] of Kernel.v). Lifetime.v puts them together: from the command
      line through any number of iterations to the exit code, only a signal ends
      the loop in order, and nothing but a script ends it otherwise. Daemon.v: in
      every reachable state, no handler and no HTTP call follows an invalid pointer;
      clients stay within their bounds; the poll table is that of the
      configuration; every command line is answered. What scripts may do in these
      theorems is said by the class [Endings] of Kernel.v and its instances: which
      ways to stop a proof allows, from none, when the functions of lua_file come
      back and one script runs at a time, to all that a script can cause. The invariant [inv] is in
      Invariant.v; InvOps.v, InvProtocol.v, InvHttp.v and InvLoop.v show that every
      operation keeps it, by the tactic [keep] and the hint database [keeps].
    - Strings. SdsMem.v: any sequence of operations on a string stays inside its
      block and represents the same sequence on bytes. SdsFmt.v: the formats of
      sdscatfmt. SdsJson.v: JSON text with at most ten characters to escape stays in
      its block and is that of Sds.v; with more, one can be written behind it
      ([sds_catjson_overflow]). The type of the HTTP replies, which are built on
      Sds.v, has that bound as a hypothesis. SdsText.v: what is quoted is read back.
    - Events. EventSpec.v: who is told what and when, the ten newest events are
      kept. GpioSpec.v: setting, toggling, blinking, the state machine of a long
      press with the event that each transition sends and the actions it runs. SocketSpec.v: accept, read, write and timeouts. PollTable.v: the table
      against its specification.
    - HTTP. HttpSpec.v: the type of replies, the GPIO list, the URLs, long polling.
    - Configuration. ConfigSpec.v: what any accepted configuration satisfies,
      intervals, termination. ConfigFile.v: a round trip for GPIO files.
    - Client and daemon. Requests.v: from a line, in whatever chunks, to the text of
      the answer. ClientSpec.v, EndToEnd.v: the client library reads what the daemon
      writes. CliSpec.v, InfoSpec.v: what a command of mygpioc does, from its
      arguments to the chip and back to its output and exit code. CliMain.v: all of
      it, with the options, the greeting and the end of the connection. The daemon
      accepts GPIO numbers to 99, the client to 64: the theorems say what happens
      with both.
    - Threads. LuaAsync.v: no answer is lost or taken twice, answers are right when
      wake-ups are prompt, nobody sleeps through an answer, and what goes wrong
      after an early wake-up, up to a call on a Lua state that its script has closed. LuaThread.v: what a script reads of an answer of MPD.
    - Lemmas named in the findings show behaviour that differs from what comments
      and documentation say, among them [timer_interval_overflows],
      [startup_messages_dropped], [poll_table_too_small], [gpio_blink_leaks_timer],
      [sds_catjson_overflow],
      [hook_handler_status], [idle_empty_line_disconnects], [parse_weekdays_rejects_digits],
      [incomplete_hook_undefined], [set_wait_time_doubles].

    ** Fuel and bounds

    Loops over lists are structural. [config_loop] gets one more than the length of
    the file and each round takes a byte at least; the loops over a heap get the
    number of its cells; [start_down] and [start_up] get the distance in seconds,
    and an interval is at least one; the JSON reader gets the length of its text. That the fuel is enough is part of the theorems, which say that
    there is a result. mygpio_response_end has no bound in the code: its fuel is an
    argument and the theorems ask for more than the number of lines. The digits of
    a number below 2^64 need 20 rounds of 64, and sdscatvprintf two. The limits of
    compile_time.h.in are definitions with the values of the build file.

    ** Not modelled

    What getopt_long itself prints, which log messages the daemon writes, and
    incbin.h (assembler directives). The Lua interpreter: a script is the calls it
    makes and how it ends. A count of expired messages wraps at 32 bits, as compiled
    code does; the language leaves it undefined. Of sds.c, freeing and the conversions of vsnprintf, whose output
    is an argument of sdscatvprintf; and the daemon's model uses the lists of
    Sds.v, which SdsMem.v justifies. *)

From stdpp Require Export base tactics option list list_numbers relations gmap strings.
From Stdlib Require Export ZArith Lia Ascii.

#[global] Open Scope Z_scope.

(** ** Machine integers

    An [unsigned], [int], [uint64_t] or [long] is a [Z]; every operation that
    can leave the range of its type is followed by the wrap function of the
    type. The platform is LP64 (64-bit [long] and [time_t]). *)

Definition UINT_MAX : Z := 4294967295.
Definition INT_MAX : Z := 2147483647.
Definition INT_MIN : Z := -2147483648.
Definition LONG_MAX : Z := 9223372036854775807.
Definition LONG_MIN : Z := -9223372036854775808.
Definition ULONG_MAX : Z := 18446744073709551615.

Definition u32 (z : Z) : Z := z mod 4294967296.
Definition u64 (z : Z) : Z := z mod 18446744073709551616.

(** The conversion to [int]. *)
Definition i32 (z : Z) : Z :=
  let m := z mod 4294967296 in if m <? 2147483648 then m else m - 4294967296.

Definition is_u32 (z : Z) : Prop := 0 ≤ z ≤ UINT_MAX.
Definition is_i32 (z : Z) : Prop := INT_MIN ≤ z ≤ INT_MAX.

Lemma u32_small z : is_u32 z → u32 z = z.
Proof. unfold is_u32, UINT_MAX, u32. intros. apply Z.mod_small. lia. Qed.

Lemma u32_range z : is_u32 (u32 z).
Proof.
  unfold is_u32, UINT_MAX, u32.
  pose proof (Z.mod_pos_bound z 4294967296 ltac:(lia)). lia.
Qed.

Lemma u64_small z : 0 ≤ z ≤ ULONG_MAX → u64 z = z.
Proof. unfold ULONG_MAX, u64. intros. apply Z.mod_small. lia. Qed.

Lemma i32_add a b : i32 (i32 a + b) = i32 (a + b).
Proof.
  assert (E : (i32 a + b) mod 4294967296 = (a + b) mod 4294967296).
  { unfold i32. cbv zeta. destruct (_ <? _).
    - by rewrite Zplus_mod_idemp_l.
    - replace (a mod 4294967296 - 4294967296 + b) with (a mod 4294967296 + b + -1 * 4294967296) by lia.
      by rewrite Z.mod_add, Zplus_mod_idemp_l by lia. }
  unfold i32 at 1. rewrite E. reflexivity.
Qed.

Lemma i32_idem a : i32 (i32 a) = i32 a.
Proof. pose proof (i32_add a 0) as E. by rewrite !Z.add_0_r in E. Qed.

(** ** Byte strings

    A C string or an [sds] is the list of its bytes. [bs] turns a literal of
    the source into bytes; [c_str] is what a C function that stops at the
    terminating NUL sees of an [sds]. *)

Abbreviation bytes := (list ascii).

Definition bs (s : string) : bytes := String.list_ascii_of_string s.
Arguments bs : simpl never.

Definition NUL : ascii := "000"%char.
Definition BEL : ascii := "007"%char.
Definition BS : ascii := "008"%char.
Definition TAB : ascii := "009"%char.
Definition LF : ascii := "010"%char.
Definition VT : ascii := "011"%char.
Definition FF : ascii := "012"%char.
Definition CR : ascii := "013"%char.
Definition DQUOTE : ascii := "034"%char.
Definition SQUOTE : ascii := "039"%char.
Definition BACKSLASH : ascii := "092"%char.

(** [ch a b] is the C test [a == b] on characters. *)
Definition ch (a b : ascii) : bool := Ascii.eqb a b.

Lemma ch_true a b : ch a b = true ↔ a = b.
Proof. apply Ascii.eqb_eq. Qed.

Lemma ch_false a b : ch a b = false ↔ a ≠ b.
Proof. apply Ascii.eqb_neq. Qed.

Lemma ch_refl a : ch a a = true.
Proof. apply Ascii.eqb_refl. Qed.

(** The prefix of [s] before the first byte that satisfies [p], and the rest. *)
Fixpoint span (p : ascii → bool) (s : bytes) : bytes * bytes :=
  match s with
  | [] => ([], [])
  | c :: s' => if p c then let '(a, b) := span p s' in (c :: a, b) else ([], s)
  end.

Fixpoint take_while {A} (p : A → bool) (s : list A) : list A :=
  match s with
  | [] => []
  | c :: s' => if p c then c :: take_while p s' else []
  end.

Fixpoint drop_while {A} (p : A → bool) (s : list A) : list A :=
  match s with
  | [] => []
  | c :: s' => if p c then drop_while p s' else s
  end.

Lemma take_drop_while {A} (p : A → bool) (s : list A) : take_while p s ++ drop_while p s = s.
Proof. induction s as [|c s IH]; simpl; [done|]. destruct (p c); simpl; congruence. Qed.

Lemma take_while_Forall {A} (p : A → bool) (s : list A) : Forall (λ c, p c = true) (take_while p s).
Proof. induction s as [|c s IH]; simpl; [done|]. destruct (p c) eqn:?; auto. Qed.

Lemma length_take_while {A} (p : A → bool) (s : list A) : (length (take_while p s) ≤ length s)%nat.
Proof. induction s as [|c s IH]; simpl; [lia|]. destruct (p c); simpl; lia. Qed.

Lemma take_while_all {A} (p : A → bool) (s t : list A) :
  Forall (λ c, p c = true) s → take_while p (s ++ t) = s ++ take_while p t.
Proof. induction 1 as [|c s Hc _ IH]; simpl; [done|]. by rewrite Hc, IH. Qed.

Lemma drop_while_all {A} (p : A → bool) (s t : list A) :
  Forall (λ c, p c = true) s → drop_while p (s ++ t) = drop_while p t.
Proof. induction 1 as [|c s Hc _ IH]; simpl; [done|]. by rewrite Hc. Qed.

Lemma drop_while_head {A} (p : A → bool) (s : list A) c r :
  drop_while p s = c :: r → p c = false.
Proof.
  induction s as [|a s IH]; simpl; [done|].
  destruct (p a) eqn:E; [done|]. by intros [= <- <-].
Qed.

(** What a function that reads up to the terminating NUL sees. *)
Definition c_str (s : bytes) : bytes := take_while (λ c, negb (ch c NUL)) s.

Arguments c_str : simpl never.

Definition no_nul (s : bytes) : Prop := Forall (λ c, negb (ch c NUL) = true) s.

Lemma c_str_id s : no_nul s → c_str s = s.
Proof.
  intros H. unfold c_str. rewrite <- (app_nil_r s) at 1.
  rewrite take_while_all by done. simpl. by rewrite app_nil_r.
Qed.

Lemma c_str_no_nul s : no_nul (c_str s).
Proof. apply take_while_Forall. Qed.

Lemma no_nul_app s t : no_nul s → no_nul t → no_nul (s ++ t).
Proof. apply Forall_app_2. Qed.

(** A line: no line feed inside. Decided by computation on literals. *)
Definition one_line (s : bytes) : Prop := forallb (λ c, negb (ch c LF)) s = true.

Lemma one_line_app s t : one_line s → one_line t → one_line (s ++ t).
Proof. unfold one_line. rewrite forallb_app. by intros -> ->. Qed.

Lemma one_line_nil : one_line [].
Proof. done. Qed.

Lemma one_line_Forall s : one_line s ↔ Forall (λ c, negb (ch c LF) = true) s.
Proof.
  unfold one_line. induction s as [|c s IH]; simpl.
  - split; [constructor|done].
  - rewrite andb_true_iff, IH, Forall_cons. done.
Qed.

Lemma one_line_take_while p s : one_line s → one_line (take_while p s).
Proof.
  unfold one_line. induction s as [|c s IH]; simpl; [done|].
  intros [Hc Hs]%andb_true_iff. destruct (p c); simpl; [|done]. by rewrite Hc, IH.
Qed.

Lemma one_line_c_str s : one_line s → one_line (c_str s).
Proof. apply one_line_take_while. Qed.

(** ** Record update

    [r <| f := v |>] replaces one field of a C struct, [r <| f ::= g |>]
    applies [g] to it. A record type registers its eta expansion once, the
    setters are derived from it. *)

Class Eta (R : Type) := eta : R → R.
Class Setter {R T : Type} (proj : R → T) := set_field : (T → T) → R → R.
#[global] Hint Mode Setter - - ! : typeclass_instances.

Ltac derive_setter :=
  match goal with
  | |- @Setter ?R ?T ?proj =>
      let inst := constr:(_ : Eta R) in
      let body := eval hnf in inst in
      let pat := eval pattern proj in body in
      match pat with
      | ?F _ =>
          let t := eval cbv beta in
            (λ (g : T → T) (r : R), F (λ r' : R, g (proj r')) r) in
          exact t
      end
  end.

#[export] Hint Extern 1 (Setter _) => derive_setter : typeclass_instances.

Arguments set_field {R T} proj {_} _ _ /.

Declare Scope record_scope.
Open Scope record_scope.

Notation "r <| f ::= g |>" := (set_field f g r)
  (at level 1, f at level 0, left associativity) : record_scope.
Notation "r <| f := v |>" := (set_field f (λ _, v) r)
  (at level 1, f at level 0, left associativity) : record_scope.

(** ** Tactics *)

(** Case analysis on the first match or conditional of the goal. *)
Ltac case_match_goal :=
  match goal with
  | |- context [match ?x with _ => _ end] => destruct x eqn:?
  end.

(** Case analysis on the first match of a hypothesis. *)
Ltac case_match_in H :=
  match type of H with
  | context [match ?x with _ => _ end] => destruct x eqn:?
  end.

(** Turns boolean comparisons of [Z] into propositions. *)
Ltac zbool :=
  repeat match goal with
  | H : (_ && _) = true |- _ => apply andb_true_iff in H; destruct H
  | H : (_ || _) = false |- _ => apply orb_false_iff in H; destruct H
  | H : (_ =? _) = true |- _ => apply Z.eqb_eq in H
  | H : (_ =? _) = false |- _ => apply Z.eqb_neq in H
  | H : (_ <? _) = true |- _ => apply Z.ltb_lt in H
  | H : (_ <? _) = false |- _ => apply Z.ltb_ge in H
  | H : (_ <=? _) = true |- _ => apply Z.leb_le in H
  | H : (_ <=? _) = false |- _ => apply Z.leb_gt in H
  | H : negb _ = true |- _ => apply negb_true_iff in H
  | H : negb _ = false |- _ => apply negb_false_iff in H
  end.

Create HintDb gpio discriminated.
#[export] Hint Resolve c_str_no_nul no_nul_app u32_range : gpio.
#[export] Hint Resolve one_line_app one_line_nil one_line_c_str : gpio.
