(* ===== verification/CLib.v ===== *)
(** * The C library functions the sources call

    Character classes in the C locale, string comparison, the [strtol] family
    in base 10 and the decimal conversions of [printf]. They are the language's
    standard library: each is written out from its C11/POSIX description, on
    byte lists that stand for NUL-terminated strings. *)

From S2P Require Import Prelude.

Definition EXIT_SUCCESS : Z := 0.
Definition EXIT_FAILURE : Z := 1.

(** ** Characters *)

Definition code (c : ascii) : Z := Z.of_nat (nat_of_ascii c).

Definition isspace (c : ascii) : bool :=
  (code c =? 32) || ((9 <=? code c) && (code c <=? 13)).

Definition isdigit (c : ascii) : bool := (48 <=? code c) && (code c <=? 57).

Definition islower (c : ascii) : bool := (97 <=? code c) && (code c <=? 122).
Definition isupper (c : ascii) : bool := (65 <=? code c) && (code c <=? 90).

Definition chr (z : Z) : ascii := ascii_of_nat (Z.to_nat z).

Definition toupper (c : ascii) : ascii := if islower c then chr (code c - 32) else c.
Definition tolower (c : ascii) : ascii := if isupper c then chr (code c + 32) else c.

Lemma code_range c : 0 ≤ code c < 256.
Proof. unfold code. pose proof (nat_ascii_bounded c). lia. Qed.

Lemma code_chr z : 0 ≤ z < 256 → code (chr z) = z.
Proof. intros. unfold code, chr. rewrite nat_ascii_embedding by lia. lia. Qed.

Lemma code_inj a b : code a = code b → a = b.
Proof.
  unfold code. intros H%Nat2Z.inj.
  rewrite <- (ascii_nat_embedding a), <- (ascii_nat_embedding b). congruence.
Qed.

Lemma chr_code c : chr (code c) = c.
Proof. apply code_inj. apply code_chr, code_range. Qed.

(** ** Strings *)

(** [strcmp(a, b) == 0] *)
Definition strcmp0 (a b : bytes) : bool := bool_decide (c_str a = c_str b).

(** [strcasecmp(a, b) == 0] *)
Definition strcasecmp0 (a b : bytes) : bool :=
  bool_decide (map tolower (c_str a) = map tolower (c_str b)).

(** [strncmp(a, b, strlen(b)) == 0] for a literal [b] *)
Definition strprefix (b a : bytes) : bool :=
  bool_decide (take (length b) (c_str a) = b).

(** [strchr(s, c)]: the suffix that starts at the first [c]. *)
Definition strchr (s : bytes) (c : ascii) : option bytes :=
  match drop_while (λ x, negb (ch x c)) (c_str s) with
  | [] => None
  | r => Some r
  end.

Lemma strcmp0_true a b : strcmp0 a b = true ↔ c_str a = c_str b.
Proof. apply bool_decide_eq_true. Qed.

Lemma strcmp0_refl a : strcmp0 a a = true.
Proof. by apply strcmp0_true. Qed.

Lemma strcasecmp0_refl a : strcasecmp0 a a = true.
Proof. by apply bool_decide_eq_true. Qed.

(** ** Numbers *)

Definition dval (c : ascii) : Z := code c - 48.

(** Value of a run of decimal digits, most significant first. *)
Definition digits_val (ds : bytes) : Z := fold_left (λ v c, 10 * v + dval c) ds 0.

(** What [strtol] and its relatives report: the value, [endptr], whether
    [errno] was set to [ERANGE] and whether [endptr] differs from [str]. *)
Record strto_result := StrTo {
  st_value : Z;
  st_end : bytes;
  st_erange : bool;
  st_moved : bool;
}.

(** Sign, digits and remainder of the subject sequence in base 10. *)
Definition strto_scan (s : bytes) : bool * bytes * bytes :=
  let s1 := drop_while isspace s in
  let '(neg, s2) :=
    match s1 with
    | c :: r => if ch c "-" then (true, r) else if ch c "+" then (false, r) else (false, s1)
    | [] => (false, [])
    end in
  (neg, take_while isdigit s2, drop_while isdigit s2).

Definition strtol (str : bytes) : strto_result :=
  let s := c_str str in
  let '(neg, ds, rest) := strto_scan s in
  match ds with
  | [] => StrTo 0 s false false
  | _ =>
      let v := if neg then - digits_val ds else digits_val ds in
      if LONG_MAX <? v then StrTo LONG_MAX rest true true
      else if v <? LONG_MIN then StrTo LONG_MIN rest true true
      else StrTo v rest false true
  end.

(** [strtoul] and [strtoull] are the same function on LP64. *)
Definition strtoul (str : bytes) : strto_result :=
  let s := c_str str in
  let '(neg, ds, rest) := strto_scan s in
  match ds with
  | [] => StrTo 0 s false false
  | _ =>
      let v := digits_val ds in
      if ULONG_MAX <? v then StrTo ULONG_MAX rest true true
      else StrTo (if neg then u64 (- v) else v) rest false true
  end.

Definition strtoull : bytes → strto_result := strtoul.

(** [printf("%u")] and its relatives on a non-negative number. *)
Fixpoint dec_go (fuel : nat) (n : Z) (acc : bytes) : bytes :=
  match fuel with
  | O => acc
  | S fuel' =>
      let acc' := chr (48 + n mod 10) :: acc in
      if n / 10 =? 0 then acc' else dec_go fuel' (n / 10) acc'
  end.

Definition print_u (n : Z) : bytes := dec_go (S (Z.to_nat (Z.log2 n))) n [].

Arguments print_u : simpl never.

(** [printf("%d")] *)
Definition print_d (n : Z) : bytes := if n <? 0 then "-"%char :: print_u (- n) else print_u n.

(** ** Facts *)

Lemma isdigit_chr d : 0 ≤ d < 10 → isdigit (chr (48 + d)) = true.
Proof. intros. unfold isdigit. rewrite code_chr by lia. lia. Qed.

Lemma dval_chr d : 0 ≤ d < 10 → dval (chr (48 + d)) = d.
Proof. intros. unfold dval. rewrite code_chr; lia. Qed.

Lemma isdigit_dval c : isdigit c = true → 0 ≤ dval c < 10.
Proof. unfold isdigit, dval. intros. zbool. lia. Qed.

Lemma isdigit_not_space c : isdigit c = true → isspace c = false.
Proof. unfold isdigit, isspace. intros. zbool. lia. Qed.

Lemma isdigit_not_char c d : isdigit c = true → isdigit d = false → ch c d = false.
Proof. intros H1 H2. apply ch_false. congruence. Qed.

Lemma digits_val_app ds c : digits_val (ds ++ [c]) = 10 * digits_val ds + dval c.
Proof. unfold digits_val. by rewrite fold_left_app. Qed.

Lemma digits_val_nonneg ds : Forall (λ c, isdigit c = true) ds → 0 ≤ digits_val ds.
Proof.
  induction ds as [|c ds IH] using rev_ind; [done|].
  intros [? Hc]%Forall_app. rewrite digits_val_app.
  inv Hc. pose proof (isdigit_dval c). specialize (IH ltac:(done)). intuition lia.
Qed.

Lemma dec_go_value fuel n acc :
  0 ≤ n < 2 ^ Z.of_nat fuel →
  fold_left (λ v c, 10 * v + dval c) (dec_go fuel n acc) 0
  = fold_left (λ v c, 10 * v + dval c) acc n.
Proof.
  revert n acc. induction fuel as [|fuel IH]; intros n acc Hn; cbn [dec_go].
  { change (2 ^ Z.of_nat 0) with 1 in Hn. replace n with 0 by lia. done. }
  rewrite Nat2Z.inj_succ, Z.pow_succ_r in Hn by lia.
  pose proof (Z.div_mod n 10). pose proof (Z.mod_pos_bound n 10).
  destruct (n / 10 =? 0) eqn:E; zbool.
  - cbn [fold_left]. rewrite dval_chr by lia. f_equal. lia.
  - rewrite IH by lia. cbn [fold_left]. rewrite dval_chr by lia. f_equal. lia.
Qed.

Lemma dec_go_digits fuel n acc :
  Forall (λ c, isdigit c = true) acc → Forall (λ c, isdigit c = true) (dec_go fuel n acc).
Proof.
  revert n acc. induction fuel as [|fuel IH]; intros n acc Hacc; cbn [dec_go]; [done|].
  pose proof (Z.mod_pos_bound n 10).
  case_match_goal; [|apply IH]; constructor; auto; apply isdigit_chr; lia.
Qed.

Lemma dec_go_nonempty fuel n acc : acc ≠ [] → dec_go fuel n acc ≠ [].
Proof.
  revert n acc. induction fuel as [|fuel IH]; intros n acc Hacc; cbn [dec_go]; [done|].
  case_match_goal; [done|]. by apply IH.
Qed.

Lemma print_u_digits n : Forall (λ c, isdigit c = true) (print_u n).
Proof. by apply dec_go_digits. Qed.

Lemma print_u_nonempty n : print_u n ≠ [].
Proof. unfold print_u. cbn [dec_go]. case_match_goal; [done|]. by apply dec_go_nonempty. Qed.

Lemma print_u_value n : 0 ≤ n → digits_val (print_u n) = n.
Proof.
  intros Hn. unfold digits_val, print_u. rewrite dec_go_value; [done|].
  split; [done|]. rewrite Nat2Z.inj_succ, Z2Nat.id by apply Z.log2_nonneg.
  destruct (decide (n = 0)) as [->|]; [done|].
  apply Z.log2_spec. lia.
Qed.

Lemma dec_go_length fuel n acc : (length (dec_go fuel n acc) ≤ length acc + fuel)%nat.
Proof.
  revert n acc. induction fuel as [|fuel IH]; intros n acc; cbn [dec_go]; [lia|].
  destruct (_ =? _); simpl; [lia|].
  specialize (IH (n / 10) (chr (48 + n mod 10) :: acc)). simpl in IH. lia.
Qed.

Lemma print_u_length n (k : nat) : 0 ≤ n < 2 ^ Z.of_nat k → (length (print_u n) ≤ S k)%nat.
Proof.
  intros Hn. unfold print_u. pose proof (dec_go_length (S (Z.to_nat (Z.log2 n))) n []) as Hl.
  simpl length in Hl at 2. assert (Z.log2 n ≤ Z.of_nat k).
  { destruct (decide (n = 0)) as [-> |]; [simpl; lia|].
    apply Z.lt_le_incl, Z.log2_lt_pow2; lia. }
  lia.
Qed.

Lemma print_u_inj n m : 0 ≤ n → 0 ≤ m → print_u n = print_u m → n = m.
Proof.
  intros Hn Hm H. rewrite <- (print_u_value n), <- (print_u_value m) by done. by rewrite H.
Qed.

Lemma digits_no_nul ds : Forall (λ c, isdigit c = true) ds → no_nul ds.
Proof.
  intros H. eapply Forall_impl; [exact H|]. intros c Hc. cbn in *.
  by rewrite (isdigit_not_char c NUL).
Qed.

(** A conversion stops in front of [rest]. *)
Definition stops_digits (rest : bytes) : Prop :=
  match rest with c :: _ => isdigit c = false | [] => True end.

Lemma take_while_digits ds rest :
  Forall (λ c, isdigit c = true) ds → stops_digits rest →
  take_while isdigit (ds ++ rest) = ds ∧ drop_while isdigit (ds ++ rest) = rest.
Proof.
  intros Hds Hrest. rewrite take_while_all, drop_while_all by done.
  destruct rest as [|c r]; simpl; [by rewrite app_nil_r|].
  cbn in Hrest. rewrite Hrest. by rewrite app_nil_r.
Qed.

(** [strtoul] on a string that starts with a digit. *)
Lemma strto_scan_digits ds rest :
  Forall (λ c, isdigit c = true) ds → ds ≠ [] → stops_digits rest →
  strto_scan (ds ++ rest) = (false, ds, rest).
Proof.
  intros Hds Hne Hrest.
  destruct (take_while_digits ds rest Hds Hrest) as [Ht Hd].
  assert (drop_while isspace (ds ++ rest) = ds ++ rest) as Hs.
  { destruct ds as [|c ds]; [done|]. inv Hds. cbn. by rewrite isdigit_not_space. }
  unfold strto_scan. rewrite Hs.
  destruct ds as [|c ds]; [done|]. inv Hds. cbn [app] in *.
  rewrite !(isdigit_not_char c) by done. by rewrite Ht, Hd.
Qed.

Lemma no_nul_nil : no_nul [].
Proof. constructor. Qed.

Lemma stops_digits_nil : stops_digits [].
Proof. exact I. Qed.

#[export] Hint Resolve print_u_digits print_u_nonempty digits_no_nul no_nul_nil
  stops_digits_nil : gpio.
