(* ===== verification/ParseUtil.v ===== *)
(** * mygpio-common/util.c: number and boolean parsing

    The parsers shared by the daemon, the client library and the command line
    tool. A [char *] that may be NULL is an [option bytes]; the result is
    [None] where the C function returns false (it then leaves [*result] and
    [*rest] alone) and [Some (result, rest)] where it returns true. [strict]
    is the C test [rest == NULL]. *)

From S2P Require Import Prelude CLib.

(** The guard shared by the four number parsers: NULL, empty or blank. *)
Definition parse_guard (str : option bytes) : option bytes :=
  match str with
  | None => None
  | Some s =>
      match c_str s with
      | [] => None
      | c :: r => if isspace c then None else Some (c :: r)
      end
  end.

(** The common tail: limits, strict mode and the result. *)
Definition parse_finish (r : strto_result) (strict : bool) (min max result : Z)
  : option (Z * bytes) :=
  if negb (st_erange r) && st_moved r && (min <=? st_value r) && (st_value r <=? max) then
    if strict then
      match st_end r with [] => Some (result, []) | _ :: _ => None end
    else Some (result, st_end r)
  else None.

Definition mygpio_parse_int (str : option bytes) (strict : bool) (min max : Z)
  : option (Z * bytes) :=
  match parse_guard str with
  | None => None
  | Some s =>
      let r := strtol s in
      if (INT_MAX <? st_value r) || (st_value r <? INT_MIN) then None
      else parse_finish r strict min max (st_value r)
  end.

Definition first_is_minus (s : bytes) : bool :=
  match s with c :: _ => ch c "-" | [] => false end.

Definition mygpio_parse_uint (str : option bytes) (strict : bool) (min max : Z)
  : option (Z * bytes) :=
  match parse_guard str with
  | None => None
  | Some s =>
      if first_is_minus s then None
      else
        let r := strtoul s in
        if UINT_MAX <? st_value r then None
        else parse_finish r strict min max (st_value r)
  end.

(** The C code stores [(unsigned)v] into the [unsigned long] result. *)
Definition mygpio_parse_ulong (str : option bytes) (strict : bool) (min max : Z)
  : option (Z * bytes) :=
  match parse_guard str with
  | None => None
  | Some s =>
      if first_is_minus s then None
      else
        let r := strtoul s in
        parse_finish r strict min max (u32 (st_value r))
  end.

Definition mygpio_parse_uint64 (str : option bytes) (strict : bool) (min max : Z)
  : option (Z * bytes) :=
  match parse_guard str with
  | None => None
  | Some s =>
      if first_is_minus s then None
      else
        let r := strtoull s in
        parse_finish r strict min max (st_value r)
  end.

(** The value and whether [errno] was set to [EINVAL]. *)
Definition mygpio_parse_bool (str : bytes) : bool * bool :=
  if strcasecmp0 str (bs "true") || strcmp0 str (bs "1") then (true, false)
  else if strcasecmp0 str (bs "false") || strcmp0 str (bs "0") then (false, false)
  else (false, true).

Definition mygpio_bool_to_str (v : bool) : bytes := if v then bs "true" else bs "false".

(** ** What a subject string denotes *)

(** [s] is an optional plus sign followed by the decimal digits of [v]. *)
Definition denotes (s : bytes) (v : Z) : Prop :=
  ∃ ds, (s = ds ∨ s = "+"%char :: ds) ∧ ds ≠ [] ∧
        Forall (λ c, isdigit c = true) ds ∧ digits_val ds = v.

Lemma parse_guard_digits ds rest :
  Forall (λ c, isdigit c = true) ds → ds ≠ [] → no_nul rest →
  parse_guard (Some (ds ++ rest)) = Some (ds ++ rest).
Proof.
  intros Hds Hne Hnn. unfold parse_guard.
  rewrite c_str_id by (apply no_nul_app; auto with gpio).
  destruct ds as [|c ds]; [done|]. inv Hds. cbn. by rewrite isdigit_not_space.
Qed.

Lemma strtoul_digits ds rest :
  Forall (λ c, isdigit c = true) ds → ds ≠ [] → no_nul rest →
  stops_digits rest → digits_val ds ≤ ULONG_MAX →
  strtoul (ds ++ rest) = StrTo (digits_val ds) rest false true.
Proof.
  intros Hds Hne Hnn Hrest Hmax. unfold strtoul.
  rewrite c_str_id by (apply no_nul_app; auto with gpio).
  rewrite strto_scan_digits by done.
  destruct ds; [done|]. by rewrite (proj2 (Z.ltb_ge _ _)) by lia.
Qed.

Lemma strtol_digits ds rest :
  Forall (λ c, isdigit c = true) ds → ds ≠ [] → no_nul rest →
  stops_digits rest → digits_val ds ≤ LONG_MAX →
  strtol (ds ++ rest) = StrTo (digits_val ds) rest false true.
Proof.
  intros Hds Hne Hnn Hrest Hmax. unfold strtol.
  rewrite c_str_id by (apply no_nul_app; auto with gpio).
  rewrite strto_scan_digits by done.
  pose proof (digits_val_nonneg ds Hds).
  destruct ds; [done|]. unfold LONG_MIN.
  rewrite (proj2 (Z.ltb_ge _ _)) by lia. by rewrite (proj2 (Z.ltb_ge _ _)) by lia.
Qed.

Lemma digits_not_minus ds rest :
  Forall (λ c, isdigit c = true) ds → ds ≠ [] → first_is_minus (ds ++ rest) = false.
Proof.
  intros Hds Hne. destruct ds as [|c ds]; [done|]. inv Hds. cbn.
  by apply isdigit_not_char.
Qed.

Lemma parse_finish_ok v rest (strict : bool) min max result :
  min ≤ v ≤ max → (strict = true → rest = []) →
  parse_finish (StrTo v rest false true) strict min max result = Some (result, rest).
Proof.
  intros Hv Hs. unfold parse_finish. cbn.
  rewrite !(proj2 (Z.leb_le _ _)) by lia. cbn.
  destruct strict; [|done]. by rewrite Hs.
Qed.

(** A number printed by the daemon and followed by a non-digit is read back. *)
Lemma parse_uint_print n rest min max (strict : bool) :
  0 ≤ n ≤ UINT_MAX → min ≤ n ≤ max → no_nul rest →
  stops_digits rest → (strict = true → rest = []) →
  mygpio_parse_uint (Some (print_u n ++ rest)) strict min max = Some (n, rest).
Proof.
  intros Hn Hm Hnn Hrest Hs. unfold mygpio_parse_uint, UINT_MAX in *.
  rewrite parse_guard_digits, digits_not_minus by auto with gpio.
  rewrite strtoul_digits; auto with gpio; rewrite !print_u_value; unfold ULONG_MAX; try lia.
  cbn. rewrite (proj2 (Z.ltb_ge _ _)) by lia. by apply parse_finish_ok.
Qed.

Lemma parse_uint64_print n :
  0 ≤ n ≤ ULONG_MAX → mygpio_parse_uint64 (Some (print_u n)) true 0 ULONG_MAX = Some (n, []).
Proof.
  intros Hn. unfold mygpio_parse_uint64, strtoull.
  rewrite <- (app_nil_r (print_u n)).
  rewrite parse_guard_digits, digits_not_minus by auto with gpio.
  rewrite strtoul_digits by (rewrite ?print_u_value by lia; auto with gpio; lia).
  rewrite print_u_value by lia. by apply parse_finish_ok.
Qed.

(** ** Exact characterisation of the strict unsigned parser *)

Lemma strto_scan_inv s neg ds rest :
  strto_scan s = (neg, ds, rest) → Forall (λ c, isdigit c = true) ds.
Proof.
  unfold strto_scan. repeat case_match_goal; intros [= <- <- <-]; apply take_while_Forall.
Qed.

Lemma strtoul_strict_inv s v :
  no_nul s → s ≠ [] → first_is_minus s = false →
  (∀ c r, s = c :: r → isspace c = false) →
  strtoul s = StrTo v [] false true → denotes s v.
Proof.
  intros Hnn Hne Hm Hsp. unfold strtoul. rewrite c_str_id by done.
  destruct (strto_scan s) as [[neg ds] rest] eqn:E.
  pose proof (strto_scan_inv _ _ _ _ E) as Hds.
  destruct s as [|c r]; [done|]. specialize (Hsp c r eq_refl).
  unfold strto_scan in E. cbn [drop_while] in E. rewrite Hsp in E. cbn in Hm, E.
  rewrite Hm in E.
  destruct ds as [|d ds]; [done|]. case_match_goal; [done|]. intros [= Hv ->].
  destruct (ch c "+") eqn:Hp; injection E as <- Hds' Hrest; subst v; exists (d :: ds).
  - apply ch_true in Hp as ->. split_and!; try done. right. f_equal.
    by rewrite <- (take_drop_while isdigit r), Hds', Hrest, app_nil_r.
  - split_and!; try done. left.
    pose proof (take_drop_while isdigit (c :: r)) as Htd. cbn in Htd.
    rewrite Hds', Hrest, app_nil_r in Htd. done.
Qed.

Lemma strtoul_denotes s v :
  denotes s v → v ≤ ULONG_MAX →
  parse_guard (Some s) = Some s ∧ first_is_minus s = false ∧
  strtoul s = StrTo v [] false true.
Proof.
  intros (ds & Hs & Hne & Hds & <-) Hv.
  destruct Hs as [-> | ->].
  - rewrite <- (app_nil_r ds).
    rewrite parse_guard_digits, digits_not_minus, strtoul_digits by auto with gpio.
    by rewrite app_nil_r.
  - assert (no_nul ("+"%char :: ds)) as Hnn
      by (constructor; [done | by apply digits_no_nul]).
    unfold parse_guard, strtoul. rewrite c_str_id by done. cbn.
    split_and!; try done.
    unfold strto_scan. cbn [drop_while].
    change (isspace "+") with false. change (ch "+" "-") with false.
    change (ch "+" "+") with true. cbn.
    destruct (take_while_digits ds [] Hds I) as [Ht Hd].
    rewrite app_nil_r in Ht, Hd. rewrite Ht, Hd.
    destruct ds; [done|]. by rewrite (proj2 (Z.ltb_ge _ _)) by lia.
Qed.

Lemma parse_guard_inv str s :
  parse_guard str = Some s →
  ∃ s0, str = Some s0 ∧ s = c_str s0 ∧ s ≠ [] ∧ (∀ c r, s = c :: r → isspace c = false).
Proof.
  unfold parse_guard. destruct str as [s0|]; [|done].
  destruct (c_str s0) as [|c r] eqn:E; [done|].
  destruct (isspace c) eqn:Hc; [done|]. intros [= <-].
  exists s0. split_and!; try done. by intros ?? [= <- <-].
Qed.

Lemma parse_finish_inv r (strict : bool) min max result x :
  parse_finish r strict min max result = Some x →
  st_erange r = false ∧ st_moved r = true ∧ min ≤ st_value r ≤ max ∧
  x = (result, st_end r) ∧ (strict = true → st_end r = []).
Proof.
  unfold parse_finish. case_match_goal; [|done]. zbool.
  destruct strict; [destruct (st_end r) eqn:?; [|done]|]; intros [= <-]; split_and!; auto; lia.
Qed.

(** [mygpio_parse_uint] in strict mode accepts exactly the strings that are
    an optional plus sign and a decimal number within the limits and within 32
    bits, and returns that number: blanks, a minus sign, trailing characters,
    the empty string and values over [ULONG_MAX] (where [strtoul] saturates
    and sets [ERANGE]) are all refused. *)
Theorem mygpio_parse_uint_spec (s : bytes) (min max v : Z) :
  mygpio_parse_uint (Some s) true min max = Some (v, []) ↔
  denotes (c_str s) v ∧ min ≤ v ≤ max ∧ v ≤ UINT_MAX.
Proof.
  unfold mygpio_parse_uint. split.
  - destruct (parse_guard (Some s)) as [s'|] eqn:Hg; [|done].
    apply parse_guard_inv in Hg as (s0 & [= ->] & -> & Hne & Hsp).
    destruct (first_is_minus (c_str s0)) eqn:Hm; [done|].
    destruct (UINT_MAX <? _) eqn:Hmax; [done|]. zbool.
    intros (He & Hmv & Hlim & [= Hv Hend] & Hr)%parse_finish_inv. subst v.
    split; [|lia].
    apply strtoul_strict_inv; auto with gpio.
    destruct (strtoul (c_str s0)); cbn in *. by rewrite He, Hmv, Hr.
  - intros (Hd & Hlim & Hmax).
    assert (v ≤ ULONG_MAX) as Hu by (unfold UINT_MAX, ULONG_MAX in *; lia).
    destruct (strtoul_denotes _ _ Hd Hu) as (Hg & Hm & Hr).
    assert (parse_guard (Some s) = Some (c_str s)) as ->.
    { rewrite <- Hg. unfold parse_guard. by rewrite (c_str_id (c_str s)) by auto with gpio. }
    rewrite Hm, Hr. cbn. rewrite (proj2 (Z.ltb_ge _ _)) by lia.
    by apply parse_finish_ok.
Qed.

(** Concrete instance: [gpioset 17 ...] *)
Lemma mygpio_parse_uint_spec_witness :
  mygpio_parse_uint (Some (bs "17")) true 0 64 = Some (17, []).
Proof.
  apply (proj2 (mygpio_parse_uint_spec (bs "17") 0 64 17)).
  split; [|split; [lia | unfold UINT_MAX; lia]].
  exists (bs "17"). split_and!; [by left | done | by repeat constructor | done].
Defined.

(** ** Round trips with [printf] *)

Lemma parse_int_print n rest min max (strict : bool) :
  0 ≤ n ≤ INT_MAX → min ≤ n ≤ max → no_nul rest → stops_digits rest →
  (strict = true → rest = []) →
  mygpio_parse_int (Some (print_u n ++ rest)) strict min max = Some (n, rest).
Proof.
  intros Hn Hm Hnn Hrest Hs. unfold mygpio_parse_int, INT_MAX, INT_MIN in *.
  rewrite parse_guard_digits by auto with gpio.
  rewrite strtol_digits; auto with gpio; rewrite !print_u_value; unfold LONG_MAX; try lia.
  cbn. rewrite (proj2 (Z.ltb_ge _ _)) by lia. rewrite (proj2 (Z.ltb_ge _ _)) by lia.
  by apply parse_finish_ok.
Qed.

(** A number above the range of [int] is refused, also where it saturates. *)
Lemma parse_int_large n (strict : bool) min max :
  INT_MAX < n → mygpio_parse_int (Some (print_u n)) strict min max = None.
Proof.
  intros Hn. unfold INT_MAX in Hn. pose proof (print_u_digits n) as Hd.
  assert (Hne : print_u n ≠ []) by auto with gpio.
  unfold mygpio_parse_int. rewrite <- (app_nil_r (print_u n)), parse_guard_digits by auto with gpio.
  assert (Hv : INT_MAX < st_value (strtol (print_u n ++ []))).
  { unfold strtol. rewrite app_nil_r, c_str_id by auto with gpio.
    rewrite <- (app_nil_r (print_u n)), strto_scan_digits by auto with gpio.
    destruct (print_u n) eqn:E; [done|]. rewrite <- E, print_u_value by lia.
    unfold LONG_MAX, LONG_MIN, INT_MAX.
    repeat case_match_goal; cbn [st_value]; lia. }
  by rewrite (proj2 (Z.ltb_lt _ _) Hv).
Qed.

Lemma strtol_minus ds :
  Forall (λ c, isdigit c = true) ds → ds ≠ [] → digits_val ds ≤ LONG_MAX →
  no_nul ("-"%char :: ds) ∧
  strtol ("-"%char :: ds) = StrTo (- digits_val ds) [] false true.
Proof.
  intros Hds Hne Hmax.
  assert (no_nul ("-"%char :: ds)) as Hnn by (constructor; [done | by apply digits_no_nul]).
  split; [done|]. unfold strtol. rewrite (c_str_id _ Hnn).
  unfold strto_scan. cbn [drop_while]. change (isspace "-") with false.
  change (ch "-" "-") with true. cbn.
  destruct (take_while_digits ds [] Hds I) as [Ht Hd]. rewrite app_nil_r in Ht, Hd.
  rewrite Ht, Hd. pose proof (digits_val_nonneg ds Hds). destruct ds; [done|].
  unfold LONG_MIN, LONG_MAX in *.
  rewrite (proj2 (Z.ltb_ge _ _)) by lia. by rewrite (proj2 (Z.ltb_ge _ _)) by lia.
Qed.

Lemma parse_int_print_neg n min max :
  INT_MIN ≤ n < 0 → min ≤ n ≤ max →
  mygpio_parse_int (Some (print_d n)) true min max = Some (n, []).
Proof.
  intros Hn Hm. unfold print_d. rewrite (proj2 (Z.ltb_lt _ _)) by lia.
  destruct (strtol_minus (print_u (- n))) as [Hnn Hs]; auto with gpio.
  { rewrite print_u_value; unfold INT_MIN, LONG_MAX in *; lia. }
  unfold mygpio_parse_int, parse_guard. rewrite (c_str_id _ Hnn).
  change (isspace "-") with false. cbv iota. rewrite Hs, print_u_value by lia.
  cbn. unfold INT_MIN, INT_MAX in *. rewrite Z.opp_involutive.
  rewrite (proj2 (Z.ltb_ge _ _)) by lia. rewrite (proj2 (Z.ltb_ge _ _)) by lia.
  by apply parse_finish_ok.
Qed.

(** What [printf] writes with "%u", "%d" and "%llu" is read back unchanged
    by [mygpio_parse_uint], [mygpio_parse_int] and [mygpio_parse_uint64] over
    the whole range of the types [unsigned], [int] and [uint64_t]. *)
Theorem print_parse_roundtrip (n : Z) :
  (is_u32 n → mygpio_parse_uint (Some (print_u n)) true 0 UINT_MAX = Some (n, [])) ∧
  (is_i32 n → mygpio_parse_int (Some (print_d n)) true INT_MIN INT_MAX = Some (n, [])) ∧
  (0 ≤ n ≤ ULONG_MAX →
   mygpio_parse_uint64 (Some (print_u n)) true 0 ULONG_MAX = Some (n, [])).
Proof.
  unfold is_u32, is_i32. split_and!; intros Hn.
  - rewrite <- (app_nil_r (print_u n)). apply parse_uint_print; auto with gpio.
  - destruct (decide (n < 0)).
    + apply parse_int_print_neg; lia.
    + unfold print_d. rewrite (proj2 (Z.ltb_ge _ _)) by lia.
      rewrite <- (app_nil_r (print_u n)). apply parse_int_print; auto with gpio; lia.
  - by apply parse_uint64_print.
Qed.

(** [mygpio_parse_ulong] stores [(unsigned)v]: for a number over 32 bits it
    reports success and returns the number modulo 2^32, a value that the
    limits it checked may exclude. *)
Theorem mygpio_parse_ulong_truncates (n min max : Z) :
  0 ≤ n ≤ ULONG_MAX → min ≤ n ≤ max →
  mygpio_parse_ulong (Some (print_u n)) true min max = Some (u32 n, []).
Proof.
  intros Hn Hm. unfold mygpio_parse_ulong.
  rewrite <- (app_nil_r (print_u n)).
  rewrite parse_guard_digits, digits_not_minus by auto with gpio.
  rewrite strtoul_digits by (rewrite ?print_u_value by lia; auto with gpio; lia).
  rewrite print_u_value by lia. by apply parse_finish_ok.
Qed.

Lemma mygpio_parse_ulong_truncates_witness :
  mygpio_parse_ulong (Some (print_u 4294967301)) true 100 ULONG_MAX = Some (5, []).
Proof.
  rewrite (mygpio_parse_ulong_truncates 4294967301 100 ULONG_MAX);
    [reflexivity | unfold ULONG_MAX; lia | unfold ULONG_MAX; lia].
Defined.
