(* ===== verification/Sds.v ===== *)
(** * dist/sds/sds.c, mygpiod/lib/sds_extras.c, mygpiod/lib/json_print.c

    The dynamic strings. An [sds] is the list of its bytes (its length is the
    length of the list, so embedded NUL bytes are kept); a function that
    modifies its argument in place returns the new value. A [FILE *] opened
    for reading is the list of the bytes that are left. *)

From S2P Require Import Prelude CLib.

(** ** sds.c *)

(** [strchr(cset, c)] also finds the terminating NUL of [cset]. *)
Definition in_cset (cset : bytes) (c : ascii) : bool := ch c NUL || existsb (ch c) cset.

Definition sdstrim (s cset : bytes) : bytes :=
  let sp := drop_while (in_cset cset) s in
  reverse (drop_while (in_cset cset) (reverse sp)).

Definition sdssubstr (s : bytes) (start len : Z) : bytes :=
  let oldlen := Z.of_nat (length s) in
  let '(start, len) := if oldlen <=? start then (0, 0) else (start, len) in
  let len := if oldlen - start <? len then oldlen - start else len in
  take (Z.to_nat len) (drop (Z.to_nat start) s).

(** [start] and [len] are passed on as [size_t]. *)
Definition sdsrange (s : bytes) (start end_ : Z) : bytes :=
  let len := Z.of_nat (length s) in
  if len =? 0 then s
  else
    let start := if start <? 0 then len + start else start in
    let end_ := if end_ <? 0 then len + end_ else end_ in
    let newlen := if end_ <? start then 0 else (end_ - start) + 1 in
    sdssubstr s (u64 start) (u64 newlen).

Definition sdstoupper (s : bytes) : bytes := map toupper s.

(** The substitute of one byte, the first match in [from] wins. *)
Fixpoint map_char (c : ascii) (from to : bytes) : ascii :=
  match from, to with
  | f :: from', t :: to' => if ch c f then t else map_char c from' to'
  | _, _ => c
  end.

Definition sdsmapchars (s from to : bytes) : bytes := map (λ c, map_char c from to) s.

Fixpoint sdsjoinsds (argv : list bytes) (sep : bytes) : bytes :=
  match argv with
  | [] => []
  | [a] => a
  | a :: r => a ++ sep ++ sdsjoinsds r sep
  end.

Definition is_hex_digit (c : ascii) : bool :=
  ((48 <=? code c) && (code c <=? 57)) || ((97 <=? code c) && (code c <=? 102)) ||
  ((65 <=? code c) && (code c <=? 70)).

Definition hex_digit_to_int (c : ascii) : Z :=
  if (48 <=? code c) && (code c <=? 57) then code c - 48
  else if (97 <=? code c) && (code c <=? 102) then code c - 87
  else if (65 <=? code c) && (code c <=? 70) then code c - 55
  else 0.

(** The escapes of a double-quoted argument. *)
Definition unescape_char (c : ascii) : ascii :=
  if ch c "n" then LF else if ch c "r" then CR else if ch c "t" then TAB
  else if ch c "b" then BS else if ch c "a" then BEL else c.

(** Position of [sdssplitargs]: between arguments, in a plain part of an
    argument, in double quotes ([inq]) or in single quotes ([insq]). *)
Inductive split_mode := SM_SKIP | SM_PLAIN | SM_INQ | SM_INSQ.

(** A closing quote must be followed by a space or nothing at all. *)
Definition quote_end_ok (r : bytes) : bool :=
  match r with [] => true | c :: _ => isspace c end.

(** The two nested loops, on what is left of the line; [cur] is the argument
    being read, [vec] the arguments already stored. *)
Fixpoint splitargs_go (m : split_mode) (cur : bytes) (vec : list bytes) (p : bytes)
  : option (list bytes) :=
  match m with
  | SM_SKIP =>
      match p with
      | [] => Some vec
      | c :: r =>
          if isspace c then splitargs_go SM_SKIP [] vec r
          else if ch c DQUOTE then splitargs_go SM_INQ [] vec r
          else if ch c SQUOTE then splitargs_go SM_INSQ [] vec r
          else splitargs_go SM_PLAIN [c] vec r
      end
  | SM_PLAIN =>
      match p with
      | [] => Some (vec ++ [cur])
      | c :: r =>
          if ch c " " || ch c LF || ch c CR || ch c TAB
          then splitargs_go SM_SKIP [] (vec ++ [cur]) r
          else if ch c DQUOTE then splitargs_go SM_INQ cur vec r
          else if ch c SQUOTE then splitargs_go SM_INSQ cur vec r
          else splitargs_go SM_PLAIN (cur ++ [c]) vec r
      end
  | SM_INQ =>
      match p with
      | [] => None
      | c :: r =>
          if ch c BACKSLASH then
            match r with
            | [] => splitargs_go SM_INQ (cur ++ [c]) vec r
            | e :: r1 =>
                match r1 with
                | h1 :: h2 :: r3 =>
                    if ch e "x" && is_hex_digit h1 && is_hex_digit h2
                    then splitargs_go SM_INQ
                           (cur ++ [chr (hex_digit_to_int h1 * 16 + hex_digit_to_int h2)]) vec r3
                    else splitargs_go SM_INQ (cur ++ [unescape_char e]) vec r1
                | _ => splitargs_go SM_INQ (cur ++ [unescape_char e]) vec r1
                end
            end
          else if ch c DQUOTE then
            if quote_end_ok r then splitargs_go SM_SKIP [] (vec ++ [cur]) r else None
          else splitargs_go SM_INQ (cur ++ [c]) vec r
      end
  | SM_INSQ =>
      match p with
      | [] => None
      | c :: r =>
          if ch c BACKSLASH then
            match r with
            | e :: r1 =>
                if ch e SQUOTE then splitargs_go SM_INSQ (cur ++ [SQUOTE]) vec r1
                else splitargs_go SM_INSQ (cur ++ [c]) vec r
            | [] => splitargs_go SM_INSQ (cur ++ [c]) vec r
            end
          else if ch c SQUOTE then
            if quote_end_ok r then splitargs_go SM_SKIP [] (vec ++ [cur]) r else None
          else splitargs_go SM_INSQ (cur ++ [c]) vec r
      end
  end.

(** [None] is the NULL of a line with unbalanced quotes ([*argc] is 0 then). *)
Definition sdssplitargs (line : bytes) : option (list bytes) :=
  splitargs_go SM_SKIP [] [] (c_str line).

(** [*argc] and the array; no argument is stored when the result is NULL. *)
Definition split_args (line : bytes) : list bytes := default [] (sdssplitargs line).

(** ** sds_extras.c *)

Definition blank_cr : bytes := [CR; " "%char; TAB].
Definition blank : bytes := [" "%char; TAB].

(** The loop of [sds_getline]: [i] more bytes may be read, [acc] is [s]. The
    result is the line, whether it ended with EOF, and the rest of the file. *)
Fixpoint getline_go (i : nat) (acc fp : bytes) : bytes * bool * bytes :=
  match i with
  | O => (acc, false, fp)
  | S i' =>
      match fp with
      | [] => (acc, true, [])
      | c :: fp' => if ch c LF then (acc, false, fp') else getline_go i' (acc ++ [c]) fp'
      end
  end.

(** Returns [s], [*nread] and the rest of the file. *)
Definition sds_getline (fp : bytes) (max : nat) : bytes * Z * bytes :=
  let '(acc, eof, fp') := getline_go max [] fp in
  let s := sdstrim acc blank_cr in
  (s, if eof then -1 else Z.of_nat (length s), fp').

Definition sds_splitfirst (s : bytes) (sep : ascii) : list bytes :=
  match drop_while (λ c, negb (ch c sep)) s with
  | [] => [sdstrim s blank]
  | _ :: r => [sdstrim (take_while (λ c, negb (ch c sep)) s) blank; sdstrim r blank]
  end.

(** Returns the value (NULL for an empty [s]) and the modified [s]. *)
Definition sds_getvalue (s : bytes) (sep : ascii) : option bytes * bytes :=
  if Z.of_nat (length s) =? 0 then (None, s)
  else
    let i := length (take_while (λ c, negb (ch c sep)) s) in
    let value := if (0 <? i)%nat then take i s else [] in
    let s' := if (0 <? i)%nat then sdsrange s (Z.of_nat i + 1) (-1) else s in
    (Some value, s').

Definition sds_catchar (s : bytes) (c : ascii) : bytes := s ++ [c].

(** ** json_print.c *)

Definition escape_char (c : ascii) : option bytes :=
  if ch c BACKSLASH then Some [BACKSLASH; BACKSLASH]
  else if ch c DQUOTE then Some [BACKSLASH; DQUOTE]
  else if ch c BS then Some [BACKSLASH; "b"%char]
  else if ch c FF then Some [BACKSLASH; "f"%char]
  else if ch c LF then Some [BACKSLASH; "n"%char]
  else if ch c CR then Some [BACKSLASH; "r"%char]
  else if ch c TAB then Some [BACKSLASH; "t"%char]
  else None.

(** One round of the loop; vertical tab and alert are dropped. *)
Definition json_char (c : ascii) : bytes :=
  match escape_char c with
  | Some e => e
  | None => if ch c VT || ch c BEL then [] else [c]
  end.

Definition sds_catjson_plain_len (s p : bytes) : bytes := s ++ concat (map json_char p).
Definition sds_catjson_plain (s p : bytes) : bytes := sds_catjson_plain_len s (c_str p).
Definition sds_catjson_len (s p : bytes) : bytes :=
  sds_catjson_plain_len (s ++ [DQUOTE]) p ++ [DQUOTE].
Definition sds_catjson (s p : bytes) : bytes := sds_catjson_len s (c_str p).
Definition bool_to_str (v : bool) : bytes := if v then bs "true" else bs "false".

(** ** Facts about the arguments of a command line *)

(** A byte that [sdssplitargs] copies when it is outside quotes. *)
Definition plain_char (c : ascii) : bool :=
  negb (isspace c) && negb (ch c DQUOTE) && negb (ch c SQUOTE) && negb (ch c NUL).

Definition plain_word (w : bytes) : Prop := w ≠ [] ∧ Forall (λ c, plain_char c = true) w.

Lemma plain_char_inv c :
  plain_char c = true →
  isspace c = false ∧ ch c DQUOTE = false ∧ ch c SQUOTE = false ∧ ch c NUL = false ∧
  ch c " " || ch c LF || ch c CR || ch c TAB = false.
Proof.
  unfold plain_char. intros. zbool. split_and!; try done.
  destruct (_ || _) eqn:E; [|done]. exfalso.
  rewrite !orb_true_iff, !ch_true in E. destruct_or!; subst; done.
Qed.

Lemma splitargs_plain w cur vec r :
  Forall (λ c, plain_char c = true) w →
  splitargs_go SM_PLAIN cur vec (w ++ r) = splitargs_go SM_PLAIN (cur ++ w) vec r.
Proof.
  intros Hw. revert cur. induction Hw as [|c w Hc _ IH]; intros cur; simpl.
  { by rewrite app_nil_r. }
  apply plain_char_inv in Hc as (Hs & Hd & Hq & _ & Hb).
  rewrite Hb, Hd, Hq, IH. by rewrite <- app_assoc.
Qed.

Lemma splitargs_word w vec r :
  plain_word w →
  splitargs_go SM_SKIP [] vec (w ++ r) = splitargs_go SM_PLAIN w vec r.
Proof.
  intros [Hne Hw]. destruct w as [|c w]; [done|]. inv Hw. simpl.
  edestruct plain_char_inv as (Hs & Hd & Hq & _ & _); [eassumption|].
  rewrite Hs, Hd, Hq. by rewrite splitargs_plain.
Qed.

Lemma splitargs_words ws vec :
  Forall plain_word ws →
  splitargs_go SM_SKIP [] vec (sdsjoinsds ws (bs " ")) = Some (vec ++ ws).
Proof.
  intros Hws. revert vec. induction Hws as [|w ws Hw Hws IH]; intros vec.
  { simpl. by rewrite app_nil_r. }
  destruct ws as [|w' ws].
  - simpl. rewrite <- (app_nil_r w) at 1. by rewrite splitargs_word.
  - change (sdsjoinsds _ _) with (w ++ " "%char :: sdsjoinsds (w' :: ws) (bs " ")).
    rewrite splitargs_word by done. cbn [splitargs_go].
    change (ch " " " ") with true. cbn [orb]. rewrite IH. by rewrite <- app_assoc.
Qed.

Lemma plain_word_no_nul w : plain_word w → no_nul w.
Proof.
  intros [_ Hw]. eapply Forall_impl; [exact Hw|]. intros c Hc.
  apply plain_char_inv in Hc as (_ & _ & _ & Hn & _). cbn. by rewrite Hn.
Qed.

Lemma join_no_nul ws : Forall plain_word ws → no_nul (sdsjoinsds ws (bs " ")).
Proof.
  induction 1 as [|w ws Hw Hws IH]; [constructor|].
  apply plain_word_no_nul in Hw. destruct ws as [|w' ws]; [done|].
  change (sdsjoinsds _ _) with (w ++ bs " " ++ sdsjoinsds (w' :: ws) (bs " ")).
  repeat apply no_nul_app; auto. by repeat constructor.
Qed.

Lemma split_args_words ws : Forall plain_word ws → split_args (sdsjoinsds ws (bs " ")) = ws.
Proof.
  intros H. unfold split_args, sdssplitargs.
  rewrite c_str_id by (by apply join_no_nul). by rewrite splitargs_words.
Qed.

Lemma plain_digits ds :
  Forall (λ c, isdigit c = true) ds → ds ≠ [] → plain_word ds.
Proof.
  intros Hds Hne. split; [done|]. eapply Forall_impl; [exact Hds|]. intros c Hc. cbn in *.
  unfold plain_char. rewrite isdigit_not_space, !(isdigit_not_char c) by done. done.
Qed.

(** [sdssplitargs] undoes joining with blanks: the arguments of a command
    that contain no blanks and no quotes come back unchanged, in order. *)
Theorem sdssplitargs_join (ws : list bytes) :
  Forall plain_word ws → sdssplitargs (sdsjoinsds ws (bs " ")) = Some ws.
Proof.
  intros H. unfold sdssplitargs. rewrite c_str_id by (by apply join_no_nul).
  by rewrite splitargs_words.
Qed.

Lemma sdssplitargs_join_witness :
  sdssplitargs (bs "gpioset 5 active") = Some [bs "gpioset"; bs "5"; bs "active"].
Proof.
  apply (sdssplitargs_join [bs "gpioset"; bs "5"; bs "active"]).
  repeat constructor; done.
Defined.

(** ** Fields of a configuration value *)

Lemma take_while_sep v sep r :
  Forall (λ c, ch c sep = false) v →
  take_while (λ c, negb (ch c sep)) (v ++ sep :: r) = v ∧
  drop_while (λ c, negb (ch c sep)) (v ++ sep :: r) = sep :: r.
Proof.
  intros Hv. rewrite take_while_all, drop_while_all.
  - simpl. rewrite ch_refl. simpl. by rewrite app_nil_r.
  - eapply Forall_impl; [exact Hv|]. intros c Hc. cbn in *. by rewrite Hc.
  - eapply Forall_impl; [exact Hv|]. intros c Hc. cbn in *. by rewrite Hc.
Qed.

Lemma sdsrange_from s (n : nat) :
  Z.of_nat (length s) ≤ INT_MAX → (0 < length s)%nat → (n <= length s)%nat →
  sdsrange s (Z.of_nat n) (-1) = drop n s.
Proof.
  intros Hmax Hpos Hn. unfold sdsrange, INT_MAX in *.
  rewrite (proj2 (Z.eqb_neq _ _)) by lia.
  rewrite (proj2 (Z.ltb_ge (Z.of_nat n) 0)) by lia. change (-1 <? 0) with true. cbv iota.
  rewrite (u64_small (Z.of_nat n)) by (unfold ULONG_MAX; lia).
  destruct (Z.of_nat (length s) + -1 <? Z.of_nat n) eqn:E; zbool.
  - assert (n = length s) as -> by lia. unfold sdssubstr.
    rewrite (proj2 (Z.leb_le _ _)) by lia. rewrite drop_all.
    change (u64 0) with 0. case_match_goal; [|done]. zbool. lia.
  - rewrite u64_small by (unfold ULONG_MAX; lia). unfold sdssubstr.
    rewrite (proj2 (Z.leb_gt _ _)) by lia. rewrite (proj2 (Z.ltb_ge _ _)) by lia.
    rewrite Nat2Z.id. apply take_ge. rewrite length_drop. lia.
Qed.

(** [sds_getvalue] cuts a non-empty first field off and leaves what follows
    its separator; an empty first field is returned but its separator is not
    consumed, so the next call finds the same empty field again. *)
Theorem sds_getvalue_fields (v r : bytes) (sep : ascii) :
  Forall (λ c, ch c sep = false) v → Z.of_nat (length (v ++ sep :: r)) ≤ INT_MAX →
  sds_getvalue (v ++ sep :: r) sep =
  match v with
  | [] => (Some [], sep :: r)
  | _ :: _ => (Some v, r)
  end.
Proof.
  intros Hv Hmax. unfold sds_getvalue.
  destruct (take_while_sep v sep r Hv) as [-> _].
  rewrite (proj2 (Z.eqb_neq _ _)) by (rewrite length_app; cbn; lia).
  destruct v as [|c v]; [done|].
  rewrite (proj2 (Nat.ltb_lt _ _)) by (cbn; lia). cbv zeta.
  rewrite take_app_length. f_equal.
  rewrite <- (Nat2Z.inj_add _ 1) by lia.
  rewrite sdsrange_from; [|lia|cbn; lia|rewrite length_app; cbn; lia].
  rewrite Nat.add_1_r, drop_app_ge by lia.
  by rewrite (Nat.sub_succ_l _ _ (le_n _)), Nat.sub_diag.
Qed.

Lemma sds_getvalue_fields_witness :
  sds_getvalue (bs "19:15:2m") ":" = (Some (bs "19"), bs "15:2m").
Proof.
  apply (sds_getvalue_fields (bs "19") (bs "15:2m") ":");
    [by repeat constructor | vm_compute; discriminate].
Defined.

(** ** JSON strings *)

(** Reads back the escapes of a JSON string literal (RFC 8259, section 7). *)
Fixpoint json_unescape (s : bytes) : option bytes :=
  match s with
  | [] => Some []
  | c :: r =>
      if ch c BACKSLASH then
        match r with
        | [] => None
        | e :: r' =>
            d ← (if ch e BACKSLASH then Some BACKSLASH else if ch e DQUOTE then Some DQUOTE
                 else if ch e "b" then Some BS else if ch e "f" then Some FF
                 else if ch e "n" then Some LF else if ch e "r" then Some CR
                 else if ch e "t" then Some TAB else None);
            (d ::.) <$> json_unescape r'
        end
      else if ch c DQUOTE then None
      else (c ::.) <$> json_unescape r
  end.

Definition json_kept (c : ascii) : bool := negb (ch c VT || ch c BEL).

Lemma json_char_unescape c s :
  json_unescape (json_char c ++ s) =
  if json_kept c then (c ::.) <$> json_unescape s else json_unescape s.
Proof.
  unfold json_char, escape_char, json_kept.
  destruct (ch c BACKSLASH) eqn:E1; [by apply ch_true in E1 as ->|].
  destruct (ch c DQUOTE) eqn:E2; [by apply ch_true in E2 as ->|].
  repeat match goal with
  | |- context [if ch c ?d then Some _ else _] =>
      let E := fresh in destruct (ch c d) eqn:E; [by apply ch_true in E as ->|]
  end.
  destruct (ch c VT || ch c BEL); [done|]. simpl. by rewrite E1, E2.
Qed.

(** The body of a JSON string written by [sds_catjson_plain_len] contains no
    bare quote and decodes to the original text without its vertical tabs and
    alerts (which JSON has no short escape for and the code leaves out). *)
Theorem sds_catjson_decodes (p : bytes) :
  json_unescape (sds_catjson_plain_len [] p) = Some (filter (λ c, json_kept c = true) p).
Proof.
  unfold sds_catjson_plain_len. simpl. induction p as [|c p IH]; [done|].
  simpl. rewrite json_char_unescape, IH, filter_cons.
  destruct (json_kept c); case_decide; done.
Qed.

(** ** Lines *)

Lemma sdstrim_ends s cset :
  (∀ c r, s = c :: r → in_cset cset c = false) →
  (∀ c r, s = r ++ [c] → in_cset cset c = false) →
  sdstrim s cset = s.
Proof.
  intros Hh Ht. unfold sdstrim.
  assert (drop_while (in_cset cset) s = s) as ->.
  { destruct s as [|c r]; [done|]. simpl. by rewrite (Hh c r). }
  destruct s as [|c r _] using rev_ind; [done|].
  rewrite reverse_snoc. simpl. rewrite (Ht c r) by done.
  by rewrite reverse_cons, reverse_involutive.
Qed.

Lemma getline_go_line i acc l r :
  Forall (λ c, ch c LF = false) l → (length l < i)%nat →
  getline_go i acc (l ++ LF :: r) = (acc ++ l, false, r).
Proof.
  intros Hl. revert i acc. induction Hl as [|c l Hc _ IH]; intros i acc Hi; simpl in *.
  { destruct i; [lia|]. simpl. by rewrite app_nil_r. }
  destruct i as [|i]; [lia|]. simpl. rewrite Hc, IH by lia. by rewrite <- app_assoc.
Qed.

Lemma getline_go_eof i acc l :
  Forall (λ c, ch c LF = false) l → (length l < i)%nat →
  getline_go i acc l = (acc ++ l, true, []).
Proof.
  intros Hl. revert i acc. induction Hl as [|c l Hc _ IH]; intros i acc Hi; simpl in *.
  { destruct i; [lia|]. simpl. by rewrite app_nil_r. }
  destruct i as [|i]; [lia|]. simpl. rewrite Hc, IH by lia. by rewrite <- app_assoc.
Qed.

(** [sds_getline] returns a line that ends with a newline with its length and
    leaves the next line in the file; a last line that ends with the file and
    not with a newline is reported as -1, the end-of-file mark of the callers'
    loops, although it was read. *)
Theorem sds_getline_lines (l r : bytes) (max : nat) :
  Forall (λ c, ch c LF = false) l → (length l < max)%nat →
  sds_getline (l ++ LF :: r) max =
    (sdstrim l blank_cr, Z.of_nat (length (sdstrim l blank_cr)), r) ∧
  sds_getline l max = (sdstrim l blank_cr, -1, []).
Proof.
  intros Hl Hm. unfold sds_getline.
  by rewrite getline_go_line, getline_go_eof.
Qed.

Lemma sds_getline_lines_witness :
  sds_getline (bs "chip = /dev/gpiochip0") 1024 = (bs "chip = /dev/gpiochip0", -1, []).
Proof.
  apply (sds_getline_lines (bs "chip = /dev/gpiochip0") [] 1024);
    [by repeat constructor | vm_compute; lia].
Defined.

#[export] Hint Resolve plain_digits : gpio.
