(* ===== verification/SdsMem.v ===== *)
(** * The representation of sds strings

    The string library of dist/sds/sds.c on memory: an allocated block with a
    header of one of five types, the bytes and the space behind them. Reading or
    writing outside the block, or an assert that fails, is [None]. The theorems
    say that the operations do on this representation what their models on lists
    of bytes do everywhere else, and never leave the block. *)

From S2P Require Import Prelude CLib Sds.

(** ** Memory *)

Definition zlen (b : bytes) : Z := Z.of_nat (length b).

Definition mem_read (m : bytes) (i n : Z) : option bytes :=
  if (0 <=? i) && (0 <=? n) && (i + n <=? zlen m)
  then Some (take (Z.to_nat n) (drop (Z.to_nat i) m)) else None.

Definition mem_write (m : bytes) (i : Z) (t : bytes) : option bytes :=
  if (0 <=? i) && (i + zlen t <=? zlen m)
  then Some (take (Z.to_nat i) m ++ t ++ drop (Z.to_nat (i + zlen t)) m) else None.

Definition assert_that (b : bool) : option unit := if b then Some tt else None.

(** What [malloc] and [realloc] leave in new memory; they abort instead of
    failing (mygpiod/lib/mem.h). *)
Class Malloc := {
  uninit : Z → bytes;
  uninit_length n : 0 ≤ n → zlen (uninit n) = n;
}.

(** ** Headers (sds.h) *)

Definition SDS_MAX_PREALLOC : Z := 1024 * 1024.
Definition SDS_TYPE_MASK : Z := 7.
Definition SDS_TYPE_BITS : Z := 3.

Inductive sds_type := SDS_TYPE_5 | SDS_TYPE_8 | SDS_TYPE_16 | SDS_TYPE_32 | SDS_TYPE_64.

Definition type_code (t : sds_type) : Z :=
  match t with SDS_TYPE_5 => 0 | SDS_TYPE_8 => 1 | SDS_TYPE_16 => 2 | SDS_TYPE_32 => 3 | SDS_TYPE_64 => 4 end.

(** [flags & SDS_TYPE_MASK], [None] where a switch takes no case. *)
Definition type_of (flags : Z) : option sds_type :=
  match Z.land flags SDS_TYPE_MASK with
  | 0 => Some SDS_TYPE_5 | 1 => Some SDS_TYPE_8 | 2 => Some SDS_TYPE_16
  | 3 => Some SDS_TYPE_32 | 4 => Some SDS_TYPE_64 | _ => None
  end.

Definition SDS_TYPE_5_LEN (f : Z) : Z := Z.shiftr f SDS_TYPE_BITS.

(** The members of a header of type 8 to 64; one of type 5 has its flags alone,
    with the length in the upper five bits. [buf]: the block behind the header. *)
Record t_sds := Sds { flags : Z; hlen : Z; halloc : Z; buf : bytes }.

#[export] Instance eta_sds : Eta t_sds := λ r, Sds (flags r) (hlen r) (halloc r) (buf r).

(** The width of the members. *)
Definition type_mod (t : sds_type) : Z :=
  match t with
  | SDS_TYPE_5 => 32 | SDS_TYPE_8 => 256 | SDS_TYPE_16 => 65536
  | SDS_TYPE_32 => 4294967296 | SDS_TYPE_64 => 18446744073709551616
  end.

Definition u8 (z : Z) : Z := z mod 256.

(** [SDS_TYPE_5 | (len << SDS_TYPE_BITS)] in an [unsigned char] *)
Definition flags_5 (len : Z) : Z := u8 (Z.lor (type_code SDS_TYPE_5) (Z.shiftl len SDS_TYPE_BITS)).

Definition sdslen (s : t_sds) : Z :=
  match type_of (flags s) with
  | Some SDS_TYPE_5 => SDS_TYPE_5_LEN (flags s)
  | Some _ => hlen s
  | None => 0
  end.

(** [alloc - len] is computed in [int], [uint32_t] and [uint64_t]. *)
Definition sdsavail (s : t_sds) : Z :=
  match type_of (flags s) with
  | Some SDS_TYPE_5 => 0
  | Some SDS_TYPE_32 => u32 (halloc s - hlen s)
  | Some _ => u64 (halloc s - hlen s)
  | None => 0
  end.

Definition sdssetlen (s : t_sds) (newlen : Z) : t_sds :=
  match type_of (flags s) with
  | Some SDS_TYPE_5 => s <| flags := flags_5 newlen |>
  | Some t => s <| hlen := newlen mod type_mod t |>
  | None => s
  end.

Definition sdsinclen (s : t_sds) (inc : Z) : t_sds :=
  match type_of (flags s) with
  | Some SDS_TYPE_5 => s <| flags := flags_5 (u8 (SDS_TYPE_5_LEN (flags s) + inc)) |>
  | Some t => s <| hlen := (hlen s + inc) mod type_mod t |>
  | None => s
  end.

Definition sdsalloc (s : t_sds) : Z :=
  match type_of (flags s) with
  | Some SDS_TYPE_5 => SDS_TYPE_5_LEN (flags s)
  | Some _ => halloc s
  | None => 0
  end.

Definition sdssetalloc (s : t_sds) (newlen : Z) : t_sds :=
  match type_of (flags s) with
  | Some SDS_TYPE_5 | None => s
  | Some t => s <| halloc := newlen mod type_mod t |>
  end.

Definition sdsHdrSize (t : sds_type) : Z :=
  match t with SDS_TYPE_5 => 1 | SDS_TYPE_8 => 3 | SDS_TYPE_16 => 5 | SDS_TYPE_32 => 9 | SDS_TYPE_64 => 17 end.

Definition sdsReqType (string_size : Z) : sds_type :=
  if string_size <? Z.shiftl 1 5 then SDS_TYPE_5
  else if string_size <? Z.shiftl 1 8 then SDS_TYPE_8
  else if string_size <? Z.shiftl 1 16 then SDS_TYPE_16
  else if string_size <? Z.shiftl 1 32 then SDS_TYPE_32
  else SDS_TYPE_64.

(** The type that is used for strings that will grow. *)
Definition not_5 (t : sds_type) : sds_type := match t with SDS_TYPE_5 => SDS_TYPE_8 | t => t end.

#[export] Instance sds_type_eq : EqDecision sds_type.
Proof. solve_decision. Defined.

(** A header of type [t] for a string of [n] bytes that fills its block. *)
Definition new_header (t : sds_type) (n : Z) (b : bytes) : t_sds :=
  match t with
  | SDS_TYPE_5 => Sds (flags_5 n) 0 0 b
  | _ => Sds (type_code t) (n mod type_mod t) (n mod type_mod t) b
  end.

Section mem.
Context `{Malloc}.

(** ** Allocation *)

(** [init] of sdsnewlen: bytes in memory, NULL or SDS_NOINIT. *)
Inductive sds_init := Init (t : bytes) | InitNull | SDS_NOINIT.

Definition sdsnewlen (init : sds_init) (initlen : Z) : option t_sds :=
  let type := sdsReqType initlen in
  let type := if decide (type = SDS_TYPE_5 ∧ initlen = 0) then SDS_TYPE_8 else type in
  let hdrlen := sdsHdrSize type in
  _ ← assert_that (initlen <? u64 (initlen + hdrlen + 1));
  let block := match init with InitNull => replicate (Z.to_nat (initlen + 1)) NUL | _ => uninit (initlen + 1) end in
  block ← match init with
          | Init t => if 0 <? initlen then t ← mem_read t 0 initlen; mem_write block 0 t else Some block
          | _ => Some block
          end;
  block ← mem_write block initlen [NUL];
  Some (new_header type initlen block).

Definition sdsempty : option t_sds := sdsnewlen (Init [NUL]) 0.

Definition strlen (t : bytes) : Z := zlen (c_str t).

(** [t]: the string with its NUL *)
Definition sdsnew (init : option bytes) : option t_sds :=
  match init with
  | None => sdsnewlen InitNull 0
  | Some t => sdsnewlen (Init t) (strlen t)
  end.

Definition sdsdup (s : t_sds) : option t_sds := sdsnewlen (Init (buf s)) (sdslen s).

(** [realloc] to [n] bytes behind the header *)
Definition realloc (b : bytes) (n : Z) : bytes :=
  take (Z.to_nat n) b ++ uninit (Z.max 0 (n - zlen b)).

(** A new block of [n] bytes with a header of type [t] that has no lengths yet
    and the first [len] bytes of [b]. *)
Definition moved (t : sds_type) (b : bytes) (len n : Z) : option t_sds :=
  old ← mem_read b 0 len;
  block ← mem_write (uninit n) 0 old;
  Some (Sds (type_code t) 0 0 block).

Definition sdsMakeRoomFor (s : t_sds) (addlen : Z) : option t_sds :=
  oldtype ← type_of (flags s);
  if addlen <=? sdsavail s then Some s
  else
    let len := sdslen s in
    let reqlen := u64 (len + addlen) in
    let newlen := u64 (if reqlen <? SDS_MAX_PREALLOC then reqlen * 2 else reqlen + SDS_MAX_PREALLOC) in
    let type := not_5 (sdsReqType newlen) in
    _ ← assert_that (reqlen <? u64 (sdsHdrSize type + newlen + 1));
    s ← (if decide (oldtype = type) then Some (s <| buf := realloc (buf s) (newlen + 1) |>)
         else s ← moved type (buf s) (len + 1) (newlen + 1); Some (sdssetlen s len));
    Some (sdssetalloc s newlen).

Definition sdsRemoveFreeSpace (s : t_sds) : option t_sds :=
  oldtype ← type_of (flags s);
  let len := sdslen s in
  if sdsavail s =? 0 then Some s
  else
    let type := sdsReqType len in
    s ← (if bool_decide (oldtype = type) || (1 <? type_code type) then Some (s <| buf := realloc (buf s) (len + 1) |>)
         else s ← moved type (buf s) (len + 1) (len + 1); Some (sdssetlen s len));
    Some (sdssetalloc s len).

Definition sdsResize (s : t_sds) (size : Z) : option t_sds :=
  oldtype ← type_of (flags s);
  let len := sdslen s in
  if sdsalloc s =? size then Some s
  else
    let len := if size <? len then size else len in
    let type := not_5 (sdsReqType size) in
    s ← (if bool_decide (oldtype = type) || ((type_code type <? type_code oldtype) && (1 <? type_code type))
         then Some (s <| buf := realloc (buf s) (size + 1) |>)
         else moved type (buf s) len (size + 1));
    b ← mem_write (buf s) len [NUL];
    Some (sdssetalloc (sdssetlen (s <| buf := b |>) len) size).

Definition sdsAllocSize (s : t_sds) : option Z :=
  t ← type_of (flags s); Some (sdsHdrSize t + sdsalloc s + 1).

(** ** Lengths *)

Definition sdsupdatelen (s : t_sds) : t_sds := sdssetlen s (strlen (buf s)).

Definition sdsclear (s : t_sds) : option t_sds :=
  let s := sdssetlen s 0 in
  b ← mem_write (buf s) 0 [NUL];
  Some (s <| buf := b |>).

(** The assert of sdsIncrLen for the types 8 to 64, with its casts *)
Definition incr_ok (t : sds_type) (s : t_sds) (incr : Z) : bool :=
  match t with
  | SDS_TYPE_64 => ((0 <=? incr) && (u64 incr <=? u64 (halloc s - hlen s)))
                   || ((incr <? 0) && (u64 (- incr) <=? hlen s))
  | SDS_TYPE_32 => ((0 <=? incr) && (u32 incr <=? u32 (halloc s - hlen s)))
                   || ((incr <? 0) && (u32 (- incr) <=? hlen s))
  | _ => ((0 <=? incr) && (incr <=? halloc s - hlen s)) || ((incr <? 0) && (u32 (- incr) <=? hlen s))
  end.

Definition sdsIncrLen (s : t_sds) (incr : Z) : option t_sds :=
  '(s, len) ← match type_of (flags s) with
              | Some SDS_TYPE_5 =>
                  let oldlen := SDS_TYPE_5_LEN (flags s) in
                  _ ← assert_that (((0 <? incr) && (oldlen + incr <? 32)) || ((incr <? 0) && (u32 (- incr) <=? oldlen)));
                  Some (s <| flags := flags_5 (oldlen + incr) |>, oldlen + incr)
              | Some t =>
                  _ ← assert_that (incr_ok t s incr);
                  let len := (hlen s + incr) mod type_mod t in
                  Some (s <| hlen := len |>, len)
              | None => Some (s, 0)
              end;
  b ← mem_write (buf s) len [NUL];
  Some (s <| buf := b |>).

(** ** Writing *)

Definition sdsgrowzero (s : t_sds) (len : Z) : option t_sds :=
  let curlen := sdslen s in
  if len <=? curlen then Some s
  else
    s ← sdsMakeRoomFor s (len - curlen);
    b ← mem_write (buf s) curlen (replicate (Z.to_nat (len - curlen + 1)) NUL);
    Some (sdssetlen (s <| buf := b |>) len).

Definition sdscatlen (s : t_sds) (t : bytes) (len : Z) : option t_sds :=
  let curlen := sdslen s in
  s ← sdsMakeRoomFor s len;
  t ← mem_read t 0 len;
  b ← mem_write (buf s) curlen t;
  let s := sdssetlen (s <| buf := b |>) (curlen + len) in
  b ← mem_write (buf s) (curlen + len) [NUL];
  Some (s <| buf := b |>).

Definition sdscat (s : t_sds) (t : bytes) : option t_sds := sdscatlen s t (strlen t).
Definition sdscatsds (s t : t_sds) : option t_sds := sdscatlen s (buf t) (sdslen t).

Definition sdscpylen (s : t_sds) (t : bytes) (len : Z) : option t_sds :=
  s ← (if sdsalloc s <? len then sdsMakeRoomFor s (len - sdslen s) else Some s);
  t ← mem_read t 0 len;
  b ← mem_write (buf s) 0 t;
  b ← mem_write b len [NUL];
  Some (sdssetlen (s <| buf := b |>) len).

Definition sdscpy (s : t_sds) (t : bytes) : option t_sds := sdscpylen s t (strlen t).

(** ** In place *)

(** [*p] *)
Definition byte_at (m : bytes) (i : Z) : option ascii :=
  b ← mem_read m i 1; head b.

(** The first loop of sdstrim, from [sp] to [end_] *)
Fixpoint trim_left (fuel : nat) (m cset : bytes) (sp end_ : Z) : option Z :=
  match fuel with
  | O => None
  | S fuel' =>
      if sp <=? end_ then
        c ← byte_at m sp;
        if in_cset cset c then trim_left fuel' m cset (sp + 1) end_ else Some sp
      else Some sp
  end.

Fixpoint trim_right (fuel : nat) (m cset : bytes) (sp ep : Z) : option Z :=
  match fuel with
  | O => None
  | S fuel' =>
      if sp <? ep then
        c ← byte_at m ep;
        if in_cset cset c then trim_right fuel' m cset sp (ep - 1) else Some ep
      else Some ep
  end.

Definition sdstrim_mem (s : t_sds) (cset : bytes) : option t_sds :=
  let end_ := sdslen s - 1 in
  let fuel := S (Z.to_nat (sdslen s)) in
  sp ← trim_left fuel (buf s) cset 0 end_;
  ep ← trim_right fuel (buf s) cset sp end_;
  let len := ep - sp + 1 in
  b ← (if 0 <? sp then t ← mem_read (buf s) sp len; mem_write (buf s) 0 t else Some (buf s));
  b ← mem_write b len [NUL];
  Some (sdssetlen (s <| buf := b |>) len).

Definition sdssubstr_mem (s : t_sds) (start len : Z) : option t_sds :=
  let oldlen := sdslen s in
  let '(start, len) := if oldlen <=? start then (0, 0) else (start, len) in
  let len := if oldlen - start <? len then oldlen - start else len in
  b ← (if 0 <? len then t ← mem_read (buf s) start len; mem_write (buf s) 0 t else Some (buf s));
  b ← mem_write b len [NUL];
  Some (sdssetlen (s <| buf := b |>) len).

Definition sdsrange_mem (s : t_sds) (start end_ : Z) : option t_sds :=
  let len := sdslen s in
  if len =? 0 then Some s
  else
    let start := if start <? 0 then len + start else start in
    let end_ := if end_ <? 0 then len + end_ else end_ in
    let newlen := if end_ <? start then 0 else (end_ - start) + 1 in
    sdssubstr_mem s (u64 start) (u64 newlen).

(** [for (j = 0; j < len; j++) s[j] = f(s[j])] *)
Fixpoint map_bytes (n : nat) (f : ascii → ascii) (j : Z) (m : bytes) : option bytes :=
  match n with
  | O => Some m
  | S n' =>
      c ← byte_at m j;
      m ← mem_write m j [f c];
      map_bytes n' f (j + 1) m
  end.

Definition sdsmap (s : t_sds) (f : ascii → ascii) : option t_sds :=
  b ← map_bytes (Z.to_nat (sdslen s)) f 0 (buf s);
  Some (s <| buf := b |>).

Definition sdstolower (s : t_sds) : option t_sds := sdsmap s tolower.
Definition sdstoupper_mem (s : t_sds) : option t_sds := sdsmap s toupper.
Definition sdsmapchars_mem (s : t_sds) (from to : bytes) : option t_sds := sdsmap s (λ c, map_char c from to).
End mem.

(** ** Facts about memory *)

Lemma zlen_nonneg b : 0 ≤ zlen b.
Proof. unfold zlen. lia. Qed.

Lemma zlen_app a b : zlen (a ++ b) = zlen a + zlen b.
Proof. unfold zlen. rewrite length_app. lia. Qed.

Lemma zlen_cons c b : zlen (c :: b) = 1 + zlen b.
Proof. unfold zlen. cbn [length]. lia. Qed.

Lemma zlen_replicate n c : 0 ≤ n → zlen (replicate (Z.to_nat n) c) = n.
Proof. unfold zlen. rewrite length_replicate. lia. Qed.

Lemma zlen_take n b : 0 ≤ n → zlen (take (Z.to_nat n) b) = Z.min n (zlen b).
Proof. unfold zlen. rewrite length_take. lia. Qed.

Lemma zlen_drop n b : 0 ≤ n → zlen (drop (Z.to_nat n) b) = Z.max 0 (zlen b - n).
Proof. unfold zlen. rewrite length_drop. lia. Qed.

(** Reading and writing between known parts. *)
Lemma mem_read_app a t r i : zlen a = i → mem_read (a ++ t ++ r) i (zlen t) = Some t.
Proof.
  intros <-. unfold mem_read. pose proof (zlen_nonneg a). pose proof (zlen_nonneg t). pose proof (zlen_nonneg r).
  rewrite !zlen_app, !(proj2 (Z.leb_le _ _)) by lia. cbn [andb].
  unfold zlen. by rewrite !Nat2Z.id, drop_app_length, take_app_length.
Qed.

Lemma mem_read_prefix t r : mem_read (t ++ r) 0 (zlen t) = Some t.
Proof. exact (mem_read_app [] t r 0 eq_refl). Qed.

Lemma mem_write_app a old t r i :
  zlen a = i → zlen old = zlen t → mem_write (a ++ old ++ r) i t = Some (a ++ t ++ r).
Proof.
  intros <- Ho. unfold mem_write. pose proof (zlen_nonneg a). pose proof (zlen_nonneg t). pose proof (zlen_nonneg r).
  rewrite !zlen_app, Ho, !(proj2 (Z.leb_le _ _)) by lia. cbn [andb].
  replace (zlen a + zlen t) with (zlen (a ++ old)) by (rewrite zlen_app; lia). unfold zlen.
  rewrite !Nat2Z.id, take_app_length. do 2 f_equal. rewrite (app_assoc a old r). by rewrite drop_app_length.
Qed.

(** Any write inside the block keeps what is before it. *)
Lemma mem_write_after a m t :
  zlen t ≤ zlen m → ∃ r, mem_write (a ++ m) (zlen a) t = Some (a ++ t ++ r) ∧ zlen r = zlen m - zlen t.
Proof.
  intros Hl. exists (drop (length t) m). split.
  - rewrite <- (take_drop (length t) m) at 1. apply mem_write_app; [done|].
    unfold zlen in *. rewrite length_take. lia.
  - unfold zlen in *. rewrite length_drop. lia.
Qed.

Lemma mem_write_start m t : zlen t ≤ zlen m → ∃ r, mem_write m 0 t = Some (t ++ r) ∧ zlen r = zlen m - zlen t.
Proof. exact (mem_write_after [] m t). Qed.

(** ** Facts about headers *)

(** The header makes sense: its members are in their ranges. *)
Definition hdr_ok (s : t_sds) : Prop :=
  ∃ t, type_of (flags s) = Some t ∧
    match t with
    | SDS_TYPE_5 => 0 ≤ flags s < 256
    | _ => 0 ≤ hlen s ≤ halloc s ∧ halloc s < type_mod t
    end.

Lemma type_of_code t : type_of (type_code t) = Some t.
Proof. by destruct t. Qed.

Lemma flags_5_byte n : 0 ≤ flags_5 n < 256.
Proof. unfold flags_5, u8. apply Z.mod_pos_bound. lia. Qed.

Lemma flags_5_eq n : 0 ≤ n < 32 → flags_5 n = 8 * n.
Proof.
  intros Hn. unfold flags_5, u8, SDS_TYPE_BITS. cbn [type_code]. rewrite Z.lor_0_l, Z.shiftl_mul_pow2 by lia.
  rewrite Z.mod_small; lia.
Qed.

Lemma flags_5_type n : 0 ≤ n < 32 → type_of (flags_5 n) = Some SDS_TYPE_5.
Proof.
  intros Hn. rewrite flags_5_eq by done. unfold type_of, SDS_TYPE_MASK.
  change 7 with (Z.ones 3). rewrite Z.land_ones by lia. by rewrite Z.mul_comm, Z.mod_mul.
Qed.

Lemma flags_5_len n : 0 ≤ n < 32 → SDS_TYPE_5_LEN (flags_5 n) = n.
Proof.
  intros Hn. rewrite flags_5_eq by done. unfold SDS_TYPE_5_LEN, SDS_TYPE_BITS.
  rewrite Z.shiftr_div_pow2 by lia. rewrite Z.mul_comm. by apply Z.div_mul.
Qed.

Lemma len_5_range f : 0 ≤ f < 256 → 0 ≤ SDS_TYPE_5_LEN f < 32.
Proof.
  intros Hf. unfold SDS_TYPE_5_LEN, SDS_TYPE_BITS. rewrite Z.shiftr_div_pow2 by lia.
  split; [apply Z.div_pos; lia|]. apply Z.div_lt_upper_bound; lia.
Qed.

Lemma type_mod_small t n : n < type_mod t → n < 18446744073709551616.
Proof. destruct t; cbn [type_mod]; lia. Qed.

Lemma hdr_len_alloc s : hdr_ok s → 0 ≤ sdslen s ≤ sdsalloc s ∧ sdsalloc s < 18446744073709551616.
Proof.
  intros (t & Ht & Hs). unfold sdslen, sdsalloc. rewrite Ht.
  destruct t; [pose proof (len_5_range _ Hs); lia|destruct Hs as [? ?%type_mod_small]; lia..].
Qed.

Lemma hdr_avail s : hdr_ok s → sdsavail s = sdsalloc s - sdslen s.
Proof.
  intros (t & Ht & Hs). unfold sdsavail, sdslen, sdsalloc. rewrite Ht.
  destruct t; [lia|destruct Hs as [Hl Ha]; cbn [type_mod] in Ha; unfold u64, u32; rewrite Z.mod_small; lia..].
Qed.

Lemma hdr_setlen s n :
  hdr_ok s → 0 ≤ n ≤ sdsalloc s →
  hdr_ok (sdssetlen s n) ∧ sdslen (sdssetlen s n) = n ∧ n ≤ sdsalloc (sdssetlen s n) ≤ sdsalloc s ∧
  buf (sdssetlen s n) = buf s.
Proof.
  intros (t & Ht & Hs) Hn. unfold sdssetlen, sdsalloc in *. rewrite Ht in *. destruct t.
  1:{ pose proof (len_5_range _ Hs). assert (Hn5 : 0 ≤ n < 32) by lia.
      unfold hdr_ok, sdslen. cbn. rewrite (flags_5_type n), flags_5_len by done.
      split_and!; try done; try lia. eexists. split; [done|]. apply flags_5_byte. }
  all: destruct Hs as [Hl Ha]; cbn [type_mod] in *; rewrite Z.mod_small by lia;
       unfold hdr_ok, sdslen; cbn; rewrite Ht; (split_and!; [|lia|lia|lia|done]);
       eexists; (split; [done|]); cbn; lia.
Qed.

Lemma hdr_setalloc s n t :
  type_of (flags s) = Some t → t ≠ SDS_TYPE_5 → 0 ≤ sdslen s ≤ n → n < type_mod t →
  hdr_ok (sdssetalloc s n) ∧ sdslen (sdssetalloc s n) = sdslen s ∧ sdsalloc (sdssetalloc s n) = n ∧
  buf (sdssetalloc s n) = buf s.
Proof.
  intros Ht Hne Hl Hn. unfold sdssetalloc, sdslen in *. rewrite Ht in *.
  destruct t; [done|..]; rewrite Z.mod_small by lia;
    unfold hdr_ok, sdsalloc; cbn; rewrite Ht; (split_and!; [|done|done|done]);
    eexists; (split; [done|]); cbn in *; lia.
Qed.

Lemma new_header_ok t n b :
  0 ≤ n < type_mod t →
  hdr_ok (new_header t n b) ∧ sdslen (new_header t n b) = n ∧ sdsalloc (new_header t n b) = n ∧
  buf (new_header t n b) = b.
Proof.
  intros Hn. unfold hdr_ok, sdslen, sdsalloc. destruct t; cbn [new_header flags].
  1:{ rewrite flags_5_type, flags_5_len by done. split_and!; try done.
      eexists. split; [done|]. apply flags_5_byte. }
  all: rewrite type_of_code; cbn [hlen halloc buf]; rewrite Z.mod_small by done;
       split_and!; try done; eexists; (split; [done|]); cbn [type_mod hlen halloc] in *; rewrite ?Z.mod_small by lia; lia.
Qed.

Lemma sdsReqType_fits n : 0 ≤ n < 18446744073709551616 → n < type_mod (sdsReqType n).
Proof.
  intros Hn. unfold sdsReqType.
  change (Z.shiftl 1 5) with 32. change (Z.shiftl 1 8) with 256. change (Z.shiftl 1 16) with 65536.
  change (Z.shiftl 1 32) with 4294967296.
  repeat case_match_goal; zbool; cbn [type_mod]; lia.
Qed.

Lemma not_5_fits n t : n < type_mod t → n < type_mod (not_5 t).
Proof. destruct t; cbn; lia. Qed.

Lemma not_5_ne t : not_5 t ≠ SDS_TYPE_5.
Proof. by destruct t. Qed.

(** ** The representation of a string *)

(** [s] holds the bytes [b], followed by the byte [c], and its block is as large
    as its header says at least. *)
Definition filled (c : ascii) (s : t_sds) (b : bytes) : Prop :=
  hdr_ok s ∧ sdslen s = zlen b ∧ sdsalloc s < zlen (buf s) ∧ ∃ r, buf s = b ++ c :: r.

(** A string between two operations *)
Definition rep : t_sds → bytes → Prop := filled NUL.

(** A limit on sizes that no object in memory can reach. *)
Definition SIZE_LIMIT : Z := 4611686018427387904.

Lemma rep_len {c} s b : filled c s b → sdslen s = zlen b.
Proof. by intros (_ & ? & _). Qed.

Lemma rep_avail {c} s b : filled c s b → sdsavail s = sdsalloc s - zlen b.
Proof. intros (Hh & <- & _). by apply hdr_avail. Qed.

Lemma rep_alloc {c} s b : filled c s b → 0 ≤ zlen b ≤ sdsalloc s.
Proof. intros (Hh & <- & _). by apply hdr_len_alloc. Qed.

(** The end of every operation: the bytes are in place, then the length is set. *)
Lemma rep_setlen s b r :
  hdr_ok s → buf s = b ++ NUL :: r → zlen b ≤ sdsalloc s < zlen (buf s) → rep (sdssetlen s (zlen b)) b.
Proof.
  intros Hh Hb Hl. destruct (hdr_setlen s (zlen b) Hh) as (Hh' & Hl' & Ha & Hb').
  { pose proof (zlen_nonneg b). lia. }
  split; [done|]. split; [done|]. rewrite Hb'. split; [lia|]. by exists r.
Qed.

Lemma rep_setlen_buf s b r x :
  hdr_ok s → x = b ++ NUL :: r → zlen b ≤ sdsalloc s < zlen x → rep (sdssetlen (s <| buf := x |>) (zlen b)) b.
Proof. intros Hh Hx Hl. by eapply (rep_setlen (s <| buf := x |>)). Qed.

Section spec.
Context `{Malloc}.

Lemma realloc_prefix p r n :
  zlen p ≤ n → ∃ r', realloc (p ++ r) n = p ++ r' ∧ zlen (p ++ r') = n.
Proof.
  intros Hn. pose proof (zlen_nonneg p). pose proof (zlen_nonneg r).
  exists (take (Z.to_nat n - length p) r ++ uninit (Z.max 0 (n - zlen (p ++ r)))). split.
  - unfold realloc. rewrite take_app, take_ge by (unfold zlen in *; lia). by rewrite <- app_assoc.
  - rewrite !zlen_app, uninit_length by lia. unfold zlen in *. rewrite length_take. lia.
Qed.

Lemma moved_spec t p r n :
  zlen p ≤ n → ∃ r', moved t (p ++ r) (zlen p) n = Some (Sds (type_code t) 0 0 (p ++ r')) ∧ zlen (p ++ r') = n.
Proof.
  intros Hn. pose proof (zlen_nonneg p). unfold moved. rewrite mem_read_prefix. cbn [mbind option_bind].
  destruct (mem_write_start (uninit n) p) as (r' & E & Hr'); [rewrite uninit_length by lia; lia|].
  rewrite E. exists r'. split; [done|]. rewrite zlen_app, Hr', uninit_length by lia. lia.
Qed.

Lemma fresh_header t len n x :
  t ≠ SDS_TYPE_5 → 0 ≤ len ≤ n → n < type_mod t →
  let s := sdssetalloc (sdssetlen (Sds (type_code t) 0 0 x) len) n in
  hdr_ok s ∧ sdslen s = len ∧ sdsalloc s = n ∧ buf s = x.
Proof.
  intros Hne Hl Hn. cbv zeta.
  assert (E : sdssetlen (Sds (type_code t) 0 0 x) len = Sds (type_code t) len 0 x).
  { unfold sdssetlen. cbn [flags]. rewrite type_of_code. destruct t; [done|..]; cbn [type_mod] in *; cbn;
      by rewrite Z.mod_small by lia. }
  rewrite E. assert (Hlen : sdslen (Sds (type_code t) len 0 x) = len).
  { unfold sdslen. cbn [flags]. rewrite type_of_code. by destruct t. }
  destruct (hdr_setalloc (Sds (type_code t) len 0 x) n t) as (Q1 & Q2 & Q3 & Q4);
    [apply type_of_code|done|lia|done|]. split_and!; try done. by rewrite Q2.
Qed.

(** The capacity after making room: unchanged if there is enough, else twice
    what is needed, or a megabyte more for large strings. *)
Definition grown (alloc need : Z) : Z :=
  if need <=? alloc then alloc
  else if need <? SDS_MAX_PREALLOC then need * 2 else need + SDS_MAX_PREALLOC.

Lemma sdsMakeRoomFor_spec {c} s b addlen :
  filled c s b → 0 ≤ addlen → zlen b + addlen < SIZE_LIMIT →
  ∃ s', sdsMakeRoomFor s addlen = Some s' ∧ filled c s' b ∧ sdsalloc s' = grown (sdsalloc s) (zlen b + addlen).
Proof.
  intros Hs Ha Hlim. pose proof (rep_avail s b Hs) as Hav. pose proof (rep_alloc s b Hs) as Hal.
  pose proof (zlen_nonneg b). unfold SIZE_LIMIT in Hlim.
  destruct Hs as ((t & Ht & Hh) & Hl & Hbl & r & Hb). unfold sdsMakeRoomFor, grown. rewrite Ht, Hav, Hl.
  cbn [mbind option_bind]. destruct (Z.leb_spec addlen (sdsalloc s - zlen b)) as [Hle|Hgt].
  { rewrite (proj2 (Z.leb_le _ _)) by lia. exists s. split; [done|]. split; [|done].
    split; [by exists t|]. eauto. }
  rewrite (proj2 (Z.leb_gt (zlen b + addlen) _)) by lia. cbv zeta.
  assert (Hreq : u64 (zlen b + addlen) = zlen b + addlen) by (apply u64_small; unfold ULONG_MAX; lia).
  rewrite Hreq. set (need := zlen b + addlen) in *.
  set (n := if need <? SDS_MAX_PREALLOC then need * 2 else need + SDS_MAX_PREALLOC).
  assert (Hn : need ≤ n < 9223372036854775808).
  { subst n. unfold SDS_MAX_PREALLOC. destruct (Z.ltb_spec need (1024 * 1024)); lia. }
  assert (u64 n = n) as -> by (apply u64_small; unfold ULONG_MAX; lia).
  assert (Hfit : n < type_mod (not_5 (sdsReqType n))) by (apply not_5_fits, sdsReqType_fits; lia).
  pose proof (not_5_ne (sdsReqType n)) as Hne. set (ty := not_5 (sdsReqType n)) in *.
  assert (Hsz : 1 ≤ sdsHdrSize ty ≤ 17) by (destruct ty; cbn; lia).
  rewrite u64_small by (unfold ULONG_MAX; lia). rewrite (proj2 (Z.ltb_lt _ _)) by lia.
  cbn [assert_that mbind option_bind].
  assert (Hp : zlen (b ++ [c]) = zlen b + 1) by (rewrite zlen_app; done).
  assert (Hbuf : buf s = (b ++ [c]) ++ r) by (by rewrite <- app_assoc).
  destruct (decide (t = ty)) as [->|Hty].
  - destruct (realloc_prefix (b ++ [c]) r (n + 1)) as (r' & E & Hr'); [lia|]. rewrite <- Hbuf in E.
    cbn [mbind option_bind]. rewrite E.
    destruct (hdr_setalloc (s <| buf := (b ++ [c]) ++ r' |>) n ty) as (Q1 & Q2 & Q3 & Q4);
      [done|done|change (sdslen _) with (sdslen s); lia|done|].
    eexists. split; [done|]. split; [|exact Q3]. split; [done|]. split; [rewrite Q2; exact Hl|].
    rewrite Q3, Q4. split; [change (buf _) with ((b ++ [c]) ++ r'); lia|]. exists r'. cbn. by rewrite <- app_assoc.
  - destruct (moved_spec ty (b ++ [c]) r (n + 1)) as (r' & E & Hr'); [lia|]. rewrite <- Hbuf, Hp in E.
    rewrite E. cbn [mbind option_bind].
    destruct (fresh_header ty (zlen b) n ((b ++ [c]) ++ r')) as (Q1 & Q2 & Q3 & Q4); [done|lia|done|].
    eexists. split; [done|]. split; [|exact Q3]. split; [done|]. split; [exact Q2|].
    rewrite Q3, Q4. split; [lia|]. exists r'. by rewrite <- app_assoc.
Qed.
(** ** Writing at the end *)

Lemma setlen_buf s n x : (sdssetlen s n) <| buf := x |> = sdssetlen (s <| buf := x |>) n.
Proof. destruct s as [f l a m]. unfold sdssetlen. cbn. by destruct (type_of f) as [[]|]. Qed.

(** The NUL behind the bytes that are in place. *)
Lemma write_nul b m : zlen b < zlen (b ++ m) → ∃ r, mem_write (b ++ m) (zlen b) [NUL] = Some (b ++ NUL :: r) ∧
  zlen (b ++ NUL :: r) = zlen (b ++ m).
Proof.
  rewrite zlen_app. intros Hm. destruct (mem_write_after b m [NUL]) as (r & E & Hr); [rewrite zlen_cons; unfold zlen in *; simpl; lia|].
  exists r. split; [exact E|]. rewrite zlen_app, zlen_cons, Hr, zlen_cons. unfold zlen. simpl. lia.
Qed.

(** The bytes [x] are written behind [b], then the NUL. *)
Lemma write_tail s b x :
  rep s b → zlen b + zlen x ≤ sdsalloc s →
  ∃ m r, mem_write (buf s) (zlen b) x = Some m ∧ mem_write m (zlen b + zlen x) [NUL] = Some ((b ++ x) ++ NUL :: r) ∧
    zlen m = zlen (buf s) ∧ zlen ((b ++ x) ++ NUL :: r) = zlen (buf s).
Proof.
  intros (Hh & Hl & Hbl & r & Hb) Hx. rewrite Hb in Hbl |- *.
  destruct (mem_write_after b (NUL :: r) x) as (r2 & E & Hr2); [rewrite zlen_app in Hbl; lia|].
  assert (Hm : zlen ((b ++ x) ++ r2) = zlen (b ++ NUL :: r)) by (rewrite !zlen_app, Hr2; lia).
  destruct (write_nul (b ++ x) r2) as (r3 & E3 & Hr3); [rewrite (zlen_app b x); lia|].
  rewrite zlen_app in E3. exists ((b ++ x) ++ r2), r3. rewrite <- app_assoc. split_and!; [exact E| |rewrite app_assoc; lia|lia].
  by rewrite app_assoc.
Qed.

Lemma sdscatlen_spec s b x rest :
  rep s b → zlen b + zlen x < SIZE_LIMIT →
  ∃ s', sdscatlen s (x ++ rest) (zlen x) = Some s' ∧ rep s' (b ++ x).
Proof.
  intros Hs Hlim. unfold sdscatlen. rewrite (rep_len s b Hs).
  destruct (sdsMakeRoomFor_spec s b (zlen x) Hs (zlen_nonneg x) Hlim) as (s1 & -> & Hs1 & Hal).
  assert (Hroom : zlen b + zlen x ≤ sdsalloc s1).
  { rewrite Hal. unfold grown, SDS_MAX_PREALLOC. pose proof (zlen_nonneg b). pose proof (zlen_nonneg x).
    repeat case_match_goal; zbool; lia. }
  destruct (write_tail s1 b x Hs1 Hroom) as (m & r & E1 & E2 & Hm1 & Hm2).
  cbn [mbind option_bind]. rewrite mem_read_prefix. cbn [mbind option_bind]. rewrite E1. cbn [mbind option_bind].
  rewrite <- setlen_buf. change (buf (_ <| buf := m |>)) with m. rewrite E2. cbn [mbind option_bind].
  eexists. split; [done|]. rewrite !setlen_buf. change (s1 <| buf := m |> <| buf := ?x |>) with (s1 <| buf := x |>).
  rewrite <- zlen_app. eapply rep_setlen_buf; [apply Hs1|done|]. rewrite Hm2, zlen_app. split; [done|apply Hs1].
Qed.

(** A C string in memory: the bytes and a NUL. *)
Lemma c_string t rest : no_nul t → c_str (t ++ NUL :: rest) = t.
Proof.
  intros Ht. unfold c_str. rewrite take_while_all by done. simpl. by rewrite app_nil_r.
Qed.

Lemma strlen_c_string t rest : no_nul t → strlen (t ++ NUL :: rest) = zlen t.
Proof. intros Ht. unfold strlen. by rewrite c_string. Qed.

Lemma sdscat_spec s b t rest :
  rep s b → no_nul t → zlen b + zlen t < SIZE_LIMIT →
  ∃ s', sdscat s (t ++ NUL :: rest) = Some s' ∧ rep s' (b ++ t).
Proof. intros Hs Ht Hl. unfold sdscat. rewrite strlen_c_string by done. by apply sdscatlen_spec. Qed.

Lemma sdscatsds_spec s b s2 b2 :
  rep s b → rep s2 b2 → zlen b + zlen b2 < SIZE_LIMIT → ∃ s', sdscatsds s s2 = Some s' ∧ rep s' (b ++ b2).
Proof.
  intros Hs (_ & Hl2 & _ & r & Hb2) Hl. unfold sdscatsds. rewrite Hl2, Hb2. by apply sdscatlen_spec.
Qed.

(** ** In place *)

(** The common end: the bytes [b'] are at the start of the block, then the NUL
    is written and the length is set. *)
Lemma in_block s b' m :
  hdr_ok s → sdsalloc s < zlen (buf s) → zlen b' ≤ sdsalloc s → zlen (b' ++ m) = zlen (buf s) →
  ∃ x, mem_write (b' ++ m) (zlen b') [NUL] = Some x ∧ rep (sdssetlen (s <| buf := x |>) (zlen b')) b'.
Proof.
  intros Hh Hbl Hl Hm. destruct (write_nul b' m) as (r & E & Hr); [lia|].
  eexists. split; [exact E|]. eapply rep_setlen_buf; [done|done|]. lia.
Qed.

Lemma in_place s b b' m :
  rep s b → zlen b' ≤ sdsalloc s → zlen (b' ++ m) = zlen (buf s) →
  ∃ x, mem_write (b' ++ m) (zlen b') [NUL] = Some x ∧ rep (sdssetlen (s <| buf := x |>) (zlen b')) b'.
Proof. intros (Hh & _ & Hbl & _). by apply in_block. Qed.

Lemma rep_block s b : rep s b → ∃ r, buf s = b ++ NUL :: r ∧ sdsalloc s < zlen (b ++ NUL :: r).
Proof. intros (_ & _ & Hb & r & E). exists r. by rewrite <- E. Qed.

Lemma sdsclear_spec s b : rep s b → ∃ s', sdsclear s = Some s' ∧ rep s' [].
Proof.
  intros Hs. pose proof (rep_alloc s b Hs). unfold sdsclear.
  destruct (in_place s b [] (buf s) Hs) as (x & E & Hx); [change (zlen []) with 0; lia|done|].
  assert (buf (sdssetlen s 0) = buf s) as -> by (apply hdr_setlen; [apply Hs|unfold zlen in *; simpl in *; lia]).
  change (mem_write (buf s) 0 [NUL] = Some x) in E. rewrite E. eexists. split; [reflexivity|]. rewrite setlen_buf. exact Hx.
Qed.

Lemma sdsupdatelen_spec s b : rep s b → rep (sdsupdatelen s) (c_str b).
Proof.
  intros Hs. pose proof (rep_alloc s b Hs) as Ha. destruct (rep_block s b Hs) as (r & E & Hr).
  assert (Hc : ∃ r', b ++ NUL :: r = c_str b ++ NUL :: r').
  { clear. unfold c_str. induction b as [|c b [r' IH]]; [by exists r|]. cbn [app take_while].
    destruct (ch c NUL) eqn:Ec; cbn [negb].
    - apply ch_true in Ec as ->. by eexists.
    - exists r'. cbn. by rewrite IH. }
  destruct Hc as (r' & Hc). assert (Hl : strlen (buf s) = zlen (c_str b)).
  { rewrite E, Hc. apply strlen_c_string, c_str_no_nul. }
  unfold sdsupdatelen. rewrite Hl. eapply (rep_setlen s (c_str b) r'); [apply Hs|by rewrite E|].
  rewrite E. split; [|done]. transitivity (zlen b); [|lia].
  unfold zlen. apply inj_le. unfold c_str. clear. induction b as [|c b IH]; simpl; [lia|]. destruct (negb _); simpl; lia.
Qed.

Lemma sdscpylen_spec s b x rest :
  rep s b → zlen x < SIZE_LIMIT → ∃ s', sdscpylen s (x ++ rest) (zlen x) = Some s' ∧ rep s' x.
Proof.
  intros Hs Hlim. unfold sdscpylen. pose proof (zlen_nonneg x).
  assert (Hroom : ∃ s1, (if sdsalloc s <? zlen x then sdsMakeRoomFor s (zlen x - sdslen s) else Some s) = Some s1 ∧
    rep s1 b ∧ zlen x ≤ sdsalloc s1).
  { destruct (Z.ltb_spec (sdsalloc s) (zlen x)) as [Hlt|Hge]; [|by exists s].
    pose proof (rep_alloc s b Hs). rewrite (rep_len s b Hs).
    destruct (sdsMakeRoomFor_spec s b (zlen x - zlen b) Hs) as (s1 & E & Hs1 & Ha); [lia|lia|].
    exists s1. split; [done|]. split; [done|]. rewrite Ha. unfold grown, SDS_MAX_PREALLOC.
    repeat case_match_goal; zbool; lia. }
  destruct Hroom as (s1 & -> & Hs1 & Hx). cbn [mbind option_bind]. rewrite mem_read_prefix. cbn [mbind option_bind].
  assert (Hbl : sdsalloc s1 < zlen (buf s1)) by apply Hs1.
  destruct (mem_write_start (buf s1) x) as (m & E & Hm); [lia|]. rewrite E. cbn [mbind option_bind].
  destruct (in_place s1 b x m Hs1 Hx) as (y & Ey & Hy); [rewrite zlen_app; lia|].
  rewrite Ey. eexists. by split.
Qed.

Lemma sdscpy_spec s b t rest :
  rep s b → no_nul t → zlen t < SIZE_LIMIT → ∃ s', sdscpy s (t ++ NUL :: rest) = Some s' ∧ rep s' t.
Proof. intros Hs Ht Hl. unfold sdscpy. rewrite strlen_c_string by done. by eapply sdscpylen_spec. Qed.

Lemma sdsgrowzero_spec s b n :
  rep s b → 0 ≤ n < SIZE_LIMIT →
  ∃ s', sdsgrowzero s n = Some s' ∧ rep s' (b ++ replicate (Z.to_nat n - length b) NUL).
Proof.
  intros Hs Hn. unfold sdsgrowzero. rewrite (rep_len s b Hs). destruct (Z.leb_spec n (zlen b)) as [Hle|Hgt].
  { exists s. split; [done|]. replace (Z.to_nat n - length b)%nat with 0%nat by (unfold zlen in *; lia). by rewrite app_nil_r. }
  destruct (sdsMakeRoomFor_spec s b (n - zlen b) Hs) as (s1 & -> & Hs1 & Ha); [lia|lia|]. cbn [mbind option_bind].
  assert (Hroom : n ≤ sdsalloc s1).
  { rewrite Ha. unfold grown, SDS_MAX_PREALLOC. pose proof (zlen_nonneg b). repeat case_match_goal; zbool; lia. }
  set (k := (Z.to_nat n - length b)%nat).
  assert (Hk : replicate (Z.to_nat (n - zlen b + 1)) NUL = replicate k NUL ++ [NUL]).
  { change [NUL] with (replicate 1 NUL). rewrite <- replicate_add. f_equal. unfold zlen in *. lia. }
  assert (Hz : zlen (b ++ replicate k NUL) = n) by (unfold zlen; rewrite length_app, length_replicate; unfold zlen in *; lia).
  destruct (rep_block s1 b Hs1) as (r & E & Hr). rewrite E.
  assert (Hw : zlen (replicate k NUL ++ [NUL]) ≤ zlen (NUL :: r)) by (rewrite !zlen_app in *; unfold zlen in *; simpl in *; lia).
  destruct (mem_write_after b (NUL :: r) _ Hw) as (r2 & E2 & Hr2). rewrite Hk, E2. cbn [mbind option_bind].
  eexists. split; [done|]. rewrite <- Hz. eapply rep_setlen_buf; [apply Hs1|by rewrite <- !app_assoc|].
  rewrite Hz. split; [done|]. rewrite !zlen_app in *. lia.
Qed.
(** ** New strings *)

Lemma new_rep n b r :
  zlen b = n → n < SIZE_LIMIT → zlen (b ++ NUL :: r) = n + 1 → ∀ t, n < type_mod t →
  rep (new_header t n (b ++ NUL :: r)) b.
Proof.
  intros Hb Hn Hz t Ht. pose proof (zlen_nonneg b).
  destruct (new_header_ok t n (b ++ NUL :: r)) as (Q1 & Q2 & Q3 & Q4); [lia|].
  split; [done|]. split; [by rewrite Q2|]. rewrite Q3, Q4. split; [lia|]. by exists r.
Qed.

(** The type of a new string; an empty one gets a header that can grow. *)
Definition new_type (n : Z) : sds_type :=
  if decide (sdsReqType n = SDS_TYPE_5 ∧ n = 0) then SDS_TYPE_8 else sdsReqType n.

Lemma new_type_ok n : 0 ≤ n < SIZE_LIMIT → n < type_mod (new_type n) ∧ (n <? u64 (n + sdsHdrSize (new_type n) + 1)) = true.
Proof.
  intros Hn. unfold SIZE_LIMIT in Hn. split.
  - unfold new_type. destruct (decide _) as [[_ ->]|]; [done|]. apply sdsReqType_fits. lia.
  - assert (1 ≤ sdsHdrSize (new_type n) ≤ 17) by (destruct (new_type n); cbn; lia).
    rewrite u64_small by (unfold ULONG_MAX; lia). apply Z.ltb_lt. lia.
Qed.

Lemma sdsnewlen_spec x rest :
  zlen x < SIZE_LIMIT → ∃ s, sdsnewlen (Init (x ++ rest)) (zlen x) = Some s ∧ rep s x.
Proof.
  intros Hl. pose proof (zlen_nonneg x). destruct (new_type_ok (zlen x)) as [Hf Ha]; [lia|].
  unfold sdsnewlen. fold (new_type (zlen x)). rewrite Ha. cbn [assert_that mbind option_bind].
  assert (Hb : ∃ m, (if 0 <? zlen x then t ← mem_read (x ++ rest) 0 (zlen x); mem_write (uninit (zlen x + 1)) 0 t
      else Some (uninit (zlen x + 1))) = Some (x ++ m) ∧ zlen (x ++ m) = zlen x + 1).
  { destruct (Z.ltb_spec 0 (zlen x)) as [Hp|Hp].
    - rewrite mem_read_prefix. cbn [mbind option_bind].
      destruct (mem_write_start (uninit (zlen x + 1)) x) as (m & E & Hm); [rewrite uninit_length; lia|].
      exists m. split; [done|]. rewrite zlen_app, Hm, uninit_length; lia.
    - destruct x; [|rewrite zlen_cons in *; pose proof (zlen_nonneg x); lia].
      exists (uninit (zlen [] + 1)). split; [done|]. cbn [app]. apply uninit_length. lia. }
  destruct Hb as (m & E & Hm). rewrite E. cbn [mbind option_bind].
  destruct (write_nul x m) as (r & E2 & Hr); [lia|]. rewrite E2. cbn [mbind option_bind].
  eexists. split; [reflexivity|]. apply new_rep; [done|done|lia|done].
Qed.

Lemma sdsempty_spec : ∃ s, sdsempty = Some s ∧ rep s [].
Proof. exact (sdsnewlen_spec [] [NUL] eq_refl). Qed.

Lemma sdsnew_spec t rest :
  no_nul t → zlen t < SIZE_LIMIT → ∃ s, sdsnew (Some (t ++ NUL :: rest)) = Some s ∧ rep s t.
Proof. intros Ht Hl. unfold sdsnew. rewrite strlen_c_string by done. by apply sdsnewlen_spec. Qed.

Lemma sdsdup_spec s b : rep s b → zlen b < SIZE_LIMIT → ∃ s', sdsdup s = Some s' ∧ rep s' b.
Proof.
  intros Hs Hl. destruct (rep_block s b Hs) as (r & E & _). unfold sdsdup. rewrite E, (rep_len s b Hs).
  by apply sdsnewlen_spec.
Qed.

Lemma sdsnewlen_null_spec n :
  0 ≤ n < SIZE_LIMIT → ∃ s, sdsnewlen InitNull n = Some s ∧ rep s (replicate (Z.to_nat n) NUL).
Proof.
  intros Hn. destruct (new_type_ok n Hn) as [Hf Ha]. unfold sdsnewlen. fold (new_type n). rewrite Ha.
  cbn [assert_that mbind option_bind].
  assert (E : replicate (Z.to_nat (n + 1)) NUL = replicate (Z.to_nat n) NUL ++ [NUL]).
  { change [NUL] with (replicate 1 NUL). rewrite <- replicate_add. f_equal. lia. }
  assert (Hz : zlen (replicate (Z.to_nat n) NUL) = n) by (apply zlen_replicate; lia).
  rewrite E. destruct (write_nul (replicate (Z.to_nat n) NUL) [NUL]) as (r & E2 & Hr).
  { rewrite zlen_app. unfold zlen at 3. simpl. lia. }
  rewrite Hz in E2. rewrite E2. cbn [mbind option_bind]. eexists. split; [reflexivity|].
  apply new_rep; [done|lia| |done]. rewrite Hr, zlen_app, Hz. done.
Qed.

(** ** Shrinking and resizing *)

Lemma sdsRemoveFreeSpace_spec s b :
  rep s b → ∃ s', sdsRemoveFreeSpace s = Some s' ∧ rep s' b ∧ sdsalloc s' = zlen b.
Proof.
  intros Hs. pose proof (rep_avail s b Hs) as Hav. pose proof (rep_alloc s b Hs) as Hal.
  pose proof Hs as ((t & Ht & Hh) & Hl & Hbl & r & Hb). unfold sdsRemoveFreeSpace. rewrite Ht, Hav, Hl.
  cbn [mbind option_bind]. destruct (Z.eqb_spec (sdsalloc s - zlen b) 0) as [He|Hne].
  { exists s. split_and!; [done..|lia]. }
  assert (Ht5 : t ≠ SDS_TYPE_5).
  { intros ->. unfold sdslen, sdsalloc in *. rewrite Ht in *. lia. }
  assert (Hsmall : zlen b < type_mod t).
  { unfold sdsalloc in Hal. rewrite Ht in Hal. destruct t; [done|lia..]. }
  assert (Hp : zlen (b ++ [NUL]) = zlen b + 1) by (rewrite zlen_app; done).
  assert (Hbuf : buf s = (b ++ [NUL]) ++ r) by (by rewrite <- app_assoc).
  set (ty := sdsReqType (zlen b)).
  assert (Hfit : zlen b < type_mod ty).
  { apply sdsReqType_fits. pose proof (type_mod_small t (zlen b)). lia. }
  destruct (bool_decide (t = ty) || (1 <? type_code ty)).
  - destruct (realloc_prefix (b ++ [NUL]) r (zlen b + 1)) as (r' & E & Hr'); [lia|]. rewrite <- Hbuf in E.
    cbn [mbind option_bind]. rewrite E.
    destruct (hdr_setalloc (s <| buf := (b ++ [NUL]) ++ r' |>) (zlen b) t) as (Q1 & Q2 & Q3 & Q4);
      [done|done|change (sdslen _) with (sdslen s); lia|done|].
    eexists. split; [done|]. split; [|exact Q3]. split; [done|]. split; [rewrite Q2; exact Hl|].
    rewrite Q3, Q4. split; [change (buf _) with ((b ++ [NUL]) ++ r'); lia|]. exists r'. cbn. by rewrite <- app_assoc.
  - destruct (moved_spec ty (b ++ [NUL]) r (zlen b + 1)) as (r' & E & Hr'); [lia|]. rewrite <- Hbuf, Hp in E.
    rewrite E. cbn [mbind option_bind].
    assert (Hh2 : ∃ s', sdssetalloc (sdssetlen (Sds (type_code ty) 0 0 ((b ++ [NUL]) ++ r')) (zlen b)) (zlen b) = s' ∧
      hdr_ok s' ∧ sdslen s' = zlen b ∧ sdsalloc s' = zlen b ∧ buf s' = (b ++ [NUL]) ++ r').
    { eexists. split; [done|]. destruct (decide (ty = SDS_TYPE_5)) as [E5|Hn5].
      - rewrite E5 in *. destruct (new_header_ok SDS_TYPE_5 (zlen b) ((b ++ [NUL]) ++ r')) as (Q1 & Q2 & Q3 & Q4); [lia|].
        assert (Es : sdssetalloc (sdssetlen (Sds (type_code SDS_TYPE_5) 0 0 ((b ++ [NUL]) ++ r')) (zlen b)) (zlen b)
          = new_header SDS_TYPE_5 (zlen b) ((b ++ [NUL]) ++ r')).
        { unfold sdssetlen, sdssetalloc. cbn -[flags_5 type_of]. change (type_of 0) with (Some SDS_TYPE_5). cbn -[flags_5 type_of].
          rewrite flags_5_type by (cbn in Hfit; lia). done. }
        by rewrite Es.
      - apply fresh_header; [done|lia|done]. }
    destruct Hh2 as (s' & -> & Q1 & Q2 & Q3 & Q4). exists s'. split; [done|]. split; [|done].
    split; [done|]. split; [done|]. rewrite Q3, Q4. split; [lia|]. exists r'. by rewrite <- app_assoc.
Qed.
(** A block of [n + 1] bytes with the NUL behind [p], under a header for [n] bytes. *)
Lemma resized s p r n t :
  type_of (flags s) = Some t → t ≠ SDS_TYPE_5 → zlen p ≤ n → n < type_mod t → zlen (p ++ r) = n + 1 →
  buf s = p ++ r → ∃ x, mem_write (buf s) (zlen p) [NUL] = Some x ∧
    rep (sdssetalloc (sdssetlen (s <| buf := x |>) (zlen p)) n) p.
Proof.
  intros Ht Hne Hp Hn Hz Hb. pose proof (zlen_nonneg p). rewrite Hb.
  destruct (write_nul p r) as (r2 & E & Hr2); [lia|]. eexists. split; [exact E|].
  assert (E2 : sdssetlen (s <| buf := p ++ NUL :: r2 |>) (zlen p) = s <| buf := p ++ NUL :: r2 |> <| hlen := zlen p |>).
  { unfold sdssetlen. cbn [flags]. change (flags (s <| buf := _ |>)) with (flags s). rewrite Ht.
    destruct t; [done|..]; cbn [type_mod] in *; by rewrite Z.mod_small by lia. }
  rewrite E2. clear E2. set (s1 := s <| buf := p ++ NUL :: r2 |> <| hlen := zlen p |>).
  assert (Hl1 : sdslen s1 = zlen p).
  { unfold sdslen. change (flags s1) with (flags s). rewrite Ht. by destruct t. }
  destruct (hdr_setalloc s1 n t) as (Q1 & Q2 & Q3 & Q4); [done|done|lia|done|].
  split; [done|]. split; [by rewrite Q2|]. rewrite Q3, Q4. change (buf s1) with (p ++ NUL :: r2).
  split; [lia|]. by exists r2.
Qed.

Lemma type_code_mod t t' : type_code t < type_code t' → type_mod t < type_mod t'.
Proof. destruct t, t'; cbn; lia. Qed.

Lemma sdsResize_spec s b n :
  rep s b → 0 ≤ n < SIZE_LIMIT → ∃ s', sdsResize s n = Some s' ∧ rep s' (take (Z.to_nat n) b).
Proof.
  intros Hs Hn. pose proof (rep_alloc s b Hs) as Hal. destruct (rep_block s b Hs) as (r & Hb & Hbl).
  pose proof Hs as ((t & Ht & _) & Hl & _). unfold sdsResize. rewrite Ht, Hl. cbn [mbind option_bind].
  destruct (Z.eqb_spec (sdsalloc s) n) as [He|Hne].
  { exists s. split; [done|]. rewrite take_ge; [done|]. unfold zlen in *. lia. }
  set (p := take (Z.to_nat n) b). assert (Hp : zlen p = (if n <? zlen b then n else zlen b)).
  { unfold p. rewrite zlen_take by lia. destruct (Z.ltb_spec n (zlen b)); lia. }
  cbv zeta. rewrite <- Hp. assert (Hpn : zlen p ≤ n) by (rewrite Hp; destruct (Z.ltb_spec n (zlen b)); lia).
  set (ty := not_5 (sdsReqType n)).
  assert (Hfit : n < type_mod ty) by (apply not_5_fits, sdsReqType_fits; unfold SIZE_LIMIT in Hn; lia).
  pose proof (not_5_ne (sdsReqType n) : ty ≠ _) as Hty.
  assert (Hbuf : buf s = p ++ drop (Z.to_nat n) b ++ NUL :: r) by (unfold p; by rewrite app_assoc, take_drop).
  destruct (bool_decide (t = ty) || _) eqn:Ec.
  - assert (Hto : t ≠ SDS_TYPE_5 ∧ n < type_mod t).
    { apply orb_true_iff in Ec as [->%bool_decide_eq_true|[Hlt%Z.ltb_lt _]%andb_prop]; [done|].
      split; [intros ->; destruct ty; cbn in Hlt; lia|]. pose proof (type_code_mod ty t Hlt). lia. }
    destruct (realloc_prefix p (drop (Z.to_nat n) b ++ NUL :: r) (n + 1)) as (r' & E & Hr'); [lia|].
    rewrite <- Hbuf in E. cbn [mbind option_bind]. rewrite E.
    destruct (resized (s <| buf := p ++ r' |>) p r' n t) as (x & Ex & Hx); [done|apply Hto|done|apply Hto|done|done|].
    rewrite Ex. eexists. by split.
  - destruct (moved_spec ty p (drop (Z.to_nat n) b ++ NUL :: r) (n + 1)) as (r' & E & Hr'); [lia|].
    rewrite <- Hbuf in E. rewrite E. cbn [mbind option_bind].
    destruct (resized (Sds (type_code ty) 0 0 (p ++ r')) p r' n ty) as (x & Ex & Hx);
      [apply type_of_code|done|done|done|done|done|]. rewrite Ex. eexists. by split.
Qed.

(** ** Lengths that the caller knows *)

Lemma incr_ok_true t s n :
  type_of (flags s) = Some t → t ≠ SDS_TYPE_5 → hdr_ok s →
  - sdslen s ≤ n ≤ sdsalloc s - sdslen s → incr_ok t s n = true.
Proof.
  intros Ht Hne Hh Hn. destruct (hdr_len_alloc s Hh) as [Hl Ha]. destruct Hh as (t' & Ht' & Hm). rewrite Ht in Ht'.
  injection Ht' as <-. unfold sdslen, sdsalloc in *. rewrite Ht in *. unfold incr_ok, u32, u64.
  destruct t; [done|..]; cbn [type_mod] in Hm;
    destruct (Z.leb_spec 0 n); destruct (Z.ltb_spec n 0); try lia; cbn [andb orb];
    rewrite ?Z.mod_small by lia; rewrite ?orb_false_r; apply Z.leb_le; lia.
Qed.

(** The NUL goes behind what is in the block up to the new length. A string of
    type 5 must not be left as it is. *)
Lemma sdsIncrLen_spec s n :
  hdr_ok s → sdsalloc s < zlen (buf s) → - sdslen s ≤ n ≤ sdsalloc s - sdslen s →
  type_of (flags s) ≠ Some SDS_TYPE_5 →
  ∃ s', sdsIncrLen s n = Some s' ∧ rep s' (take (Z.to_nat (sdslen s + n)) (buf s)).
Proof.
  intros Hh Hbl Hn H5. destruct (hdr_len_alloc s Hh) as [Hal _]. pose proof Hh as (t & Ht & Hm).
  assert (Hne : t ≠ SDS_TYPE_5) by (intros ->; done).
  unfold sdsIncrLen. rewrite Ht.
  assert (Hinc : incr_ok t s n = true) by (apply incr_ok_true; [done|done|done|lia]).
  set (m := take (Z.to_nat (sdslen s + n)) (buf s)).
  assert (Hzm : zlen m = sdslen s + n) by (unfold m; rewrite zlen_take by lia; lia).
  destruct (in_block s m (drop (Z.to_nat (sdslen s + n)) (buf s)) Hh Hbl) as (x & E & Hx);
    [lia|by unfold m; rewrite take_drop|]. unfold m in E at 1. rewrite take_drop in E.
  assert (Hhl : hlen s = sdslen s) by (unfold sdslen; rewrite Ht; by destruct t).
  assert (Hmod : (hlen s + n) mod type_mod t = zlen m).
  { rewrite Hhl, Hzm. apply Z.mod_small. unfold sdsalloc in Hal, Hn. rewrite Ht in *. destruct t; [done|lia..]. }
  assert (E2 : sdssetlen (s <| buf := x |>) (zlen m) = s <| hlen := zlen m |> <| buf := x |>).
  { unfold sdssetlen. change (flags (s <| buf := x |>)) with (flags s). rewrite Ht.
    rewrite <- Hmod. destruct t; [done|..]; by rewrite Z.mod_mod by done. }
  rewrite E2 in Hx. destruct t; [done|..]; rewrite Hinc; cbn [assert_that mbind option_bind];
    rewrite Hmod; change (buf (s <| hlen := _ |>)) with (buf s); rewrite E; eexists; by split.
Qed.
(** ** Parts and bytes *)

Lemma mem_read_sub b r i n :
  0 ≤ i → 0 ≤ n → i + n ≤ zlen b → mem_read (b ++ r) i n = Some (take (Z.to_nat n) (drop (Z.to_nat i) b)).
Proof.
  intros Hi Hn Hl. unfold mem_read. rewrite zlen_app. pose proof (zlen_nonneg r).
  rewrite !(proj2 (Z.leb_le _ _)) by lia. cbn [andb]. f_equal. unfold zlen in Hl.
  rewrite drop_app_le by lia. rewrite take_app_le; [done|]. rewrite length_drop. lia.
Qed.

(** [len] bytes from [start] on become the string; sdssubstr and sdstrim end so. *)
Lemma moved_down s b start len (c : bool) :
  rep s b → 0 ≤ start → 0 ≤ len → start + len ≤ zlen b → (c = false → len = 0 ∨ start = 0) →
  let t := take (Z.to_nat len) (drop (Z.to_nat start) b) in
  ∃ m x, (if c then t ← mem_read (buf s) start len; mem_write (buf s) 0 t else Some (buf s)) = Some m ∧
    mem_write m len [NUL] = Some x ∧ rep (sdssetlen (s <| buf := x |>) len) t.
Proof.
  intros Hs Hst Hlen Hle Hc. cbv zeta. set (t := take _ _). pose proof (rep_alloc s b Hs) as Hal.
  destruct (rep_block s b Hs) as (r & Hb & Hbl).
  assert (Ht : zlen t = len) by (unfold t; rewrite zlen_take, zlen_drop by lia; lia).
  assert (Hm : ∃ m, (if c then t ← mem_read (buf s) start len; mem_write (buf s) 0 t else Some (buf s)) = Some (t ++ m) ∧
    zlen (t ++ m) = zlen (buf s)).
  { destruct c.
    - rewrite Hb, mem_read_sub by lia. cbn [mbind option_bind]. fold t.
      destruct (mem_write_start (b ++ NUL :: r) t) as (m & E & Hm); [lia|]. exists m. split; [done|].
      rewrite zlen_app, Hm. lia.
    - destruct (Hc eq_refl) as [-> | ->].
      + by exists (buf s).
      + exists (drop (Z.to_nat len) b ++ NUL :: r). rewrite Hb. unfold t. rewrite drop_0, app_assoc, take_drop. done. }
  destruct Hm as (m & -> & Hm). destruct (in_place s b t m Hs) as (x & E & Hx); [lia|done|].
  rewrite Ht in E, Hx. by exists (t ++ m), x.
Qed.

Lemma sdssubstr_mem_spec s b start len :
  rep s b → 0 ≤ start → 0 ≤ len → ∃ s', sdssubstr_mem s start len = Some s' ∧ rep s' (sdssubstr b start len).
Proof.
  intros Hs Hst Hlen. unfold sdssubstr_mem, sdssubstr. rewrite (rep_len s b Hs). fold (zlen b).
  pose proof (zlen_nonneg b).
  destruct (zlen b <=? start) eqn:E; zbool.
  - rewrite (proj2 (Z.ltb_ge (zlen b - 0) 0)) by lia.
    destruct (moved_down s b 0 0 false Hs) as (m & x & E1 & E2 & Hx); [lia..|by left|].
    injection E1 as <-. rewrite (proj2 (Z.ltb_ge 0 0)) by lia. cbn [mbind option_bind]. rewrite E2. eexists. by split.
  - set (n := if zlen b - start <? len then zlen b - start else len).
    assert (Hn : 0 ≤ n ∧ start + n ≤ zlen b) by (unfold n; destruct (Z.ltb_spec (zlen b - start) len); lia).
    destruct (moved_down s b start n (0 <? n) Hs) as (m & x & E1 & E2 & Hx);
      [lia..|intros ?; zbool; lia|]. rewrite E1. cbn [mbind option_bind]. rewrite E2. eexists. by split.
Qed.

Lemma sdsrange_mem_spec s b start end_ :
  rep s b → ∃ s', sdsrange_mem s start end_ = Some s' ∧ rep s' (sdsrange b start end_).
Proof.
  intros Hs. unfold sdsrange_mem, sdsrange. rewrite (rep_len s b Hs). fold (zlen b).
  destruct (zlen b =? 0); [by exists s|]. cbv zeta.
  apply sdssubstr_mem_spec; [done|unfold u64; apply Z.mod_pos_bound; lia..].
Qed.

Lemma byte_at_app a c r : byte_at (a ++ c :: r) (zlen a) = Some c.
Proof.
  pose proof (mem_read_app a [c] r (zlen a) eq_refl) as E. change (zlen [c]) with 1 in E. cbn [app] in E.
  unfold byte_at. by rewrite E.
Qed.

Lemma trim_left_spec cset a m r fuel :
  (length m < fuel)%nat →
  trim_left fuel (a ++ m ++ r) cset (zlen a) (zlen a + zlen m - 1) = Some (zlen a + zlen (take_while (in_cset cset) m)).
Proof.
  revert a m. induction fuel as [|fuel IH]; intros a [|c m] Hf; simpl in Hf; [lia..| |].
  - cbn [trim_left take_while]. change (zlen []) with 0. rewrite (proj2 (Z.leb_gt _ _)) by lia. f_equal. lia.
  - cbn [trim_left take_while]. rewrite zlen_cons. pose proof (zlen_nonneg m).
    rewrite (proj2 (Z.leb_le _ _)) by lia. cbn [app]. rewrite byte_at_app. cbn [mbind option_bind].
    destruct (in_cset cset c).
    + specialize (IH (a ++ [c]) m ltac:(lia)). rewrite <- app_assoc, zlen_app in IH. cbn [app] in IH.
      replace (zlen a + (1 + zlen m) - 1) with (zlen a + zlen [c] + zlen m - 1) by (unfold zlen; simpl; lia).
      change (zlen a + 1) with (zlen a + zlen [c]). rewrite IH, zlen_cons. f_equal. unfold zlen. simpl. lia.
    + f_equal. change (zlen []) with 0. lia.
Qed.

(** What the second loop leaves of the bytes from [sp] on *)
Definition trimmed (cset m : bytes) : bytes := reverse (drop_while (in_cset cset) (reverse m)).

Lemma trim_right_spec cset a x m r fuel :
  in_cset cset x = false → (length m < fuel)%nat →
  trim_right fuel (a ++ x :: m ++ r) cset (zlen a) (zlen a + zlen m) = Some (zlen a + zlen (trimmed cset (x :: m)) - 1).
Proof.
  intros Hx. revert m r. induction fuel as [|fuel IH]; intros m r Hf; [lia|].
  destruct m as [|y m _] using rev_ind.
  - cbn [trim_right]. change (zlen []) with 0. rewrite (proj2 (Z.ltb_ge _ _)) by lia.
    unfold trimmed. change (reverse [x]) with [x]. cbn [drop_while]. rewrite Hx. f_equal. change (zlen (reverse [x])) with 1. lia.
  - rewrite length_app in Hf. simpl in Hf. cbn [trim_right]. rewrite zlen_app. change (zlen [y]) with 1.
    pose proof (zlen_nonneg m). rewrite (proj2 (Z.ltb_lt _ _)) by lia.
    assert (Hb : byte_at (a ++ x :: (m ++ [y]) ++ r) (zlen a + (zlen m + 1)) = Some y).
    { replace (a ++ x :: (m ++ [y]) ++ r) with ((a ++ x :: m) ++ y :: r) by (by rewrite <- !app_assoc).
      replace (zlen a + (zlen m + 1)) with (zlen (a ++ x :: m)) by (rewrite zlen_app, zlen_cons; lia).
      apply byte_at_app. }
    rewrite Hb. cbn [mbind option_bind]. unfold trimmed.
    assert (Hrev : reverse (x :: m ++ [y]) = y :: reverse (x :: m)) by (change (x :: m ++ [y]) with ((x :: m) ++ [y]); by rewrite reverse_snoc).
    rewrite Hrev. cbn [drop_while]. destruct (in_cset cset y).
    + replace (zlen a + (zlen m + 1) - 1) with (zlen a + zlen m) by lia. rewrite <- app_assoc. cbn [app]. by apply IH; lia.
    + f_equal. unfold zlen. rewrite length_reverse. simpl. rewrite length_reverse. simpl. lia.
Qed.
Lemma trimmed_prefix cset m : ∃ r, m = trimmed cset m ++ r.
Proof.
  exists (reverse (take_while (in_cset cset) (reverse m))). unfold trimmed.
  by rewrite <- reverse_app, take_drop_while, reverse_involutive.
Qed.

Lemma sdstrim_mem_spec s b cset : rep s b → ∃ s', sdstrim_mem s cset = Some s' ∧ rep s' (sdstrim b cset).
Proof.
  intros Hs. destruct (rep_block s b Hs) as (r & Hb & _). unfold sdstrim_mem, sdstrim. rewrite (rep_len s b Hs), Hb.
  set (a := take_while (in_cset cset) b). set (m := drop_while (in_cset cset) b).
  assert (Hsplit : b = a ++ m) by (symmetry; apply take_drop_while).
  assert (Hz : zlen b = zlen a + zlen m) by (rewrite Hsplit at 1; apply zlen_app).
  assert (E1 : trim_left (S (Z.to_nat (zlen b))) (b ++ NUL :: r) cset 0 (zlen b - 1) = Some (zlen a)).
  { exact (trim_left_spec cset [] b (NUL :: r) (S (Z.to_nat (zlen b))) ltac:(unfold zlen; lia)). }
  rewrite E1. cbn [mbind option_bind]. fold (trimmed cset m).
  assert (E2 : trim_right (S (Z.to_nat (zlen b))) (b ++ NUL :: r) cset (zlen a) (zlen b - 1)
    = Some (zlen a + zlen (trimmed cset m) - 1)).
  { rewrite Hsplit at 2. rewrite <- app_assoc. destruct m as [|x m'] eqn:Em.
    - cbn [trim_right]. change (zlen []) with 0 in Hz. rewrite (proj2 (Z.ltb_ge _ _)) by lia.
      change (zlen (trimmed cset [])) with 0. f_equal. lia.
    - rewrite zlen_cons in Hz. replace (zlen b - 1) with (zlen a + zlen m') by lia. cbn [app].
      apply trim_right_spec; [by eapply drop_while_head|]. unfold zlen in *. lia. }
  rewrite E2. cbn [mbind option_bind]. destruct (trimmed_prefix cset m) as (m' & Hm).
  assert (Hzm : zlen m = zlen (trimmed cset m) + zlen m') by (rewrite Hm at 1; apply zlen_app).
  set (n := zlen (trimmed cset m)) in *. pose proof (zlen_nonneg m'). pose proof (zlen_nonneg a).
  assert (0 ≤ n) by apply zlen_nonneg.
  replace (zlen a + n - 1 - zlen a + 1) with n by lia. rewrite <- Hb.
  destruct (moved_down s b (zlen a) n (0 <? zlen a) Hs) as (x & y & E3 & E4 & Hx); [lia..|intros ?; zbool; right; lia|].
  rewrite E3. cbn [mbind option_bind]. rewrite E4. eexists. split; [done|].
  replace (trimmed cset m) with (take (Z.to_nat n) (drop (Z.to_nat (zlen a)) b)); [exact Hx|].
  unfold zlen. rewrite Nat2Z.id. rewrite Hsplit at 1. rewrite drop_app_length. rewrite Hm at 1. unfold n, zlen.
  by rewrite Nat2Z.id, take_app_length.
Qed.

Lemma map_bytes_spec f a m r : map_bytes (length m) f (zlen a) (a ++ m ++ r) = Some (a ++ map f m ++ r).
Proof.
  revert a. induction m as [|c m IH]; intros a; [done|]. cbn [map_bytes length map app]. rewrite byte_at_app. cbn [mbind option_bind].
  pose proof (mem_write_app a [c] [f c] (m ++ r) (zlen a) eq_refl eq_refl) as E. cbn [app] in E. rewrite E.
  cbn [mbind option_bind]. specialize (IH (a ++ [f c])). rewrite zlen_app, <- !app_assoc in IH. exact IH.
Qed.

Lemma sdsmap_spec s b f : rep s b → ∃ s', sdsmap s f = Some s' ∧ rep s' (map f b).
Proof.
  intros Hs. destruct (rep_block s b Hs) as (r & Hb & Hbl). unfold sdsmap. rewrite (rep_len s b Hs), Hb. unfold zlen at 1.
  rewrite Nat2Z.id. rewrite (map_bytes_spec f [] b (NUL :: r) : map_bytes _ _ 0 (b ++ _) = _). cbn [mbind option_bind].
  eexists. split; [done|]. destruct Hs as (Hh & Hl & _). assert (Hm : zlen (map f b) = zlen b) by (unfold zlen; by rewrite length_map).
  split; [exact Hh|]. split; [by rewrite Hm|]. split; [|by exists r].
  change (sdsalloc s < zlen (map f b ++ NUL :: r)). rewrite zlen_app, Hm, <- zlen_app. exact Hbl.
Qed.

(** ** Sequences of operations *)

(** What a function of the daemon does with a string it owns. [OpRead]: room is
    made, the kernel or the library stores bytes behind the string, and
    sdsIncrLen adds them to it. *)
Inductive sds_op :=
  | OpCat (t : bytes) | OpCpy (t : bytes) | OpGrowzero (n : Z) | OpClear | OpUpdatelen
  | OpRead (room : Z) (t : bytes) | OpTrim (cset : bytes) | OpRange (start end_ : Z)
  | OpToupper | OpTolower | OpMapchars (from to : bytes) | OpRemoveFreeSpace | OpResize (n : Z).

Definition run_op (s : t_sds) (op : sds_op) : option t_sds :=
  match op with
  | OpCat t => sdscatlen s t (zlen t)
  | OpCpy t => sdscpylen s t (zlen t)
  | OpGrowzero n => sdsgrowzero s n
  | OpClear => sdsclear s
  | OpUpdatelen => Some (sdsupdatelen s)
  | OpRead room t =>
      s ← sdsMakeRoomFor s room;
      b ← mem_write (buf s) (sdslen s) t;
      sdsIncrLen (s <| buf := b |>) (zlen t)
  | OpTrim cset => sdstrim_mem s cset
  | OpRange start end_ => sdsrange_mem s start end_
  | OpToupper => sdstoupper_mem s
  | OpTolower => sdstolower s
  | OpMapchars from to => sdsmapchars_mem s from to
  | OpRemoveFreeSpace => sdsRemoveFreeSpace s
  | OpResize n => sdsResize s n
  end.

(** The same on lists of bytes *)
Definition spec_op (b : bytes) (op : sds_op) : bytes :=
  match op with
  | OpCat t | OpRead _ t => b ++ t
  | OpCpy t => t
  | OpGrowzero n => b ++ replicate (Z.to_nat n - length b) NUL
  | OpClear => []
  | OpUpdatelen => c_str b
  | OpTrim cset => sdstrim b cset
  | OpRange start end_ => sdsrange b start end_
  | OpToupper => sdstoupper b
  | OpTolower => map tolower b
  | OpMapchars from to => sdsmapchars b from to
  | OpRemoveFreeSpace => b
  | OpResize n => take (Z.to_nat n) b
  end.

(** Sizes are not negative, and no more is stored than there is room. *)
Definition op_ok (op : sds_op) : Prop :=
  match op with
  | OpGrowzero n | OpResize n => 0 ≤ n
  | OpRead room t => 0 < room ∧ zlen t ≤ room
  | _ => True
  end.

Definition op_size (op : sds_op) : Z :=
  match op with
  | OpCat t | OpCpy t => zlen t
  | OpGrowzero n | OpResize n | OpRead n _ => n
  | _ => 0
  end.

Definition run_ops (s : t_sds) (ops : list sds_op) : option t_sds :=
  foldl (λ o op, s ← o; run_op s op) (Some s) ops.

Definition spec_ops (b : bytes) (ops : list sds_op) : bytes := foldl spec_op b ops.

Definition total_size (ops : list sds_op) : Z := foldr (λ op n, op_size op + n) 0 ops.

Lemma read_spec s b room t :
  rep s b → 0 < room → zlen t ≤ room → zlen b + room < SIZE_LIMIT →
  ∃ s', run_op s (OpRead room t) = Some s' ∧ rep s' (b ++ t).
Proof.
  intros Hs Hr Ht Hlim. cbn [run_op]. pose proof (zlen_nonneg t). pose proof (zlen_nonneg b).
  destruct (sdsMakeRoomFor_spec s b room Hs) as (s1 & -> & Hs1 & Ha); [lia|done|]. cbn [mbind option_bind].
  assert (Hroom : zlen b + room ≤ sdsalloc s1).
  { rewrite Ha. unfold grown, SDS_MAX_PREALLOC. repeat case_match_goal; zbool; lia. }
  rewrite (rep_len s1 b Hs1). destruct (rep_block s1 b Hs1) as (r & Hb & Hbl). rewrite Hb.
  destruct (mem_write_after b (NUL :: r) t) as (r2 & E & Hr2); [rewrite zlen_app in Hbl; lia|].
  rewrite E. cbn [mbind option_bind]. set (s2 := s1 <| buf := b ++ t ++ r2 |>).
  assert (Hl2 : sdslen s2 = zlen b) by exact (rep_len s1 b Hs1).
  assert (Hz2 : zlen (buf s2) = zlen (b ++ NUL :: r)).
  { change (buf s2) with (b ++ t ++ r2). rewrite !zlen_app, Hr2. lia. }
  destruct (sdsIncrLen_spec s2 (zlen t)) as (s' & E' & Hs').
  - apply Hs1.
  - rewrite Hz2. exact Hbl.
  - rewrite Hl2. change (sdsalloc s2) with (sdsalloc s1). lia.
  - intros H5. change (flags s2) with (flags s1) in H5. pose proof (rep_len s1 b Hs1) as Hl1.
    unfold sdslen, sdsalloc in *. rewrite H5 in *. lia.
  - rewrite E'. exists s'. split; [done|]. rewrite Hl2 in Hs'. change (buf s2) with (b ++ t ++ r2) in Hs'.
    rewrite <- zlen_app, app_assoc in Hs'. unfold zlen in Hs'. by rewrite Nat2Z.id, take_app_length in Hs'.
Qed.
Lemma zlen_c_str b : zlen (c_str b) ≤ zlen b.
Proof. unfold zlen, c_str. apply inj_le, length_take_while. Qed.

Lemma zlen_sdstrim b cset : zlen (sdstrim b cset) ≤ zlen b.
Proof.
  unfold sdstrim. set (m := drop_while (in_cset cset) b).
  assert (E : zlen b = zlen (take_while (in_cset cset) b) + zlen m) by (rewrite <- zlen_app; f_equal; symmetry; apply take_drop_while).
  destruct (trimmed_prefix cset m) as (r & Hm). fold (trimmed cset m).
  assert (E2 : zlen m = zlen (trimmed cset m) + zlen r) by (rewrite Hm at 1; apply zlen_app).
  pose proof (zlen_nonneg (take_while (in_cset cset) b)). pose proof (zlen_nonneg r). lia.
Qed.

Lemma zlen_sdsrange b i j : zlen (sdsrange b i j) ≤ zlen b.
Proof.
  unfold sdsrange. destruct (_ =? 0); [done|]. cbv zeta. unfold sdssubstr. case_match_goal.
  unfold zlen. rewrite length_take, length_drop. lia.
Qed.

Lemma zlen_spec_op b op : op_ok op → zlen (spec_op b op) ≤ zlen b + op_size op ∧ 0 ≤ op_size op.
Proof.
  intros Hok. pose proof (zlen_nonneg b). destruct op; cbn [spec_op op_size op_ok] in *; try pose proof (zlen_nonneg t).
  - rewrite zlen_app. lia.
  - lia.
  - rewrite zlen_app. unfold zlen. rewrite length_replicate. lia.
  - change (zlen []) with 0. lia.
  - pose proof (zlen_c_str b). lia.
  - rewrite zlen_app. lia.
  - pose proof (zlen_sdstrim b cset). lia.
  - pose proof (zlen_sdsrange b start end_). lia.
  - unfold zlen, sdstoupper. rewrite length_map. lia.
  - unfold zlen. rewrite length_map. lia.
  - unfold zlen, sdsmapchars. rewrite length_map. lia.
  - lia.
  - rewrite zlen_take by lia. lia.
Qed.

Lemma run_op_spec s b op :
  rep s b → op_ok op → zlen b + op_size op < SIZE_LIMIT → ∃ s', run_op s op = Some s' ∧ rep s' (spec_op b op).
Proof.
  intros Hs Hok Hlim. pose proof (zlen_nonneg b). destruct op; cbn [op_size] in Hlim.
  - pose proof (sdscatlen_spec s b t [] Hs) as Hc. rewrite app_nil_r in Hc. by apply Hc.
  - pose proof (sdscpylen_spec s b t [] Hs) as Hc. rewrite app_nil_r in Hc. apply Hc. lia.
  - cbn in Hok. apply sdsgrowzero_spec; [done|lia].
  - by eapply sdsclear_spec.
  - eexists. split; [done|]. by apply sdsupdatelen_spec.
  - destruct Hok. by apply read_spec.
  - by apply sdstrim_mem_spec.
  - by apply sdsrange_mem_spec.
  - by apply sdsmap_spec.
  - by apply sdsmap_spec.
  - by apply sdsmap_spec.
  - destruct (sdsRemoveFreeSpace_spec s b Hs) as (s' & E & Hs' & _). by exists s'.
  - cbn in Hok. apply sdsResize_spec; [done|lia].
Qed.

(** C38: The string library does on memory what the lists of bytes stand for.
    Any sequence of operations on a string, with headers, capacities and blocks
    as in the code, runs without leaving its block and without a failing
    assert, whatever new memory contains, and what it leaves represents the
    result of the same sequence on the bytes: as long as the sizes stay
    below 2^62, sdsIncrLen follows the sdsMakeRoomFor that made the room, and no
    more is stored than the room. *)
Theorem sds_ops_refine s b ops :
  rep s b → Forall op_ok ops → zlen b + total_size ops < SIZE_LIMIT →
  ∃ s', run_ops s ops = Some s' ∧ rep s' (spec_ops b ops).
Proof.
  unfold run_ops, spec_ops. intros Hs Hok. revert s b Hs. induction Hok as [|op ops Ho Hok IH]; intros s b Hs Hlim.
  { by exists s. }
  assert (Hpos : 0 ≤ total_size ops).
  { clear IH Hlim. unfold total_size. induction Hok as [|op' ops' H' _ IH]; cbn [foldr]; [lia|]. destruct (zlen_spec_op [] op' H') as [_ ?]. lia. }
  cbn [total_size foldr] in Hlim. destruct (zlen_spec_op b op Ho) as [Hz Hp].
  destruct (run_op_spec s b op Hs Ho) as (s1 & E & Hs1); [unfold total_size in Hpos; lia|].
  cbn [foldl mbind option_bind]. rewrite E. apply IH; [done|]. unfold total_size in *. lia.
Qed.
End spec.

(** ** Witness *)

#[export] Instance sim_malloc : Malloc.
Proof. refine {| uninit n := replicate (Z.to_nat n) "?"%char |}. intros n Hn. by apply zlen_replicate. Defined.

Definition sim_ops : list sds_op :=
  [OpRead 20 (bs "  gpioset 4 active "); OpTrim (bs " "); OpCat (bs ";"); OpRemoveFreeSpace;
   OpResize 40; OpToupper; OpRange 3 (-2); OpGrowzero 300].

Lemma sds_ops_refine_witness :
  ∃ s s', sdsempty = Some s ∧ run_ops s (OpRead 32 (bs "  gpioset 4 ") :: sim_ops) = Some s'.
Proof.
  destruct sdsempty_spec as (s & E & Hs). exists s.
  destruct (sds_ops_refine s [] (OpRead 32 (bs "  gpioset 4 ") :: sim_ops) Hs) as (s' & E' & _).
  - unfold sim_ops. repeat (apply Forall_cons; split; [cbn [op_ok]; first [exact I|split; [lia|by apply Z.leb_le]|lia]|]).
    apply Forall_nil_2.
  - reflexivity.
  - by exists s'.
Defined.
