(* ===== verification/SdsFmt.v ===== *)
(** * Numbers and formats in sds strings

    The functions of dist/sds/sds.c that print into a string: the digits of
    sdsll2str and sdsull2str in a buffer of 21 bytes, the buffers of
    sdscatvprintf, and the format interpreter of sdscatfmt, on the memory of
    SdsMem.v. *)

From S2P Require Import Prelude CLib Sds SdsMem.

(** ** Numbers *)

Definition SDS_LLSTR_SIZE : Z := 21.

(** The digits of [v] from [p] on, the last one first. *)
Fixpoint digits_go (fuel : nat) (m : bytes) (p v : Z) : option (bytes * Z) :=
  match fuel with
  | O => None
  | S fuel' =>
      m ← mem_write m p [chr (48 + v mod 10)];
      if v / 10 =? 0 then Some (m, p + 1) else digits_go fuel' m (p + 1) (v / 10)
  end.

(** Reverse the bytes from [s] to [p]. *)
Fixpoint reverse_go (fuel : nat) (m : bytes) (s p : Z) : option bytes :=
  match fuel with
  | O => None
  | S fuel' =>
      if s <? p then
        aux ← byte_at m s;
        c ← byte_at m p;
        m ← mem_write m s [c];
        m ← mem_write m p [aux];
        reverse_go fuel' m (s + 1) (p - 1)
      else Some m
  end.

(** A number below 2^64 has at most 20 digits: the fuel of both loops. *)
Definition digits_fuel : nat := 64.

(** NUL behind the bytes up to [p], which are reversed. *)
Definition finish_digits (m : bytes) (p : Z) : option (bytes * Z) :=
  m ← mem_write m p [NUL];
  m ← reverse_go digits_fuel m 0 (p - 1);
  Some (m, p).

Definition sdsull2str (m : bytes) (v : Z) : option (bytes * Z) :=
  '(m, p) ← digits_go digits_fuel m 0 v;
  finish_digits m p.

Definition sdsll2str (m : bytes) (value : Z) : option (bytes * Z) :=
  let v := if value <? 0 then (if value =? LONG_MIN then LONG_MAX + 1 else - value) else value in
  '(m, p) ← digits_go digits_fuel m 0 v;
  '(m, p) ← (if value <? 0 then m ← mem_write m p ["-"%char]; Some (m, p + 1) else Some (m, p));
  finish_digits m p.

Section fmt.
Context `{Malloc}.

Definition sdsfromlonglong (value : Z) : option t_sds :=
  '(b, len) ← sdsll2str (uninit SDS_LLSTR_SIZE) value;
  sdsnewlen (Init b) len.

(** ** vsnprintf *)

(** [out] is the whole output of the format. vsnprintf stores what fits with its
    NUL and returns the length of the whole, or -1 when that is no [int]. *)
Definition vsnprintf (b : bytes) (n : Z) (out : bytes) : option (bytes * Z) :=
  if INT_MAX <? zlen out then Some (b, -1)
  else if n <? 1 then Some (b, zlen out)
  else b ← mem_write b 0 (take (Z.to_nat (n - 1)) out ++ [NUL]); Some (b, zlen out).

(** The loop: a buffer that is too small is replaced by one for the length that
    vsnprintf returned. [None] inside: NULL. *)
Fixpoint vprintf_go (fuel : nat) (b : bytes) (buflen : Z) (out : bytes) : option (option (bytes * Z)) :=
  match fuel with
  | O => None
  | S fuel' =>
      '(b, bufstrlen) ← vsnprintf b buflen out;
      if bufstrlen <? 0 then Some None
      else if buflen <=? bufstrlen then vprintf_go fuel' (uninit (bufstrlen + 1)) (bufstrlen + 1) out
      else Some (Some (b, bufstrlen))
  end.

Definition STATICBUF : Z := 1024.

(** [fmtlen]: the length of the format *)
Definition sdscatvprintf (fuel : nat) (s : t_sds) (fmtlen : Z) (out : bytes) : option (option t_sds) :=
  let buflen := if STATICBUF <? u64 (fmtlen * 2) then u64 (fmtlen * 2) else STATICBUF in
  r ← vprintf_go fuel (uninit buflen) buflen out;
  match r with
  | None => Some None
  | Some (b, bufstrlen) => s ← sdscatlen s b bufstrlen; Some (Some s)
  end.

(** ** sdscatfmt *)

(** The arguments with the types that va_arg reads; another type is undefined. *)
Inductive fmt_arg :=
  | ArgInt (z : Z) | ArgLong (z : Z) | ArgLongLong (z : Z)
  | ArgUint (z : Z) | ArgUlong (z : Z) | ArgUlongLong (z : Z)
  | ArgStr (m : bytes) | ArgSds (s : t_sds).

(** [if (sdsavail(s) < n) s = sdsMakeRoomFor(s, n)] *)
Definition ensure (s : t_sds) (n : Z) : option t_sds :=
  if sdsavail s <? n then sdsMakeRoomFor s n else Some s.

(** [l] bytes of [t] are stored at [i] and counted. *)
Definition put (s : t_sds) (i : Z) (t : bytes) (l : Z) : option (t_sds * Z) :=
  t ← mem_read t 0 l;
  b ← mem_write (buf s) i t;
  Some (sdsinclen (s <| buf := b |>) l, i + l).

Definition put_text (s : t_sds) (i : Z) (t : bytes) (l : Z) : option (t_sds * Z) :=
  s ← ensure s l;
  put s i t l.

Definition put_number (s : t_sds) (i : Z) (r : option (bytes * Z)) : option (t_sds * Z) :=
  '(b, l) ← r;
  put_text s i b l.

(** One conversion: [next] is the character behind the per cent sign. *)
Definition put_conv (next : ascii) (args : list fmt_arg) (s : t_sds) (i : Z)
  : option (t_sds * Z * list fmt_arg) :=
  if ch next "c" then
    match args with
    | ArgInt z :: args => '(s, i) ← put s i [chr (z mod 256)] 1; Some (s, i, args)
    | _ => None
    end
  else if ch next "s" then
    match args with
    | ArgStr m :: args => '(s, i) ← put_text s i m (strlen m); Some (s, i, args)
    | _ => None
    end
  else if ch next "S" then
    match args with
    | ArgSds t :: args => '(s, i) ← put_text s i (buf t) (sdslen t); Some (s, i, args)
    | _ => None
    end
  else if ch next "i" || ch next "l" || ch next "I" then
    match args with
    | ArgInt z :: args =>
        if ch next "i" then '(s, i) ← put_number s i (sdsll2str (uninit SDS_LLSTR_SIZE) z); Some (s, i, args) else None
    | ArgLong z :: args =>
        if ch next "l" then '(s, i) ← put_number s i (sdsll2str (uninit SDS_LLSTR_SIZE) z); Some (s, i, args) else None
    | ArgLongLong z :: args =>
        if ch next "I" then '(s, i) ← put_number s i (sdsll2str (uninit SDS_LLSTR_SIZE) z); Some (s, i, args) else None
    | _ => None
    end
  else if ch next "u" || ch next "U" || ch next "L" then
    match args with
    | ArgUint z :: args =>
        if ch next "u" then '(s, i) ← put_number s i (sdsull2str (uninit SDS_LLSTR_SIZE) z); Some (s, i, args) else None
    | ArgUlong z :: args =>
        if ch next "L" then '(s, i) ← put_number s i (sdsull2str (uninit SDS_LLSTR_SIZE) z); Some (s, i, args) else None
    | ArgUlongLong z :: args =>
        if ch next "U" then '(s, i) ← put_number s i (sdsull2str (uninit SDS_LLSTR_SIZE) z); Some (s, i, args) else None
    | _ => None
    end
  else '(s, i) ← put s i [next] 1; Some (s, i, args).

(** The loop over the format, a C string without its NUL. *)
Fixpoint catfmt_go (fmt : bytes) (args : list fmt_arg) (s : t_sds) (i : Z) : option (t_sds * Z) :=
  match fmt with
  | [] => Some (s, i)
  | f :: fmt' =>
      s ← (if sdsavail s =? 0 then sdsMakeRoomFor s 1 else Some s);
      if ch f "%" then
        match fmt' with
        | [] => Some (s, i)
        | next :: fmt'' =>
            '(s, i, args) ← put_conv next args s i;
            catfmt_go fmt'' args s i
        end
      else
        '(s, i) ← put s i [f] 1;
        catfmt_go fmt' args s i
  end.

Definition sdscatfmt (s : t_sds) (fmt : bytes) (args : list fmt_arg) : option t_sds :=
  let initlen := sdslen s in
  s ← sdsMakeRoomFor s (strlen fmt * 2);
  '(s, i) ← catfmt_go (c_str fmt) args s initlen;
  b ← mem_write (buf s) i [NUL];
  Some (s <| buf := b |>).
End fmt.

(** ** Facts about the digits *)

(** The digits of a number, the last one first. *)
Fixpoint lsd (fuel : nat) (n : Z) : bytes :=
  match fuel with
  | O => []
  | S fuel' => chr (48 + n mod 10) :: if n / 10 =? 0 then [] else lsd fuel' (n / 10)
  end.

Lemma dec_go_lsd fuel n acc : dec_go fuel n acc = reverse (lsd fuel n) ++ acc.
Proof.
  revert n acc. induction fuel as [|fuel IH]; intros n acc; [done|]. cbn [dec_go lsd].
  rewrite reverse_cons, <- app_assoc. destruct (n / 10 =? 0); [done|]. apply IH.
Qed.

Lemma div10_bits n (k : nat) : 0 ≤ n < 2 ^ Z.of_nat (S k) → n / 10 ≠ 0 → 0 ≤ n / 10 < 2 ^ Z.of_nat k ∧ (0 < k)%nat.
Proof.
  intros Hn Hd. assert (H1 : 0 ≤ n / 10) by (apply Z.div_pos; lia).
  assert (H2 : n / 10 < 2 ^ Z.of_nat k).
  { apply Z.div_lt_upper_bound; [lia|]. rewrite Nat2Z.inj_succ, Z.pow_succ_r in Hn by lia. lia. }
  split; [lia|]. destruct k; [simpl in H2; lia|lia].
Qed.

Lemma lsd_fuel f f' n : 0 ≤ n < 2 ^ Z.of_nat f → n < 2 ^ Z.of_nat f' → (0 < f)%nat → (0 < f')%nat → lsd f n = lsd f' n.
Proof.
  revert f' n. induction f as [|f IH]; intros [|f'] n Hn Hn' Hf Hf'; try lia. cbn [lsd].
  destruct (Z.eqb_spec (n / 10) 0) as [|Hd]; [done|]. f_equal.
  destruct (div10_bits n f) as [? ?]; [done|done|]. destruct (div10_bits n f') as [? ?]; [lia|done|]. apply IH; lia.
Qed.

Lemma print_u_lsd n : 0 ≤ n < 2 ^ 64 → print_u n = reverse (lsd digits_fuel n).
Proof.
  intros Hn. unfold print_u. rewrite dec_go_lsd, app_nil_r. f_equal. apply lsd_fuel; [|exact (proj2 Hn)|lia|unfold digits_fuel; lia].
  split; [lia|]. rewrite Nat2Z.inj_succ, Z2Nat.id by apply Z.log2_nonneg.
  destruct (decide (n = 0)) as [->|]; [done|]. apply Z.log2_spec. lia.
Qed.

Lemma lsd_length f n (k : nat) : 0 ≤ n < 10 ^ Z.of_nat k → (0 < k)%nat → (length (lsd f n) ≤ k)%nat.
Proof.
  revert n k. induction f as [|f IH]; intros n k Hn Hk; cbn [lsd length]; [lia|].
  destruct (Z.eqb_spec (n / 10) 0) as [|Hd]; cbn [length]; [lia|].
  destruct k as [|k]; [lia|]. assert (Hd0 : 0 ≤ n / 10) by (apply Z.div_pos; lia).
  assert (Hd1 : n / 10 < 10 ^ Z.of_nat k).
  { apply Z.div_lt_upper_bound; [lia|]. rewrite Nat2Z.inj_succ, Z.pow_succ_r in Hn by lia. lia. }
  assert (0 < k)%nat by (destruct k; [simpl in Hd1; lia|lia]). specialize (IH (n / 10) k). lia.
Qed.

Lemma digits_go_spec fuel a x v :
  0 ≤ v < 2 ^ Z.of_nat fuel → (0 < fuel)%nat → zlen (lsd fuel v) ≤ zlen x →
  ∃ r, digits_go fuel (a ++ x) (zlen a) v = Some (a ++ lsd fuel v ++ r, zlen a + zlen (lsd fuel v)) ∧
    zlen r = zlen x - zlen (lsd fuel v).
Proof.
  revert a x v. induction fuel as [|fuel IH]; intros a x v Hv Hf Hx; [lia|]. cbn [digits_go lsd] in *.
  set (c := chr (48 + v mod 10)) in *. set (l := if v / 10 =? 0 then [] else lsd fuel (v / 10)) in *.
  rewrite zlen_cons in *. pose proof (zlen_nonneg l).
  destruct x as [|y x]; [change (zlen []) with 0 in Hx; lia|]. rewrite zlen_cons in *.
  pose proof (mem_write_app a [y] [c] x (zlen a) eq_refl eq_refl) as E. cbn [app] in E. rewrite E. cbn [mbind option_bind].
  subst l. destruct (Z.eqb_spec (v / 10) 0) as [|Hd].
  - exists x. change (zlen []) with 0. cbn [app]. split; [do 2 f_equal; lia|lia].
  - destruct (div10_bits v fuel Hv Hd) as [Hv' Hf'].
    destruct (IH (a ++ [c]) x (v / 10) Hv' Hf') as (r & E2 & Hr); [lia|].
    rewrite zlen_app, <- !app_assoc in E2. cbn [app] in E2. exists r. split; [|lia].
    change (zlen a + 1) with (zlen a + zlen [c]). rewrite E2. do 2 f_equal. change (zlen [c]) with 1. lia.
Qed.

Lemma reverse_go_spec fuel a x r :
  (length x < fuel)%nat → reverse_go fuel (a ++ x ++ r) (zlen a) (zlen a + zlen x - 1) = Some (a ++ reverse x ++ r).
Proof.
  revert a x r. induction fuel as [|fuel IH]; intros a x r Hf; [lia|]. cbn [reverse_go].
  destruct x as [|c x]; [rewrite (proj2 (Z.ltb_ge _ _)) by (change (zlen []) with 0; lia); done|].
  destruct x as [|d x _] using rev_ind.
  { rewrite (proj2 (Z.ltb_ge _ _)) by (change (zlen [c]) with 1; lia). done. }
  rewrite zlen_cons, zlen_app. change (zlen [d]) with 1. pose proof (zlen_nonneg x).
  rewrite (proj2 (Z.ltb_lt _ _)) by lia.
  replace (a ++ (c :: x ++ [d]) ++ r) with (a ++ c :: (x ++ d :: r)) by (cbn [app]; by rewrite <- app_assoc).
  rewrite byte_at_app. cbn [mbind option_bind].
  assert (Hp : zlen a + (1 + (zlen x + 1)) - 1 = zlen (a ++ c :: x)) by (rewrite zlen_app, zlen_cons; lia). rewrite Hp.
  assert (E1 : a ++ c :: x ++ d :: r = (a ++ c :: x) ++ d :: r) by (by rewrite <- app_assoc).
  rewrite E1 at 1. rewrite byte_at_app. cbn [mbind option_bind].
  pose proof (mem_write_app a [c] [d] (x ++ d :: r) (zlen a) eq_refl eq_refl) as E. cbn [app] in E. rewrite E. clear E.
  cbn [mbind option_bind]. assert (Hp2 : zlen (a ++ c :: x) = zlen (a ++ d :: x)) by (rewrite !zlen_app, !zlen_cons; lia).
  rewrite Hp2. pose proof (mem_write_app (a ++ d :: x) [d] [c] r _ eq_refl eq_refl) as E. rewrite <- app_assoc in E.
  cbn [app] in E. rewrite E. clear E. cbn [mbind option_bind].
  specialize (IH (a ++ [d]) x (c :: r)). rewrite zlen_app, <- !app_assoc in IH. cbn [app] in IH.
  replace (zlen (a ++ d :: x) - 1) with (zlen a + zlen [d] + zlen x - 1)
    by (rewrite zlen_app, zlen_cons; unfold zlen; simpl; lia).
  change (zlen a + 1) with (zlen a + zlen [d]). rewrite <- app_assoc. cbn [app]. rewrite IH.
  - rewrite reverse_cons, reverse_snoc. cbn [app]. by rewrite <- app_assoc.
  - cbn [length] in Hf. rewrite length_app in Hf. simpl in Hf. lia.
Qed.

Lemma finish_digits_spec x y :
  (length x < digits_fuel)%nat → 1 ≤ zlen y →
  ∃ r, finish_digits (x ++ y) (zlen x) = Some (reverse x ++ NUL :: r, zlen x) ∧ zlen r = zlen y - 1.
Proof.
  intros Hx Hy. unfold finish_digits. destruct (mem_write_after x y [NUL]) as (r & E & Hr); [done|].
  rewrite E. cbn [mbind option_bind]. exists r. split; [|done].
  pose proof (reverse_go_spec digits_fuel [] x ([NUL] ++ r) Hx) as E2. cbn [app] in E2 |- *.
  change (zlen [] + zlen x - 1) with (zlen x - 1) in E2. change (zlen []) with 0 in E2. rewrite E2. done.
Qed.

Lemma digits_20 v : 0 ≤ v < 2 ^ 64 → (length (lsd digits_fuel v) ≤ 20)%nat.
Proof. intros Hv. apply (lsd_length digits_fuel v 20); [|lia]. simpl in *. lia. Qed.

(** The buffer of 21 bytes is large enough for every number and its NUL. *)
Lemma sdsull2str_spec m v :
  0 ≤ v ≤ ULONG_MAX → SDS_LLSTR_SIZE ≤ zlen m →
  ∃ r, sdsull2str m v = Some (print_u v ++ NUL :: r, zlen (print_u v)) ∧ zlen (print_u v ++ NUL :: r) = zlen m.
Proof.
  unfold ULONG_MAX, SDS_LLSTR_SIZE. intros Hv Hm. assert (Hv64 : 0 ≤ v < 2 ^ 64) by (simpl; lia).
  pose proof (digits_20 v Hv64) as Hd.
  assert (Hdz : zlen (lsd digits_fuel v) ≤ 20) by (unfold zlen; lia).
  unfold sdsull2str. destruct (digits_go_spec digits_fuel [] m v Hv64) as (r & E & Hr); [unfold digits_fuel; lia|lia|].
  cbn [app] in E. change (zlen []) with 0 in E. rewrite Z.add_0_l in E. rewrite E. cbn [mbind option_bind].
  destruct (finish_digits_spec (lsd digits_fuel v) r) as (r2 & E2 & Hr2); [unfold digits_fuel in *; lia|lia|].
  rewrite print_u_lsd by done. rewrite E2. exists r2.
  assert (Hz : zlen (reverse (lsd digits_fuel v)) = zlen (lsd digits_fuel v)) by (unfold zlen; by rewrite length_reverse).
  rewrite zlen_app, zlen_cons, Hz. split; [done|lia].
Qed.

(** Also the smallest number, whose absolute value is no [long long], is
    printed as printf does, and with its sign it fills the buffer exactly. *)
Lemma sdsll2str_spec m v :
  LONG_MIN ≤ v ≤ LONG_MAX → SDS_LLSTR_SIZE ≤ zlen m →
  ∃ r, sdsll2str m v = Some (print_d v ++ NUL :: r, zlen (print_d v)) ∧ zlen (print_d v ++ NUL :: r) = zlen m.
Proof.
  unfold LONG_MIN, LONG_MAX, SDS_LLSTR_SIZE. intros Hv Hm. unfold sdsll2str, print_d, LONG_MIN, LONG_MAX.
  set (n := if v <? 0 then if v =? -9223372036854775808 then 9223372036854775807 + 1 else - v else v).
  assert (Hn : n = Z.abs v) by (subst n; destruct (Z.ltb_spec v 0), (Z.eqb_spec v (-9223372036854775808)); lia).
  rewrite Hn. clear n Hn. assert (Hv64 : 0 ≤ Z.abs v < 2 ^ 64) by (simpl; lia).
  assert (Hd : (length (lsd digits_fuel (Z.abs v)) ≤ 19)%nat).
  { apply (lsd_length digits_fuel _ 19); [|lia]. simpl in *. lia. }
  assert (Hdz : zlen (lsd digits_fuel (Z.abs v)) ≤ 19) by (unfold zlen; lia).
  destruct (digits_go_spec digits_fuel [] m (Z.abs v) Hv64) as (r & E & Hr); [unfold digits_fuel; lia|lia|].
  cbn [app] in E. change (zlen []) with 0 in E. rewrite Z.add_0_l in E. rewrite E. cbn [mbind option_bind].
  set (l := lsd digits_fuel (Z.abs v)) in *. assert (Hl : reverse l = print_u (Z.abs v)) by (by rewrite print_u_lsd). clearbody l.
  assert (Hz : ∀ x : bytes, zlen (reverse x) = zlen x) by (intros x; unfold zlen; by rewrite length_reverse).
  destruct (Z.ltb_spec v 0) as [Hneg|Hpos].
  - destruct (mem_write_after l r ["-"%char]) as (r1 & E1 & Hr1); [change (zlen ["-"%char]) with 1; lia|].
    change (zlen ["-"%char]) with 1 in Hr1. rewrite E1. cbn [mbind option_bind].
    destruct (finish_digits_spec (l ++ ["-"%char]) r1) as (r2 & E2 & Hr2);
      [rewrite length_app; cbn [length]; unfold digits_fuel; lia|lia|].
    rewrite zlen_app, <- app_assoc in E2. change (zlen ["-"%char]) with 1 in E2. rewrite E2. clear E2.
    rewrite reverse_snoc, Hl. replace (- v) with (Z.abs v) by lia. exists r2.
    assert (zlen (print_u (Z.abs v)) = zlen l) as Hp by (by rewrite <- Hl, Hz).
    rewrite zlen_app, !zlen_cons, Hp. split; [do 2 f_equal; lia|lia].
  - destruct (finish_digits_spec l r) as (r2 & E2 & Hr2); [unfold digits_fuel; lia|lia|].
    cbn [mbind option_bind]. rewrite E2, Hl. replace (Z.abs v) with v in * by lia. exists r2.
    assert (zlen (print_u v) = zlen l) as Hp by (by rewrite <- Hl, Hz).
    rewrite zlen_app, zlen_cons, Hp. split; [done|lia].
Qed.

(** ** Theorems *)

Section spec.
Context `{Malloc}.

Lemma zlen_print_d v : LONG_MIN ≤ v ≤ LONG_MAX → zlen (print_d v) ≤ 20.
Proof.
  intros Hv. destruct (sdsll2str_spec (replicate 21 NUL) v Hv) as (r & _ & E); [reflexivity|].
  rewrite zlen_app, zlen_cons in E. pose proof (zlen_nonneg r). change (zlen (replicate 21 NUL)) with 21 in E. lia.
Qed.

Lemma sdsfromlonglong_spec v : LONG_MIN ≤ v ≤ LONG_MAX → ∃ s, sdsfromlonglong v = Some s ∧ rep s (print_d v).
Proof.
  intros Hv. unfold sdsfromlonglong.
  destruct (sdsll2str_spec (uninit SDS_LLSTR_SIZE) v Hv) as (r & -> & _); [by rewrite uninit_length|].
  cbn [mbind option_bind]. apply sdsnewlen_spec. pose proof (zlen_print_d v Hv). unfold SIZE_LIMIT. lia.
Qed.

(** ** vsnprintf *)

Lemma vsnprintf_spec b n out :
  zlen out ≤ INT_MAX → 0 < n ≤ zlen b →
  ∃ b', vsnprintf b n out = Some (b', zlen out) ∧ (zlen out < n → ∃ r, b' = out ++ r).
Proof.
  intros Ho Hn. unfold vsnprintf. rewrite (proj2 (Z.ltb_ge _ _)) by lia. rewrite (proj2 (Z.ltb_ge n 1)) by lia.
  set (t := take (Z.to_nat (n - 1)) out).
  assert (Ht : zlen (t ++ [NUL]) ≤ n) by (unfold t; rewrite zlen_app, zlen_take by lia; change (zlen [NUL]) with 1; lia).
  destruct (mem_write_start b (t ++ [NUL])) as (r & E & _); [lia|]. rewrite E. cbn [mbind option_bind].
  eexists. split; [done|]. intros Hlt. exists (NUL :: r).
  assert (t = out) as -> by (apply take_ge; unfold zlen in *; lia). by rewrite <- app_assoc.
Qed.

(** At most two rounds: the second buffer has the size that the first asked for. *)
Lemma vprintf_go_spec fuel n out :
  (2 ≤ fuel)%nat → 0 < n → zlen out ≤ INT_MAX →
  ∃ b r, vprintf_go fuel (uninit n) n out = Some (Some (b, zlen out)) ∧ b = out ++ r.
Proof.
  intros Hf Hn Ho. pose proof (zlen_nonneg out) as H0. destruct fuel as [|[|fuel]]; [lia|lia|].
  cbn [vprintf_go]. destruct (vsnprintf_spec (uninit n) n out Ho) as (b & -> & Hb); [rewrite uninit_length; lia|].
  cbn [mbind option_bind]. rewrite (proj2 (Z.ltb_ge (zlen out) 0)) by lia. destruct (Z.leb_spec n (zlen out)) as [_|Hlt].
  - destruct (vsnprintf_spec (uninit (zlen out + 1)) (zlen out + 1) out Ho) as (b2 & -> & Hb2); [rewrite uninit_length; lia|].
    cbn [mbind option_bind]. rewrite (proj2 (Z.ltb_ge (zlen out) 0)), (proj2 (Z.leb_gt _ _)) by lia.
    destruct (Hb2 ltac:(lia)) as (r & Hr). by exists b2, r.
  - destruct (Hb Hlt) as (r & Hr). by exists b, r.
Qed.

Lemma sdscatvprintf_spec fuel s b fmtlen out :
  (2 ≤ fuel)%nat → rep s b → zlen out ≤ INT_MAX → zlen b + zlen out < SIZE_LIMIT →
  ∃ s', sdscatvprintf fuel s fmtlen out = Some (Some s') ∧ rep s' (b ++ out).
Proof.
  intros Hf Hs Ho Hlim. unfold sdscatvprintf. set (n := if STATICBUF <? u64 (fmtlen * 2) then u64 (fmtlen * 2) else STATICBUF).
  assert (Hn : 0 < n) by (subst n; unfold STATICBUF; destruct (Z.ltb_spec 1024 (u64 (fmtlen * 2))); lia).
  destruct (vprintf_go_spec fuel n out Hf Hn Ho) as (m & r & -> & ->). cbn [mbind option_bind].
  destruct (sdscatlen_spec s b out r Hs Hlim) as (s' & E & Hs'). rewrite E. by exists s'.
Qed.

(** Output of 2 GiB and more: NULL. *)
Lemma sdscatvprintf_null fuel s fmtlen out :
  (0 < fuel)%nat → INT_MAX < zlen out → sdscatvprintf fuel s fmtlen out = Some None.
Proof.
  intros Hf Ho. unfold sdscatvprintf. destruct fuel as [|fuel]; [lia|]. cbn [vprintf_go].
  unfold vsnprintf. by rewrite (proj2 (Z.ltb_lt INT_MAX (zlen out)) Ho). 
Qed.

(** ** sdscatfmt *)

Lemma sdsinclen_setlen s k :
  hdr_ok s → 0 ≤ k → sdslen s + k ≤ sdsalloc s → sdsinclen s k = sdssetlen s (sdslen s + k).
Proof.
  intros (t & Ht & Hs) Hk Hl. unfold sdsinclen, sdssetlen, sdslen, sdsalloc in *. rewrite Ht in *.
  destruct t; [|done..]. pose proof (len_5_range _ Hs) as Hr.
  assert (u8 (SDS_TYPE_5_LEN (flags s) + k) = SDS_TYPE_5_LEN (flags s) + k) as ->; [|done].
  unfold u8. apply Z.mod_small. lia.
Qed.
(** What the loop keeps: the bytes so far, with anything behind them. *)
Definition writing (s : t_sds) (i : Z) (b : bytes) : Prop := i = zlen b ∧ ∃ c, filled c s b.

Lemma setlen_alloc s n :
  hdr_ok s → sdslen s ≤ n ≤ sdsalloc s → sdsalloc (sdssetlen s n) = sdsalloc s.
Proof.
  intros Hh Hn. destruct (hdr_setlen s n Hh) as (_ & _ & Q & _); [pose proof (hdr_len_alloc s Hh); lia|].
  destruct Hh as (t & Ht & _). destruct s as [f l a m]. unfold sdsalloc, sdslen, sdssetlen in *. cbn in *.
  rewrite Ht in *. destruct t; cbn in *; rewrite ?Ht in *; [lia|done..].
Qed.

Lemma put_fits s i b t rest :
  writing s i b → zlen b + zlen t ≤ sdsalloc s →
  ∃ s' i', put s i (t ++ rest) (zlen t) = Some (s', i') ∧ writing s' i' (b ++ t) ∧ sdsalloc s' = sdsalloc s.
Proof.
  intros [-> (c & Hs)] Hroom. pose proof (zlen_nonneg t). pose proof Hs as (Hh & Hl & Hbl & r & Hb).
  unfold put. rewrite mem_read_prefix. cbn [mbind option_bind]. rewrite Hb in Hbl |- *.
  destruct (mem_write_after b (c :: r) t) as (r2 & E & Hr2); [rewrite zlen_app in Hbl; lia|].
  rewrite E. cbn [mbind option_bind]. eexists _, _. split; [done|].
  assert (Hr : 1 ≤ zlen r2) by (rewrite Hr2; rewrite zlen_app in Hbl; lia).
  destruct r2 as [|c2 r2]; [change (zlen []) with 0 in Hr; lia|]. set (s2 := s <| buf := b ++ t ++ c2 :: r2 |>).
  assert (Hl2 : sdslen s2 = zlen b) by done.
  rewrite sdsinclen_setlen; [|exact Hh|lia|rewrite Hl2; exact Hroom]. rewrite Hl2.
  destruct (hdr_setlen s2 (zlen b + zlen t)) as (Q1 & Q2 & Q3 & Q4); [exact Hh|pose proof (zlen_nonneg b); split; [lia|exact Hroom]|].
  split; [|apply (setlen_alloc s2); [exact Hh|rewrite Hl2; pose proof (zlen_nonneg t); split; [lia|exact Hroom]]].
  split; [by rewrite zlen_app|]. exists c2.
  split; [done|]. split; [by rewrite Q2, zlen_app|]. rewrite Q4. change (buf s2) with (b ++ t ++ c2 :: r2).
  split; [|exists r2; by rewrite <- app_assoc]. change (sdsalloc s2) with (sdsalloc s) in Q3.
  rewrite (zlen_app b (t ++ _)), (zlen_app t), Hr2. rewrite (zlen_app b) in Hbl. lia.
Qed.

Lemma put_spec s i b t rest :
  writing s i b → zlen b + zlen t ≤ sdsalloc s →
  ∃ s' i', put s i (t ++ rest) (zlen t) = Some (s', i') ∧ writing s' i' (b ++ t).
Proof. intros Hs Ht. destruct (put_fits s i b t rest Hs Ht) as (s' & i' & E & Hw & _). eauto. Qed.

Lemma put_text_spec s i b t rest :
  writing s i b → zlen b + zlen t < SIZE_LIMIT →
  ∃ s' i', put_text s i (t ++ rest) (zlen t) = Some (s', i') ∧ writing s' i' (b ++ t).
Proof.
  intros [-> (c & Hs)] Hlim. unfold put_text, ensure. pose proof (zlen_nonneg t). pose proof (zlen_nonneg b).
  rewrite (rep_avail s b Hs). destruct (Z.ltb_spec (sdsalloc s - zlen b) (zlen t)) as [Hlt|Hge].
  - destruct (sdsMakeRoomFor_spec s b (zlen t) Hs) as (s1 & -> & Hs1 & Ha); [done|done|]. cbn [mbind option_bind].
    apply put_spec; [split; [done|by exists c]|]. rewrite Ha. unfold grown, SDS_MAX_PREALLOC.
    repeat case_match_goal; zbool; lia.
  - cbn [mbind option_bind]. apply put_spec; [split; [done|by exists c]|lia].
Qed.

(** ** The meaning of a format *)

Definition sds_bytes (s : t_sds) : bytes := take (Z.to_nat (sdslen s)) (buf s).

(** The text of a conversion and the arguments that are left; [None]: the next
    argument has another type. *)
Definition conv_text (next : ascii) (args : list fmt_arg) : option (bytes * list fmt_arg) :=
  if ch next "c" then match args with ArgInt z :: args => Some ([chr (z mod 256)], args) | _ => None end
  else if ch next "s" then match args with ArgStr m :: args => Some (c_str m, args) | _ => None end
  else if ch next "S" then match args with ArgSds t :: args => Some (sds_bytes t, args) | _ => None end
  else if ch next "i" then match args with ArgInt z :: args => Some (print_d z, args) | _ => None end
  else if ch next "l" then match args with ArgLong z :: args => Some (print_d z, args) | _ => None end
  else if ch next "I" then match args with ArgLongLong z :: args => Some (print_d z, args) | _ => None end
  else if ch next "u" then match args with ArgUint z :: args => Some (print_u z, args) | _ => None end
  else if ch next "L" then match args with ArgUlong z :: args => Some (print_u z, args) | _ => None end
  else if ch next "U" then match args with ArgUlongLong z :: args => Some (print_u z, args) | _ => None end
  else Some ([next], args).

(** A per cent sign at the end prints nothing, an unknown conversion itself. *)
Fixpoint fmt_text (fmt : bytes) (args : list fmt_arg) : option bytes :=
  match fmt with
  | [] => Some []
  | f :: fmt' =>
      if ch f "%" then
        match fmt' with
        | [] => Some []
        | next :: fmt'' => '(t, args) ← conv_text next args; rest ← fmt_text fmt'' args; Some (t ++ rest)
        end
      else rest ← fmt_text fmt' args; Some (f :: rest)
  end.

(** Arguments in the ranges of their types; strings end within their memory. *)
Definition arg_ok (a : fmt_arg) : Prop :=
  match a with
  | ArgInt z | ArgLong z | ArgLongLong z => LONG_MIN ≤ z ≤ LONG_MAX
  | ArgUint z | ArgUlong z | ArgUlongLong z => 0 ≤ z ≤ ULONG_MAX
  | ArgStr m => ∃ r, m = c_str m ++ NUL :: r
  | ArgSds s => ∃ b, rep s b
  end.

Lemma sds_bytes_rep s b : rep s b → sds_bytes s = b.
Proof.
  intros Hs. destruct (rep_block s b Hs) as (r & Hb & _). unfold sds_bytes. rewrite (rep_len s b Hs), Hb.
  unfold zlen. by rewrite Nat2Z.id, take_app_length.
Qed.

Lemma put_signed s i b z :
  writing s i b → LONG_MIN ≤ z ≤ LONG_MAX → zlen b + zlen (print_d z) < SIZE_LIMIT →
  ∃ s' i', put_number s i (sdsll2str (uninit SDS_LLSTR_SIZE) z) = Some (s', i') ∧ writing s' i' (b ++ print_d z).
Proof.
  intros Hs Hz Hlim. destruct (sdsll2str_spec (uninit SDS_LLSTR_SIZE) z Hz) as (r & -> & _); [by rewrite uninit_length|].
  unfold put_number. cbn [mbind option_bind]. by apply put_text_spec.
Qed.

Lemma put_unsigned s i b z :
  writing s i b → 0 ≤ z ≤ ULONG_MAX → zlen b + zlen (print_u z) < SIZE_LIMIT →
  ∃ s' i', put_number s i (sdsull2str (uninit SDS_LLSTR_SIZE) z) = Some (s', i') ∧ writing s' i' (b ++ print_u z).
Proof.
  intros Hs Hz Hlim. destruct (sdsull2str_spec (uninit SDS_LLSTR_SIZE) z Hz) as (r & -> & _); [by rewrite uninit_length|].
  unfold put_number. cbn [mbind option_bind]. by apply put_text_spec.
Qed.

Lemma put_char s i b c :
  writing s i b → zlen b < sdsalloc s → ∃ s' i', put s i [c] 1 = Some (s', i') ∧ writing s' i' (b ++ [c]).
Proof. intros Hs Hr. apply (put_spec s i b [c] []); [done|]. change (zlen [c]) with 1. lia. Qed.

Lemma put_conv_spec next args t args' s i b :
  conv_text next args = Some (t, args') → Forall arg_ok args → writing s i b →
  zlen b < sdsalloc s → zlen b + zlen t < SIZE_LIMIT →
  ∃ s' i', put_conv next args s i = Some (s', i', args') ∧ writing s' i' (b ++ t) ∧ Forall arg_ok args'.
Proof.
  unfold conv_text, put_conv. intros E Hok Hs Hr Hlim.
  assert (Hchar : ∀ c, ∃ s' i', put s i [c] 1 = Some (s', i') ∧ writing s' i' (b ++ [c])) by (intros; by apply put_char).
  destruct (ch next "c").
  { destruct args as [|[] args]; try done. injection E as <- <-. apply Forall_cons in Hok as [_ Hok].
    destruct (Hchar (chr (z mod 256))) as (s' & i' & -> & Hw). by exists s', i'. }
  destruct (ch next "s").
  { destruct args as [|[] args]; try done. injection E as <- <-. apply Forall_cons in Hok as [(r & Hm) Hok].
    destruct (put_text_spec s i b (c_str m) (NUL :: r) Hs Hlim) as (s' & i' & E & Hw). rewrite <- Hm in E.
    unfold strlen. rewrite E. by exists s', i'. }
  destruct (ch next "S").
  { destruct args as [|[] args]; try done. injection E as <- <-. apply Forall_cons in Hok as [(b2 & Hb2) Hok].
    rewrite (sds_bytes_rep _ _ Hb2) in *. destruct (rep_block _ _ Hb2) as (r & Hbuf & _).
    destruct (put_text_spec s i b b2 (NUL :: r) Hs Hlim) as (s' & i' & E & Hw).
    rewrite (rep_len _ _ Hb2), Hbuf, E. by exists s', i'. }
  destruct (ch next "i"), (ch next "l"), (ch next "I"), (ch next "u"), (ch next "L"), (ch next "U"); cbn [orb];
    try (destruct args as [|[] args]; try done; injection E as <- <-; apply Forall_cons in Hok as [Hz Hok];
         first [destruct (put_signed s i b z Hs Hz Hlim) as (s' & i' & -> & Hw)
               |destruct (put_unsigned s i b z Hs Hz Hlim) as (s' & i' & -> & Hw)]; by exists s', i').
  all: injection E as <- <-; destruct (Hchar next) as (s' & i' & -> & Hw); by exists s', i'.
Qed.
Lemma room_for_one s i b :
  writing s i b → zlen b + 1 < SIZE_LIMIT →
  ∃ s1, (if sdsavail s =? 0 then sdsMakeRoomFor s 1 else Some s) = Some s1 ∧ writing s1 i b ∧ zlen b < sdsalloc s1.
Proof.
  intros [-> (c & Hs)] Hlim. rewrite (rep_avail s b Hs). pose proof (rep_alloc s b Hs).
  destruct (Z.eqb_spec (sdsalloc s - zlen b) 0) as [He|Hne].
  - destruct (sdsMakeRoomFor_spec s b 1 Hs) as (s1 & -> & Hs1 & Ha); [lia|done|]. exists s1. split; [done|].
    split; [split; [done|by exists c]|]. rewrite Ha. unfold grown, SDS_MAX_PREALLOC. repeat case_match_goal; zbool; lia.
  - exists s. split; [done|]. split; [split; [done|by exists c]|lia].
Qed.

Lemma catfmt_go_spec n fmt args t s i b :
  (length fmt ≤ n)%nat → fmt_text fmt args = Some t → Forall arg_ok args → writing s i b →
  zlen b + zlen t + 1 < SIZE_LIMIT →
  ∃ s' i', catfmt_go fmt args s i = Some (s', i') ∧ writing s' i' (b ++ t).
Proof.
  revert fmt args t s i b. induction n as [|n IH]; intros [|f fmt] args t s i b Hn Ht Hok Hs Hlim;
    cbn [length] in Hn; try lia; cbn [catfmt_go fmt_text] in *.
  1,2: injection Ht as <-; rewrite app_nil_r; by exists s, i.
  destruct (room_for_one s i b Hs) as (s1 & -> & Hs1 & Hr); [pose proof (zlen_nonneg t); lia|]. cbn [mbind option_bind].
  destruct (ch f "%").
  - destruct fmt as [|next fmt]; [injection Ht as <-; rewrite app_nil_r; by exists s1, i|].
    destruct (conv_text next args) as [[t1 args']|] eqn:Ec; [|done]. cbn [mbind option_bind] in Ht.
    destruct (fmt_text fmt args') as [t2|] eqn:Et; [|done]. injection Ht as <-. rewrite zlen_app in Hlim.
    pose proof (zlen_nonneg t1). pose proof (zlen_nonneg t2).
    destruct (put_conv_spec next args t1 args' s1 i b Ec Hok Hs1 Hr) as (s2 & i2 & -> & Hs2 & Hok'); [lia|].
    cbn [mbind option_bind]. rewrite app_assoc. cbn [length] in Hn.
    apply (IH fmt args' t2); [lia|done|done|done|]. rewrite zlen_app. lia.
  - destruct (fmt_text fmt args) as [t2|] eqn:Et; [|done]. injection Ht as <-. rewrite zlen_cons in Hlim.
    destruct (put_char s1 i b f Hs1 Hr) as (s2 & i2 & -> & Hs2). cbn [mbind option_bind].
    change (f :: t2) with ([f] ++ t2). rewrite app_assoc. apply (IH fmt args t2); [lia|done|done|done|].
    rewrite zlen_app. change (zlen [f]) with 1. lia.
Qed.

(** C39: sdscatfmt appends the text that its format means. For a format and
    arguments of the types that its conversions read, with numbers anywhere in
    their ranges, the interpreter appends exactly the text of the format
    ([fmt_text]): numbers in decimal, the smallest [long long] included, C
    strings up to their NUL, sds strings with their NULs, a per cent sign at the
    end nothing. It grows the string as it goes, never writes outside its block
    nor outside the 21 bytes in which it prints numbers, and leaves a string that
    ends with a NUL. *)
Theorem sdscatfmt_spec s b fmt rest args t :
  rep s b → no_nul fmt → fmt_text fmt args = Some t → Forall arg_ok args →
  zlen b + zlen fmt * 2 + zlen t + 1 < SIZE_LIMIT →
  ∃ s', sdscatfmt s (fmt ++ NUL :: rest) args = Some s' ∧ rep s' (b ++ t).
Proof.
  intros Hs Hf Ht Hok Hlim. unfold sdscatfmt. rewrite strlen_c_string, c_string, (rep_len s b Hs) by done.
  pose proof (zlen_nonneg fmt). pose proof (zlen_nonneg t).
  destruct (sdsMakeRoomFor_spec s b (zlen fmt * 2) Hs) as (s1 & -> & Hs1 & _); [lia|lia|]. cbn [mbind option_bind].
  destruct (catfmt_go_spec (length fmt) fmt args t s1 (zlen b) b) as (s2 & i2 & -> & -> & c & Hs2);
    [done|done|done|split; [done|by exists NUL]|lia|].
  cbn [mbind option_bind]. destruct Hs2 as (Hh & Hl & Hbl & r & Hb). rewrite Hb in Hbl |- *.
  pose proof (mem_write_app (b ++ t) [c] [NUL] r _ eq_refl eq_refl) as E. cbn [app] in E. rewrite E. cbn [mbind option_bind].
  eexists. split; [done|]. split; [exact Hh|]. split; [exact Hl|]. split; [|by exists r].
  change (sdsalloc s2 < zlen ((b ++ t) ++ NUL :: r)). rewrite zlen_app, zlen_cons in *. lia.
Qed.
End spec.

(** ** Witness *)

Lemma sdscatfmt_spec_witness :
  ∃ s s', sdsempty = Some s ∧
    sdscatfmt s (bs "%s:%i,%U%%%c%" ++ [NUL]) [ArgStr (bs "gpio" ++ [NUL]); ArgInt (-4); ArgUlongLong ULONG_MAX; ArgInt 65]
    = Some s' ∧ rep s' (bs "gpio:-4,18446744073709551615%A").
Proof.
  destruct sdsempty_spec as (s & E & Hs). exists s.
  destruct (sdscatfmt_spec s [] (bs "%s:%i,%U%%%c%") []
    [ArgStr (bs "gpio" ++ [NUL]); ArgInt (-4); ArgUlongLong ULONG_MAX; ArgInt 65]
    (bs "gpio:-4,18446744073709551615%A") Hs) as (s' & E' & Hs').
  - repeat constructor.
  - vm_compute. reflexivity.
  - unfold LONG_MIN, LONG_MAX, ULONG_MAX.
    repeat (apply Forall_cons; split; [first [by exists []|unfold arg_ok, LONG_MIN, LONG_MAX, ULONG_MAX; lia]|]). apply Forall_nil_2.
  - apply Z.ltb_lt. vm_compute. reflexivity.
  - exists s'. split; [done|]. split; [exact E'|exact Hs'].
Defined.
