(* ===== verification/SdsJson.v ===== *)
(** * Writing JSON strings into memory: json_print.c on the strings of sds.c

    The loop of sds_catjson_plain_len on the blocks of SdsMem.v. It appends the
    text of Sds.v as long as that fits behind the room that is made at its start,
    which it always does with at most ten characters to escape; otherwise it may
    write behind its block, since it looks for one free byte and then writes two. *)

From S2P Require Import Prelude CLib ParseUtil Sds SdsMem SdsFmt.

(** The cases of [escape_char]. *)
Ltac escapes E :=
  repeat lazymatch type of E with (if ?b then _ else _) = _ => destruct b end; try discriminate E.

Section json.
Context `{Malloc}.

(** [if (sdsavail(s) == 0) s = sdsMakeRoomFor(s, n)] *)
Definition make_room (s : t_sds) (n : Z) : option t_sds :=
  if sdsavail s =? 0 then sdsMakeRoomFor s n else Some s.

(** The loop over the bytes of the text. *)
Fixpoint catjson_go (p : bytes) (s : t_sds) (i : Z) : option (t_sds * Z) :=
  match p with
  | [] => Some (s, i)
  | c :: p =>
      '(s, i) ← match escape_char c with
                | Some escape => s ← make_room s 2; put s i escape 2
                | None =>
                    if ch c VT || ch c BEL then Some (s, i)
                    else s ← make_room s 1; put s i [c] 1
                end;
      catjson_go p s i
  end.

Definition sds_catjson_plain_len_mem (s : t_sds) (p : bytes) (len : Z) : option t_sds :=
  s ← sdsMakeRoomFor s (len + 10);
  p ← mem_read p 0 len;
  '(s, i) ← catjson_go p s (sdslen s);
  b ← mem_write (buf s) i [NUL];
  Some (s <| buf := b |>).

Definition sds_catjson_plain_mem (s : t_sds) (p : bytes) : option t_sds :=
  sds_catjson_plain_len_mem s p (strlen p).

Definition sds_catjson_len_mem (s : t_sds) (p : bytes) (len : Z) : option t_sds :=
  s ← sdsMakeRoomFor s (len + 10);
  s ← sdscatlen s [DQUOTE; NUL] 1;
  s ← sds_catjson_plain_len_mem s p len;
  sdscatlen s [DQUOTE; NUL] 1.

Definition sds_catjson_mem (s : t_sds) (p : bytes) : option t_sds := sds_catjson_len_mem s p (strlen p).

(** The characters that take two bytes. *)
Definition escaped (p : bytes) : Z := zlen (filter (λ c, is_Some (escape_char c)) p).

Definition json_body (p : bytes) : bytes := concat (map json_char p).

Lemma json_body_length p : zlen (json_body p) ≤ zlen p + escaped p.
Proof.
  unfold escaped, json_body. induction p as [|c p IH]; [done|].
  cbn [map concat]. rewrite zlen_app, zlen_cons, filter_cons.
  assert (Hc : zlen (json_char c) ≤ 2 ∧ (escape_char c = None → zlen (json_char c) ≤ 1)).
  { unfold json_char. destruct (escape_char c) as [e|] eqn:E.
    - split; [|done]. unfold escape_char in E. escapes E; by injection E as <-.
    - destruct (_ || _); by split. }
  destruct Hc as [H2 H1]. case_decide as Hd.
  - rewrite zlen_cons. lia.
  - rewrite <- eq_None_not_Some in Hd. specialize (H1 Hd). lia.
Qed.

Lemma make_room_none s b i n :
  writing s i b → zlen b + 1 ≤ sdsalloc s → make_room s n = Some s.
Proof.
  intros [_ (c & Hs)] Hr. unfold make_room. rewrite (rep_avail s b Hs).
  by rewrite (proj2 (Z.eqb_neq _ _)) by lia.
Qed.

(** The room suffices for all that is still to come. *)
Lemma catjson_go_spec p s i b :
  writing s i b → zlen b + zlen (json_body p) ≤ sdsalloc s →
  ∃ s' i', catjson_go p s i = Some (s', i') ∧ writing s' i' (b ++ json_body p) ∧ sdsalloc s' = sdsalloc s.
Proof.
  revert s i b. induction p as [|c p IH]; intros s i b Hs Hr.
  { exists s, i. cbn. by rewrite app_nil_r. }
  cbn [catjson_go]. unfold json_body in Hr |- *. cbn [map concat] in Hr |- *. fold (json_body p) in Hr |- *.
  rewrite zlen_app in Hr. pose proof (zlen_nonneg (json_body p)).
  assert (Hstep : ∀ t, t ≠ [] → zlen b + zlen t + zlen (json_body p) ≤ sdsalloc s →
    ∃ s' i', (s ← make_room s (zlen t); put s i t (zlen t)) = Some (s', i') ∧ writing s' i' (b ++ t) ∧
      sdsalloc s' = sdsalloc s).
  { intros t Ht Hrt. rewrite (make_room_none s b i) by (done || (destruct t; [done|]; rewrite zlen_cons in Hrt; pose proof (zlen_nonneg t); lia)).
    cbn [mbind option_bind]. destruct (put_fits s i b t [] Hs) as (s' & i' & E & Hw & Ha); [lia|].
    rewrite app_nil_r in E. by exists s', i'. }
  assert (Hone : ∃ s1 i1, match escape_char c with
                | Some escape => s ← make_room s 2; put s i escape 2
                | None => if ch c VT || ch c BEL then Some (s, i) else s ← make_room s 1; put s i [c] 1
                end = Some (s1, i1) ∧ writing s1 i1 (b ++ json_char c) ∧ sdsalloc s1 = sdsalloc s).
  { unfold json_char in *. destruct (escape_char c) as [e|] eqn:E.
    - assert (Hl : zlen e = 2) by (unfold escape_char in E; escapes E; by injection E as <-).
      rewrite <- Hl. apply Hstep; [by intros ->|lia].
    - destruct (_ || _); [exists s, i; by rewrite app_nil_r|]. by apply (Hstep [c]); [|lia]. }
  destruct Hone as (s1 & i1 & -> & Hs1 & Ha). cbn [mbind option_bind].
  destruct (IH s1 i1 (b ++ json_char c) Hs1) as (s' & i' & E & Hw & Ha'); [rewrite zlen_app; lia|].
  exists s', i'. rewrite app_assoc. split_and!; [done|done|congruence].
Qed.

(** Enough room for the text is made at the start, and the bytes stay in the block. *)
Lemma sds_catjson_plain_len_spec s b p rest :
  rep s b → zlen b + zlen p + 10 < SIZE_LIMIT →
  zlen b + zlen (json_body p) ≤ grown (sdsalloc s) (zlen b + zlen p + 10) →
  ∃ s', sds_catjson_plain_len_mem s (p ++ rest) (zlen p) = Some s' ∧ rep s' (sds_catjson_plain_len b p).
Proof.
  intros Hs Hlim Hfit. pose proof (zlen_nonneg p). unfold sds_catjson_plain_len_mem.
  destruct (sdsMakeRoomFor_spec s b (zlen p + 10) Hs) as (s1 & -> & Hs1 & Ha); [lia|lia|].
  cbn [mbind option_bind]. rewrite mem_read_prefix. cbn [mbind option_bind].
  rewrite Z.add_assoc in Ha. rewrite <- Ha in Hfit.
  destruct (catjson_go_spec p s1 (sdslen s1) b) as (s2 & i & -> & [-> (c & Hs2)] & _).
  { split; [by apply (rep_len (c := NUL) s1 b)|by exists NUL]. } { done. }
  cbn [mbind option_bind]. destruct Hs2 as (Hh & Hl & Hbl & r & Hb). rewrite Hb in Hbl |- *.
  destruct (write_nul (b ++ json_body p) (c :: r)) as (r' & E & Hr').
  { rewrite (zlen_app (b ++ _)), zlen_cons. pose proof (zlen_nonneg r). lia. }
  rewrite E. cbn [mbind option_bind]. eexists. split; [done|]. split; [exact Hh|]. split; [exact Hl|].
  change (buf (s2 <| buf := ?x |>)) with x. change (sdsalloc (s2 <| buf := _ |>)) with (sdsalloc s2).
  split; [by rewrite Hr'|]. by exists r'.
Qed.

Lemma grown_need alloc need : 0 ≤ need → need ≤ grown alloc need.
Proof. intros Hn. unfold grown, SDS_MAX_PREALLOC. repeat case_match_goal; zbool; lia. Qed.

(** Quoted text with at most ten characters to escape is appended as Sds.v says,
    inside the block. *)
Theorem sds_catjson_len_refines s b p rest :
  rep s b → escaped p ≤ 10 → zlen b + zlen p + 20 < SIZE_LIMIT →
  ∃ s', sds_catjson_len_mem s (p ++ rest) (zlen p) = Some s' ∧ rep s' (sds_catjson_len b p).
Proof.
  intros Hs He Hlim. pose proof (zlen_nonneg p). pose proof (zlen_nonneg b). unfold sds_catjson_len_mem, sds_catjson_len.
  destruct (sdsMakeRoomFor_spec s b (zlen p + 10) Hs) as (s1 & -> & Hs1 & _); [lia|lia|].
  cbn [mbind option_bind].
  destruct (sdscatlen_spec s1 b [DQUOTE] [NUL] Hs1) as (s2 & E2 & Hs2); [change (zlen [DQUOTE]) with 1; lia|].
  change (sdscatlen s1 [DQUOTE; NUL] 1) with (sdscatlen s1 ([DQUOTE] ++ [NUL]) (zlen [DQUOTE])). rewrite E2.
  cbn [mbind option_bind]. pose proof (json_body_length p).
  assert (Hz : zlen (b ++ [DQUOTE]) = zlen b + 1) by (by rewrite zlen_app).
  destruct (sds_catjson_plain_len_spec s2 (b ++ [DQUOTE]) p rest Hs2) as (s3 & -> & Hs3); [lia| |].
  { etrans; [|apply grown_need]; lia. }
  cbn [mbind option_bind].
  destruct (sdscatlen_spec s3 _ [DQUOTE] [NUL] Hs3) as (s4 & E4 & Hs4).
  { unfold sds_catjson_plain_len. fold (json_body p). rewrite zlen_app, Hz. change (zlen [DQUOTE]) with 1. lia. }
  exists s4. split; [exact E4|exact Hs4].
Qed.

Lemma sds_catjson_refines s b p rest :
  rep s b → no_nul p → escaped p ≤ 10 → zlen b + zlen p + 20 < SIZE_LIMIT →
  ∃ s', sds_catjson_mem s (p ++ NUL :: rest) = Some s' ∧ rep s' (sds_catjson b p).
Proof.
  intros Hs Hp He Hlim. unfold sds_catjson_mem, sds_catjson. rewrite strlen_c_string, c_str_id by done.
  by apply sds_catjson_len_refines.
Qed.
End json.

(** ** The room that is not there

    A string of 20 bytes in a block for 42, and eleven quotation marks: after ten
    of them one byte is left, and the eleventh is written as two. The length is
    then larger than the block, and the NUL is written behind it. With ten, or in
    a block that has just grown, all is well. *)
Definition tight : option t_sds :=
  s ← sdsempty;
  s ← sdsMakeRoomFor s 21;
  sdscatlen s (replicate 20 "a"%char) 20.

Definition quotes (n : nat) : bytes := replicate n DQUOTE ++ [NUL].

Theorem sds_catjson_overflow :
  match tight with
  | Some s => take 21 (buf s) = replicate 20 "a"%char ++ [NUL] ∧ sdslen s = 20 ∧ sdsalloc s = 42 ∧
      zlen (buf s) = 43 ∧
      sds_catjson_mem s (quotes 11) = None ∧ is_Some (sds_catjson_mem s (quotes 10))
  | None => False
  end.
Proof.
  vm_compute. split_and!; try done. by eexists.
Qed.
