(* ===== verification/SdsText.v ===== *)
(** * Comparing, splitting and quoting sds strings

    The functions of dist/sds/sds.c that read strings: sdscmp, sdssplitlen and
    the quoting of sdscatrepr, which sdssplitargs undoes. *)

From S2P Require Import Prelude CLib Sds SdsMem.

(** ** Comparison *)

(** The sign of memcmp on [n] bytes *)
Fixpoint memcmp (n : nat) (a b : bytes) : Z :=
  match n, a, b with
  | S n', x :: a', y :: b' => if code x <? code y then -1 else if code y <? code x then 1 else memcmp n' a' b'
  | _, _, _ => 0
  end.

Definition sdscmp (s1 s2 : bytes) : Z :=
  let l1 := zlen s1 in
  let l2 := zlen s2 in
  let minlen := if l1 <? l2 then l1 else l2 in
  let cmp := memcmp (Z.to_nat minlen) s1 s2 in
  if cmp =? 0 then (if l2 <? l1 then 1 else if l1 <? l2 then -1 else 0) else cmp.

(** ** Splitting *)

(** [tokens[elements] = t], within [slots] *)
Definition store (slots : nat) (tokens : list bytes) (t : bytes) : option (list bytes) :=
  if (length tokens <? slots)%nat then Some (tokens ++ [t]) else None.

(** The loop at [j]; the token being read begins at [start]. *)
Fixpoint split_go (fuel : nat) (s sep : bytes) (slots : nat) (tokens : list bytes) (start j : nat)
  : option (list bytes) :=
  match fuel with
  | O => None
  | S fuel' =>
      if (j + length sep <=? length s)%nat then
        let slots := (if slots <? length tokens + 2 then slots * 2 else slots)%nat in
        if bool_decide (take (length sep) (drop j s) = sep) then
          tokens ← store slots tokens (take (j - start) (drop start s));
          split_go fuel' s sep slots tokens (j + length sep) (j + length sep)
        else split_go fuel' s sep slots tokens start (S j)
      else store slots tokens (drop start s)
  end.

(** [Some []] stands for NULL and a count of 0. *)
Definition sdssplitlen (s sep : bytes) : option (list bytes) :=
  if (length sep <? 1)%nat || (length s <=? 0)%nat then Some []
  else split_go (S (length s)) s sep 5 [] 0 0.

Definition sdsjoin (argv : list bytes) (sep : bytes) : bytes := sdsjoinsds (map c_str argv) (c_str sep).

(** ** Quoting *)

Definition isprint (c : ascii) : bool := (32 <=? code c) && (code c <=? 126).

(** A digit of [printf("%02x")] *)
Definition hex_char (d : Z) : ascii := if d <? 10 then chr (48 + d) else chr (87 + d).

Definition repr_char (c : ascii) : bytes :=
  if ch c BACKSLASH || ch c DQUOTE then [BACKSLASH; c]
  else if ch c LF then BACKSLASH :: bs "n"
  else if ch c CR then BACKSLASH :: bs "r"
  else if ch c TAB then BACKSLASH :: bs "t"
  else if ch c BEL then BACKSLASH :: bs "a"
  else if ch c BS then BACKSLASH :: bs "b"
  else if isprint c then [c]
  else BACKSLASH :: "x"%char :: [hex_char (code c / 16); hex_char (code c mod 16)].

Definition sdscatrepr (s p : bytes) : bytes := s ++ [DQUOTE] ++ concat (map repr_char p) ++ [DQUOTE].

Definition sdsneedsrepr (s : bytes) : bool :=
  existsb (λ c, ch c BACKSLASH || ch c DQUOTE || ch c LF || ch c CR || ch c TAB || ch c BEL || ch c BS
                || negb (isprint c) || isspace c) s.

(** ** Facts about comparison *)

Lemma memcmp_antisym n a b : memcmp n a b = - memcmp n b a.
Proof.
  revert a b. induction n as [|n IH]; intros [|x a] [|y b]; try done. cbn [memcmp].
  destruct (Z.ltb_spec (code x) (code y)), (Z.ltb_spec (code y) (code x)); try lia. apply IH.
Qed.

Lemma memcmp_eq n a b : length a = n → length b = n → memcmp n a b = 0 → a = b.
Proof.
  revert a b. induction n as [|n IH]; intros [|x a] [|y b] Ha Hb E; try done. cbn [memcmp] in E.
  destruct (Z.ltb_spec (code x) (code y)), (Z.ltb_spec (code y) (code x)); try done.
  f_equal; [apply code_inj; lia|]. simpl in *. apply IH; [lia..|done].
Qed.

Lemma memcmp_refl n a : memcmp n a a = 0.
Proof. pose proof (memcmp_antisym n a a). lia. Qed.

Lemma sdscmp_spec a b : (sdscmp a b = 0 ↔ a = b) ∧ sdscmp a b = - sdscmp b a.
Proof.
  unfold sdscmp. split.
  - split; [|intros ->; by rewrite Z.ltb_irrefl, memcmp_refl].
    set (n := Z.to_nat _). destruct (Z.eqb_spec (memcmp n a b) 0) as [E|]; [|done].
    unfold n in *. destruct (Z.ltb_spec (zlen a) (zlen b)), (Z.ltb_spec (zlen b) (zlen a)); try lia.
    intros _. unfold zlen in *. eapply memcmp_eq; [..|exact E]; lia.
  - assert (E : (if zlen a <? zlen b then zlen a else zlen b) = (if zlen b <? zlen a then zlen b else zlen a))
      by (destruct (Z.ltb_spec (zlen a) (zlen b)), (Z.ltb_spec (zlen b) (zlen a)); lia).
    rewrite E. set (n := Z.to_nat _). rewrite (memcmp_antisym n a b).
    destruct (Z.eqb_spec (memcmp n b a) 0) as [->|]; simpl.
    + destruct (Z.ltb_spec (zlen a) (zlen b)), (Z.ltb_spec (zlen b) (zlen a)); lia.
    + rewrite (proj2 (Z.eqb_neq _ _)) by lia. done.
Qed.

(** ** Facts about splitting *)

(** [sep] occurs in [t]. *)
Definition occurs (sep t : bytes) : Prop := ∃ a b, t = a ++ sep ++ b.

Lemma sdsjoinsds_split ts x y sep :
  sdsjoinsds (ts ++ [x; y]) sep = sdsjoinsds (ts ++ [x ++ sep ++ y]) sep.
Proof.
  induction ts as [|t ts IH]; [done|]. cbn [app]. 
  assert (Hne : ∀ u v, ts ++ u :: v ≠ []) by (intros u v; by destruct ts).
  assert (Hj : ∀ l, l ≠ [] → sdsjoinsds (t :: l) sep = t ++ sep ++ sdsjoinsds l sep) by (intros []; done).
  by rewrite !Hj, IH by apply Hne.
Qed.

(** The tokens so far, the token from [start] on and the positions from [start]
    to [j], at which [sep] does not begin. *)
Definition split_inv (s sep : bytes) (slots : nat) (tokens : list bytes) (start j : nat) : Prop :=
  (length tokens < slots)%nat ∧ (start ≤ j)%nat ∧
  sdsjoinsds (tokens ++ [drop start s]) sep = s ∧ Forall (λ t, ¬ occurs sep t) tokens ∧
  ∀ p, (start ≤ p < j)%nat → take (length sep) (drop p s) ≠ sep.

Lemma occurs_at s sep start n :
  sep ≠ [] → occurs sep (take n (drop start s)) →
  ∃ p, (start ≤ p)%nat ∧ (p + length sep ≤ start + n)%nat ∧ (p + length sep ≤ length s)%nat ∧
    take (length sep) (drop p s) = sep.
Proof.
  intros Hsep (a & b & E). exists (start + length a)%nat.
  assert (Hl : (length a + (length sep + length b) = Nat.min n (length s - start))%nat).
  { apply (f_equal length) in E. rewrite length_take, length_drop, !length_app in E. lia. }
  split; [lia|]. split; [lia|]. split; [destruct sep; [done|]; simpl in *; lia|].
  rewrite <- drop_drop. rewrite <- (take_drop n (drop start s)), E, <- !app_assoc.
  by rewrite drop_app_length, take_app_length.
Qed.

Lemma split_go_spec fuel s sep slots tokens start j :
  sep ≠ [] → (length s - j < fuel)%nat → (j ≤ length s)%nat → split_inv s sep slots tokens start j →
  ∃ ts, split_go fuel s sep slots tokens start j = Some ts ∧ sdsjoinsds ts sep = s ∧ Forall (λ t, ¬ occurs sep t) ts.
Proof.
  intros Hsep. revert slots tokens start j. induction fuel as [|fuel IH]; intros slots tokens start j Hf Hj Hinv; [lia|].
  destruct Hinv as (Hslots & Hsj & Hjoin & Hts & Hno). cbn [split_go].
  assert (Hsl : (0 < length sep)%nat) by (destruct sep; simpl; [done|lia]).
  destruct (Nat.leb_spec (j + length sep) (length s)) as [Hle|Hgt].
  - set (slots' := (if (slots <? length tokens + 2)%nat then (slots * 2)%nat else slots)).
    assert (Hs' : (length tokens + 2 ≤ slots')%nat) by (unfold slots'; destruct (Nat.ltb_spec slots (length tokens + 2)); lia).
    case_bool_decide as Hm.
    + unfold store. rewrite (proj2 (Nat.ltb_lt _ _)) by lia. cbn [mbind option_bind]. apply IH; [lia|lia|].
      split_and!; [rewrite length_app; simpl; lia|lia| |..|lia].
      * assert (Hx : take (j - start) (drop start s) ++ sep ++ drop (j + length sep) s = drop start s).
        { rewrite <- drop_drop.
          assert (sep ++ drop (length sep) (drop j s) = drop j s) as -> by (rewrite <- Hm at 1; apply take_drop).
          replace (drop j s) with (drop (j - start) (drop start s)) by (rewrite drop_drop; f_equal; lia). apply take_drop. }
        rewrite <- app_assoc. cbn [app]. by rewrite sdsjoinsds_split, Hx.
      * apply Forall_app. split; [done|]. apply Forall_singleton. intros (p & Hp & Hpj & _ & E)%(occurs_at _ _ _ _ Hsep).
        apply (Hno p); [lia|done].
    + apply IH; [lia|lia|]. split_and!; [lia|lia|done|done|]. intros p Hp.
      destruct (decide (p = j)) as [->|]; [done|]. apply Hno. lia.
  - unfold store. rewrite (proj2 (Nat.ltb_lt _ _)) by lia. eexists. split; [done|]. split; [done|].
    apply Forall_app. split; [done|]. apply Forall_singleton.
    rewrite <- (take_ge (drop start s) (length s)) by (rewrite length_drop; lia).
    intros (p & Hp & _ & Hpl & E)%(occurs_at _ _ _ _ Hsep). apply (Hno p); [lia|done].
Qed.

(** sdssplitlen undone by joining: for a string and a separator that are not
    empty, the array always has room for the next token, joining the tokens with the
    separator gives the string, and the separator occurs in no token. *)
Lemma sdssplitlen_join s sep :
  s ≠ [] → sep ≠ [] →
  ∃ ts, sdssplitlen s sep = Some ts ∧ sdsjoinsds ts sep = s ∧ Forall (λ t, ¬ occurs sep t) ts.
Proof.
  intros Hs Hsep. unfold sdssplitlen. rewrite (proj2 (Nat.ltb_ge _ _)), (proj2 (Nat.leb_gt _ _))
    by (destruct s, sep; simpl; done || lia). cbn [orb].
  apply split_go_spec; [done|lia|lia|]. split_and!; [simpl; lia|lia|done|constructor|lia].
Qed.

(** ** Facts about quoting *)

Lemma hex_char_ok d : 0 ≤ d < 16 → is_hex_digit (hex_char d) = true ∧ hex_digit_to_int (hex_char d) = d.
Proof.
  intros Hd. unfold hex_char, is_hex_digit, hex_digit_to_int.
  destruct (Z.ltb_spec d 10); rewrite code_chr by lia; split; repeat case_match_goal; zbool; lia.
Qed.

(** A backslash and a character that begins no hexadecimal escape *)
Lemma inq_escape e cur vec r :
  ch e "x" = false →
  splitargs_go SM_INQ cur vec (BACKSLASH :: e :: r) = splitargs_go SM_INQ (cur ++ [unescape_char e]) vec r.
Proof.
  intros He. cbn [splitargs_go]. rewrite ch_refl. by destruct r as [|h1 [|h2 r]]; rewrite ?He.
Qed.

Lemma repr_char_unescape c cur vec r :
  splitargs_go SM_INQ cur vec (repr_char c ++ r) = splitargs_go SM_INQ (cur ++ [c]) vec r.
Proof.
  unfold repr_char. destruct (ch c BACKSLASH || ch c DQUOTE) eqn:E1.
  { apply orb_true_iff in E1 as [->%ch_true | ->%ch_true]; cbn [app]; by rewrite inq_escape. }
  apply orb_false_iff in E1 as [E1 E2].
  destruct (ch c LF) eqn:E; [apply ch_true in E as ->; by apply (inq_escape "n")|]. clear E.
  destruct (ch c CR) eqn:E; [apply ch_true in E as ->; by apply (inq_escape "r")|]. clear E.
  destruct (ch c TAB) eqn:E; [apply ch_true in E as ->; by apply (inq_escape "t")|]. clear E.
  destruct (ch c BEL) eqn:E; [apply ch_true in E as ->; by apply (inq_escape "a")|]. clear E.
  destruct (ch c BS) eqn:E; [apply ch_true in E as ->; by apply (inq_escape "b")|]. clear E.
  destruct (isprint c); cbn [app].
  { cbn [splitargs_go]. by rewrite E1, E2. }
  pose proof (code_range c) as Hc.
  destruct (hex_char_ok (code c / 16)) as [H1 V1]; [split; [apply Z.div_pos; lia|apply Z.div_lt_upper_bound; lia]|].
  destruct (hex_char_ok (code c mod 16)) as [H2 V2]; [apply Z.mod_pos_bound; lia|].
  cbn [splitargs_go]. rewrite ch_refl, H1, H2, V1, V2. change (ch "x" "x") with true. cbn [andb].
  replace (code c / 16 * 16 + code c mod 16) with (code c); [by rewrite chr_code|].
  rewrite Z.mul_comm. apply Z.div_mod. lia.
Qed.

Lemma repr_unescape w cur vec r :
  splitargs_go SM_INQ cur vec (concat (map repr_char w) ++ r) = splitargs_go SM_INQ (cur ++ w) vec r.
Proof.
  revert cur. induction w as [|c w IH]; intros cur; [by rewrite app_nil_r|].
  cbn [map concat]. rewrite <- app_assoc, repr_char_unescape, IH. by rewrite <- app_assoc.
Qed.

(** A quoted argument is read as it was, whatever bytes it has. *)
Lemma splitargs_repr w vec r :
  quote_end_ok r = true →
  splitargs_go SM_SKIP [] vec (sdscatrepr [] w ++ r) = splitargs_go SM_SKIP [] (vec ++ [w]) r.
Proof.
  intros Hr. unfold sdscatrepr. cbn [app splitargs_go]. change (isspace DQUOTE) with false. rewrite ch_refl. cbn iota.
  rewrite <- app_assoc, repr_unescape. cbn [app splitargs_go]. change (ch DQUOTE BACKSLASH) with false.
  by rewrite ch_refl, Hr.
Qed.

Lemma repr_char_no_nul c : no_nul (repr_char c).
Proof.
  unfold repr_char. destruct (ch c BACKSLASH || ch c DQUOTE) eqn:E1.
  { apply orb_true_iff in E1 as [->%ch_true | ->%ch_true]; by repeat constructor. }
  clear E1. destruct (ch c LF), (ch c CR), (ch c TAB), (ch c BEL), (ch c BS); try by repeat constructor.
  destruct (isprint c) eqn:Ep.
  { apply Forall_singleton. apply negb_true_iff, ch_false. intros ->. done. }
  pose proof (code_range c).
  assert (Hh : ∀ d, 0 ≤ d < 16 → negb (ch (hex_char d) NUL) = true).
  { intros d Hd. apply negb_true_iff, ch_false. intros E%(f_equal code). revert E. unfold hex_char.
    destruct (Z.ltb_spec d 10); rewrite code_chr by lia; change (code NUL) with 0; lia. }
  repeat (apply Forall_cons; split; [try done|]); [apply Hh|apply Hh|constructor].
  - split; [apply Z.div_pos; lia|apply Z.div_lt_upper_bound; lia].
  - apply Z.mod_pos_bound. lia.
Qed.

Lemma repr_no_nul w : no_nul (sdscatrepr [] w).
Proof.
  unfold sdscatrepr. cbn [app]. apply Forall_cons. split; [done|]. apply Forall_app. split; [|by repeat constructor].
  induction w as [|c w IH]; [constructor|]. cbn [map concat]. apply Forall_app. split; [apply repr_char_no_nul|exact IH].
Qed.

Lemma splitargs_reprs ws vec :
  splitargs_go SM_SKIP [] vec (sdsjoinsds (map (sdscatrepr []) ws) (bs " ")) = Some (vec ++ ws).
Proof.
  revert vec. induction ws as [|w ws IH]; intros vec; [simpl; by rewrite app_nil_r|].
  destruct ws as [|w' ws].
  - cbn [map sdsjoinsds]. rewrite <- (app_nil_r (sdscatrepr [] w)), splitargs_repr by done. done.
  - change (sdsjoinsds _ _) with (sdscatrepr [] w ++ bs " " ++ sdsjoinsds (map (sdscatrepr []) (w' :: ws)) (bs " ")).
    rewrite splitargs_repr by done. cbn [app splitargs_go bs]. change (isspace " ") with true.
    etransitivity; [apply (IH (vec ++ [w]))|]. by rewrite <- app_assoc.
Qed.

(** C40: sdssplitargs undoes sdscatrepr, as the comments of both say: arguments
    that are quoted with sdscatrepr and joined with blanks are read back
    unchanged, in order, whatever bytes they contain: quotation marks, line
    feeds, NULs, bytes that are not printable, and none at all. *)
Theorem sdscatrepr_roundtrip ws :
  sdssplitargs (sdsjoinsds (map (sdscatrepr []) ws) (bs " ")) = Some ws.
Proof.
  unfold sdssplitargs. rewrite c_str_id; [apply splitargs_reprs|].
  induction ws as [|w ws IH]; [constructor|]. destruct ws as [|w' ws]; [apply repr_no_nul|].
  change (sdsjoinsds _ _) with (sdscatrepr [] w ++ bs " " ++ sdsjoinsds (map (sdscatrepr []) (w' :: ws)) (bs " ")).
  apply no_nul_app; [apply repr_no_nul|]. apply no_nul_app; [by repeat constructor|exact IH].
Qed.

(** sdsneedsrepr is meant to say when an argument must be quoted, but it lets
    single quotes pass, and the empty argument. *)
Lemma sdsneedsrepr_single_quote :
  sdsneedsrepr (bs "it's") = false ∧ sdssplitargs (bs "it's") = None ∧
  sdsneedsrepr [] = false ∧ sdssplitargs [] = Some [].
Proof. done. Qed.
