(* ===== verification/Json.v ===== *)
(** * Reading JSON

    A reader for JSON texts (RFC 8259) without [\u] escapes, fractions and
    exponents: what it accepts is JSON. The daemon only writes JSON; the theorems
    about its HTTP replies say what this reader makes of them. *)

From S2P Require Import Prelude CLib ParseUtil Sds.

#[local] Set Warnings "-register-all".

Inductive json :=
  | JString (s : bytes)
  | JNumber (n : Z)
  | JBool (b : bool)
  | JArray (l : list json)
  | JObject (l : list (bytes * json)).

Definition json_blank (c : ascii) : bool := ch c " " || ch c TAB || ch c LF || ch c CR.

Definition skip_blank (s : bytes) : bytes := drop_while json_blank s.

(** Control characters have to be escaped. *)
Definition json_control (c : ascii) : bool := (code c <? 32).

Definition json_escape (e : ascii) : option ascii :=
  if ch e BACKSLASH then Some BACKSLASH else if ch e DQUOTE then Some DQUOTE
  else if ch e "/" then Some "/"%char
  else if ch e "b" then Some BS else if ch e "f" then Some FF
  else if ch e "n" then Some LF else if ch e "r" then Some CR
  else if ch e "t" then Some TAB else None.

(** After the opening quotation mark. *)
Fixpoint read_string (s : bytes) : option (bytes * bytes) :=
  match s with
  | [] => None
  | c :: r =>
      if ch c DQUOTE then Some ([], r)
      else if ch c BACKSLASH then
        match r with
        | [] => None
        | e :: r' => d ← json_escape e; '(t, rest) ← read_string r'; Some (d :: t, rest)
        end
      else if json_control c then None
      else '(t, rest) ← read_string r; Some (c :: t, rest)
  end.

(** An integer without leading zeros. *)
Definition read_digits (s : bytes) : option (Z * bytes) :=
  match take_while isdigit s with
  | [] => None
  | d :: ds =>
      if ch d "0" && negb (bool_decide (ds = [])) then None
      else Some (digits_val (d :: ds), drop_while isdigit s)
  end.

Definition read_number (s : bytes) : option (json * bytes) :=
  match s with
  | c :: r =>
      if ch c "-" then '(n, rest) ← read_digits r; Some (JNumber (- n), rest)
      else '(n, rest) ← read_digits s; Some (JNumber n, rest)
  | [] => None
  end.

Definition strip (lit s : bytes) : option bytes :=
  if bool_decide (take (length lit) s = lit) then Some (drop (length lit) s) else None.

Definition read_atom (s : bytes) : option (json * bytes) :=
  match strip (bs "true") s with
  | Some r => Some (JBool true, r)
  | None =>
      match strip (bs "false") s with
      | Some r => Some (JBool false, r)
      | None => read_number s
      end
  end.

Fixpoint read_value (fuel : nat) (s : bytes) : option (json * bytes) :=
  match fuel with
  | O => None
  | S fuel =>
      match skip_blank s with
      | c :: r =>
          if ch c DQUOTE then '(t, rest) ← read_string r; Some (JString t, rest)
          else if ch c "{" then
            match skip_blank r with
            | d :: r' =>
                if ch d "}" then Some (JObject [], r')
                else '(m, rest) ← read_members fuel (d :: r'); Some (JObject m, rest)
            | [] => None
            end
          else if ch c "[" then
            match skip_blank r with
            | d :: r' =>
                if ch d "]" then Some (JArray [], r')
                else '(l, rest) ← read_elements fuel (d :: r'); Some (JArray l, rest)
            | [] => None
            end
          else read_atom (c :: r)
      | [] => None
      end
  end
with read_members (fuel : nat) (s : bytes) : option (list (bytes * json) * bytes) :=
  match fuel with
  | O => None
  | S fuel =>
      match skip_blank s with
      | c :: r =>
          if ch c DQUOTE then
            '(k, r) ← read_string r;
            match skip_blank r with
            | d :: r =>
                if ch d ":" then
                  '(v, r) ← read_value fuel r;
                  match skip_blank r with
                  | e :: r =>
                      if ch e "}" then Some ([(k, v)], r)
                      else if ch e "," then '(m, r) ← read_members fuel r; Some ((k, v) :: m, r)
                      else None
                  | [] => None
                  end
                else None
            | [] => None
            end
          else None
      | [] => None
      end
  end
with read_elements (fuel : nat) (s : bytes) : option (list json * bytes) :=
  match fuel with
  | O => None
  | S fuel =>
      '(v, r) ← read_value fuel s;
      match skip_blank r with
      | e :: r =>
          if ch e "]" then Some ([v], r)
          else if ch e "," then '(l, r) ← read_elements fuel r; Some (v :: l, r)
          else None
      | [] => None
      end
  end.

(** A text that is one JSON value. *)
Definition json_text (s : bytes) : option json :=
  '(v, rest) ← read_value (S (length s)) s;
  match skip_blank rest with [] => Some v | _ => None end.

(** ** Reading what was written

    [reads s v]: [s] is read as [v], whatever delimiter comes after it. *)

Definition delimiter (rest : bytes) : Prop :=
  match rest with [] => True | c :: _ => ch c "," || ch c "}" || ch c "]" = true end.

Definition reads (s : bytes) (v : json) : Prop :=
  ∀ fuel rest, (length s < fuel)%nat → delimiter rest → read_value fuel (s ++ rest) = Some (v, rest).

Definition reads_members (s : bytes) (m : list (bytes * json)) : Prop :=
  ∀ fuel rest, (length s < fuel)%nat → read_members fuel (s ++ "}"%char :: rest) = Some (m, rest).

Definition reads_elements (s : bytes) (l : list json) : Prop :=
  ∀ fuel rest, (S (length s) < fuel)%nat → read_elements fuel (s ++ "]"%char :: rest) = Some (l, rest).

Lemma reads_text s v : reads s v → json_text s = Some v.
Proof.
  intros Hs. unfold json_text. rewrite <- (app_nil_r s) at 2. rewrite (Hs (S (length s)) []); [done|lia|done].
Qed.

Lemma delimiter_blank rest : delimiter rest → skip_blank rest = rest.
Proof.
  destruct rest as [|c r]; [done|]. simpl. intros Hc. unfold skip_blank. simpl.
  destruct (json_blank c) eqn:E; [|done]. unfold json_blank in E.
  destruct (ch c " ") eqn:E1; [by apply ch_true in E1 as ->|].
  destruct (ch c TAB) eqn:E2; [by apply ch_true in E2 as ->|].
  destruct (ch c LF) eqn:E3; [by apply ch_true in E3 as ->|]. simpl in E. by apply ch_true in E as ->.
Qed.

Lemma delimiter_digits rest : delimiter rest → stops_digits rest.
Proof.
  destruct rest as [|c r]; [done|]. simpl. intros Hc.
  destruct (ch c ",") eqn:E1; [by apply ch_true in E1 as ->|].
  destruct (ch c "}") eqn:E2; [by apply ch_true in E2 as ->|]. simpl in Hc. by apply ch_true in Hc as ->.
Qed.

(** A text whose control characters are those that are escaped or left out. *)
Definition json_safe (s : bytes) : Prop :=
  Forall (λ c, json_control c = true → is_Some (escape_char c) ∨ json_kept c = false) s.

Definition json_string (p : bytes) : json := JString (filter (λ c, json_kept c = true) (c_str p)).

Lemma read_string_char c s :
  (json_control c = true → is_Some (escape_char c) ∨ json_kept c = false) →
  read_string (json_char c ++ s) =
    if json_kept c then '(t, rest) ← read_string s; Some (c :: t, rest) else read_string s.
Proof.
  unfold json_char, escape_char, json_kept. intros Hc.
  repeat match goal with
  | |- context [if ch c ?d then Some _ else _] =>
      let E := fresh in destruct (ch c d) eqn:E; [by apply ch_true in E as ->|]
  end.
  destruct (ch c VT || ch c BEL); [done|]. cbn [app read_string negb].
  destruct (json_control c) eqn:E; [by destruct (Hc eq_refl) as [[? [=]]|[=]]|].
  repeat match goal with H : ch c _ = false |- _ => rewrite H; clear H end. done.
Qed.

Lemma read_string_text p rest :
  json_safe p →
  read_string (concat (map json_char p) ++ DQUOTE :: rest) = Some (filter (λ c, json_kept c = true) p, rest).
Proof.
  intros Hp. induction Hp as [|c p Hc _ IH]; [done|]. cbn [map concat]. rewrite <- app_assoc.
  rewrite read_string_char, IH, filter_cons by done. destruct (json_kept c); by case_decide.
Qed.

Lemma reads_string p : json_safe (c_str p) → reads (sds_catjson [] p) (json_string p).
Proof.
  intros Hp fuel rest Hf _. destruct fuel as [|fuel]; [lia|].
  unfold sds_catjson, sds_catjson_len, sds_catjson_plain_len. cbn [app]. rewrite <- app_assoc. cbn [app].
  cbn [read_value]. change (skip_blank (DQUOTE :: ?r)) with (DQUOTE :: r). cbn iota.
  change (ch DQUOTE DQUOTE) with true. cbv iota. by rewrite read_string_text.
Qed.

Lemma sds_catjson_app b p : sds_catjson b p = b ++ sds_catjson [] p.
Proof.
  unfold sds_catjson, sds_catjson_len, sds_catjson_plain_len. cbn [app]. by rewrite <- !app_assoc.
Qed.

(** ** Numbers *)

Lemma dec_go_head fuel n acc :
  0 < n → n < 2 ^ Z.of_nat fuel → ∃ d r, dec_go fuel n acc = d :: r ∧ ch d "0" = false.
Proof.
  revert n acc. induction fuel as [|fuel IH]; intros n acc Hn Hf.
  { change (2 ^ Z.of_nat 0) with 1 in Hf. lia. }
  rewrite Nat2Z.inj_succ, Z.pow_succ_r in Hf by lia. cbn [dec_go].
  pose proof (Z.div_mod n 10). pose proof (Z.mod_pos_bound n 10).
  destruct (n / 10 =? 0) eqn:E; zbool; [|apply IH; lia].
  eexists _, _. split; [done|]. apply ch_false. intros Hc.
  assert (Hd : dval (chr (48 + n mod 10)) = 0) by (by rewrite Hc).
  rewrite dval_chr in Hd by lia. lia.
Qed.

Lemma print_u_no_zero n : 0 ≤ n → n = 0 ∧ print_u n = bs "0" ∨ ∃ d r, print_u n = d :: r ∧ ch d "0" = false.
Proof.
  intros Hn. destruct (decide (n = 0)) as [-> |]; [by left|right]. apply dec_go_head; [lia|].
  rewrite Nat2Z.inj_succ, Z2Nat.id by apply Z.log2_nonneg. apply Z.log2_spec. lia.
Qed.

Lemma read_digits_print n rest :
  0 ≤ n → stops_digits rest → read_digits (print_u n ++ rest) = Some (n, rest).
Proof.
  intros Hn Hr. unfold read_digits.
  destruct (take_while_digits (print_u n) rest (print_u_digits n) Hr) as [-> ->].
  pose proof (print_u_value n Hn) as Hv.
  destruct (print_u_no_zero n Hn) as [[-> ->] | (d & r & E & Hd)]; [done|].
  rewrite E in *. rewrite Hd. cbn [andb]. by rewrite Hv.
Qed.

Lemma print_u_first n : 0 ≤ n → ∃ d r, print_u n = d :: r ∧ isdigit d = true.
Proof.
  intros Hn. pose proof (print_u_digits n) as Hd. pose proof (print_u_nonempty n) as Hne.
  destruct (print_u n) as [|d r]; [done|]. exists d, r. by apply Forall_cons in Hd as [? _].
Qed.

Lemma read_value_digit fuel d r :
  isdigit d = true → read_value (S fuel) (d :: r) = '(n, rest) ← read_digits (d :: r); Some (JNumber n, rest).
Proof.
  intros Hd. cbn [read_value]. unfold skip_blank. cbn [drop_while]. unfold json_blank.
  rewrite (isdigit_not_char d " "), (isdigit_not_char d TAB), (isdigit_not_char d LF),
    (isdigit_not_char d CR) by done. cbn [orb]. cbv iota.
  rewrite (isdigit_not_char d DQUOTE), (isdigit_not_char d "{"), (isdigit_not_char d "[") by done.
  unfold read_atom, strip, read_number. rewrite !bool_decide_eq_false_2.
  - by rewrite (isdigit_not_char d "-") by done.
  - cbn [length take bs String.list_ascii_of_string]. intros [= -> _]. done.
  - cbn [length take bs String.list_ascii_of_string]. intros [= -> _]. done.
Qed.

Lemma reads_number n : 0 ≤ n → reads (print_u n) (JNumber n).
Proof.
  intros Hn fuel rest Hf Hr. destruct fuel as [|fuel]; [lia|].
  pose proof (read_digits_print n rest Hn (delimiter_digits _ Hr)) as E.
  destruct (print_u_first n Hn) as (d & r & Ep & Hd). rewrite Ep in *. cbn [app] in *.
  by rewrite read_value_digit, E.
Qed.

Lemma reads_int n : reads (print_d n) (JNumber n).
Proof.
  unfold print_d. destruct (Z.ltb_spec n 0); [|by apply reads_number].
  intros fuel rest Hf Hr. destruct fuel as [|fuel]; [lia|].
  change (read_value (S fuel) (("-"%char :: print_u (- n)) ++ rest))
    with ('(k, rest) ← read_digits (print_u (- n) ++ rest); Some (JNumber (- k), rest)).
  rewrite read_digits_print by (lia || by apply delimiter_digits). simpl. by rewrite Z.opp_involutive.
Qed.

Lemma reads_bool b : reads (bool_to_str b) (JBool b).
Proof. intros fuel rest Hf _. destruct fuel as [|fuel]; [lia|]. by destruct b. Qed.

(** ** Objects and arrays

    A member as the daemon writes it: the key without characters to escape. *)

Definition json_member (key : bytes) (s : bytes) : bytes := [DQUOTE] ++ key ++ [DQUOTE] ++ bs ":" ++ s.

Definition plain_key (k : bytes) : Prop :=
  Forall (λ c, ch c DQUOTE || ch c BACKSLASH || json_control c = false) k.

Lemma read_string_key k rest : plain_key k → read_string (k ++ DQUOTE :: rest) = Some (k, rest).
Proof.
  intros Hk. induction Hk as [|c k Hc _ IH]; [done|]. cbn [app read_string].
  apply orb_false_iff in Hc as [[H1 H2]%orb_false_iff H3]. by rewrite H1, H2, H3, IH.
Qed.

Lemma read_member fuel k s v rest :
  plain_key k → reads s v → (length s < fuel)%nat → delimiter rest → rest ≠ [] →
  read_members (S fuel) (json_member k s ++ rest) =
    match rest with
    | e :: r =>
        if ch e "}" then Some ([(k, v)], r)
        else if ch e "," then '(m, r) ← read_members fuel r; Some ((k, v) :: m, r)
        else None
    | [] => None
    end.
Proof.
  intros Hk Hs Hf Hr Hne. unfold json_member. rewrite <- !app_assoc. cbn [app]. cbn [read_members].
  change (skip_blank (DQUOTE :: ?r)) with (DQUOTE :: r). cbn iota.
  change (ch DQUOTE DQUOTE) with true. cbv iota. rewrite read_string_key by done.
  cbn [mbind option_bind]. change (skip_blank (bs ":" ++ ?r)) with (":"%char :: r). cbn iota.
  change (ch ":" ":") with true. cbv iota. rewrite (Hs fuel rest) by done. cbn [mbind option_bind].
  by rewrite delimiter_blank.
Qed.

Lemma reads_members_one k s v :
  plain_key k → reads s v → reads_members (json_member k s) [(k, v)].
Proof.
  intros Hk Hs fuel rest Hf. destruct fuel as [|fuel]; [lia|]. rewrite (read_member fuel k s v); try done.
  unfold json_member in Hf. rewrite !length_app in Hf. simpl in Hf. lia.
Qed.

Lemma reads_members_cons k s v t m :
  plain_key k → reads s v → reads_members t m →
  reads_members (json_member k s ++ bs "," ++ t) ((k, v) :: m).
Proof.
  intros Hk Hs Ht fuel rest Hf. destruct fuel as [|fuel]; [lia|].
  assert (length (json_member k s) + S (length t) < S fuel)%nat as Hl.
  { rewrite !length_app in Hf. change (length (bs ",")) with 1%nat in Hf. lia. }
  unfold json_member in Hl. rewrite !length_app in Hl. simpl in Hl.
  rewrite <- !app_assoc. rewrite (read_member fuel k s v); [|done|done|lia|done|done].
  change (bs "," ++ t ++ "}"%char :: rest) with (","%char :: t ++ "}"%char :: rest). cbn iota.
  change (ch "," "}") with false. change (ch "," ",") with true. cbv iota. by rewrite Ht by lia.
Qed.

Lemma reads_object s m : (∃ r, s = DQUOTE :: r) → reads_members s m → reads (bs "{" ++ s ++ bs "}") (JObject m).
Proof.
  intros [r ->] Hs fuel rest Hf _. destruct fuel as [|fuel]; [lia|].
  rewrite !length_app in Hf. simpl in Hf. rewrite <- !app_assoc.
  change (read_value (S fuel) (bs "{" ++ (DQUOTE :: r) ++ bs "}" ++ rest))
    with ('(m, rest) ← read_members fuel ((DQUOTE :: r) ++ "}"%char :: rest); Some (JObject m, rest)).
  rewrite Hs; [done|]. simpl. lia.
Qed.

Lemma read_element fuel s v rest :
  reads s v → (length s < fuel)%nat → delimiter rest →
  read_elements (S fuel) (s ++ rest) =
    match rest with
    | e :: r =>
        if ch e "]" then Some ([v], r)
        else if ch e "," then '(l, r) ← read_elements fuel r; Some (v :: l, r)
        else None
    | [] => None
    end.
Proof.
  intros Hs Hf Hr. cbn [read_elements]. rewrite (Hs fuel rest) by done. cbn [mbind option_bind].
  by rewrite delimiter_blank.
Qed.

(** The elements with commas between them. *)
Fixpoint json_join (ss : list bytes) : bytes :=
  match ss with
  | [] => []
  | [s] => s
  | s :: ss => s ++ bs "," ++ json_join ss
  end.

Lemma reads_elements_join ss vs : Forall2 reads ss vs → ss ≠ [] → reads_elements (json_join ss) vs.
Proof.
  intros Hs. induction Hs as [|s v ss vs Hs Hss IH]; [done|]. intros _ fuel rest Hf.
  destruct fuel as [|fuel]; [lia|]. destruct Hss as [|s' v' ss vs Hs' Hss].
  - change (json_join [s]) with s in *. by rewrite (read_element fuel s v) by (done || lia).
  - change (json_join (s :: s' :: ss)) with (s ++ bs "," ++ json_join (s' :: ss)) in *.
    rewrite !length_app in Hf. change (length (bs ",")) with 1%nat in Hf.
    rewrite <- !app_assoc. rewrite (read_element fuel s v) by (done || lia).
    change (bs "," ++ ?t) with (","%char :: t). cbn iota.
    change (ch "," "]") with false. change (ch "," ",") with true. cbv iota. by rewrite IH by (done || lia).
Qed.

(** An array of objects. *)
Lemma reads_array ss vs :
  Forall2 reads ss vs → Forall (λ s, ∃ r, s = "{"%char :: r) ss →
  reads (bs "[" ++ json_join ss ++ bs "]") (JArray vs).
Proof.
  intros Hs Hh fuel rest Hf _. destruct fuel as [|fuel]; [lia|].
  rewrite !length_app in Hf. change (length (bs "[")) with 1%nat in Hf.
  change (length (bs "]")) with 1%nat in Hf. rewrite <- !app_assoc.
  destruct ss as [|s ss].
  { inversion Hs. subst. done. }
  pose proof (reads_elements_join _ _ Hs ltac:(done) fuel rest ltac:(lia)) as E.
  apply Forall_cons in Hh as [[r ->] _].
  assert (∃ t, json_join (("{"%char :: r) :: ss) = "{"%char :: t) as [t Et].
  { destruct ss; by eexists. }
  rewrite Et in *.
  change (read_value (S fuel) (bs "[" ++ ("{"%char :: t) ++ bs "]" ++ rest))
    with ('(l, rest) ← read_elements fuel (("{"%char :: t) ++ "]"%char :: rest); Some (JArray l, rest)).
  by rewrite E.
Qed.

(** A comma before every element but the first, as the loops write it. *)
Lemma json_join_snoc ss s :
  json_join (ss ++ [s]) = match ss with [] => s | _ => json_join ss ++ bs "," ++ s end.
Proof.
  induction ss as [|s0 ss IH]; [done|]. cbn [app json_join]. destruct ss as [|s1 ss]; [done|].
  cbn [app] in *. rewrite IH. by rewrite <- !app_assoc.
Qed.
