(* ===== verification/Lists.v ===== *)
(** * The abstract list

    What the components know of a [struct t_list]: the sequence of its nodes.
    A node keeps its address ([n_ptr], the identity that a [struct t_list_node *]
    refers to), the id and the data. [LinkedList] proves that the pointer
    structure of mygpiod/lib/list.c implements these operations. *)

From S2P Require Import Prelude.

Record node (A : Type) := Node { n_ptr : positive; n_id : Z; n_data : A }.
Arguments Node {A} _ _ _.
Arguments n_ptr {A} _.
Arguments n_id {A} _.
Arguments n_data {A} _.

#[export] Instance eta_node {A} : Eta (node A) := λ r, Node (n_ptr r) (n_id r) (n_data r).

Abbreviation t_list A := (list (node A)).

Section ops.
Context {A : Type}.
Implicit Types (l : t_list A) (n : node A) (p : positive).

Definition ptrs l : list positive := map n_ptr l.

(** The [unsigned length] field. *)
Definition list_length l : Z := u32 (Z.of_nat (length l)).

(** An address that [malloc] may return: one that no live node has. *)
Definition fresh_ptr l : positive := Pos.succ (foldr Pos.max 1%positive (ptrs l)).

Definition list_push l (id : Z) (data : A) : t_list A := l ++ [Node (fresh_ptr l) id data].

(** The first node that satisfies [P], the shape of all the [get_node_by_...]
    loops of the sources. *)
Fixpoint list_find_node (P : node A → bool) l : option (node A) :=
  match l with
  | [] => None
  | n :: l' => if P n then Some n else list_find_node P l'
  end.

Definition list_node_by_id l (id : Z) : option (node A) :=
  list_find_node (λ n, n_id n =? id) l.

(** The node a pointer refers to. *)
Definition list_deref l p : option (node A) :=
  list_find_node (λ n, Pos.eqb (n_ptr n) p) l.

(** Writes through [node->data]. *)
Definition list_upd p (f : A → A) l : t_list A :=
  map (λ n, if Pos.eqb (n_ptr n) p then n <| n_data ::= f |> else n) l.

Fixpoint list_del p l : t_list A :=
  match l with
  | [] => []
  | n :: l' => if Pos.eqb (n_ptr n) p then l' else n :: list_del p l'
  end.

Definition list_shift l : option (node A) * t_list A :=
  match l with
  | [] => (None, [])
  | n :: l' => (Some n, l')
  end.
End ops.

(** ** Facts *)

Section facts.
Context {A : Type}.
Implicit Types (l : t_list A) (n : node A) (p : positive).

Lemma fresh_ptr_max l p : p ∈ ptrs l → (p < fresh_ptr l)%positive.
Proof.
  unfold fresh_ptr. induction (ptrs l) as [|q qs IH]; [by intros ?%not_elem_of_nil|].
  intros [-> | H]%elem_of_cons; simpl; [|specialize (IH H)]; lia.
Qed.

Lemma fresh_ptr_not_in l : fresh_ptr l ∉ ptrs l.
Proof. intros H%fresh_ptr_max. lia. Qed.

Lemma ptrs_push l id d : ptrs (list_push l id d) = ptrs l ++ [fresh_ptr l].
Proof. unfold ptrs, list_push. by rewrite map_app. Qed.

Lemma NoDup_push l id d : NoDup (ptrs l) → NoDup (ptrs (list_push l id d)).
Proof.
  intros H. rewrite ptrs_push. apply NoDup_app. split_and!; [done| |apply NoDup_singleton].
  intros p Hp ->%list_elem_of_singleton. by apply fresh_ptr_not_in in Hp.
Qed.

Lemma ptrs_upd p (f : A → A) l : ptrs (list_upd p f l) = ptrs l.
Proof.
  unfold ptrs, list_upd. rewrite map_map. apply map_ext. intros n. by destruct (Pos.eqb _ _).
Qed.

Lemma length_upd p (f : A → A) l : length (list_upd p f l) = length l.
Proof. apply length_map. Qed.

Lemma list_find_node_Some P l n :
  list_find_node P l = Some n → n ∈ l ∧ P n = true.
Proof.
  induction l as [|m l IH]; simpl; [done|]. destruct (P m) eqn:E.
  - intros [= <-]. split; [by left|done].
  - intros [? ?]%IH. split; [by right|done].
Qed.

Lemma list_find_node_None P l : list_find_node P l = None → ∀ n, n ∈ l → P n = false.
Proof.
  induction l as [|m l IH]; simpl; intros H n Hn; [by apply not_elem_of_nil in Hn|].
  destruct (P m) eqn:E; [done|]. apply elem_of_cons in Hn as [-> | Hn]; auto.
Qed.

(** The node found is the first one: what precedes it does not match. *)
Lemma list_find_node_split P l n :
  list_find_node P l = Some n →
  ∃ l1 l2, l = l1 ++ n :: l2 ∧ P n = true ∧ Forall (λ m, P m = false) l1.
Proof.
  induction l as [|m l IH]; simpl; [done|]. destruct (P m) eqn:E.
  - intros [= <-]. by exists [], l.
  - intros (l1 & l2 & -> & HP & Hl1)%IH. exists (m :: l1), l2. auto.
Qed.

Lemma list_deref_elem l n : NoDup (ptrs l) → n ∈ l → list_deref l (n_ptr n) = Some n.
Proof.
  unfold list_deref. induction l as [|m l IH]; simpl; intros Hd Hn.
  { by apply not_elem_of_nil in Hn. }
  apply NoDup_cons in Hd as [Hm Hd]. apply elem_of_cons in Hn as [-> | Hn].
  - by rewrite Pos.eqb_refl.
  - destruct (Pos.eqb_spec (n_ptr m) (n_ptr n)) as [E|]; [|auto].
    destruct Hm. rewrite E. by apply list_elem_of_fmap_2.
Qed.

Lemma list_deref_Some l p n : list_deref l p = Some n → n ∈ l ∧ n_ptr n = p.
Proof. intros [? ?%Pos.eqb_eq]%list_find_node_Some. done. Qed.

Lemma list_deref_upd l p q (f : A → A) :
  list_deref (list_upd p f l) q =
  (λ n, if Pos.eqb q p then n <| n_data ::= f |> else n) <$> list_deref l q.
Proof.
  unfold list_deref. induction l as [|m l IH]; simpl; [done|].
  destruct (Pos.eqb_spec (n_ptr m) p) as [<- |]; simpl.
  - destruct (Pos.eqb_spec (n_ptr m) q) as [<- |]; [by rewrite Pos.eqb_refl|done].
  - destruct (Pos.eqb_spec (n_ptr m) q) as [<- |]; [|done].
    simpl. by rewrite (proj2 (Pos.eqb_neq _ _)).
Qed.

Lemma list_upd_compose p (f g : A → A) l :
  list_upd p f (list_upd p g l) = list_upd p (f ∘ g) l.
Proof.
  unfold list_upd. rewrite map_map. apply map_ext. intros n.
  destruct (Pos.eqb (n_ptr n) p) eqn:E; simpl; by rewrite E.
Qed.

Lemma list_upd_ext p (f g : A → A) l n :
  NoDup (ptrs l) → list_deref l p = Some n → f (n_data n) = g (n_data n) →
  list_upd p f l = list_upd p g l.
Proof.
  intros Hd Hn Hfg. unfold list_upd. apply map_ext_in. intros m Hm%list_elem_of_In.
  destruct (Pos.eqb_spec (n_ptr m) p) as [<- |]; [|done].
  apply list_deref_elem in Hm; [|done]. rewrite Hm in Hn. injection Hn as ->.
  unfold set_field. simpl. by rewrite Hfg.
Qed.

Lemma list_upd_ext_all p (f g : A → A) l :
  (∀ a, f a = g a) → list_upd p f l = list_upd p g l.
Proof.
  intros Hfg. apply map_ext. intros n. destruct (Pos.eqb _ _); [|done].
  unfold set_field. simpl. by rewrite Hfg.
Qed.

Lemma list_upd_id p l : list_upd p (λ d, d) l = l.
Proof.
  unfold list_upd. rewrite <- map_id. apply map_ext. intros [q i d]. by destruct (Pos.eqb _ _).
Qed.

Lemma list_deref_is_Some l p : p ∈ ptrs l → is_Some (list_deref l p).
Proof.
  intros Hp. destruct (list_deref l p) as [n|] eqn:E; [done|]. exfalso.
  apply list_elem_of_fmap in Hp as (n & -> & Hn).
  apply (list_find_node_None _ _ E) in Hn. by rewrite Pos.eqb_refl in Hn.
Qed.

Lemma list_deref_None l p : p ∉ ptrs l → list_deref l p = None.
Proof.
  intros Hp. destruct (list_deref l p) as [n|] eqn:E; [|done].
  apply list_deref_Some in E as [Hn <-]. destruct Hp. by apply list_elem_of_fmap_2.
Qed.

Lemma list_deref_in_ptrs l p n : list_deref l p = Some n → p ∈ ptrs l.
Proof. intros [Hn <-]%list_deref_Some. by apply list_elem_of_fmap_2. Qed.

Lemma list_upd_not_in p f l : p ∉ ptrs l → list_upd p f l = l.
Proof.
  induction l as [|n l IH]; simpl; [done|].
  intros [Hn Hp]%not_elem_of_cons. f_equal; [|by apply IH].
  by rewrite (proj2 (Pos.eqb_neq _ _)).
Qed.

(** The node in the middle. *)
Lemma list_deref_mid l1 n l2 :
  NoDup (ptrs (l1 ++ n :: l2)) → list_deref (l1 ++ n :: l2) (n_ptr n) = Some n.
Proof. intros Hd. apply list_deref_elem; [done|]. apply elem_of_app. right. by left. Qed.

Lemma list_upd_mid (f : A → A) l1 n l2 :
  NoDup (ptrs (l1 ++ n :: l2)) →
  list_upd (n_ptr n) f (l1 ++ n :: l2) = l1 ++ (n <| n_data ::= f |>) :: l2.
Proof.
  unfold ptrs. rewrite map_app. simpl. intros (_ & Hd & Hn)%NoDup_app. apply NoDup_cons in Hn as [Hn _].
  change (list_upd ?p f (l1 ++ ?l)) with (map (λ m, if Pos.eqb (n_ptr m) p then m <| n_data ::= f |> else m) (l1 ++ l)).
  rewrite map_app. cbn [map]. rewrite Pos.eqb_refl. f_equal; [|f_equal]; apply list_upd_not_in.
  - intros Hp. apply (Hd _ Hp). by left.
  - done.
Qed.

(** Updating every node once is a map. *)
Lemma list_upd_all (f : A → A) l :
  NoDup (ptrs l) →
  foldl (λ l' p, list_upd p f l') l (ptrs l) = map (λ n, n <| n_data ::= f |>) l.
Proof.
  intros Hd. cut (∀ done, NoDup (ptrs (done ++ l)) →
    foldl (λ l' p, list_upd p f l') (done ++ l) (ptrs l)
    = done ++ map (λ n, n <| n_data ::= f |>) l).
  { intros Hc. by apply (Hc []). }
  clear Hd. induction l as [|n l IH]; intros dn Hd; simpl; [done|].
  assert (Hn : n_ptr n ∉ ptrs dn ∧ n_ptr n ∉ ptrs l).
  { unfold ptrs in Hd. rewrite map_app in Hd. apply NoDup_app in Hd as (_ & Hx & Hl).
    apply NoDup_cons in Hl as [Hl _]. split; [|done]. intros Hin. apply (Hx _ Hin). by left. }
  replace (list_upd (n_ptr n) f (dn ++ n :: l))
    with ((dn ++ [n <| n_data ::= f |>]) ++ l).
  - rewrite IH; [by rewrite <- app_assoc|].
    unfold ptrs in *. rewrite !map_app in *. simpl in *. by rewrite <- app_assoc.
  - unfold list_upd. rewrite map_app. simpl. rewrite Pos.eqb_refl.
    change (map ?g dn) with (list_upd (n_ptr n) f dn).
    change (map ?g l) with (list_upd (n_ptr n) f l).
    rewrite !list_upd_not_in by tauto. by rewrite <- app_assoc.
Qed.

Lemma Forall_upd (P : node A → Prop) p f l :
  Forall P l → (∀ n, P n → n_ptr n = p → P (n <| n_data ::= f |>)) →
  Forall P (list_upd p f l).
Proof.
  intros H Hf. unfold list_upd. apply Forall_map. eapply Forall_impl; [exact H|].
  intros n Hn. cbn. destruct (Pos.eqb_spec (n_ptr n) p); [by apply Hf|done].
Qed.

Lemma list_remove_sublist p l : list_del p l `sublist_of` l.
Proof.
  induction l as [|n l IH]; simpl; [done|]. destruct (Pos.eqb _ _).
  - by apply sublist_cons.
  - by apply sublist_skip.
Qed.

Lemma ptrs_remove_sublist p l : ptrs (list_del p l) `sublist_of` ptrs l.
Proof.
  induction l as [|n l IH]; simpl; [done|]. destruct (Pos.eqb _ _).
  - by apply sublist_cons.
  - by apply sublist_skip.
Qed.

Lemma NoDup_remove_ptr p l : NoDup (ptrs l) → NoDup (ptrs (list_del p l)).
Proof. intros H. eapply sublist_NoDup; [exact H|]. apply ptrs_remove_sublist. Qed.

Lemma Forall_remove (P : node A → Prop) p l : Forall P l → Forall P (list_del p l).
Proof.
  induction 1 as [|n l Hn Hl IH]; simpl; [constructor|].
  destruct (Pos.eqb _ _); [done|by constructor].
Qed.

Lemma list_remove_length p l : (length (list_del p l) ≤ length l)%nat.
Proof. apply sublist_length, list_remove_sublist. Qed.

Lemma list_deref_remove l p : NoDup (ptrs l) → list_deref (list_del p l) p = None.
Proof.
  unfold list_deref, ptrs. induction l as [|n l IH]; simpl; [done|].
  intros [Hn Hd]%NoDup_cons. destruct (Pos.eqb_spec (n_ptr n) p) as [<- |Hne].
  - clear IH. destruct (list_find_node _ l) as [m|] eqn:E; [|done].
    apply list_find_node_Some in E as [Hm HE%Pos.eqb_eq].
    destruct Hn. rewrite <- HE. by apply list_elem_of_fmap_2.
  - simpl. rewrite (proj2 (Pos.eqb_neq _ _)) by done. auto.
Qed.

Lemma list_deref_remove_ne l p q : q ≠ p → list_deref (list_del p l) q = list_deref l q.
Proof.
  intros Hne. unfold list_deref. induction l as [|n l IH]; simpl; [done|].
  destruct (Pos.eqb_spec (n_ptr n) p) as [<- |].
  - rewrite (proj2 (Pos.eqb_neq _ _)); congruence.
  - simpl. by rewrite IH.
Qed.

Lemma list_length_small l : Z.of_nat (length l) ≤ UINT_MAX → list_length l = Z.of_nat (length l).
Proof. intros H. apply u32_small. unfold is_u32. lia. Qed.
End facts.

#[export] Hint Resolve fresh_ptr_not_in NoDup_push NoDup_remove_ptr Forall_remove : gpio.
#[export] Hint Rewrite @ptrs_upd @length_upd @ptrs_push : gpio.
