(* ===== verification/LinkedList.v ===== *)
(** * mygpiod/lib/list.c: the pointer structure

    The linked list as the code builds it: a heap of nodes with [next] pointers
    and a header with [head], [tail] and [length]. Reading or writing through a
    pointer that is NULL or freed has no defined behaviour; the operations
    return [None] there. The theorems show that on a well-formed list every
    operation is defined, that it implements the operation of [Lists] on the
    sequence of nodes, and that it leaves every other node of the heap alone. *)

From S2P Require Import Prelude Lists.

Record list_node (D : Type) := ListNode { ln_id : Z; ln_data : D; ln_next : option positive }.
Arguments ListNode {D} _ _ _.
Arguments ln_id {D} _.
Arguments ln_data {D} _.
Arguments ln_next {D} _.
#[export] Instance eta_list_node {D} : Eta (list_node D) :=
  λ r, ListNode (ln_id r) (ln_data r) (ln_next r).

(** [struct t_list] *)
Record list_hdr := ListHdr {
  lh_head : option positive;
  lh_tail : option positive;
  lh_length : Z;
}.
#[export] Instance eta_list_hdr : Eta list_hdr :=
  λ r, ListHdr (lh_head r) (lh_tail r) (lh_length r).

Abbreviation list_heap D := (gmap positive (list_node D)).

Section list_c.
Context {D : Type}.
Implicit Types (h : list_heap D) (l : list_hdr).

Definition list_init : list_hdr := ListHdr None None 0.

(** [malloc_assert]: an address that is not in use. *)
Definition malloc_node h : positive := fresh (dom h).

Definition list_push l h (id : Z) (data : D) : option (list_hdr * list_heap D) :=
  let p := malloc_node h in
  let h := <[p := ListNode id data None]> h in
  '(l, h) ←
    match lh_head l with
    | None => Some (l <| lh_head := Some p |>, h)
    | Some _ =>
        t ← lh_tail l;
        n ← h !! t;
        Some (l, <[t := n <| ln_next := Some p |>]> h)
    end;
  Some (l <| lh_tail := Some p |> <| lh_length ::= λ k, u32 (k + 1) |>, h).

(** The [while (current != NULL)] loop; [None] when a dangling pointer is
    followed or the fuel runs out. *)
Fixpoint node_by_id_go (fuel : nat) h (current : option positive) (id : Z)
  : option (option positive) :=
  match current with
  | None => Some None
  | Some p =>
      match fuel with
      | O => None
      | S fuel' =>
          n ← h !! p;
          if ln_id n =? id then Some (Some p) else node_by_id_go fuel' h (ln_next n) id
      end
  end.

Definition list_node_by_id l h (id : Z) : option (option positive) :=
  node_by_id_go (S (size h)) h (lh_head l) id.

(** The search loop of [list_remove_node]: [previous] and [current] when it
    ends. *)
Fixpoint remove_find_go (fuel : nat) h (previous current : option positive) (node : positive)
  : option (option positive * option positive) :=
  match current with
  | None => Some (previous, None)
  | Some p =>
      match fuel with
      | O => None
      | S fuel' =>
          if Pos.eqb p node then Some (previous, Some p)
          else n ← h !! p; remove_find_go fuel' h (Some p) (ln_next n) node
      end
  end.

(** Takes the node [c] out: the predecessor (or [head]) skips it, [tail] and
    [length] follow, its own [next] becomes NULL. *)
Definition list_unlink l h (previous : option positive) (c : positive)
  : option (list_hdr * list_heap D) :=
  n ← h !! c;
  '(l, h) ←
    match previous with
    | None => Some (l <| lh_head := ln_next n |>, h)
    | Some pv => np ← h !! pv; Some (l, <[pv := np <| ln_next := ln_next n |>]> h)
    end;
  let l := l <| lh_tail ::= λ t, if decide (t = Some c) then previous else t |> in
  let l := l <| lh_length ::= λ k, u32 (k - 1) |> in
  n ← h !! c;
  Some (l, <[c := n <| ln_next := None |>]> h).

Definition list_remove_node l h (node : positive) : option (bool * list_hdr * list_heap D) :=
  match lh_head l with
  | None => Some (false, l, h)
  | Some _ =>
      '(previous, current) ← remove_find_go (S (size h)) h None (lh_head l) node;
      match current with
      | None => Some (false, l, h)
      | Some c => '(l, h) ← list_unlink l h previous c; Some (true, l, h)
      end
  end.

Definition list_shift l h : option (option positive * list_hdr * list_heap D) :=
  match lh_head l with
  | None => Some (None, l, h)
  | Some first =>
      n ← h !! first;
      let l := l <| lh_head := ln_next n |> <| lh_length ::= λ k, u32 (k - 1) |> in
      let l := l <| lh_tail ::= λ t, if decide (t = Some first) then None else t |> in
      Some (Some first, l, <[first := n <| ln_next := None |>]> h)
  end.

(** [list_node_free]: the callback sees the node, its effect is on a state of
    the caller's; the node leaves the heap. *)
Definition list_node_free {S} (clear : option (D → S → S)) h (s : S) (p : positive)
  : option (list_heap D * S) :=
  n ← h !! p;
  Some (delete p h, match clear with Some f => f (ln_data n) s | None => s end).

Fixpoint list_clear_go {S} (clear : option (D → S → S)) (fuel : nat) h (s : S)
    (current : option positive) : option (list_heap D * S) :=
  match current with
  | None => Some (h, s)
  | Some tmp =>
      match fuel with
      | O => None
      | S fuel' =>
          n ← h !! tmp;
          '(h, s) ← list_node_free clear h s tmp;
          list_clear_go clear fuel' h s (ln_next n)
      end
  end.

Definition list_clear {S} (clear : option (D → S → S)) l h (s : S)
  : option (list_hdr * list_heap D * S) :=
  '(h, s) ← list_clear_go clear (size h) h s (lh_head l);
  Some (list_init, h, s).
End list_c.

(** ** The abstraction relation *)

Section repr.
Context {D : Type}.
Implicit Types (h : list_heap D) (l : list_hdr) (ns : t_list D).

(** From [o], the [next] pointers run through the nodes [ns] and end at [q]. *)
Fixpoint lseg h (o : option positive) ns (q : option positive) : Prop :=
  match ns with
  | [] => o = q
  | n :: ns' =>
      o = Some (n_ptr n) ∧
      ∃ nx, h !! n_ptr n = Some (ListNode (n_id n) (n_data n) nx) ∧ lseg h nx ns' q
  end.

(** The header [l] with heap [h] is the list of nodes [ns]. *)
Definition list_repr l h ns : Prop :=
  lseg h (lh_head l) ns None ∧ NoDup (ptrs ns) ∧
  lh_tail l = n_ptr <$> last ns ∧ lh_length l = Lists.list_length ns.

(** Two heaps agree outside the nodes [ns]. *)
Definition heap_frame h h' ns : Prop := ∀ p, p ∉ ptrs ns → p ∈ dom h → h' !! p = h !! p.

Lemma lseg_app h o ns1 ns2 q :
  lseg h o (ns1 ++ ns2) q ↔ ∃ m, lseg h o ns1 m ∧ lseg h m ns2 q.
Proof.
  revert o. induction ns1 as [|n ns1 IH]; intros o; simpl.
  - split; [eauto|]. by intros (m & -> & ?).
  - setoid_rewrite IH. split.
    + intros (-> & nx & Hn & m & H1 & H2). exists m. eauto.
    + intros (m & (-> & nx & Hn & H1) & H2). split; [done|]. exists nx. eauto.
Qed.

Lemma lseg_frame h h' o ns q :
  (∀ p, p ∈ ptrs ns → h' !! p = h !! p) → lseg h o ns q → lseg h' o ns q.
Proof.
  revert o. induction ns as [|n ns IH]; intros o Heq; simpl; [done|].
  intros (-> & nx & Hn & Hseg). split; [done|]. exists nx. split.
  - rewrite Heq; [done|]. by left.
  - apply IH; [|done]. intros p Hp. apply Heq. by right.
Qed.

Lemma lseg_insert h o ns q p n :
  p ∉ ptrs ns → lseg h o ns q → lseg (<[p := n]> h) o ns q.
Proof.
  intros Hp. apply lseg_frame. intros p' Hp'. apply lookup_insert_ne. by intros ->.
Qed.

Lemma lseg_in_dom h o ns q p : lseg h o ns q → p ∈ ptrs ns → p ∈ dom h.
Proof.
  revert o. induction ns as [|n ns IH]; intros o; simpl; [by intros _ ?%not_elem_of_nil|].
  intros (-> & nx & Hn & Hseg) [-> | Hp]%elem_of_cons; [|by eapply IH].
  by apply elem_of_dom_2 in Hn.
Qed.

Lemma lseg_length h o ns q : lseg h o ns q → NoDup (ptrs ns) → (length ns ≤ size h)%nat.
Proof.
  intros Hs Hd. rewrite <- (length_map n_ptr ns). fold (ptrs ns).
  rewrite <- (size_list_to_set (C:=gset positive) (ptrs ns) Hd), <- size_dom.
  apply subseteq_size. intros p Hp%elem_of_list_to_set. by eapply lseg_in_dom.
Qed.

(** The last node's pointer is redirected. *)
Lemma lseg_redirect h o ns n q q' :
  NoDup (ptrs (ns ++ [n])) → lseg h o (ns ++ [n]) q →
  lseg (<[n_ptr n := ListNode (n_id n) (n_data n) q']> h) o (ns ++ [n]) q'.
Proof.
  unfold ptrs. rewrite map_app, !lseg_app. intros (_ & Hni & _)%NoDup_app (m & H1 & -> & nx & Hn & _).
  exists (Some (n_ptr n)). split.
  - apply lseg_insert; [|done]. intros Hp. apply (Hni _ Hp). by left.
  - split; [done|]. exists q'. split; [apply lookup_insert_eq|done].
Qed.

Lemma ptrs_app ns1 ns2 : ptrs (ns1 ++ ns2) = ptrs ns1 ++ ptrs ns2.
Proof. apply map_app. Qed.

Lemma ptrs_elem_mid ns1 n ns2 : n_ptr n ∈ ptrs (ns1 ++ n :: ns2).
Proof. rewrite ptrs_app, elem_of_app. right. by left. Qed.

Lemma lseg_head_None h ns : lseg h None ns None → ns = [].
Proof. destruct ns; [done|]. by intros [? _]. Qed.

Lemma lseg_head_Some h p ns :
  lseg h (Some p) ns None → ∃ n ns', ns = n :: ns' ∧ n_ptr n = p.
Proof. destruct ns as [|n ns]; [done|]. intros [[= ->] _]. eauto. Qed.

Lemma list_length_snoc ns n :
  Lists.list_length (ns ++ [n]) = u32 (Lists.list_length ns + 1).
Proof.
  unfold Lists.list_length, u32. rewrite length_app, Nat2Z.inj_add. simpl.
  by rewrite Zplus_mod_idemp_l.
Qed.

Lemma list_length_pred (k : nat) : u32 (u32 (Z.of_nat (S k)) - 1) = u32 (Z.of_nat k).
Proof.
  unfold u32. rewrite Zminus_mod_idemp_l. f_equal. lia.
Qed.
End repr.

(** ** Refinement of every operation *)

Section refinement.
Context {D : Type}.
Implicit Types (h : list_heap D) (l : list_hdr) (ns : t_list D).

Lemma push_repr l h ns id data :
  list_repr l h ns →
  ∃ l' h' p, list_push l h id data = Some (l', h') ∧ p ∉ dom h ∧
    list_repr l' h' (ns ++ [Node p id data]) ∧ heap_frame h h' ns.
Proof.
  intros (Hseg & Hd & Htl & Hlen). unfold list_push.
  set (p := malloc_node h). assert (Hp : p ∉ dom h) by apply is_fresh.
  assert (Hpn : p ∉ ptrs ns) by (intros ?; by eapply Hp, lseg_in_dom).
  destruct (lh_head l) as [hd|] eqn:Ehd; simpl.
  - destruct ns as [|n ns _] using rev_ind; [done|].
    rewrite last_snoc in Htl. rewrite Htl. simpl.
    assert (Hn : ∃ nx, h !! n_ptr n = Some (ListNode (n_id n) (n_data n) nx)).
    { apply lseg_app in Hseg as (m & _ & -> & nx & Hn & _). eauto. }
    destruct Hn as [nx Hn].
    assert (n_ptr n ≠ p) by (intros E; apply Hp; rewrite <- E; by apply elem_of_dom_2 in Hn).
    rewrite lookup_insert_ne, Hn by done. simpl.
    eexists _, _, p. split_and!; [done|done| |].
    + split_and!; simpl.
      * rewrite Ehd. apply lseg_app. exists (Some p). split.
        -- apply (lseg_redirect _ _ _ _ None); [done|]. by apply lseg_insert.
        -- split; [done|]. exists None. by rewrite lookup_insert_ne, lookup_insert_eq.
      * rewrite ptrs_app. apply NoDup_app. split_and!; [done| |apply NoDup_singleton].
        intros q Hq ->%list_elem_of_singleton. done.
      * by rewrite last_snoc.
      * by rewrite list_length_snoc, Hlen.
    + intros q Hq Hqd. rewrite ptrs_app, elem_of_app in Hq.
      rewrite !lookup_insert_ne; [done| |].
      * by intros <-.
      * intros <-. apply Hq. right. by left.
  - apply lseg_head_None in Hseg as ->. eexists _, _, p. split_and!; [done|done| |].
    + split_and!; simpl; [|apply NoDup_singleton|done|by rewrite Hlen].
      split; [done|]. exists None. by rewrite lookup_insert_eq.
    + intros q _ Hqd. rewrite lookup_insert_ne; [done|]. by intros ->.
Qed.

Lemma node_by_id_go_spec fuel h o ns id :
  lseg h o ns None → (length ns ≤ fuel)%nat →
  node_by_id_go fuel h o id = Some (n_ptr <$> Lists.list_node_by_id ns id).
Proof.
  unfold Lists.list_node_by_id. revert fuel o.
  induction ns as [|n ns IH]; intros fuel o Hseg Hf; simpl in *.
  { subst. by destruct fuel. }
  destruct Hseg as (-> & nx & Hn & Hseg). destruct fuel as [|fuel]; [lia|]. simpl.
  rewrite Hn. simpl. destruct (n_id n =? id); [done|]. apply IH; [done|lia].
Qed.

Lemma remove_find_go_spec fuel h prev o ns node :
  lseg h o ns None → (length ns ≤ fuel)%nat →
  match list_deref ns node with
  | None => ∃ pv, remove_find_go fuel h prev o node = Some (pv, None)
  | Some n => ∃ ns1 ns2, ns = ns1 ++ n :: ns2 ∧ n_ptr n = node ∧
      remove_find_go fuel h prev o node =
        Some (match last ns1 with Some m => Some (n_ptr m) | None => prev end, Some node)
  end.
Proof.
  unfold list_deref. revert fuel prev o.
  induction ns as [|n ns IH]; intros fuel prev o Hseg Hf; simpl in *.
  { subst. exists prev. by destruct fuel. }
  destruct Hseg as (-> & nx & Hn & Hseg). destruct fuel as [|fuel]; [lia|]. simpl.
  destruct (Pos.eqb_spec (n_ptr n) node) as [<- |Hne].
  { by exists [], ns. }
  rewrite Hn. simpl. specialize (IH fuel (Some (n_ptr n)) nx Hseg ltac:(lia)).
  destruct (list_find_node _ ns) as [m|]; [|done].
  destruct IH as (ns1 & ns2 & -> & Hm & ->). exists (n :: ns1), ns2. split_and!; [done|done|].
  destruct ns1 as [|k ns1 _] using rev_ind; [done|].
  by rewrite app_comm_cons, !last_snoc.
Qed.

Lemma list_del_split ns1 n ns2 :
  NoDup (ptrs (ns1 ++ n :: ns2)) → list_del (n_ptr n) (ns1 ++ n :: ns2) = ns1 ++ ns2.
Proof.
  induction ns1 as [|m ns1 IH]; simpl; [by rewrite Pos.eqb_refl|].
  intros [Hm Hd]%NoDup_cons. destruct (Pos.eqb_spec (n_ptr m) (n_ptr n)) as [E|].
  - destruct Hm. rewrite E. apply ptrs_elem_mid.
  - by rewrite IH.
Qed.

(** Unlinking a node that is not the first of a segment. *)
Lemma lseg_unlink h o ns1 m n ns2 :
  NoDup (ptrs ((ns1 ++ [m]) ++ n :: ns2)) →
  lseg h o ((ns1 ++ [m]) ++ n :: ns2) None →
  ∃ nx, h !! n_ptr n = Some (ListNode (n_id n) (n_data n) nx) ∧
    ∃ mx, h !! n_ptr m = Some (ListNode (n_id m) (n_data m) mx) ∧
    n_ptr n ≠ n_ptr m ∧
    lseg (<[n_ptr n := ListNode (n_id n) (n_data n) None]>
            (<[n_ptr m := ListNode (n_id m) (n_data m) nx]> h)) o ((ns1 ++ [m]) ++ ns2) None.
Proof.
  rewrite ptrs_app, lseg_app.
  intros (Hd1 & Hd12 & [Hn2 Hd2]%NoDup_cons)%NoDup_app (q & H1 & -> & nx & Hn & H2).
  exists nx. split; [done|].
  assert (Hm : ∃ mx, h !! n_ptr m = Some (ListNode (n_id m) (n_data m) mx)).
  { apply lseg_app in H1 as (k & _ & -> & mx & Hm & _). eauto. }
  destruct Hm as [mx Hm]. exists mx. split; [done|].
  pose proof (ptrs_elem_mid ns1 m []) as Hm1. fold (ns1 ++ [m]) in Hm1.
  assert (Hn1 : n_ptr n ∉ ptrs (ns1 ++ [m])) by (intros Hc; apply (Hd12 _ Hc); by left).
  split; [intros E; by rewrite E in Hn1|].
  rewrite lseg_app. exists nx. split.
  - apply lseg_insert; [done|]. by eapply lseg_redirect.
  - apply lseg_insert; [done|]. apply lseg_insert; [|done].
    intros Hc. apply (Hd12 _ Hm1). by right.
Qed.

Lemma last_app_cons (ns1 ns2 : t_list D) n :
  n_ptr <$> last (ns1 ++ n :: ns2) =
  match last ns2 with Some m => Some (n_ptr m) | None => Some (n_ptr n) end.
Proof.
  destruct ns2 as [|m ns2 _] using rev_ind; [by rewrite last_snoc|].
  by rewrite app_comm_cons, app_assoc, !last_snoc.
Qed.

(** The [tail] after the node was unlinked. *)
Lemma unlink_tail ns1 n ns2 :
  NoDup (ptrs (ns1 ++ n :: ns2)) →
  (if decide (n_ptr <$> last (ns1 ++ n :: ns2) = Some (n_ptr n))
   then match last ns1 with Some m => Some (n_ptr m) | None => None end
   else n_ptr <$> last (ns1 ++ n :: ns2)) = n_ptr <$> last (ns1 ++ ns2).
Proof.
  intros Hd. rewrite last_app_cons. destruct ns2 as [|m ns2 _] using rev_ind; simpl.
  - rewrite decide_True, app_nil_r by done. by destruct (last ns1).
  - rewrite last_snoc, decide_False.
    { by rewrite app_assoc, last_snoc. }
    intros [= E]. rewrite ptrs_app in Hd. apply NoDup_app in Hd as (_ & _ & [Hn _]%NoDup_cons).
    destruct Hn. rewrite <- E. apply ptrs_elem_mid.
Qed.

Lemma list_length_del ns1 n ns2 :
  u32 (Lists.list_length (ns1 ++ n :: ns2) - 1) = Lists.list_length (ns1 ++ ns2).
Proof.
  unfold Lists.list_length. rewrite !length_app. simpl.
  by rewrite Nat.add_succ_r, list_length_pred.
Qed.

Lemma unlink_repr l h ns1 n ns2 :
  list_repr l h (ns1 ++ n :: ns2) →
  ∃ l' h',
    list_unlink l h (match last ns1 with Some m => Some (n_ptr m) | None => None end) (n_ptr n) =
      Some (l', h') ∧
    list_repr l' h' (ns1 ++ ns2) ∧ heap_frame h h' (ns1 ++ n :: ns2) ∧ dom h' = dom h.
Proof.
  intros (Hseg & Hd & Htl & Hlen). unfold list_unlink.
  pose proof (unlink_tail ns1 n ns2 Hd) as Ht. rewrite <- Htl in Ht.
  pose proof (list_length_del ns1 n ns2) as Hl. rewrite <- Hlen in Hl.
  assert (Hd' : NoDup (ptrs (ns1 ++ ns2))).
  { eapply sublist_NoDup; [exact Hd|]. rewrite !ptrs_app.
    apply sublist_app; [done|]. by apply sublist_cons. }
  destruct ns1 as [|m ns1 _] using rev_ind.
  - destruct Hseg as (Ehd & nx & Hn & Hseg). repeat (rewrite Hn; simpl).
    apply NoDup_cons in Hd as [Hni Hd].
    eexists _, _. split; [done|]. split; [|split].
    + split; [by apply lseg_insert|done].
    + intros p Hp Hpd. rewrite lookup_insert_ne; [done|]. intros <-. apply Hp. by left.
    + apply elem_of_dom_2 in Hn. rewrite dom_insert_L. set_solver.
  - destruct (lseg_unlink _ _ _ _ _ _ Hd Hseg) as (nx & Hn & mx & Hm & Hne & Hseg').
    rewrite last_snoc in Ht |- *.
    rewrite Hn. simpl. rewrite Hm. simpl. rewrite lookup_insert_ne, Hn by done. simpl.
    eexists _, _. split; [done|]. split; [|split].
    + by split.
    + intros p Hp Hpd. rewrite !ptrs_app, !elem_of_app in Hp.
      rewrite !lookup_insert_ne; [done| |]; intros <-; apply Hp; [left; right|right]; by left.
    + apply elem_of_dom_2 in Hn. apply elem_of_dom_2 in Hm. rewrite !dom_insert_L. set_solver.
Qed.

Lemma list_del_absent ns node : list_deref ns node = None → list_del node ns = ns.
Proof.
  unfold list_deref. induction ns as [|m ns IH]; simpl; [done|].
  destruct (Pos.eqb _ _); [done|]. intros H. by rewrite IH.
Qed.

Lemma list_deref_absent ns node :
  NoDup (ptrs ns) → list_deref ns node = None → node ∉ ptrs ns.
Proof.
  intros Hd H (n & -> & Hn)%list_elem_of_fmap. apply list_deref_elem in Hn; [|done].
  congruence.
Qed.

Lemma remove_repr l h ns node :
  list_repr l h ns →
  ∃ b l' h', list_remove_node l h node = Some (b, l', h') ∧
    b = bool_decide (node ∈ ptrs ns) ∧ list_repr l' h' (list_del node ns) ∧
    heap_frame h h' ns.
Proof.
  intros Hr. pose proof Hr as (Hseg & Hd & _). unfold list_remove_node.
  destruct (lh_head l) as [hd|] eqn:Ehd.
  2:{ apply lseg_head_None in Hseg as ->. by exists false, l, h. }
  pose proof (lseg_length _ _ _ _ Hseg Hd) as Hsz.
  pose proof (remove_find_go_spec (S (size h)) h None (Some hd) ns node Hseg ltac:(lia)) as Hf.
  destruct (list_deref ns node) as [n|] eqn:En.
  2:{ destruct Hf as [pv ->]. simpl. exists false, l, h.
      rewrite list_del_absent, bool_decide_false by (done || by apply list_deref_absent). done. }
  destruct Hf as (ns1 & ns2 & -> & <- & ->). simpl.
  destruct (unlink_repr _ _ _ _ _ Hr) as (l' & h' & -> & Hr' & Hfr & _). simpl.
  exists true, l', h'. rewrite list_del_split, bool_decide_true by (done || apply ptrs_elem_mid).
  done.
Qed.

Lemma node_by_id_repr l h ns id :
  list_repr l h ns →
  list_node_by_id l h id = Some (n_ptr <$> Lists.list_node_by_id ns id).
Proof.
  intros (Hseg & Hd & _). apply node_by_id_go_spec; [done|].
  pose proof (lseg_length _ _ _ _ Hseg Hd). lia.
Qed.

Lemma shift_repr l h ns :
  list_repr l h ns →
  ∃ l' h', list_shift l h = Some (n_ptr <$> (Lists.list_shift ns).1, l', h') ∧
    list_repr l' h' (Lists.list_shift ns).2 ∧ heap_frame h h' ns.
Proof.
  intros (Hseg & Hd & Htl & Hlen). unfold list_shift, list_repr.
  destruct ns as [|n ns]; simpl in Hseg.
  { exists l, h. rewrite Hseg. split; [done|]. split; [|done]. by split. }
  destruct Hseg as (-> & nx & Hn & Hseg). rewrite Hn. simpl.
  pose proof (unlink_tail [] n ns Hd) as Ht. cbn [app] in Ht. rewrite <- Htl in Ht.
  pose proof (list_length_del [] n ns) as Hl. cbn [app] in Hl. rewrite <- Hlen in Hl.
  apply NoDup_cons in Hd as [Hni Hd]. eexists _, _. split; [done|]. split.
  - split; [by apply lseg_insert|done].
  - intros p Hp Hpd. rewrite lookup_insert_ne; [done|]. intros <-. apply Hp. by left.
Qed.

Lemma list_clear_go_spec {S} (clear : option (D → S → S)) fuel h s o ns :
  lseg h o ns None → NoDup (ptrs ns) → (length ns ≤ fuel)%nat →
  list_clear_go clear fuel h s o =
  Some (foldr delete h (reverse (ptrs ns)),
        match clear with
        | Some f => fold_left (λ s n, f (n_data n) s) ns s
        | None => s
        end).
Proof.
  revert fuel h s o. induction ns as [|n ns IH]; intros fuel h s o Hseg Hd Hf; simpl in Hseg.
  { subst. destruct clear, fuel; done. }
  destruct Hseg as (-> & nx & Hn & Hseg). apply NoDup_cons in Hd as [Hni Hd].
  destruct fuel as [|fuel]; simpl in *; [lia|]. unfold list_node_free. rewrite Hn. simpl.
  rewrite IH; [|..|lia]; [| |done].
  - rewrite reverse_cons, foldr_app. simpl. by destruct clear.
  - eapply lseg_frame; [|exact Hseg]. intros p Hp. apply lookup_delete_ne. by intros <-.
Qed.

Lemma foldr_delete_lookup h (ps : list positive) p :
  foldr delete h ps !! p = if decide (p ∈ ps) then None else h !! p.
Proof.
  induction ps as [|q ps IH]; simpl; [done|].
  destruct (decide (p = q)) as [->|].
  - rewrite lookup_delete_eq. rewrite decide_True; [done|by left].
  - rewrite lookup_delete_ne by done. rewrite IH.
    repeat case_decide; set_solver.
Qed.

Lemma clear_repr {S} (clear : option (D → S → S)) l h s ns :
  list_repr l h ns →
  ∃ h', list_clear clear l h s =
      Some (list_init, h', match clear with
                           | Some f => fold_left (λ s n, f (n_data n) s) ns s
                           | None => s
                           end) ∧
    ∀ p, h' !! p = if decide (p ∈ ptrs ns) then None else h !! p.
Proof.
  intros (Hseg & Hd & _). unfold list_clear. eexists. split.
  - erewrite list_clear_go_spec; [done|done|done|]. by eapply lseg_length.
  - intros p. rewrite foldr_delete_lookup. repeat case_decide; set_solver.
Qed.

Lemma init_repr : list_repr list_init (∅ : list_heap D) [].
Proof. split; [done|]. split; [apply NoDup_nil_2|done]. Qed.
End refinement.

(** ** The properties of list.c *)

(** [list_push] on a well-formed list is defined (it follows no dangling
    pointer), takes a node that no list uses, and yields a well-formed list
    whose nodes are the old ones followed by the new one; nodes of other lists
    in the heap are unchanged. *)
Theorem list_push_refines {D} (l : list_hdr) (h : list_heap D) (ns : t_list D) (id : Z) (data : D) :
  list_repr l h ns →
  ∃ l' h' p, list_push l h id data = Some (l', h') ∧ p ∉ dom h ∧
    list_repr l' h' (ns ++ [Node p id data]) ∧ heap_frame h h' ns.
Proof. apply push_repr. Qed.

Lemma list_push_refines_witness :
  ∃ l' h' p, list_push list_init (∅ : list_heap Z) 7 42 = Some (l', h') ∧ p ∉ dom (∅ : list_heap Z) ∧
    list_repr l' h' [Node p 7 42] ∧ heap_frame ∅ h' ([] : t_list Z).
Proof. apply (list_push_refines list_init ∅ [] 7 42). exact init_repr. Defined.

(** C37: [list_remove_node] on a well-formed list terminates, is defined, returns
    whether the node was in the list, and yields a well-formed list without
    that node: [head], [tail], [length] and the predecessor's [next] are all
    corrected. [list_node_by_id] returns the first node with the id. *)
Theorem list_remove_node_refines {D} (l : list_hdr) (h : list_heap D) (ns : t_list D) (id : Z)
    (node : positive) :
  list_repr l h ns →
  list_node_by_id l h id = Some (n_ptr <$> Lists.list_node_by_id ns id) ∧
  ∃ b l' h', list_remove_node l h node = Some (b, l', h') ∧
    b = bool_decide (node ∈ ptrs ns) ∧ list_repr l' h' (list_del node ns) ∧
    heap_frame h h' ns.
Proof. intros H. split; [by apply node_by_id_repr|by apply remove_repr]. Qed.

(** Two clients, the first one disconnects. *)
Definition two_nodes : list_heap Z :=
  <[1%positive := ListNode 1 10 (Some 2%positive)]> {[2%positive := ListNode 2 20 None]}.

Lemma two_nodes_repr :
  list_repr (ListHdr (Some 1%positive) (Some 2%positive) 2) two_nodes [Node 1 1 10; Node 2 2 20].
Proof.
  split; [|split; [|done]].
  - split; [done|]. exists (Some 2%positive). split; [done|]. split; [done|]. by exists None.
  - repeat constructor; set_solver.
Qed.

Lemma list_remove_node_refines_witness :
  ∃ b l' h', list_remove_node (ListHdr (Some 1%positive) (Some 2%positive) 2) two_nodes 1 =
      Some (b, l', h') ∧
    b = true ∧ list_repr l' h' [Node 2 2 20].
Proof.
  destruct (list_remove_node_refines _ _ _ 2 1 two_nodes_repr) as (_ & b & l' & h' & H1 & H2 & H3 & _).
  exists b, l', h'. split; [exact H1|]. split; [|exact H3]. rewrite H2. reflexivity.
Defined.

(** [list_shift] detaches the first node, or returns NULL on an empty list;
    together with [list_push] this makes a list a first-in first-out queue. *)
Theorem list_shift_refines {D} (l : list_hdr) (h : list_heap D) (ns : t_list D) :
  list_repr l h ns →
  ∃ l' h', list_shift l h = Some (n_ptr <$> (Lists.list_shift ns).1, l', h') ∧
    list_repr l' h' (Lists.list_shift ns).2 ∧ heap_frame h h' ns.
Proof. apply shift_repr. Qed.

Lemma list_shift_refines_witness :
  ∃ l' h', list_shift (ListHdr (Some 1%positive) (Some 2%positive) 2) two_nodes =
      Some (Some 1%positive, l', h') ∧ list_repr l' h' [Node 2 2 20].
Proof.
  destruct (list_shift_refines _ _ _ two_nodes_repr) as (l' & h' & H1 & H2 & _).
  exists l', h'. split; [exact H1|exact H2].
Defined.

(** [list_clear] terminates, calls the clear callback once on the data of
    every node in order, frees exactly the nodes of the list and leaves the
    empty list. *)
Theorem list_clear_refines {D S} (clear : option (D → S → S)) (l : list_hdr) (h : list_heap D)
    (s : S) (ns : t_list D) :
  list_repr l h ns →
  ∃ h', list_clear clear l h s =
      Some (list_init, h', match clear with
                           | Some f => fold_left (λ s n, f (n_data n) s) ns s
                           | None => s
                           end) ∧
    ∀ p, h' !! p = if decide (p ∈ ptrs ns) then None else h !! p.
Proof. apply clear_repr. Qed.

Lemma list_clear_refines_witness :
  ∃ h', list_clear (Some (λ d s, d :: s)) (ListHdr (Some 1%positive) (Some 2%positive) 2) two_nodes []
      = Some (list_init, h', [20; 10]) ∧ h' !! 1%positive = None.
Proof.
  destruct (list_clear_refines (Some (λ d s, d :: s)) _ _ [] _ two_nodes_repr) as (h' & H1 & H2).
  exists h'. split; [exact H1|]. rewrite H2. reflexivity.
Defined.
