(* ===== verification/MsgQueue.v ===== *)
(** * mygpiod/event_loop/msg_queue.c

    The message queues between the main thread and the threads of Lua scripts,
    with their nodes in a heap: a [t_mygpiod_msg] is a [list_node] whose data is
    a [t_msg], a [t_mygpiod_queue] is a header and the counter of its event
    descriptor. Each function is what it does while it holds the mutex;
    [t_rcs] are the results of the pthread calls around it. *)

From S2P Require Import Prelude Lists LinkedList.

(** [data], [data_free != NULL] and [timestamp] of a message. *)
Record t_msg (D : Type) := Msg { m_data : D; m_data_free : bool; m_timestamp : Z }.
Arguments Msg {D} _ _ _.
Arguments m_data {D} _.
Arguments m_data_free {D} _.
Arguments m_timestamp {D} _.

(** [mutex], [wakeup] and [name] have no content; [q_event] counts what was
    written to [event_fd]. *)
Record t_mygpiod_queue := Queue { q_list : list_hdr; q_event_fd : Z; q_event : Z }.
#[export] Instance eta_queue : Eta t_mygpiod_queue := λ r, Queue (q_list r) (q_event_fd r) (q_event r).

Record t_rcs := Rcs { lock_rc : Z; unlock_rc : Z; signal_rc : Z }.

Section queue_c.
Context {D : Type}.
Abbreviation msg_heap := (list_heap (t_msg D)).
Implicit Types (h : msg_heap) (q : t_mygpiod_queue) (l : list_hdr).

(** [fd] is the result of [event_eventfd_create]. *)
Definition mygpiod_queue_create (event : bool) (fd : Z) : t_mygpiod_queue :=
  Queue list_init (if event then fd else -1) 0.

(** The critical section of the push: a node at the end. *)
Definition queue_append l h (id : Z) (data : t_msg D) : option (list_hdr * msg_heap) :=
  let p := malloc_node h in
  let h := <[p := ListNode id data None]> h in
  let l := l <| lh_length ::= λ k, u32 (k + 1) |> in
  match lh_head l, lh_tail l with
  | None, None => Some (l <| lh_head := Some p |> <| lh_tail := Some p |>, h)
  | _, t =>
      t ← t;
      n ← h !! t;
      Some (l <| lh_tail := Some p |>, <[t := n <| ln_next := Some p |>]> h)
  end.

Definition mygpiod_queue_push q h (data : D) (data_free : bool) (id now : Z) (rcs : t_rcs)
    : option (bool * t_mygpiod_queue * msg_heap) :=
  if negb (lock_rc rcs =? 0) then Some (false, q, h)
  else
    '(l, h) ← queue_append (q_list q) h id (Msg data data_free now);
    let q := q <| q_list := l |> in
    if negb (unlock_rc rcs =? 0) then Some (false, q, h)
    else if negb (signal_rc rcs =? 0) then Some (false, q, h)
    else Some (true, if -1 <? q_event_fd q then q <| q_event ::= λ n, n + 1 |> else q, h).

Fixpoint check_go (fuel : nat) h (current : option positive) (id : Z) : option bool :=
  match current with
  | None => Some false
  | Some p =>
      match fuel with
      | O => None
      | S fuel' => n ← h !! p; if ln_id n =? id then Some true else check_go fuel' h (ln_next n) id
      end
  end.

Definition check_for_queue_id l h (id : Z) : option bool :=
  if lh_length l =? 0 then Some false
  else if id =? 0 then Some true
  else check_go (S (size h)) h (lh_head l) id.

(** The [for] loop of the shift: [previous] and the message found. *)
Fixpoint shift_find_go (fuel : nat) h (previous current : option positive) (id : Z)
    : option (option positive * option positive) :=
  match current with
  | None => Some (previous, None)
  | Some p =>
      match fuel with
      | O => None
      | S fuel' =>
          n ← h !! p;
          if (id =? 0) || (id =? ln_id n) then Some (previous, Some p)
          else shift_find_go fuel' h (Some p) (ln_next n) id
      end
  end.

(** From the test of [queue->head] to the return. *)
Definition queue_take l h (id : Z) : option (option positive * list_hdr * msg_heap) :=
  match lh_head l with
  | None => Some (None, l, h)
  | Some _ =>
      '(previous, current) ← shift_find_go (S (size h)) h None (lh_head l) id;
      match current with
      | None => Some (None, l, h)
      | Some c => '(l, h) ← list_unlink l h previous c; Some (Some c, l, h)
      end
  end.

(** A call of mygpiod_queue_shift returns at once, or it waits on the condition
    variable, with a time limit or without. *)
Inductive shift_result :=
  | ShiftReturn (msg : option positive) (l : list_hdr) (h : msg_heap)
  | ShiftWait (timed : bool).

Definition shift_enter l h (timeout_ms id : Z) : option shift_result :=
  found ← (if -1 <? timeout_ms then check_for_queue_id l h id else Some true);
  if found : bool then '(m, l, h) ← queue_take l h id; Some (ShiftReturn m l h)
  else Some (ShiftWait (0 <? timeout_ms)).

(** [rc] is the result of the wait, after which the mutex is held again. *)
Definition shift_wake l h (id rc : Z) : option (option positive * list_hdr * msg_heap) :=
  if negb (rc =? 0) then Some (None, l, h) else queue_take l h id.

(** The node leaves the heap; [freed] are the data that were freed. *)
Definition free_queue_node h (freed : list D) (p : positive) : option (msg_heap * list D) :=
  n ← h !! p;
  Some (delete p h, if m_data_free (ln_data n) then freed ++ [m_data (ln_data n)] else freed).

(** One removal: [to_remove] is [c]; the pointer returned is the new [current]. *)
Definition expire_drop l h (freed : list D) (previous : option positive) (c : positive)
    : option (list_hdr * msg_heap * list D * option positive) :=
  n ← h !! c;
  let l := l <| lh_tail ::= λ t, if decide (t = Some c) then previous else t |> in
  '(l, h, current) ←
    match previous with
    | None => Some (l <| lh_head := ln_next n |>, h, ln_next n)
    | Some pv => np ← h !! pv; Some (l, <[pv := np <| ln_next := ln_next n |>]> h, previous)
    end;
  '(h, freed) ← free_queue_node h freed c;
  Some (l <| lh_length ::= λ k, u32 (k - 1) |>, h, freed, current).

(** The loop of mygpiod_queue_expire_age; [count] is an [int]. *)
Fixpoint expire_go (fuel : nat) l h (freed : list D) (previous current : option positive)
    (max_age_s expire_time count : Z) : option (Z * list_hdr * msg_heap * list D) :=
  match current with
  | None => Some (count, l, h, freed)
  | Some c =>
      match fuel with
      | O => None
      | S fuel' =>
          n ← h !! c;
          if (max_age_s =? 0) || (m_timestamp (ln_data n) <? expire_time) then
            '(l, h, freed, current) ← expire_drop l h freed previous c;
            expire_go fuel' l h freed previous current max_age_s expire_time (i32 (count + 1))
          else expire_go fuel' l h freed current (ln_next n) max_age_s expire_time count
      end
  end.

Definition mygpiod_queue_expire_age l h (max_age_s now : Z) (lock_rc : Z)
    : option (Z * list_hdr * msg_heap * list D) :=
  if negb (lock_rc =? 0) then Some (0, l, h, [])
  else
    match lh_head l with
    | None => Some (0, l, h, [])
    | Some _ =>
        expire_go (2 * size h + 1) l h [] None (lh_head l) max_age_s (now - max_age_s) 0
    end.

(** The result is what is left of the heap and the data that were freed. The
    descriptor of the queue is closed by [main_exit] of Release.v. *)
Definition mygpiod_queue_free l h (now lock_rc : Z) : option (msg_heap * list D) :=
  '(_, _, h, freed) ← mygpiod_queue_expire_age l h 0 now lock_rc; Some (h, freed).

(** [None]: an assertion fails. The result is the deadline, seconds and
    nanoseconds. *)
Definition set_wait_time (timeout_ms : Z) (realtime : option (Z * Z)) : option (Z * Z) :=
  '(tv_sec, tv_nsec) ← realtime;
  let timeout_ns := tv_nsec + timeout_ms * 1000000 in
  if 999999999 <? timeout_ns
  then Some (tv_sec + timeout_ns ÷ 1000000000, Z.rem timeout_ns 1000000000)
  else Some (tv_sec, tv_nsec + timeout_ns).
End queue_c.

(** ** The queue as a list of messages *)

Section spec.
Context {D : Type}.
Implicit Types (ns : t_list (t_msg D)) (h : list_heap (t_msg D)) (l : list_hdr).

(** A shift with this id takes the message. *)
Definition wanted_by (id : Z) (n : node (t_msg D)) : bool := (id =? 0) || (id =? n_id n).

(** The first message that is wanted, and the others. *)
Fixpoint take_msg (id : Z) ns : option (node (t_msg D)) * t_list (t_msg D) :=
  match ns with
  | [] => (None, [])
  | n :: ns => if wanted_by id n then (Some n, ns) else let '(m, r) := take_msg id ns in (m, n :: r)
  end.

Definition expired (max_age_s expire_time : Z) (n : node (t_msg D)) : bool :=
  (max_age_s =? 0) || (m_timestamp (n_data n) <? expire_time).

Definition freed_data ns : list D := map (λ n, m_data (n_data n)) (filter (λ n, m_data_free (n_data n) = true) ns).

Lemma take_msg_find id ns :
  match take_msg id ns with
  | (None, r) => r = ns ∧ existsb (wanted_by id) ns = false
  | (Some n, r) => ∃ ns1 ns2, ns = ns1 ++ n :: ns2 ∧ r = ns1 ++ ns2 ∧
      existsb (wanted_by id) ns1 = false ∧ wanted_by id n = true
  end.
Proof.
  induction ns as [|n ns IH]; simpl; [done|]. destruct (wanted_by id n) eqn:E.
  - by exists [], ns.
  - destruct (take_msg id ns) as [[m|] r].
    + destruct IH as (ns1 & ns2 & -> & -> & H1 & H2). exists (n :: ns1), ns2. simpl. by rewrite E.
    + destruct IH as [-> ->]. done.
Qed.

(** ** Refinement *)

Lemma append_repr l h ns id data :
  list_repr l h ns →
  ∃ l' h' p, queue_append l h id data = Some (l', h') ∧ p ∉ dom h ∧
    list_repr l' h' (ns ++ [Node p id data]) ∧ heap_frame h h' ns.
Proof.
  intros Hr. destruct (push_repr l h ns id data Hr) as (l' & h' & p & E & Hp & Hr' & Hf).
  exists l', h', p. split; [|done]. rewrite <- E. unfold queue_append, LinkedList.list_push.
  destruct Hr as (Hseg & _ & Htl & _). destruct l as [hd tl k]. simpl in *.
  destruct ns as [|n ns _] using rev_ind.
  - simpl in *. by subst.
  - rewrite last_snoc in Htl. simpl in Htl. subst tl.
    destruct hd as [hd|]; [|by apply lseg_head_None in Hseg; destruct ns].
    simpl. by destruct (_ !! n_ptr n).
Qed.

Lemma shift_find_go_spec fuel h prev o ns id :
  lseg h o ns None → (length ns ≤ fuel)%nat →
  match take_msg id ns with
  | (None, _) => ∃ pv, shift_find_go fuel h prev o id = Some (pv, None)
  | (Some n, r) => ∃ ns1 ns2, ns = ns1 ++ n :: ns2 ∧ r = ns1 ++ ns2 ∧
      shift_find_go fuel h prev o id =
        Some (match last ns1 with Some m => Some (n_ptr m) | None => prev end, Some (n_ptr n))
  end.
Proof.
  revert fuel prev o. induction ns as [|n ns IH]; intros fuel prev o Hseg Hf; simpl in *.
  { subst. exists prev. by destruct fuel. }
  destruct Hseg as (-> & nx & Hn & Hseg). destruct fuel as [|fuel]; [lia|]. simpl.
  rewrite Hn. simpl. fold (wanted_by id n). destruct (wanted_by id n).
  { by exists [], ns. }
  specialize (IH fuel (Some (n_ptr n)) nx Hseg ltac:(lia)).
  destruct (take_msg id ns) as [[m|] r]; [|done].
  destruct IH as (ns1 & ns2 & -> & -> & ->). exists (n :: ns1), ns2. split_and!; [done|done|].
  destruct ns1 as [|k ns1 _] using rev_ind; [done|].
  by rewrite app_comm_cons, !last_snoc.
Qed.

(** The pointers of the last and of the first node. *)
Definition last_ptr ns : option positive := match last ns with Some m => Some (n_ptr m) | None => None end.

Lemma last_ptr_elem ns p : last_ptr ns = Some p → p ∈ ptrs ns.
Proof.
  unfold last_ptr. destruct (last ns) as [m|] eqn:E; [|done]. intros [= <-].
  by apply list_elem_of_fmap_2, last_Some_elem_of.
Qed.

Definition head_ptr ns : option positive := n_ptr <$> head ns.

Lemma lseg_head_ptr h o ns : lseg h o ns None → o = head_ptr ns.
Proof. destruct ns; [done|]. by intros [-> _]. Qed.

Lemma lseg_mid h o ns1 n ns2 :
  lseg h o (ns1 ++ n :: ns2) None →
  h !! n_ptr n = Some (ListNode (n_id n) (n_data n) (head_ptr ns2)).
Proof.
  intros (m & _ & _ & nx & Hn & Hs)%lseg_app. rewrite Hn. by rewrite (lseg_head_ptr _ _ _ Hs).
Qed.

(** The node that was taken out keeps its contents. *)
Lemma unlink_node l h prev c n l' h' :
  list_unlink l h prev c = Some (l', h') → h !! c = Some n → prev ≠ Some c →
  h' !! c = Some (n <| ln_next := None |>).
Proof.
  unfold list_unlink. intros E Hn Hne. rewrite Hn in E. simpl in E. destruct prev as [pv|].
  - destruct (h !! pv) as [np|]; simpl in E; [|done].
    rewrite lookup_insert_ne in E by congruence. rewrite Hn in E. injection E as _ <-.
    apply lookup_insert_eq.
  - simpl in E. rewrite Hn in E. injection E as _ <-. apply lookup_insert_eq.
Qed.

Lemma take_repr l h ns id :
  list_repr l h ns →
  ∃ l' h', queue_take l h id = Some (n_ptr <$> (take_msg id ns).1, l', h') ∧
    list_repr l' h' (take_msg id ns).2 ∧ heap_frame h h' ns ∧
    ∀ n, (take_msg id ns).1 = Some n → h' !! n_ptr n = Some (ListNode (n_id n) (n_data n) None).
Proof.
  intros Hr. pose proof Hr as (Hseg & Hd & _). unfold queue_take.
  destruct (lh_head l) as [hd|] eqn:Ehd.
  2:{ apply lseg_head_None in Hseg as ->. exists l, h. do 3 (split; [done || by intros p|]). done. }
  pose proof (lseg_length _ _ _ _ Hseg Hd) as Hsz.
  pose proof (shift_find_go_spec (S (size h)) h None (Some hd) ns id Hseg ltac:(lia)) as Hf.
  pose proof (take_msg_find id ns) as Ht.
  destruct (take_msg id ns) as [[n|] r].
  - destruct Hf as (ns1 & ns2 & -> & -> & ->). simpl.
    destruct (unlink_repr _ _ _ _ _ Hr) as (l' & h' & E & Hr' & Hfr & _). rewrite E. simpl.
    exists l', h'. do 3 (split; [done|]). cbn. intros m [= <-].
    apply (unlink_node _ _ _ _ _ _ _ E (lseg_mid _ _ _ _ _ Hseg)). fold (last_ptr ns1).
    intros Hl%last_ptr_elem. rewrite ptrs_app in Hd. apply NoDup_app in Hd as (_ & H1 & _).
    apply (H1 _ Hl). by left.
  - destruct Hf as [pv ->]. destruct Ht as [-> _]. simpl. exists l, h. do 3 (split; [done || by intros p|]). done.
Qed.

Lemma check_go_spec fuel h o ns id :
  lseg h o ns None → (length ns ≤ fuel)%nat →
  check_go fuel h o id = Some (existsb (λ n, n_id n =? id) ns).
Proof.
  revert fuel o. induction ns as [|n ns IH]; intros fuel o Hseg Hf; simpl in *.
  { subst. by destruct fuel. }
  destruct Hseg as (-> & nx & Hn & Hseg). destruct fuel as [|fuel]; [lia|]. simpl.
  rewrite Hn. simpl. destruct (n_id n =? id); [done|]. apply IH; [done|lia].
Qed.

Lemma check_repr l h ns id :
  list_repr l h ns → Z.of_nat (length ns) ≤ UINT_MAX →
  check_for_queue_id l h id = Some (existsb (wanted_by id) ns).
Proof.
  intros (Hseg & Hd & _ & Hlen) Hl. unfold check_for_queue_id. rewrite Hlen.
  unfold Lists.list_length. rewrite u32_small by (unfold is_u32; lia).
  destruct ns as [|n ns]; [done|].
  rewrite (proj2 (Z.eqb_neq _ _)) by (simpl; lia). unfold wanted_by.
  destruct (Z.eqb_spec id 0) as [-> |Hid]; [done|].
  pose proof (lseg_length _ _ _ _ Hseg Hd).
  erewrite check_go_spec by (exact Hseg || lia). f_equal. clear.
  induction (n :: ns) as [|m ms IH]; [done|]. cbn [existsb]. rewrite IH. by rewrite (Z.eqb_sym id).
Qed.

Lemma freed_data_cons n ns : freed_data (n :: ns) = freed_data [n] ++ freed_data ns.
Proof. unfold freed_data. rewrite <- map_app. f_equal. by rewrite <- filter_app. Qed.

Lemma expire_drop_spec l h freed ns1 n ns2 :
  list_repr l h (ns1 ++ n :: ns2) →
  ∃ l' h',
    expire_drop l h freed (last_ptr ns1) (n_ptr n) =
      Some (l', h', freed ++ freed_data [n],
            match last_ptr ns1 with Some p => Some p | None => head_ptr ns2 end) ∧
    list_repr l' h' (ns1 ++ ns2) ∧ dom h' = dom h ∖ {[n_ptr n]} ∧
    heap_frame h h' (ns1 ++ n :: ns2).
Proof.
  intros Hr. destruct (unlink_repr _ _ _ _ _ Hr) as (l1 & h1 & E & Hr1 & Hf & Hdom).
  destruct Hr as (Hseg & Hd & _). pose proof (lseg_mid _ _ _ _ _ Hseg) as Hn.
  assert (Hni : n_ptr n ∉ ptrs (ns1 ++ ns2)).
  { rewrite ptrs_app in Hd |- *. simpl in Hd. apply NoDup_app in Hd as (_ & H1 & [H2 _]%NoDup_cons).
    intros [H|H]%elem_of_app; [|done]. apply (H1 _ H). by left. }
  exists l1, (delete (n_ptr n) h1).
  assert (Hfd : (if m_data_free (n_data n) then freed ++ [m_data (n_data n)] else freed) =
      freed ++ freed_data [n]).
  { unfold freed_data. simpl. rewrite filter_cons. case_decide as C; simpl.
    - by rewrite C.
    - rewrite app_nil_r. by destruct (m_data_free _). }
  split; [|split; [|split]].
  - unfold expire_drop, list_unlink, free_queue_node in *. fold (last_ptr ns1) in E.
    rewrite Hn in E |- *. simpl in E |- *. destruct (last_ptr ns1) as [pv|] eqn:Epv.
    + destruct (h !! pv) as [np|]; simpl in E |- *; [|done].
      destruct (decide (pv = n_ptr n)) as [->|Hne].
      { destruct Hni. rewrite ptrs_app, elem_of_app. left. by apply last_ptr_elem. }
      rewrite lookup_insert_ne in E |- * by done. rewrite Hn in E |- *. simpl in E |- *.
      injection E as <- <-. rewrite Hfd. by rewrite delete_insert_eq.
    + simpl in E |- *. rewrite Hn in E |- *. simpl in E |- *. injection E as <- <-. rewrite Hfd. by rewrite delete_insert_eq.
  - destruct Hr1 as (Hs1 & Hd1 & Ht1). split; [|by split]. apply (lseg_frame h1); [|done].
    intros p Hp. apply lookup_delete_ne. by intros <-.
  - rewrite dom_delete_L. by rewrite Hdom.
  - intros p Hp Hin. rewrite lookup_delete_ne; [by apply Hf|]. intros <-. apply Hp, ptrs_elem_mid.
Qed.

Lemma heap_frame_drop h h1 h2 ns1 n ns2 :
  heap_frame h h1 (ns1 ++ n :: ns2) → heap_frame h1 h2 (ns1 ++ ns2) →
  heap_frame h h2 (ns1 ++ n :: ns2).
Proof.
  intros H1 H2 p Hp Hin. rewrite <- (H1 p Hp Hin). apply H2.
  - intros Hp'. apply Hp. rewrite ptrs_app in *. apply elem_of_app in Hp' as [?|?]; apply elem_of_app; [by left|].
    right. by right.
  - apply elem_of_dom. rewrite (H1 p Hp Hin). by apply elem_of_dom.
Qed.

(** Each removal costs at most two rounds of the loop: after it the kept node
    before is visited again. *)
Lemma expire_go_spec fuel l h freed ns1 ns2 age et count :
  (2 * length ns2 ≤ fuel)%nat → list_repr l h (ns1 ++ ns2) → i32 count = count →
  Forall (λ n, expired age et n = false) ns1 →
  ∃ l' h',
    expire_go fuel l h freed (last_ptr ns1) (head_ptr ns2) age et count =
      Some (i32 (count + Z.of_nat (length (filter (λ n, expired age et n = true) ns2))), l', h',
            freed ++ freed_data (filter (λ n, expired age et n = true) ns2)) ∧
    list_repr l' h' (ns1 ++ filter (λ n, expired age et n = false) ns2) ∧
    dom h' = dom h ∖ list_to_set (ptrs (filter (λ n, expired age et n = true) ns2)) ∧
    heap_frame h h' (ns1 ++ ns2).
Proof.
  revert fuel l h freed ns1 count. induction ns2 as [|n ns2 IH]; intros fuel l h freed ns1 count Hf Hr Hc Hk.
  { exists l, h. unfold freed_data. simpl. rewrite !app_nil_r. rewrite app_nil_r in Hr.
    split; [|split; [done|split; [|by intros p]]].
    - rewrite Z.add_0_r, Hc. by destruct fuel.
    - by rewrite difference_empty_L. }
  destruct fuel as [|fuel]; [simpl in Hf; lia|]. pose proof Hr as (Hseg & _).
  rewrite !filter_cons. cbn [expire_go head_ptr head fmap option_fmap option_map].
  rewrite (lseg_mid _ _ _ _ _ Hseg). simpl. fold (expired age et n).
  destruct (expired age et n) eqn:Ex.
  - rewrite (decide_True (P := true = true)), (decide_False (P := true = false)) by done.
    destruct (expire_drop_spec l h freed ns1 n ns2 Hr) as (l1 & h1 & -> & Hr1 & Hd1 & Hf1). simpl.
    destruct fuel as [|fuel]; [simpl in Hf; lia|].
    destruct (IH (match last_ptr ns1 with Some _ => fuel | None => S fuel end) l1 h1
      (freed ++ freed_data [n]) ns1 (i32 (count + 1))) as (l2 & h2 & E & Hr2 & Hd2 & Hf2).
    { simpl in Hf. destruct (last_ptr ns1); lia. } { done. } { apply i32_idem. } { done. }
    exists l2, h2. split; [|split; [done|split]].
    + trans (Some (i32 (i32 (count + 1) + Z.of_nat (length (filter (λ n, expired age et n = true) ns2))), l2, h2,
        (freed ++ freed_data [n]) ++ freed_data (filter (λ n, expired age et n = true) ns2))).
      * rewrite <- E. unfold last_ptr. destruct ns1 as [|m ns1 _] using rev_ind; [done|].
        rewrite last_snoc. cbn [expire_go]. pose proof Hr1 as (Hs1 & _).
        rewrite <- app_assoc in Hs1. rewrite (lseg_mid _ _ _ _ _ Hs1). simpl.
        apply Forall_app in Hk as [_ [Hm _]%Forall_cons_1]. fold (expired age et m). by rewrite Hm.
      * rewrite <- (app_assoc freed), <- freed_data_cons. cbn [length].
        rewrite Nat2Z.inj_succ, i32_add. by replace (count + 1 + _) with
          (count + Z.succ (Z.of_nat (length (filter (λ n, expired age et n = true) ns2)))) by lia.
    + rewrite Hd2, Hd1. by rewrite difference_difference_l_L.
    + by eapply heap_frame_drop.
  - rewrite (decide_False (P := false = true)), (decide_True (P := false = false)) by done.
    destruct (IH fuel l h freed (ns1 ++ [n]) count) as (l2 & h2 & E & Hr2 & Hd2 & Hf2).
    { simpl in Hf. lia. } { by rewrite <- app_assoc. } { done. }
    { apply Forall_app. split; [done|]. by apply Forall_singleton. }
    exists l2, h2. rewrite <- app_assoc in Hr2, Hf2. split; [|by split].
    rewrite <- E. unfold last_ptr. by rewrite last_snoc.
Qed.

Lemma expire_repr l h ns age now :
  list_repr l h ns →
  ∃ l' h', mygpiod_queue_expire_age l h age now 0 =
      Some (i32 (Z.of_nat (length (filter (λ n, expired age (now - age) n = true) ns))), l', h',
            freed_data (filter (λ n, expired age (now - age) n = true) ns)) ∧
    list_repr l' h' (filter (λ n, expired age (now - age) n = false) ns) ∧
    dom h' = dom h ∖ list_to_set (ptrs (filter (λ n, expired age (now - age) n = true) ns)) ∧
    heap_frame h h' ns.
Proof.
  intros Hr. pose proof Hr as (Hseg & Hd & _). unfold mygpiod_queue_expire_age. simpl.
  destruct (lh_head l) as [hd|] eqn:Ehd.
  2:{ apply lseg_head_None in Hseg as ->. exists l, h. simpl. rewrite difference_empty_L.
      split; [done|split; [done|split; [done|by intros p]]]. }
  pose proof (lseg_length _ _ _ _ Hseg Hd). rewrite (lseg_head_ptr _ _ _ Hseg).
  destruct (expire_go_spec (2 * size h + 1) l h [] [] ns age (now - age) 0) as (l' & h' & E & H1);
    [lia|done|done|done|].
  exists l', h'. split; [|done]. etrans; [exact E|]. done.
Qed.

(** Freeing a queue leaves no node of it, and frees the data of each once. *)
Lemma queue_free_repr l h ns now :
  list_repr l h ns →
  ∃ h', mygpiod_queue_free l h now 0 = Some (h', freed_data ns) ∧ dom h' = dom h ∖ list_to_set (ptrs ns).
Proof.
  intros Hr. destruct (expire_repr l h ns 0 now Hr) as (l' & h' & E & _ & Hdom & _).
  assert (Hall : filter (λ n, expired 0 (now - 0) n = true) ns = ns).
  { clear. induction ns as [|n ns IH]; [done|]. rewrite filter_cons_True; [by rewrite IH|done]. }
  rewrite Hall in E, Hdom. unfold mygpiod_queue_free. rewrite E. by exists h'.
Qed.
End spec.

(** ** Sequences of operations *)

(** What the threads do with one queue, each step while the mutex is held: push
    a message, enter a shift, wake up in a shift, remove what is too old. *)
Inductive queue_op (D : Type) :=
  | OpPush (id : Z) (msg : t_msg D)
  | OpShift (timeout_ms id : Z)
  | OpWake (id rc : Z)
  | OpExpire (max_age_s now : Z).
Arguments OpPush {D} _ _.
Arguments OpShift {D} _ _.
Arguments OpWake {D} _ _.
Arguments OpExpire {D} _ _.

(** The message a shift returned, whether it waits, the number of messages
    removed and the data freed. *)
Inductive queue_res (D : Type) :=
  | ResPush
  | ResMsg (msg : option (Z * t_msg D))
  | ResWait (timed : bool)
  | ResExpire (count : Z) (freed : list D).
Arguments ResPush {D}.
Arguments ResMsg {D} _.
Arguments ResWait {D} _.
Arguments ResExpire {D} _ _.

Section runs.
Context {D : Type}.
Abbreviation state := (list_hdr * list_heap (t_msg D))%type.
Abbreviation spec := (list (Z * t_msg D)).
Implicit Types (σ : state) (s : spec).

Definition read_msg (h : list_heap (t_msg D)) (m : option positive) : option (queue_res D) :=
  match m with
  | None => Some (ResMsg None)
  | Some p => n ← h !! p; Some (ResMsg (Some (ln_id n, ln_data n)))
  end.

Definition run_op σ (op : queue_op D) : option (queue_res D * state) :=
  let '(l, h) := σ in
  match op with
  | OpPush id msg => σ ← queue_append l h id msg; Some (ResPush, σ)
  | OpShift t id =>
      r ← shift_enter l h t id;
      match r with
      | ShiftReturn m l h => r ← read_msg h m; Some (r, (l, h))
      | ShiftWait timed => Some (ResWait timed, (l, h))
      end
  | OpWake id rc => '(m, l, h) ← shift_wake l h id rc; r ← read_msg h m; Some (r, (l, h))
  | OpExpire age now =>
      '(c, l, h, freed) ← mygpiod_queue_expire_age l h age now 0; Some (ResExpire c freed, (l, h))
  end.

Definition wanted (id : Z) (m : Z * t_msg D) : bool := (id =? 0) || (id =? m.1).

Fixpoint spec_take (id : Z) s : option (Z * t_msg D) * spec :=
  match s with
  | [] => (None, [])
  | m :: s => if wanted id m then (Some m, s) else let '(r, s) := spec_take id s in (r, m :: s)
  end.

Definition too_old (age now : Z) (m : Z * t_msg D) : bool := (age =? 0) || (m_timestamp m.2 <? now - age).

(** The queue as a list: a push appends, a shift takes the first message with
    the id (any for 0) and waits when there is none and it may wait, expiry
    filters. *)
Definition spec_op s (op : queue_op D) : queue_res D * spec :=
  match op with
  | OpPush id msg => (ResPush, s ++ [(id, msg)])
  | OpShift t id =>
      if (-1 <? t) && negb (existsb (wanted id) s) then (ResWait (0 <? t), s)
      else let '(r, s) := spec_take id s in (ResMsg r, s)
  | OpWake id rc =>
      if negb (rc =? 0) then (ResMsg None, s) else let '(r, s) := spec_take id s in (ResMsg r, s)
  | OpExpire age now =>
      let old := filter (λ m, too_old age now m = true) s in
      (ResExpire (i32 (Z.of_nat (length old)))
         (map (λ m, m_data m.2) (filter (λ m, m_data_free m.2 = true) old)),
       filter (λ m, too_old age now m = false) s)
  end.

Fixpoint run_ops σ (ops : list (queue_op D)) : option (list (queue_res D) * state) :=
  match ops with
  | [] => Some ([], σ)
  | op :: ops => '(r, σ) ← run_op σ op; '(rs, σ) ← run_ops σ ops; Some (r :: rs, σ)
  end.

Fixpoint spec_ops s (ops : list (queue_op D)) : list (queue_res D) * spec :=
  match ops with
  | [] => ([], s)
  | op :: ops => let '(r, s) := spec_op s op in let '(rs, s) := spec_ops s ops in (r :: rs, s)
  end.

(** ** The simulation *)

Definition content (n : node (t_msg D)) : Z * t_msg D := (n_id n, n_data n).

Definition sim σ s : Prop := ∃ ns, list_repr σ.1 σ.2 ns ∧ s = map content ns.

Lemma spec_take_content id ns :
  spec_take id (map content ns) = (content <$> (take_msg id ns).1, map content (take_msg id ns).2).
Proof.
  induction ns as [|n ns IH]; simpl; [done|]. unfold wanted. simpl. fold (wanted_by id n).
  destruct (wanted_by id n); [done|]. rewrite IH. by destruct (take_msg id ns).
Qed.

Lemma existsb_content id ns : existsb (wanted id) (map content ns) = existsb (wanted_by id) ns.
Proof. induction ns as [|n ns IH]; simpl; [done|]. by rewrite IH. Qed.

Lemma filter_content (P : Z * t_msg D → Prop) `{∀ x, Decision (P x)} ns :
  filter P (map content ns) = map content (filter (λ n, P (content n)) ns).
Proof.
  induction ns as [|n ns IH]; simpl; [done|]. rewrite !filter_cons, IH. by case_decide.
Qed.

Lemma take_sim l h s id :
  sim (l, h) s →
  ∃ m l' h', queue_take l h id = Some (m, l', h') ∧
    read_msg h' m = Some (ResMsg (spec_take id s).1) ∧ sim (l', h') (spec_take id s).2.
Proof.
  intros (ns & Hr & ->). destruct (take_repr l h ns id Hr) as (l' & h' & E & Hr' & _ & Hn).
  rewrite spec_take_content. eexists _, l', h'. split; [exact E|]. split.
  - destruct (take_msg id ns) as [[n|] r]; simpl in *; [|done]. by rewrite (Hn n eq_refl).
  - by eexists.
Qed.

Lemma op_sim l h s op :
  sim (l, h) s → Z.of_nat (length s) ≤ UINT_MAX →
  ∃ σ', run_op (l, h) op = Some ((spec_op s op).1, σ') ∧ sim σ' (spec_op s op).2.
Proof.
  intros Hs Hlen. destruct op as [id msg|t id|id rc|age now]; simpl.
  - destruct Hs as (ns & Hr & ->). destruct (append_repr l h ns id msg Hr) as (l' & h' & p & -> & _ & Hr' & _).
    exists (l', h'). split; [done|]. eexists. split; [exact Hr'|]. by rewrite map_app.
  - unfold shift_enter. destruct (take_sim l h s id Hs) as (m & l' & h' & Ht & Hm & Hs').
    destruct (-1 <? t); simpl.
    + destruct Hs as (ns & Hr & ->). rewrite length_map in Hlen.
      rewrite (check_repr _ _ _ _ Hr Hlen), existsb_content. simpl.
      destruct (existsb _ ns); simpl.
      * rewrite Ht. simpl. rewrite Hm. destruct (spec_take id _). by exists (l', h').
      * exists (l, h). split; [done|]. by exists ns.
    + rewrite Ht. simpl. rewrite Hm. destruct (spec_take id _). by exists (l', h').
  - unfold shift_wake. destruct (negb (rc =? 0)); simpl; [by exists (l, h)|].
    destruct (take_sim l h s id Hs) as (m & l' & h' & -> & Hm & Hs'). simpl. rewrite Hm.
    destruct (spec_take id _). by exists (l', h').
  - destruct Hs as (ns & Hr & ->). destruct (expire_repr l h ns age now Hr) as (l' & h' & -> & Hr' & _).
    simpl. exists (l', h'). rewrite !filter_content, length_map, map_map. split; [done|].
    by exists (filter (λ n, expired age (now - age) n = false) ns).
Qed.

Lemma spec_op_length s op : (length (spec_op s op).2 ≤ S (length s))%nat.
Proof.
  assert (Ht : ∀ id, (length (spec_take id s).2 ≤ length s)%nat).
  { intros id. induction s as [|m s IH]; simpl; [done|]. destruct (wanted id m); simpl; [lia|].
    destruct (spec_take id s). simpl in *. lia. }
  destruct op as [id msg|t id|id rc|age now]; simpl.
  - rewrite length_app. simpl. lia.
  - specialize (Ht id). destruct (_ && _); simpl; [lia|]. destruct (spec_take id s). simpl in *. lia.
  - specialize (Ht id). destruct (negb _); simpl; [lia|]. destruct (spec_take id s). simpl in *. lia.
  - etrans; [apply length_filter|lia].
Qed.

Lemma ops_sim ops l h s :
  sim (l, h) s → Z.of_nat (length s + length ops) ≤ UINT_MAX →
  ∃ σ', run_ops (l, h) ops = Some ((spec_ops s ops).1, σ') ∧ sim σ' (spec_ops s ops).2.
Proof.
  revert l h s. induction ops as [|op ops IH]; intros l h s Hs Hlen; cbn [length run_ops spec_ops] in *.
  { by exists (l, h). }
  destruct (op_sim l h s op Hs ltac:(lia)) as ([l1 h1] & -> & Hs1). simpl.
  pose proof (spec_op_length s op) as Hl1. destruct (spec_op s op) as [r s1]. simpl in *.
  destruct (IH l1 h1 s1 Hs1 ltac:(lia)) as (σ2 & -> & Hs2). simpl.
  destruct (spec_ops s1 ops) as [rs s2]. by exists σ2.
Qed.
End runs.

(** C22: The message queue of msg_queue.c implements the abstract queue: from the
    empty queue, every sequence of fewer than 2^32 pushes, shifts (blocking or
    not, for one id or for any), wake-ups and expiries is defined - no NULL or
    freed node is followed, no loop runs forever - and returns exactly what a
    plain list of messages returns: a shift takes the oldest message with its id
    and waits only when there is none, an expiry removes exactly the messages
    that are too old, reports their number and frees their data in order, and
    the rest keeps its order. *)
Theorem queue_refines {D} (ops : list (queue_op D)) (event : bool) (fd : Z) :
  Z.of_nat (length ops) ≤ UINT_MAX →
  ∃ σ', run_ops (q_list (mygpiod_queue_create event fd), ∅) ops = Some ((spec_ops [] ops).1, σ') ∧
    ∃ ns, list_repr σ'.1 σ'.2 ns ∧ map content ns = (spec_ops [] ops).2.
Proof.
  intros Hlen. destruct (ops_sim ops list_init ∅ []) as (σ' & E & ns & Hr & Hs); [|done|].
  { exists []. split; [apply init_repr|done]. }
  exists σ'. split; [exact E|]. by exists ns.
Qed.

Definition two_requests : list (queue_op Z) :=
  [OpPush 7 (Msg 70 true 100); OpPush 8 (Msg 80 false 105); OpPush 9 (Msg 90 true 110);
   OpShift 0 8; OpShift 50 8; OpExpire 10 115; OpShift (-1) 0; OpShift (-1) 0].

Lemma queue_refines_witness :
  (spec_ops [] two_requests).1 =
    [ResPush; ResPush; ResPush; ResMsg (Some (8, Msg 80 false 105)); ResWait true; ResExpire 1 [70];
     ResMsg (Some (9, Msg 90 true 110)); ResMsg None] ∧
  ∃ σ', run_ops (list_init, ∅) two_requests = Some ((spec_ops [] two_requests).1, σ') ∧
    ∃ ns, list_repr σ'.1 σ'.2 ns ∧ map content ns = (spec_ops [] two_requests).2.
Proof. split; [reflexivity|]. apply (queue_refines two_requests false 0). vm_compute. discriminate. Defined.

(** ** What a caller of the queue has to know *)

(** A push that reports failure may have queued the message: the results of
    unlock and signal are looked at after it is in the list. *)
Lemma push_fails_but_queued (rcs : t_rcs) :
  lock_rc rcs = 0 → signal_rc rcs ≠ 0 →
  ∃ q h, mygpiod_queue_push (mygpiod_queue_create false 0) ∅ tt false 1 0 rcs = Some (false, q, h) ∧
    h !! 1%positive = Some (ListNode 1 (Msg tt false 0) None) ∧ lh_length (q_list q) = 1.
Proof.
  intros Hl Hs. unfold mygpiod_queue_push. rewrite Hl. simpl.
  rewrite (proj2 (Z.eqb_neq _ _) Hs). destruct (negb (unlock_rc rcs =? 0)); by eexists _, _.
Qed.

(** set_wait_time adds the current nanoseconds twice unless the deadline falls
    into a later second: at 0.5 s past a full second, 100 ms of waiting become
    600 ms. Past the full second the deadline is right. *)
Lemma set_wait_time_doubles s ns t :
  0 ≤ ns ≤ 999999999 → 0 ≤ t →
  set_wait_time t (Some (s, ns)) =
    let total := ns + t * 1000000 in
    if total <=? 999999999 then Some (s, total + ns)
    else Some (s + total ÷ 1000000000, Z.rem total 1000000000).
Proof.
  intros Hn Ht. unfold set_wait_time. simpl.
  destruct (Z.ltb_spec 999999999 (ns + t * 1000000)), (Z.leb_spec (ns + t * 1000000) 999999999); try lia.
  - done.
  - by rewrite (Z.add_comm ns (ns + _)).
Qed.
