(* ===== verification/LuaAsync.v ===== *)
(** * mygpiod/lua/async/queue_msg.c: calls from Lua threads into the main thread

    Every asynchronous script runs in a detached thread of its own; a call of a
    myGPIOd function is a request on [main_queue], served by the event loop, and
    a response on [script_queue] with the thread's id. The threads interleave:
    the system is a step relation, with a step for each stretch of code that runs
    under a mutex or is a system call. The queues are the lists that msg_queue.c
    implements ([MsgQueue.queue_refines]) and the steps use their operations.

    [req_call] and [resp_call] are not in the code: the thread and the number of
    its call, so that statements can say which answer belongs to which call. Scripts
    end, and the kernel gives the id of an ended thread to a new one; the calls under
    one id are numbered through all its scripts. *)

From S2P Require Import Prelude Lists MsgQueue.

Record t_call := Call { c_tid : Z; c_no : nat }.

(** The functions of the daemon that a Lua script can call. *)
Inductive lua_cfunction :=
  | lua_gpioBlink | lua_gpioGet | lua_gpioSet | lua_gpioToggle | lua_inputEvGet
  | lua_system | lua_mpc | lua_mympd | lua_http.

(** [lua_vm] is a pointer, [lua_func] the function to execute. *)
Record t_lua_async_request := Request { lua_vm : Z; lua_func : lua_cfunction; req_call : t_call }.

Record t_lua_async_response := Response { resp_rc : Z; resp_call : t_call }.

Definition lua_async_request_new (vm : Z) (func : lua_cfunction) (c : t_call) : t_lua_async_request :=
  Request vm func c.

Definition lua_async_response_new (rc : Z) (c : t_call) : t_lua_async_response := Response rc c.

Abbreviation requests := (list (Z * t_msg t_lua_async_request)).
Abbreviation responses := (list (Z * t_msg t_lua_async_response)).

(** Where a Lua thread is; the number is that of its next or current call:
    not started, or at its end; running its script; after the push to [main_queue];
    after the write to the event descriptor; in [pthread_cond_wait]; woken up and
    about to lock the mutex again. *)
Inductive thread_pc :=
  | Ended (n : nat)
  | Running (n : nat)
  | Pushed (n : nat)
  | Sent (n : nat)
  | Waiting (n : nat)
  | Woken (n : nat).

(** The main thread: in the event loop; executing the function of a message; after
    the push to [script_queue], before [pthread_cond_signal]; crashed. *)
Inductive main_pc :=
  | MLoop
  | MExec (id : Z) (req : t_lua_async_request)
  | MPushed
  | MCrashed.

(** What lua_async_send_msg returned for a call, and the call it was the answer
    to; [None] when the shift returned NULL. *)
Record t_return := Return { r_call : t_call; r_rc : Z; r_answer : option t_call }.

(** [vms]: the Lua state of each running script. The pointers are numbered in the
    order of [luaL_newstate], so that the pointer to a state that was closed is
    never that of a later one. *)
Record t_system := System {
  main_queue : requests;
  event_count : Z;
  script_queue : responses;
  threads : gmap Z thread_pc;
  vms : gmap Z Z;
  next_vm : Z;
  main : main_pc;
  returns : list t_return;
}.
#[export] Instance eta_system : Eta t_system :=
  λ r, System (main_queue r) (event_count r) (script_queue r) (threads r) (vms r) (next_vm r) (main r) (returns r).

Definition set_thread (t : Z) (pc : thread_pc) (s : t_system) : t_system :=
  s <| threads ::= <[t := pc]> |>.

(** ** The thread of a script (lua_async.c)

    [script_run]: it owns a new Lua state and closes it at its end. *)
Definition script_start (t : Z) (n : nat) (s : t_system) : t_system :=
  set_thread t (Running n)
    (s <| vms ::= <[t := next_vm s]> |> <| next_vm ::= λ v, v + 1 |>).

Definition script_end (t : Z) (n : nat) (s : t_system) : t_system :=
  set_thread t (Ended n) (s <| vms ::= delete t |>).

(** ** lua_async_send_msg *)

(** The first push, with the message's data and free function. *)
Definition send_request (t : Z) (n : nat) (vm : Z) (func : lua_cfunction) (now : Z) (s : t_system) : t_system :=
  let req := lua_async_request_new vm func (Call t n) in
  set_thread t (Pushed n) (s <| main_queue ::= λ q, (spec_op q (OpPush t (Msg req true now))).2 |>).

Definition send_event (t : Z) (n : nat) (s : t_system) : t_system :=
  set_thread t (Sent n) (s <| event_count ::= λ k, k + 1 |>).

(** The end of the function: NULL returns 0, a response its [rc]. *)
Definition send_result (t : Z) (n : nat) (msg : option (Z * t_msg t_lua_async_response)) (s : t_system)
    : t_system :=
  let r := match msg with
           | None => Return (Call t n) 0 None
           | Some m => Return (Call t n) (resp_rc (m_data m.2)) (Some (resp_call (m_data m.2)))
           end in
  set_thread t (Running (S n)) (s <| returns ::= λ l, l ++ [r] |>).

Definition after_shift (t : Z) (n : nat) (r : queue_res t_lua_async_response * responses) (s : t_system)
    : t_system :=
  match r with
  | (ResMsg m, q) => send_result t n m (s <| script_queue := q |>)
  | (_, q) => set_thread t (Waiting n) (s <| script_queue := q |>)
  end.

(** mygpiod_queue_shift(script_queue, 0, request_id) up to the wait, and after it. *)
Definition send_shift (t : Z) (n : nat) (s : t_system) : t_system :=
  after_shift t n (spec_op (script_queue s) (OpShift 0 t)) s.

Definition send_wake (t : Z) (n : nat) (s : t_system) : t_system :=
  after_shift t n (spec_op (script_queue s) (OpWake t 0)) s.

(** ** lua_async_handle_msg *)

(** The read of the event descriptor and the shift; [msg->data] crashes when there
    was no message. *)
Definition handle_shift (s : t_system) : t_system :=
  let '(r, q) := spec_op (main_queue s) (OpShift (-1) 0) in
  let s := s <| event_count ::= λ k, k - 1 |> <| main_queue := q |> in
  match r with
  | ResMsg (Some m) => s <| main := MExec m.1 (m_data m.2) |>
  | _ => s <| main := MCrashed |>
  end.

(** [rc] is the result of [req->lua_func]. *)
Definition handle_respond (id : Z) (req : t_lua_async_request) (rc now : Z) (s : t_system) : t_system :=
  let resp := lua_async_response_new rc (req_call req) in
  s <| script_queue ::= λ q, (spec_op q (OpPush id (Msg resp true now))).2 |> <| main := MPushed |>.

(** [pthread_cond_signal] wakes one of the waiting threads. *)
Definition handle_signal (t : Z) (n : nat) (s : t_system) : t_system :=
  set_thread t (Woken n) s <| main := MLoop |>.

(** ** The interleavings *)

(** Whether the state that a request names is still open. *)
Definition vm_open (vm : Z) (s : t_system) : Prop := vm ∈ (map_to_list (vms s)).*2.

#[export] Instance vm_open_dec vm s : Decision (vm_open vm s).
Proof. unfold vm_open. apply _. Defined.

(** How the platform behaves: whether [pthread_cond_wait] may return without a
    signal, and whether a Lua thread may run between the unlock and the signal of a
    push by the main thread. *)
Record t_sched := Sched { spurious : bool; between : bool }.

Section steps.
Context (c : t_sched).

Definition script_runs (s : t_system) : Prop := main s ≠ MPushed ∨ between c = true.

Inductive step (s : t_system) : t_system → Prop :=
  | step_start t n : script_runs s → threads s !! t = Some (Ended n) → step s (script_start t n s)
  | step_end t n : script_runs s → threads s !! t = Some (Running n) → step s (script_end t n s)
  | step_request t n vm func now :
      script_runs s → threads s !! t = Some (Running n) → vms s !! t = Some vm →
      step s (send_request t n vm func now s)
  | step_event t n : script_runs s → threads s !! t = Some (Pushed n) → step s (send_event t n s)
  | step_shift t n : script_runs s → threads s !! t = Some (Sent n) → step s (send_shift t n s)
  | step_spurious t n :
      script_runs s → spurious c = true → threads s !! t = Some (Waiting n) →
      step s (set_thread t (Woken n) s)
  | step_wake t n : script_runs s → threads s !! t = Some (Woken n) → step s (send_wake t n s)
  | step_handle : main s = MLoop → 0 < event_count s → step s (handle_shift s)
  | step_respond id req rc now : main s = MExec id req → step s (handle_respond id req rc now s)
  | step_signal t n :
      main s = MPushed → threads s !! t = Some (Waiting n) → step s (handle_signal t n s)
  | step_no_waiter :
      main s = MPushed → (∀ t n, threads s !! t ≠ Some (Waiting n)) → step s (s <| main := MLoop |>).

(** No script has started; these are the thread ids that scripts will have. *)
Definition started (ts : list Z) : t_system :=
  System [] 0 [] (list_to_map (map (λ t, (t, Ended 0)) ts)) ∅ 0 MLoop [].

Definition reachable (ts : list Z) (s : t_system) : Prop := rtc step (started ts) s.
End steps.

(** ** Every call is in one place *)

Definition queued (q : requests) : list t_call := map (λ m, req_call (m_data m.2)) q.

Definition answered (q : responses) : list t_call := map (λ m, resp_call (m_data m.2)) q.

Definition executing (m : main_pc) : list t_call :=
  match m with MExec _ req => [req_call req] | _ => [] end.

Definition delivered (l : list t_return) : list t_call := omap r_answer l.

Definition calls (s : t_system) : list t_call :=
  queued (main_queue s) ++ executing (main s) ++ answered (script_queue s) ++ delivered (returns s).

(** The number of calls a thread has made. *)
Definition made (pc : thread_pc) : nat :=
  match pc with
  | Ended n | Running n => n
  | Pushed n | Sent n | Waiting n | Woken n => S n
  end.

Definition calls_made (s : t_system) (t : Z) : option nat := made <$> threads s !! t.

Lemma spec_take_perm {D} id (q : list (Z * t_msg D)) :
  match spec_take id q with
  | (None, q') => q' = q
  | (Some m, q') => q ≡ₚ m :: q' ∧ wanted id m = true
  end.
Proof.
  induction q as [|m q IH]; simpl; [done|]. destruct (wanted id m) eqn:E; [done|].
  destruct (spec_take id q) as [[r|] q'].
  - destruct IH as [IH ?]. split; [|done]. rewrite IH. apply Permutation_swap.
  - by rewrite IH.
Qed.

Lemma wanted_id {D} id (m : Z * t_msg D) : id ≠ 0 → wanted id m = true → m.1 = id.
Proof. unfold wanted. intros H. lia. Qed.

(** A shift either takes a message with the id or leaves the queue alone. *)
Lemma shift_cases {D} (q : list (Z * t_msg D)) op id :
  (op = OpWake id 0 ∨ ∃ w, op = OpShift w id) →
  (∃ m q', spec_op q op = (ResMsg (Some m), q') ∧ q ≡ₚ m :: q' ∧ wanted id m = true) ∨
  spec_op q op = (ResMsg None, q) ∨ ∃ w, spec_op q op = (ResWait w, q).
Proof.
  pose proof (spec_take_perm id q) as Hp. destruct (spec_take id q) as [[m|] q'] eqn:E; simpl in Hp.
  - destruct Hp as [Hp Hw]. intros [-> | [w ->]]; simpl; rewrite E.
    + left. by exists m, q'.
    + destruct (_ && _); [right; right; by eexists|]. left. by exists m, q'.
  - subst q'. intros [-> | [w ->]]; simpl; rewrite E.
    + by right; left.
    + destruct (_ && _); [right; right; by eexists|]. by right; left.
Qed.

Lemma made_set_thread s s' t pc pc' :
  threads s !! t = Some pc → made pc' = made pc → threads s' = <[t := pc']> (threads s) →
  ∀ t', calls_made s' t' = calls_made s t'.
Proof.
  intros Ht E Hs' t'. unfold calls_made. rewrite Hs'. destruct (decide (t' = t)) as [-> |].
  - rewrite lookup_insert_eq, Ht. simpl. by rewrite E.
  - by rewrite lookup_insert_ne.
Qed.

Lemma delivered_snoc l r : delivered (l ++ [r]) = delivered l ++ match r_answer r with Some a => [a] | None => [] end.
Proof. unfold delivered. rewrite omap_app. simpl. by destruct (r_answer r). Qed.

(** Both ways to leave the shift keep the calls. *)
Lemma after_shift_calls s t n pc op :
  threads s !! t = Some pc → made pc = S n → op = OpWake t 0 ∨ (∃ w, op = OpShift w t) →
  calls (after_shift t n (spec_op (script_queue s) op) s) ≡ₚ calls s ∧
  ∀ t', calls_made (after_shift t n (spec_op (script_queue s) op) s) t' = calls_made s t'.
Proof.
  intros Ht Hn Hop. unfold calls.
  destruct (shift_cases (script_queue s) op t Hop) as [(m & q' & -> & Hq & _) | [-> | [w ->]]]; simpl.
  - split; [|by apply (made_set_thread _ _ t _ (Running (S n)) Ht)]. rewrite delivered_snoc. unfold answered. rewrite Hq. simpl.
    do 2 apply Permutation_app_head. rewrite app_assoc. apply (Permutation_app_comm _ [_]).
  - split; [|by apply (made_set_thread _ _ t _ (Running (S n)) Ht)]. by rewrite delivered_snoc, app_nil_r.
  - split; [done|]. by apply (made_set_thread _ _ t _ (Waiting n) Ht).
Qed.

Lemma step_calls c s s' :
  step c s s' →
  (calls s' ≡ₚ calls s ∧ ∀ t, calls_made s' t = calls_made s t) ∨
  ∃ t n, calls_made s t = Some n ∧ calls s' ≡ₚ Call t n :: calls s ∧
    ∀ t', calls_made s' t' = if decide (t' = t) then Some (S n) else calls_made s t'.
Proof.
  intros []; [left | left | right | left..].
  - split; [done|]. by apply (made_set_thread _ _ t _ (Running n) H0).
  - split; [done|]. by apply (made_set_thread _ _ t _ (Ended n) H0).
  - exists t, n. unfold calls_made, calls, queued. simpl. rewrite map_app. split; [by rewrite H0|]. split.
    + rewrite <- app_assoc. simpl. symmetry. apply Permutation_middle.
    + intros t'. case_decide as E; [subst; by rewrite lookup_insert_eq|by rewrite lookup_insert_ne].
  - split; [done|]. by apply (made_set_thread _ _ t _ (Sent n) H0).
  - eapply after_shift_calls; [done|done|]. right. by eexists.
  - split; [done|]. by apply (made_set_thread _ _ t _ (Woken n) H1).
  - eapply after_shift_calls; [done|done|]. by left.
  - unfold handle_shift, calls.
    destruct (shift_cases (main_queue s) (OpShift (-1) 0) 0) as [(m & q' & -> & Hq & _) | [-> | [w ->]]];
      [right; by eexists|simpl..].
    + rewrite H. unfold queued. rewrite Hq. simpl. split; [|done]. symmetry. apply Permutation_middle.
    + by rewrite H.
    + by rewrite H.
  - unfold calls. simpl. rewrite H. simpl. split; [|done]. apply Permutation_app_head. unfold answered.
    rewrite map_app, <- app_assoc. simpl. symmetry. apply Permutation_middle.
  - unfold calls. simpl. rewrite H. split; [done|]. by apply (made_set_thread _ _ t _ (Woken n) H0).
  - unfold calls. simpl. by rewrite H.
Qed.

Definition calls_ok (s : t_system) : Prop :=
  NoDup (calls s) ∧ ∀ t k, Call t k ∈ calls s ↔ ∃ n, calls_made s t = Some n ∧ (k < n)%nat.

Lemma calls_ok_step c s s' : step c s s' → calls_ok s → calls_ok s'.
Proof.
  intros [[Hp Hm] | (t & n & Ht & Hp & Hm)]%step_calls [Hd Hc]; split.
  - by rewrite Hp.
  - intros t k. by rewrite Hp, Hm.
  - rewrite Hp. apply NoDup_cons. split; [|done]. intros (n' & ? & ?)%Hc. simplify_eq. lia.
  - intros t' k. rewrite Hp, elem_of_cons, Hc, Hm. case_decide as E.
    + subst. split.
      * intros [[= ->] | (n' & ? & ?)]; [exists (S n); split; [done|lia]|]. simplify_eq.
        exists (S n). split; [done|lia].
      * intros (n' & [= <-] & Hk). destruct (decide (k = n)) as [-> |]; [by left|].
        right. exists n. split; [done|lia].
    + split; [|by right]. by intros [[= -> ->] | ?].
Qed.

(** ** Messages carry the id of their call's thread *)

Record ids_ok (s : t_system) : Prop := {
  ids_requests : Forall (λ m, c_tid (req_call (m_data m.2)) = m.1) (main_queue s);
  ids_exec : ∀ id req, main s = MExec id req → c_tid (req_call req) = id;
  ids_responses : Forall (λ m, c_tid (resp_call (m_data m.2)) = m.1) (script_queue s);
  ids_returns : Forall (λ r, ∀ a, r_answer r = Some a → c_tid a = c_tid (r_call r)) (returns s);
  ids_nonzero : ∀ t pc, threads s !! t = Some pc → t ≠ 0;
}.

Lemma insert_nonzero (th : gmap Z thread_pc) t pc pc' :
  th !! t = Some pc → (∀ t pc, th !! t = Some pc → t ≠ 0) →
  ∀ t0 pc0, <[t := pc']> th !! t0 = Some pc0 → t0 ≠ 0.
Proof. intros Ht Hz t0 pc0 [[<- _]|[_ ?]]%lookup_insert_Some; eauto. Qed.

Lemma after_shift_ids s t n pc op :
  threads s !! t = Some pc → op = OpWake t 0 ∨ (∃ w, op = OpShift w t) → ids_ok s →
  ids_ok (after_shift t n (spec_op (script_queue s) op) s).
Proof.
  intros Ht Hop [H1 H2 H3 H4 H5]. pose proof (H5 _ _ Ht) as Hz.
  destruct (shift_cases (script_queue s) op t Hop) as [(m & q' & -> & Hq & Hw) | [-> | [w ->]]];
    split; simpl; try done; try (by eapply insert_nonzero).
  - by rewrite Hq, Forall_cons in H3; destruct H3.
  - apply Forall_app. split; [done|]. apply Forall_singleton. simpl. intros a [= <-].
    rewrite Hq, Forall_cons in H3. destruct H3 as [-> _]. by apply wanted_id.
  - apply Forall_app. split; [done|]. by apply Forall_singleton.
Qed.

Lemma ids_ok_step c s s' : step c s s' → ids_ok s → ids_ok s'.
Proof.
  intros [] Hs; try (eapply after_shift_ids; [done| |done]; (by left) || (right; by eexists));
    destruct Hs as [I1 I2 I3 I4 I5].
  - split; simpl; try done. by eapply insert_nonzero.
  - split; simpl; try done. by eapply insert_nonzero.
  - split; simpl; try done; [|by eapply insert_nonzero].
    apply Forall_app. split; [done|]. by apply Forall_singleton.
  - split; simpl; try done. by eapply insert_nonzero.
  - split; simpl; try done. by eapply insert_nonzero.
  - unfold handle_shift. destruct (shift_cases (main_queue s) (OpShift (-1) 0) 0)
      as [(m & q' & -> & Hq & _) | [-> | [w ->]]]; [right; by eexists| | |]; split; simpl; try done.
    + by rewrite Hq, Forall_cons in I1; destruct I1.
    + rewrite Hq, Forall_cons in I1. destruct I1 as [E _]. by intros ? ? [= <- <-].
  - split; simpl; try done. apply Forall_app. split; [done|]. apply Forall_singleton. simpl. by apply I2.
  - split; simpl; try done. by eapply insert_nonzero.
  - by split.
Qed.

(** ** The event descriptor counts the requests *)

Definition is_pushed (p : Z * thread_pc) : Prop := match p.2 with Pushed _ => True | _ => False end.

#[export] Instance is_pushed_dec p : Decision (is_pushed p).
Proof. destruct p as [t []]; apply _. Defined.

(** The threads between their push and the write to the event descriptor. *)
Definition unsignalled (s : t_system) : nat := size (filter is_pushed (threads s)).

Record event_ok (s : t_system) : Prop := {
  event_nonneg : 0 ≤ event_count s;
  event_requests : event_count s + Z.of_nat (unsignalled s) = Z.of_nat (length (main_queue s));
  event_no_crash : main s ≠ MCrashed;
}.

Lemma unsignalled_insert (th : gmap Z thread_pc) t pc pc' :
  th !! t = Some pc →
  (size (filter is_pushed (<[t := pc']> th)) + (if decide (is_pushed (t, pc)) then 1 else 0) =
   size (filter is_pushed th) + (if decide (is_pushed (t, pc')) then 1 else 0))%nat.
Proof.
  intros Ht. rewrite map_filter_insert.
  destruct (decide (is_pushed (t, pc))) as [Hp|Hp].
  - assert (Hf : filter is_pushed th !! t = Some pc) by (by apply map_lookup_filter_Some).
    destruct (decide (is_pushed (t, pc'))).
    + rewrite map_size_insert_Some by (by eexists). lia.
    + rewrite map_filter_delete, map_size_delete_Some by (by eexists).
      assert (size (filter is_pushed th) ≠ 0%nat); [|lia].
      intros E%map_size_empty_inv. by rewrite E in Hf.
  - assert (Hf : filter is_pushed th !! t = None).
    { apply map_lookup_filter_None. right. intros x Hx. by simplify_eq. }
    destruct (decide (is_pushed (t, pc'))).
    + rewrite map_size_insert_None by done. lia.
    + rewrite map_filter_delete, map_size_delete_None by done. lia.
Qed.

Lemma event_ok_same s s' t pc pc' :
  threads s !! t = Some pc → threads s' = <[t := pc']> (threads s) →
  ¬ is_pushed (t, pc) → ¬ is_pushed (t, pc') →
  main_queue s' = main_queue s → event_count s' = event_count s → main s' ≠ MCrashed →
  event_ok s → event_ok s'.
Proof.
  intros Ht Hth Hn Hn' Hq He Hc [E1 E2 E3]. pose proof (unsignalled_insert _ _ _ pc' Ht) as Hu.
  rewrite (decide_False (P := is_pushed (t, pc))), (decide_False (P := is_pushed (t, pc'))) in Hu by done.
  split; [by rewrite He| |done]. rewrite He, Hq. unfold unsignalled in *. rewrite Hth. lia.
Qed.

Lemma after_shift_event s t n pc r q :
  threads s !! t = Some pc → ¬ is_pushed (t, pc) → event_ok s → event_ok (after_shift t n (r, q) s).
Proof.
  intros Ht Hn Hs. pose proof (event_no_crash _ Hs).
  destruct r; simpl;
    (eapply (event_ok_same s _ t pc); [done|done|done| |done|done|done|done]); by intros [].
Qed.

Lemma event_ok_step c s s' : step c s s' → event_ok s → event_ok s'.
Proof.
  intros [] Hs; try (unfold send_shift, send_wake; destruct (spec_op _ _); eapply after_shift_event;
    [done|by intros []|done]).
  - pose proof (event_no_crash _ Hs).
    eapply (event_ok_same s _ t (Ended n)); [done|done|by intros []|by intros []|done|done|done|done].
  - pose proof (event_no_crash _ Hs).
    eapply (event_ok_same s _ t (Running n)); [done|done|by intros []|by intros []|done|done|done|done].
  - destruct Hs as [E1 E2 E3]. pose proof (unsignalled_insert _ _ _ (Pushed n) H0) as Hu.
    rewrite decide_False, decide_True in Hu by (done || by intros []).
    split; [done| |done]. simpl. rewrite length_app. unfold unsignalled in *. simpl. lia.
  - destruct Hs as [E1 E2 E3]. pose proof (unsignalled_insert _ _ _ (Sent n) H0) as Hu.
    rewrite decide_True, decide_False in Hu by (done || by intros []).
    split; [simpl; lia| |done]. simpl. unfold unsignalled in *. simpl. lia.
  - pose proof (event_no_crash _ Hs).
    eapply (event_ok_same s _ t (Waiting n)); [done|done|by intros []|by intros []|done|done|done|done].
  - destruct Hs as [E1 E2 E3]. unfold handle_shift.
    destruct (main_queue s) as [|m q] eqn:Eq; [simpl in E2; lia|]. simpl.
    split; simpl in *; [lia| |done]. unfold unsignalled in *. simpl. lia.
  - by destruct Hs; split.
  - eapply (event_ok_same s _ t (Waiting n)); [done|done|by intros []|by intros []|done|done|done|done].
  - by destruct Hs; split.
Qed.

(** ** What holds under every schedule *)

Lemma started_thread ts t pc : threads (started ts) !! t = Some pc → t ∈ ts ∧ pc = Ended 0.
Proof.
  simpl. intros H%elem_of_list_to_map_2. apply list_elem_of_fmap in H as (t' & [= -> ->] & ?). done.
Qed.

Lemma reachable_rtc c ts s s' : reachable c ts s → rtc (step c) s s' → reachable c ts s'.
Proof. unfold reachable. intros. by etrans. Qed.

Lemma reachable_step c ts s s' : reachable c ts s → step c s s' → reachable c ts s'.
Proof. intros Hr Hs. eapply reachable_rtc; [exact Hr|by apply rtc_once]. Qed.

Lemma started_ok ts : 0 ∉ ts → calls_ok (started ts) ∧ ids_ok (started ts) ∧ event_ok (started ts).
Proof.
  intros Hts. split; [|split].
  - split; [apply NoDup_nil_2|]. intros t k. split; [by intros ?%not_elem_of_nil|].
    intros (n & Hn & Hk). unfold calls_made in Hn. apply fmap_Some in Hn as (pc & Hpc & ->).
    apply started_thread in Hpc as [_ ->]. simpl in Hk. lia.
  - split; simpl; try done. intros t pc Ht%started_thread. destruct Ht as [Ht _]. by intros ->.
  - assert (Hf : filter is_pushed (threads (started ts)) = ∅).
    { apply map_empty. intros t. apply map_lookup_filter_None. right.
      intros pc Hpc%started_thread. destruct Hpc as [_ ->]. by intros []. }
    split; [done| |done]. unfold unsignalled. by rewrite Hf, map_size_empty.
Qed.

Lemma reachable_ok c ts s :
  0 ∉ ts → reachable c ts s → calls_ok s ∧ ids_ok s ∧ event_ok s.
Proof.
  intros Hts. unfold reachable. revert s. apply rtc_ind_r; [by apply started_ok|].
  intros s1 s2 _ Hs (H1 & H2 & H3). split; [by eapply calls_ok_step|]. split; [by eapply ids_ok_step|].
  by eapply event_ok_step.
Qed.


(** ** One script, a platform without surprises

    The schedule the code was written for: [pthread_cond_wait] returns only when
    signalled, and the script's thread does not run between the main thread's push and
    its signal. *)

Definition prompt : t_sched := Sched false false.

Definition own_answers (t : Z) (n : nat) (rs : list t_return) : Prop :=
  map r_call rs = map (Call t) (seq 0 n) ∧ Forall (λ r, r_answer r = Some (r_call r)) rs.

Definition in_send (n : nat) (pc : thread_pc) : Prop := pc = Sent n ∨ pc = Waiting n.

Definition about_to_take (n : nat) (pc : thread_pc) : Prop := pc = Sent n ∨ pc = Woken n.

Definition behind (pc : thread_pc) : nat := match pc with Sent _ => 1 | _ => 0 end.

(** The states with the only script thread [t], in the order of a call, which is
    the [n]-th, with a bound on the steps until it returns. *)
Inductive phase (t : Z) (n : nat) : t_system → nat → Prop :=
  | ph_ended rs vs v : own_answers t n rs →
      phase t n (System [] 0 [] {[t := Ended n]} vs v MLoop rs) 0
  | ph_running rs vs v : own_answers t n rs →
      phase t n (System [] 0 [] {[t := Running n]} vs v MLoop rs) 0
  | ph_pushed rs vs v m : own_answers t n rs → req_call (m_data m) = Call t n →
      phase t n (System [(t, m)] 0 [] {[t := Pushed n]} vs v MLoop rs) 6
  | ph_request rs vs v m pc : own_answers t n rs → req_call (m_data m) = Call t n → in_send n pc →
      phase t n (System [(t, m)] 1 [] {[t := pc]} vs v MLoop rs) (4 + behind pc)
  | ph_exec rs vs v req pc : own_answers t n rs → req_call req = Call t n → in_send n pc →
      phase t n (System [] 0 [] {[t := pc]} vs v (MExec t req) rs) (3 + behind pc)
  | ph_response rs vs v m pc : own_answers t n rs → resp_call (m_data m) = Call t n → in_send n pc →
      phase t n (System [] 0 [(t, m)] {[t := pc]} vs v MPushed rs) (2 + behind pc)
  | ph_answered rs vs v m pc : own_answers t n rs → resp_call (m_data m) = Call t n → about_to_take n pc →
      phase t n (System [] 0 [(t, m)] {[t := pc]} vs v MLoop rs) (1 + behind pc).

Lemma own_answers_snoc t n rs rc :
  own_answers t n rs → own_answers t (S n) (rs ++ [Return (Call t n) rc (Some (Call t n))]).
Proof.
  intros [H1 H2]. split.
  - by rewrite seq_S, !map_app, H1.
  - apply Forall_app. split; [done|]. by apply Forall_singleton.
Qed.

Lemma take_own {D} t (m : t_msg D) op :
  op = OpWake t 0 ∨ (∃ w, op = OpShift w t) → spec_op [(t, m)] op = (ResMsg (Some (t, m)), []).
Proof.
  intros [-> | [w ->]]; simpl; unfold wanted; simpl; rewrite Z.eqb_refl, orb_true_r; simpl; [done|].
  by rewrite andb_false_r.
Qed.

Lemma phase_take t n rs vs v m pc op :
  own_answers t n rs → resp_call (m_data m) = Call t n → op = OpWake t 0 ∨ (∃ w, op = OpShift w t) →
  phase t (S n) (after_shift t n (spec_op [(t, m)] op) (System [] 0 [(t, m)] {[t := pc]} vs v MLoop rs)) 0.
Proof.
  intros Hr Hm Hop. rewrite (take_own t m op Hop). unfold after_shift, send_result, set_thread. cbn.
  rewrite insert_singleton_eq, Hm. constructor. by apply own_answers_snoc.
Qed.

(** The script has not started, has ended, or runs between two calls. *)
Definition between_calls (t : Z) (s : t_system) : Prop :=
  ∃ n, threads s !! t = Some (Ended n) ∨ threads s !! t = Some (Running n).

(** A step of the system while the script is in a call. *)
Definition progress (t : Z) (s s' : t_system) : Prop :=
  step prompt s s' ∧ ¬ between_calls t s.

Lemma phase_step t n s k s' :
  t ≠ 0 → phase t n s k → step prompt s s' →
  ∃ n' k', phase t n' s' k' ∧ (k = 0%nat ∨ (k' < k)%nat).
Proof.
  intros Hz Hp Hs. destruct Hp; inversion Hs; subst; simpl in *; simplify_eq;
    repeat match goal with
    | H : {[_ := _]} !! _ = Some _ |- _ => apply lookup_singleton_Some in H as [-> ?]; simplify_eq
    | H : script_runs prompt _ |- _ => destruct H as [H|H]; simpl in H; [try done|done]
    | H : in_send _ _ |- _ => destruct H as [?|?]; simplify_eq
    | H : about_to_take _ _ |- _ => destruct H as [?|?]; simplify_eq
    end.
  all: try lia.
  all: try match goal with
    | H : ∀ t' n', {[?t := Waiting ?n]} !! t' ≠ _ |- _ => by destruct (H t n); apply lookup_singleton_eq
    end.
  all: clear Hs; unfold script_start, script_end, send_request, send_event, send_shift, send_wake,
    handle_shift, handle_respond, handle_signal, set_thread;
    cbn [main_queue event_count script_queue threads vms next_vm main returns].
  all: try match goal with
    | |- context [after_shift ?t ?n (spec_op [(?t, ?m)] ?op) ?s] =>
        assert (Hop : op = OpWake t 0 ∨ ∃ w, op = OpShift w t) by ((by left) || (right; by eexists));
        eexists _, _; split; [by apply phase_take|right; simpl; lia]
    end.
  all: simpl; unfold send_result, set_thread; simpl; rewrite ?insert_singleton_eq.
  all: try done.
  all: eexists _, _; split;
    [econstructor; try done; (by left) || (by right)|(by left) || (right; simpl; lia)].
Qed.

Lemma phase_between t n s k : phase t n s k → k = 0%nat ↔ between_calls t s.
Proof.
  unfold between_calls. intros []; simpl; setoid_rewrite lookup_singleton_eq; unfold in_send, about_to_take in *;
    (split; [try lia; eauto|naive_solver]).
Qed.

Lemma no_waiter (t : Z) (pc : thread_pc) :
  (∀ n, pc ≠ Waiting n) → ∀ t' n, ({[t := pc]} : gmap Z thread_pc) !! t' ≠ Some (Waiting n).
Proof. intros H t' n [-> E]%lookup_singleton_Some. by eapply H. Qed.

Lemma phase_progress t n s k :
  t ≠ 0 → phase t n s k → k = 0%nat ∨ ∃ s', progress t s s'.
Proof.
  intros Hz Hp. assert (∀ s', k ≠ 0%nat → step prompt s s' → ∃ s', progress t s s') as Hgo.
  { intros s' Hk Hs. exists s'. split; [done|]. by rewrite <- (phase_between _ _ _ _ Hp). }
  destruct Hp as [|?|? ? ? m ?|? ? ? m pc ? ? Hpc|? ? ? req pc ? ? Hpc|? ? ? m pc ? ? Hpc|? ? ? m pc ? ? Hpc];
    [by left..|right|right|right|right|right].
  - eapply Hgo; [done|]. apply (step_event _ _ t n); [by left|apply lookup_singleton_eq].
  - eapply Hgo; [done|]. by apply step_handle.
  - eapply Hgo; [done|]. by apply (step_respond _ _ t req 0 0).
  - destruct Hpc as [-> | ->]; eapply Hgo; try done.
    + apply step_no_waiter; [done|]. simpl. by apply no_waiter.
    + apply (step_signal _ _ t n); [done|apply lookup_singleton_eq].
  - destruct Hpc as [-> | ->]; eapply Hgo; try done.
    + apply (step_shift _ _ t n); [by left|apply lookup_singleton_eq].
    + apply (step_wake _ _ t n); [by left|apply lookup_singleton_eq].
Qed.

Lemma reachable_phase t s : t ≠ 0 → reachable prompt [t] s → ∃ n k, phase t n s k.
Proof.
  intros Hz. unfold reachable. revert s. apply rtc_ind_r.
  - exists 0%nat, 0%nat. apply (ph_ended t 0 []). by split.
  - intros s1 s2 _ Hs (n & k & Hp). destruct (phase_step t n s1 k s2 Hz Hp Hs) as (n' & k' & ? & _).
    by exists n', k'.
Qed.

Lemma phase_bound t n s k : phase t n s k → (k ≤ 6)%nat.
Proof. intros []; destruct pc || idtac; simpl; lia. Qed.

Lemma phase_answers t n s k : phase t n s k → own_answers t n (returns s).
Proof. by intros []. Qed.

Lemma progress_bound t n s k m s' :
  t ≠ 0 → phase t n s k → nsteps (progress t) m s s' → ∃ n' k', phase t n' s' k' ∧ (m + k' ≤ k)%nat.
Proof.
  intros Hz Hp Hm. revert n k Hp. induction Hm as [|m s1 s2 s3 [Hs He] _ IH]; intros n k Hp.
  { by exists n, k. }
  destruct (phase_step t n s1 k s2 Hz Hp Hs) as (n' & k' & Hp' & Hk); [..].
  rewrite <- (phase_between _ _ _ _ Hp) in He.
  destruct (IH n' k' Hp') as (n2 & k2 & ? & ?). exists n2, k2. split; [done|]. lia.
Qed.

(** C24: With one script at a time, a [pthread_cond_wait] that returns only when
    signalled and a main thread that is not overtaken between its push and its
    signal, every call of lua_async_send_msg returns the answer computed for it:
    the calls that have returned are the first, second, ... in order, each with its
    own response. A call is never stuck: after at most six more steps of the two
    threads the script runs again, and until then some step is possible. *)
Theorem lua_async_answers t s :
  t ≠ 0 → reachable prompt [t] s →
  (∃ n, own_answers t n (returns s)) ∧
  (∀ m s', nsteps (progress t) m s s' → (m ≤ 6)%nat) ∧
  ∀ s', rtc (progress t) s s' → (∀ s'', ¬ progress t s' s'') →
    between_calls t s' ∧ ∃ n, calls_made s' t = Some n ∧ own_answers t n (returns s').
Proof.
  intros Hz Hr. destruct (reachable_phase t s Hz Hr) as (n & k & Hp). split; [|split].
  - exists n. by eapply phase_answers.
  - intros m s' Hm. destruct (progress_bound _ _ _ _ _ _ Hz Hp Hm) as (n' & k' & _ & ?).
    pose proof (phase_bound _ _ _ _ Hp). lia.
  - intros s' [m Hm]%rtc_nsteps_1 Hno. destruct (progress_bound _ _ _ _ _ _ Hz Hp Hm) as (n' & k' & Hp' & _).
    destruct (phase_progress _ _ _ _ Hz Hp') as [-> | [s'' Hs]]; [|by destruct (Hno s'')].
    split; [by rewrite <- (phase_between _ _ _ _ Hp')|].
    exists n'. inversion Hp'; subst; simpl; try done; unfold calls_made; simpl; by rewrite lookup_singleton_eq.
Qed.

(** ** Nobody sleeps through his answer *)

(** The threads that wait, and those that will, unless a response arrives. *)
Definition at_risk (q : responses) (p : Z * thread_pc) : Prop :=
  match p.2 with
  | Waiting _ => True
  | Pushed _ | Sent _ => p.1 ∉ q.*1
  | _ => False
  end.

#[export] Instance at_risk_dec q p : Decision (at_risk q p).
Proof. destruct p as [t []]; apply _. Defined.

Definition sleepers (s : t_system) : gset Z := dom (filter (at_risk (script_queue s)) (threads s)).

(** The signals that are still to come. *)
Definition signals (s : t_system) : nat :=
  length (main_queue s) + match main s with MExec _ _ | MPushed => 1 | _ => 0 end.

Lemma elem_sleepers s t :
  t ∈ sleepers s ↔ ∃ pc, threads s !! t = Some pc ∧ at_risk (script_queue s) (t, pc).
Proof.
  unfold sleepers. rewrite elem_of_dom. unfold is_Some.
  split; intros [pc H]; exists pc; [by apply map_lookup_filter_Some in H|].
  by apply map_lookup_filter_Some.
Qed.

(** A step of thread [t] that leaves the other threads and their messages alone. *)
Lemma sleepers_thread s s' t pc' :
  threads s' = <[t := pc']> (threads s) →
  (∀ t', t' ≠ t → t' ∈ (script_queue s).*1 → t' ∈ (script_queue s').*1) →
  (at_risk (script_queue s') (t, pc') → t ∈ sleepers s) →
  sleepers s' ⊆ sleepers s.
Proof.
  intros Ht Hq Hr t' (pc & Hpc & Hrisk)%elem_sleepers. rewrite Ht in Hpc.
  apply lookup_insert_Some in Hpc as [[-> ->]|[Hne Hpc]]; [by apply Hr|].
  apply elem_sleepers. exists pc. split; [done|]. destruct pc; try done;
    (intros Hin; by apply Hrisk, Hq).
Qed.

Lemma shift_empty {D} t (q : list (Z * t_msg D)) w :
  (spec_op q (OpShift 0 t)).1 = ResWait w → t ∉ q.*1.
Proof.
  simpl. destruct (existsb (wanted t) q) eqn:E; simpl.
  { by destruct (spec_take t q). }
  intros _ Hin. apply list_elem_of_fmap in Hin as (m & -> & Hm).
  assert (existsb (wanted m.1) q = true) as Ht; [|congruence].
  apply existsb_exists. exists m. split; [by apply list_elem_of_In|]. unfold wanted. lia.
Qed.

Lemma sleepers_after_shift s t n pc op :
  t ≠ 0 → threads s !! t = Some pc → op = OpWake t 0 ∨ (op = OpShift 0 t ∧ pc = Sent n) →
  sleepers (after_shift t n (spec_op (script_queue s) op) s) ⊆ sleepers s.
Proof.
  intros Hz Ht Hop.
  destruct (shift_cases (script_queue s) op t) as [(m & q' & E & Hq & Hw) | [E | [w E]]].
  { destruct Hop as [-> | [-> _]]; [by left|right; by eexists]. }
  - rewrite E. eapply (sleepers_thread _ _ t); [done| |done]. simpl. intros t' Hne Hin.
    rewrite Hq in Hin. simpl in Hin. apply elem_of_cons in Hin as [-> |]; [|done].
    by destruct Hne; apply wanted_id.
  - rewrite E. eapply (sleepers_thread _ _ t); [done|done|done].
  - assert (Hs : t ∈ sleepers s).
    { apply elem_sleepers. exists pc. split; [done|]. destruct Hop as [-> | [-> ->]].
      - simpl in E. by destruct (spec_take t _).
      - apply (shift_empty t _ w). by rewrite E. }
    rewrite E. eapply (sleepers_thread _ _ t); [done|done|done].
Qed.

(** No answer was delivered before its call returned, or an earlier one. *)
Definition completed (pc : thread_pc) : nat :=
  match pc with Ended n | Running n | Pushed n | Sent n | Waiting n | Woken n => n end.

Definition delivered_ok (s : t_system) : Prop :=
  ∀ t k, Call t k ∈ delivered (returns s) → ∃ pc, threads s !! t = Some pc ∧ (k < completed pc)%nat.

Lemma delivered_ok_thread s s' t pc pc' :
  threads s !! t = Some pc → threads s' = <[t := pc']> (threads s) → (completed pc ≤ completed pc')%nat →
  (∀ t' k, Call t' k ∈ delivered (returns s') → Call t' k ∈ delivered (returns s) ∨ t' = t ∧ (k < completed pc')%nat) →
  delivered_ok s → delivered_ok s'.
Proof.
  intros Ht Hth Hc Hd Hs t' k Hin. rewrite Hth. destruct (decide (t' = t)) as [-> |Hne].
  - exists pc'. rewrite lookup_insert_eq. split; [done|].
    destruct (Hd _ _ Hin) as [(pc1 & ? & ?)%Hs | [_ ?]]; [simplify_eq; lia|done].
  - rewrite lookup_insert_ne by done. destruct (Hd _ _ Hin) as [?%Hs | [-> _]]; done.
Qed.

Lemma delivered_after_shift s t n pc op :
  threads s !! t = Some pc → made pc = S n ∧ completed pc = n →
  op = OpWake t 0 ∨ (∃ w, op = OpShift w t) → calls_ok s → ids_ok s → delivered_ok s →
  delivered_ok (after_shift t n (spec_op (script_queue s) op) s).
Proof.
  intros Ht [Hm Hcp] Hop [_ Hc] Hi Hd. pose proof (ids_nonzero _ Hi _ _ Ht) as Hz.
  destruct (shift_cases (script_queue s) op t Hop) as [(m & q' & -> & Hq & Hw) | [-> | [w ->]]];
    (eapply (delivered_ok_thread s _ t); [exact Ht|done|simpl; lia| |done]; intros t' k; simpl).
  - rewrite delivered_snoc, elem_of_app. simpl. intros [?|Hin]; [by left|right].
    apply list_elem_of_singleton in Hin. pose proof (ids_responses _ Hi) as Hf.
    rewrite Hq, Forall_cons in Hf. destruct Hf as [Hf _]. rewrite <- Hin in Hf. simpl in Hf.
    apply wanted_id in Hw; [|done]. subst t'. split; [done|].
    destruct (proj1 (Hc m.1 k)) as (n' & Hn' & Hk).
    { unfold calls, answered. rewrite !elem_of_app. do 2 right. left. rewrite Hq. rewrite Hin. by left. }
    unfold calls_made in Hn'. rewrite Hw, Ht in Hn'. simpl in Hn'. simplify_eq. lia.
  - rewrite delivered_snoc, app_nil_r. by left.
  - by left.
Qed.

Lemma signals_after_shift s t n r : (signals s ≤ signals (after_shift t n r s))%nat.
Proof. unfold signals. destruct r as [[]]; simpl; lia. Qed.

Lemma size_list_to_set_le (l : list Z) : (size (list_to_set l : gset Z) ≤ length l)%nat.
Proof.
  induction l as [|x l IH]; [done|]. rewrite list_to_set_cons, size_union_alt, size_singleton.
  pose proof (subseteq_size (list_to_set l ∖ {[x]} : gset Z) (list_to_set l) (subseteq_difference_l _ _ _ (reflexivity _))).
  cbn [length]. lia.
Qed.

Lemma delivered_ok_step c s s' : step c s s' → calls_ok s → ids_ok s → delivered_ok s → delivered_ok s'.
Proof.
  intros Hs Hc Hi Hd. destruct Hs as [t n _ Ht|t n _ Ht|t n vm func now _ Ht _|t n _ Ht|t n _ Ht|t n _ _ Ht|t n _ Ht|? ?|id req rc now|t n ? Ht|];
    try done.
  - eapply (delivered_ok_thread s _ t); [done|done|done|by left|done].
  - eapply (delivered_ok_thread s _ t); [done|done|done|by left|done].
  - eapply (delivered_ok_thread s _ t); [done|done|done|by left|done].
  - eapply (delivered_ok_thread s _ t); [done|done|done|by left|done].
  - eapply delivered_after_shift; [done|done| |done|done|done]. right. by eexists.
  - eapply (delivered_ok_thread s _ t); [done|done|done|by left|done].
  - eapply delivered_after_shift; [done|done| |done|done|done]. by left.
  - unfold handle_shift. destruct (spec_op _ _) as [[] q]; try done. by destruct msg.
  - eapply (delivered_ok_thread s _ t); [done|done|done|by left|done].
Qed.

Lemma signals_handle s :
  event_ok s → main s = MLoop → 0 < event_count s →
  sleepers (handle_shift s) = sleepers s ∧ signals (handle_shift s) = signals s.
Proof.
  intros [_ E _] Hm He. unfold handle_shift, signals, sleepers. rewrite Hm.
  destruct (main_queue s) as [|m q]; simpl in *; [lia|]. split; [done|]. lia.
Qed.

(** Before a signal that reaches nobody, the sleepers have their request queued. *)
Lemma sleepers_queued s :
  calls_ok s → ids_ok s → delivered_ok s → executing (main s) = [] →
  (∀ t n, threads s !! t ≠ Some (Waiting n)) → sleepers s ⊆ list_to_set (map c_tid (queued (main_queue s))).
Proof.
  intros [_ Hc] Hi Hd Hx Hw t (pc & Hpc & Hrisk)%elem_sleepers.
  assert (∃ n, made pc = S n ∧ completed pc = n ∧ t ∉ (script_queue s).*1) as (n & Hm & Hcp & Hq).
  { destruct pc as [| | | |n|]; try done; [by eexists|by eexists|by destruct (Hw t n)]. }
  assert (Hin : Call t n ∈ calls s).
  { apply Hc. exists (made pc). unfold calls_made. rewrite Hpc. split; [done|lia]. }
  unfold calls in Hin. rewrite Hx in Hin. rewrite !elem_of_app in Hin.
  destruct Hin as [Hin|[Hin|[Hin|Hin]]].
  - apply elem_of_list_to_set, list_elem_of_fmap. by exists (Call t n).
  - by apply not_elem_of_nil in Hin.
  - destruct Hq. unfold answered in Hin. apply list_elem_of_fmap in Hin as (m & Em & Hm').
    pose proof (ids_responses _ Hi) as Hf. rewrite Forall_forall in Hf. apply list_elem_of_fmap.
    exists m. split; [|done]. by rewrite <- (Hf m Hm'), <- Em.
  - destruct (Hd _ _ Hin) as (pc' & ? & ?). simplify_eq. lia.
Qed.

Definition covered (s : t_system) : Prop := (size (sleepers s) ≤ signals s)%nat.

Lemma covered_weaken s s' : sleepers s' ⊆ sleepers s → (signals s ≤ signals s')%nat → covered s → covered s'.
Proof. unfold covered. intros H%subseteq_size. lia. Qed.

Lemma covered_step c s s' :
  step c s s' → calls_ok s → ids_ok s → event_ok s → delivered_ok s → covered s → covered s'.
Proof.
  intros Hs Hc Hi He Hd Hcov.
  destruct Hs as [t n _ Ht|t n _ Ht|t n vm func now _ Ht _|t n _ Ht|t n _ Ht|t n _ _ Ht|t n _ Ht|Hm Hev|id req rc now Hm|t n Hm Ht|Hm Hw].
  - eapply (covered_weaken s); [|apply Nat.le_refl|done]. eapply (sleepers_thread _ _ t); [done|done|done].
  - eapply (covered_weaken s); [|apply Nat.le_refl|done]. eapply (sleepers_thread _ _ t); [done|done|done].
  - unfold covered in *. assert (Hsub : sleepers (send_request t n vm func now s) ⊆ {[t]} ∪ sleepers s).
    { intros t' (pc & Hpc & Hr)%elem_sleepers. simpl in Hpc.
      apply lookup_insert_Some in Hpc as [[-> _]|[_ Hpc]]; [set_solver|].
      apply elem_of_union_r, elem_sleepers. by exists pc. }
    apply subseteq_size in Hsub. rewrite size_union_alt in Hsub.
    pose proof (subseteq_size (sleepers s ∖ {[t]}) (sleepers s) (subseteq_difference_l _ _ _ (reflexivity _))).
    unfold signals in *. simpl. rewrite length_app. simpl. rewrite size_singleton in Hsub. lia.
  - eapply (covered_weaken s); [|apply Nat.le_refl|done]. eapply (sleepers_thread _ _ t); [done|done|].
    intros Hr. apply elem_sleepers. by exists (Pushed n).
  - eapply (covered_weaken s); [|apply signals_after_shift|done].
    eapply sleepers_after_shift; [by eapply ids_nonzero|done|by right].
  - eapply (covered_weaken s); [|apply Nat.le_refl|done]. eapply (sleepers_thread _ _ t); [done|done|done].
  - eapply (covered_weaken s); [|apply signals_after_shift|done].
    eapply sleepers_after_shift; [by eapply ids_nonzero|done|by left].
  - destruct (signals_handle s He Hm Hev) as [Es Eg]. unfold covered. by rewrite Es, Eg.
  - eapply (covered_weaken s); [| |done]; [|unfold signals; simpl; by rewrite Hm].
    intros t (pc & Hpc & Hr)%elem_sleepers. apply elem_sleepers. exists pc. split; [done|].
    destruct pc; try done; intros Hin; apply Hr; simpl; rewrite fmap_app; apply elem_of_app; by left.
  - unfold covered, signals in *. simpl in *. rewrite Hm in Hcov.
    assert (Hsub : {[t]} ∪ sleepers (handle_signal t n s) ⊆ sleepers s).
    { apply union_least.
      - apply singleton_subseteq_l, elem_sleepers. by exists (Waiting n).
      - eapply (sleepers_thread _ _ t); [done|done|done]. }
    apply subseteq_size in Hsub. rewrite size_union, size_singleton in Hsub; [lia|].
    apply disjoint_singleton_l. intros (pc & Hpc & Hr)%elem_sleepers. simpl in Hpc.
    rewrite lookup_insert_eq in Hpc. by simplify_eq.
  - unfold covered, signals. change (sleepers (s <| main := MLoop |>)) with (sleepers s).
    pose proof (sleepers_queued s Hc Hi Hd ltac:(by rewrite Hm) Hw) as Hsub.
    apply subseteq_size in Hsub. simpl. etrans; [exact Hsub|]. etrans; [apply size_list_to_set_le|].
    unfold queued. rewrite !length_map. lia.
Qed.

Lemma reachable_covered c ts s : 0 ∉ ts → reachable c ts s → delivered_ok s ∧ covered s.
Proof.
  intros Hts. unfold reachable. intros Hr. revert s Hr.
  assert (∀ s, rtc (step c) (started ts) s → reachable c ts s ∧ delivered_ok s ∧ covered s) as H;
    [|by intros s ?%H; tauto].
  apply rtc_ind_r.
  - split; [apply rtc_refl|]. split; [by intros t k ?%not_elem_of_nil|]. assert (E : sleepers (started ts) = ∅); [|unfold covered; rewrite E, size_empty; lia].
    apply elem_of_equiv_empty_L. intros t (pc & Hpc%started_thread & Hr)%elem_sleepers.
    destruct Hpc as [_ ->]. done.
  - intros s1 s2 _ Hs (Hr & Hd & Hc). destruct (reachable_ok _ _ _ Hts Hr) as (H1 & H2 & H3).
    split; [by eapply rtc_r|]. split; [by eapply delivered_ok_step|by eapply covered_step].
Qed.

Lemma unsignalled_thread s : unsignalled s ≠ 0%nat → ∃ t n, threads s !! t = Some (Pushed n).
Proof.
  unfold unsignalled. intros H. destruct (map_choose (filter is_pushed (threads s))) as (t & pc & Hpc).
  { intros E. by rewrite E, map_size_empty in H. }
  apply map_lookup_filter_Some in Hpc as [Hpc Hp]. destruct pc as [| |n| | |]; try done. by exists t, n.
Qed.

(** C25: The signals of the main thread are enough, although one may wake the wrong
    thread and one may find nobody waiting: in every reachable state, under
    every schedule and with any number of scripts, the waiting threads are no
    more than the signals still to come. So when the main thread has served every
    request no thread is left in [pthread_cond_wait], and while one waits the
    system can go on. *)
Theorem lua_async_no_sleeper c ts s t n :
  0 ∉ ts → reachable c ts s → threads s !! t = Some (Waiting n) →
  (size (sleepers s) ≤ signals s)%nat ∧
  (main s ≠ MLoop ∨ main_queue s ≠ []) ∧
  ∃ s', step c s s' ∧ threads s' !! t ≠ None.
Proof.
  intros Hts Hr Ht. destruct (reachable_covered _ _ _ Hts Hr) as [_ Hcov].
  destruct (reachable_ok _ _ _ Hts Hr) as (_ & _ & [E1 E2 E3]).
  assert (Hs : (signals s ≠ 0)%nat).
  { unfold covered in Hcov. assert (size (sleepers s) ≠ 0%nat); [|lia].
    intros E%size_empty_inv. assert (t ∈ sleepers s); [|set_solver].
    apply elem_sleepers. by exists (Waiting n). }
  split; [done|]. split.
  { destruct (main s) eqn:Em; [right|by left..]. unfold signals in Hs. rewrite Em in Hs.
    by destruct (main_queue s). }
  destruct (main s) as [|id req| |] eqn:Em; [| | |done].
  - destruct (decide (unsignalled s = 0%nat)) as [Eu|Hu].
    + exists (handle_shift s). unfold signals in Hs. rewrite Em in Hs. split; [apply step_handle; [done|lia]|].
      unfold handle_shift. destruct (spec_op _ _) as [[|[]| |] q]; simpl; by rewrite Ht.
    + destruct (unsignalled_thread s Hu) as (t' & n' & Ht'). exists (send_event t' n' s). split.
      * apply step_event; [left; congruence|done].
      * simpl. intros [? _]%lookup_insert_None. congruence.
  - exists (handle_respond id req 0 0 s). split; [by apply step_respond|]. simpl. by rewrite Ht.
  - exists (handle_signal t n s). split; [by apply step_signal|]. simpl. by rewrite lookup_insert_eq.
Qed.

(** ** The Lua state of a request

    The state that the main thread works on is that of a thread which waits for
    the answer, unless its call came back without it. *)

Definition req_ok (s : t_system) (req : t_lua_async_request) : Prop :=
  ∃ pc, threads s !! c_tid (req_call req) = Some pc ∧
    ((c_no (req_call req) < completed pc)%nat ∨ vms s !! c_tid (req_call req) = Some (lua_vm req)).

(** Every completed call has returned, the requests name open states. *)
Record vms_ok (s : t_system) : Prop := {
  vms_returned : ∀ t pc k, threads s !! t = Some pc → (k < completed pc)%nat →
    ∃ r, r ∈ returns s ∧ r_call r = Call t k;
  vms_requests : Forall (λ m, req_ok s (m_data m.2)) (main_queue s);
  vms_exec : ∀ id req, main s = MExec id req → req_ok s req;
}.

(** Steps of a thread that leave what it does not own. *)
Lemma req_ok_thread s s' t pc pc' req :
  threads s !! t = Some pc → threads s' = <[t := pc']> (threads s) →
  (completed pc ≤ completed pc')%nat → vms s' = vms s → req_ok s req → req_ok s' req.
Proof.
  intros Ht Hth Hc Hv (pc0 & Hp & Ho). unfold req_ok. rewrite Hth, Hv.
  destruct (decide (c_tid (req_call req) = t)) as [E|Hne].
  - rewrite E in *. rewrite lookup_insert_eq. exists pc'. split; [done|]. simplify_eq.
    destruct Ho; [left; lia|by right].
  - rewrite lookup_insert_ne by done. by exists pc0.
Qed.

(** The calls of a thread between two calls are completed. *)
Lemma req_ok_outside s s' t pc pc' req :
  calls_ok s → req_call req ∈ calls s → threads s !! t = Some pc →
  completed pc = made pc → completed pc' = completed pc →
  threads s' = <[t := pc']> (threads s) → (∀ t', t' ≠ t → vms s' !! t' = vms s !! t') →
  req_ok s req → req_ok s' req.
Proof.
  intros [_ Hc] Hin Ht Hm Hcp Hth Hv (pc0 & Hp & Ho). unfold req_ok. rewrite Hth.
  destruct (decide (c_tid (req_call req) = t)) as [E|Hne].
  - rewrite E, lookup_insert_eq. exists pc'. split; [done|left].
    destruct (req_call req) as [t0 k0]. simpl in *. subst t0.
    apply Hc in Hin as (n & Hn & ?). unfold calls_made in Hn. rewrite Ht in Hn. simpl in Hn. simplify_eq. lia.
  - rewrite lookup_insert_ne, Hv by done. by exists pc0.
Qed.

Lemma queued_call s m : m ∈ main_queue s → req_call (m_data m.2) ∈ calls s.
Proof.
  intros Hm. unfold calls, queued. rewrite !elem_of_app. left. apply list_elem_of_fmap. by exists m.
Qed.

Lemma exec_call s id req : main s = MExec id req → req_call req ∈ calls s.
Proof. intros Hm. unfold calls. rewrite !elem_of_app, Hm. right; left. by left. Qed.

Lemma returned_thread s s' t pc pc' :
  threads s !! t = Some pc → threads s' = <[t := pc']> (threads s) →
  (∀ r, r ∈ returns s → r ∈ returns s') →
  (completed pc' = completed pc ∨
   completed pc' = S (completed pc) ∧ ∃ r, r ∈ returns s' ∧ r_call r = Call t (completed pc)) →
  (∀ t pc k, threads s !! t = Some pc → (k < completed pc)%nat → ∃ r, r ∈ returns s ∧ r_call r = Call t k) →
  ∀ t pc k, threads s' !! t = Some pc → (k < completed pc)%nat → ∃ r, r ∈ returns s' ∧ r_call r = Call t k.
Proof.
  intros Ht Hth Hr Hc Ho t' pc1 k. rewrite Hth. intros [[<- <-]|[_ Hp]]%lookup_insert_Some Hk.
  - destruct Hc as [Hc|[Hc Hl]]; [|destruct (decide (k = completed pc)) as [-> |]; [done|]].
    + rewrite Hc in Hk. destruct (Ho _ _ _ Ht Hk) as (r & ? & ?). eauto.
    + destruct (Ho _ _ k Ht) as (r & ? & ?); [lia|]. eauto.
  - destruct (Ho _ _ _ Hp Hk) as (r & ? & ?). eauto.
Qed.

(** A step of a thread inside a call. *)
Lemma vms_ok_thread s s' t pc pc' :
  threads s !! t = Some pc → threads s' = <[t := pc']> (threads s) → vms s' = vms s →
  main_queue s' = main_queue s → main s' = main s → (∀ r, r ∈ returns s → r ∈ returns s') →
  (completed pc' = completed pc ∨
   completed pc' = S (completed pc) ∧ ∃ r, r ∈ returns s' ∧ r_call r = Call t (completed pc)) →
  vms_ok s → vms_ok s'.
Proof.
  intros Ht Hth Hv Hq Hm Hr Hc [V1 V2 V3].
  assert ((completed pc ≤ completed pc')%nat) by (destruct Hc as [?|[? _]]; lia).
  split.
  - by eapply returned_thread.
  - rewrite Hq. eapply Forall_impl; [exact V2|]. intros m. by eapply req_ok_thread.
  - intros id req. rewrite Hm. intros E. eapply req_ok_thread; eauto.
Qed.

(** The start and the end of a script. *)
Lemma vms_ok_outside s s' t pc pc' :
  calls_ok s → threads s !! t = Some pc → completed pc = made pc → completed pc' = completed pc →
  threads s' = <[t := pc']> (threads s) → (∀ t', t' ≠ t → vms s' !! t' = vms s !! t') →
  main_queue s' = main_queue s → main s' = main s → returns s' = returns s →
  vms_ok s → vms_ok s'.
Proof.
  intros Hok Ht Hm Hcp Hth Hv Hq Hmn Hr [V1 V2 V3]. split.
  - eapply (returned_thread s s'); [exact Ht|exact Hth|by rewrite Hr|by left|exact V1].
  - rewrite Hq. rewrite Forall_forall in V2 |- *. intros m Hin.
    eapply req_ok_outside; eauto using queued_call.
  - intros id req. rewrite Hmn. intros E. eapply req_ok_outside; eauto using exec_call.
Qed.

Lemma after_shift_vms s t n pc op :
  threads s !! t = Some pc → completed pc = n → op = OpWake t 0 ∨ (∃ w, op = OpShift w t) →
  vms_ok s → vms_ok (after_shift t n (spec_op (script_queue s) op) s).
Proof.
  intros Ht Hn Hop.
  destruct (shift_cases (script_queue s) op t Hop) as [(m & q' & -> & _) | [-> | [w ->]]];
    (eapply (vms_ok_thread s _ t); [exact Ht|done|done|done|done| |]); simpl.
  1,3: intros r Hr; apply elem_of_app; by left.
  1,2: right; rewrite Hn; split; [done|]; eexists; split; [apply elem_of_app; right; by left|done].
  - done.
  - by left.
Qed.

Lemma vms_ok_step c s s' : step c s s' → calls_ok s → vms_ok s → vms_ok s'.
Proof.
  intros Hs Hc Hv.
  destruct Hs as [t n _ Ht|t n _ Ht|t n vm func now _ Ht Hvm|t n _ Ht|t n _ Ht|t n _ _ Ht|t n _ Ht|Hm Hev|id req rc now Hm|t n Hm Ht|Hm Hw].
  - eapply (vms_ok_outside s _ t (Ended n) (Running n)); [exact Hc|exact Ht|done|done|done| |done|done|done|done]. simpl.
    intros t' ?. by rewrite lookup_insert_ne.
  - eapply (vms_ok_outside s _ t (Running n) (Ended n)); [exact Hc|exact Ht|done|done|done| |done|done|done|done]. simpl.
    intros t' ?. by rewrite lookup_delete_ne.
  - destruct Hv as [V1 V2 V3]. split; simpl.
    + eapply (returned_thread s (send_request t n vm func now s)); [exact Ht|done|done|by left|exact V1].
    + apply Forall_app. split.
      * eapply Forall_impl; [exact V2|]. intros m. by eapply req_ok_thread.
      * apply Forall_singleton. exists (Pushed n). simpl. rewrite lookup_insert_eq. split; [done|by right].
    + intros id req E. eapply req_ok_thread; eauto.
  - eapply (vms_ok_thread s _ t (Pushed n) (Sent n)); [exact Ht|done|done|done|done|done|by left|done].
  - eapply after_shift_vms; [exact Ht|done|right; by eexists|done].
  - eapply (vms_ok_thread s _ t (Waiting n) (Woken n)); [exact Ht|done|done|done|done|done|by left|done].
  - eapply after_shift_vms; [exact Ht|done|by left|done].
  - destruct Hv as [V1 V2 V3]. unfold handle_shift. destruct (main_queue s) as [|m q] eqn:Eq; simpl.
    { split; simpl; [done|by constructor|done]. }
    inversion V2; subst. split; simpl; [done|done|]. by intros ? ? [= <- <-].
  - destruct Hv as [V1 V2 V3]. by split.
  - destruct Hv as [V1 V2 V3]. split; [|simpl|done].
    + eapply (returned_thread s (handle_signal t n s)); [exact Ht|done|done|by left|exact V1].
    + eapply Forall_impl; [exact V2|]. intros m. eapply req_ok_thread; [exact Ht|done|simpl; lia|done].
  - destruct Hv as [V1 V2 V3]. by split.
Qed.

Lemma reachable_vms c ts s : 0 ∉ ts → reachable c ts s → vms_ok s.
Proof.
  intros Hts. unfold reachable. intros Hr. cut (reachable c ts s ∧ vms_ok s); [by intros []|].
  revert s Hr. apply rtc_ind_r.
  - split; [apply rtc_refl|]. split; simpl; [|by constructor|done].
    intros t pc k Ht%started_thread. destruct Ht as [_ ->]. simpl. lia.
  - intros s1 s2 _ Hs (Hr & Hv). destruct (reachable_ok _ _ _ Hts Hr) as (H1 & _ & _).
    split; [by eapply rtc_r|by eapply vms_ok_step].
Qed.

(** The main thread works on an open Lua state, or the call it executes has come
    back without its answer. *)
Lemma exec_open c ts s id req :
  0 ∉ ts → reachable c ts s → main s = MExec id req →
  vm_open (lua_vm req) s ∨
  ∃ r, r ∈ returns s ∧ r_call r = req_call req ∧ r_answer r ≠ Some (r_call r).
Proof.
  intros Hts Hr Hm. destruct (reachable_vms _ _ _ Hts Hr) as [V1 _ V3].
  destruct (reachable_ok _ _ _ Hts Hr) as ([Hd _] & _ & _).
  destruct (V3 _ _ Hm) as (pc & Hpc & [Hk|Hv]); [right|left].
  - destruct (V1 _ _ _ Hpc Hk) as (r & Hin & E). destruct (req_call req) as [t k] eqn:Er. simpl in *.
    exists r. split_and!; [done|done|]. rewrite E. intros Ha. clear V1 V3.
    unfold calls in Hd. rewrite Hm in Hd. simpl in Hd. rewrite Er in Hd.
    apply NoDup_app in Hd as (_ & _ & Hd). apply NoDup_cons in Hd as [Hn _]. apply Hn.
    apply elem_of_app. right. unfold delivered. apply list_elem_of_omap. by exists r.
  - unfold vm_open. apply list_elem_of_fmap. eexists (_, _). split; [|by apply elem_of_map_to_list]. done.
Qed.

(** ** Running an interleaving *)

(** What the thread of a script does, and what the main thread does. *)
Inductive thread_act :=
  | AStart (t : Z) | AEnd (t : Z) | ARequest (t : Z) (func : lua_cfunction) (now : Z) | AEvent (t : Z) | AShift (t : Z)
  | ASpurious (t : Z) | AWake (t : Z).

Definition do_thread (c : t_sched) (s : t_system) (a : thread_act) : option t_system :=
  let run t (f : thread_pc → option t_system) :=
    if (match main s with MPushed => between c | _ => true end) then pc ← threads s !! t; f pc else None in
  match a with
  | AStart t => run t (λ pc, if pc is Ended n then Some (script_start t n s) else None)
  | AEnd t => run t (λ pc, if pc is Running n then Some (script_end t n s) else None)
  | ARequest t func now =>
      run t (λ pc, if pc is Running n then vm ← vms s !! t; Some (send_request t n vm func now s) else None)
  | AEvent t => run t (λ pc, if pc is Pushed n then Some (send_event t n s) else None)
  | AShift t => run t (λ pc, if pc is Sent n then Some (send_shift t n s) else None)
  | ASpurious t =>
      run t (λ pc, if pc is Waiting n then if spurious c then Some (set_thread t (Woken n) s) else None else None)
  | AWake t => run t (λ pc, if pc is Woken n then Some (send_wake t n s) else None)
  end.

Inductive act := AThread (a : thread_act) | AHandle | ARespond (rc : Z) | ASignal (t : Z) | ANoWaiter.

Definition waits (p : Z * thread_pc) : bool := match p.2 with Waiting _ => true | _ => false end.

(** The threads in [pthread_cond_wait]. *)
Definition waiting (s : t_system) : list Z := (filter waits (map_to_list (threads s))).*1.

(** [pthread_cond_signal] wakes [t] if it waits. *)
Definition signal_thread (t : option Z) (s : t_system) : option t_system :=
  match t with
  | None => if decide (waiting s = []) then Some (s <| main := MLoop |>) else None
  | Some t => if threads s !! t is Some (Waiting n) then Some (handle_signal t n s) else None
  end.

Definition do_act (c : t_sched) (s : t_system) (a : act) : option t_system :=
  match a with
  | AThread a => do_thread c s a
  | AHandle => if main s is MLoop then if 0 <? event_count s then Some (handle_shift s) else None else None
  | ARespond rc => if main s is MExec id req then Some (handle_respond id req rc 0 s) else None
  | ASignal t => if main s is MPushed then signal_thread (Some t) s else None
  | ANoWaiter => if main s is MPushed then signal_thread None s else None
  end.

Lemma do_thread_step c s a s' : do_thread c s a = Some s' → step c s s'.
Proof.
  intros H. assert (Hrun : ∀ t f,
    (if (match main s with MPushed => between c | _ => true end) then pc ← threads s !! t; f pc else None) = Some s' →
    script_runs c s ∧ ∃ pc, threads s !! t = Some pc ∧ f pc = Some s').
  { intros t f E. destruct (match main s with MPushed => _ | _ => _ end) eqn:Em; [|done]. split.
    - unfold script_runs. destruct (main s); auto.
    - destruct (threads s !! t) as [pc|]; [|done]. by exists pc. }
  destruct a; simpl in H; apply Hrun in H as (Hs & [] & Ht & E); simplify_eq.
  - by apply step_start.
  - by apply step_end.
  - destruct (vms s !! t) as [vm|] eqn:Ev; simplify_eq/=. by eapply step_request.
  - by eapply step_event.
  - by eapply step_shift.
  - destruct (spurious c) eqn:Es; simplify_eq. by eapply step_spurious.
  - by eapply step_wake.
Qed.

Lemma signal_thread_step c s t s' : main s = MPushed → signal_thread t s = Some s' → step c s s'.
Proof.
  intros Hm. destruct t as [t|]; simpl.
  - destruct (threads s !! t) as [[]|] eqn:Et; intros [= <-]. by apply step_signal.
  - case_decide as Hw; intros [= <-]. apply step_no_waiter; [done|]. intros t n Ht.
    assert (t ∈ waiting s); [|by rewrite Hw in *; apply not_elem_of_nil in H].
    apply list_elem_of_fmap. exists (t, Waiting n). split; [done|].
    apply list_elem_of_filter. split; [done|]. by apply elem_of_map_to_list.
Qed.

Lemma do_act_step c s a s' : do_act c s a = Some s' → step c s s'.
Proof.
  destruct a; simpl.
  - apply do_thread_step.
  - destruct (main s) eqn:E; try done. destruct (Z.ltb_spec 0 (event_count s)); intros [= <-]. by apply step_handle.
  - destruct (main s) eqn:E; try done. intros [= <-]. by apply step_respond.
  - destruct (main s) eqn:E; try done. by apply (signal_thread_step c s (Some t)).
  - destruct (main s) eqn:E; try done. by apply (signal_thread_step c s None).
Qed.

Fixpoint do_acts (c : t_sched) (s : t_system) (l : list act) : option t_system :=
  match l with [] => Some s | a :: l => s ← do_act c s a; do_acts c s l end.

Lemma do_acts_reachable c s l s' : do_acts c s l = Some s' → rtc (step c) s s'.
Proof.
  revert s. induction l as [|a l IH]; intros s; cbn [do_acts]; [by intros [= ->]|].
  destruct (do_act c s a) as [s1|] eqn:E; [|done]. intros H. apply do_act_step in E.
  eapply rtc_l; [exact E|]. by apply IH.
Qed.

(** What the threads of the scripts do while the main thread is at one place: a
    thread that cannot do a step does not do it. *)
Definition run_threads (c : t_sched) (l : list thread_act) (s : t_system) : t_system :=
  foldl (λ s a, default s (do_thread c s a)) s l.

Lemma run_threads_rtc c l s : rtc (step c) s (run_threads c l s).
Proof.
  revert s. induction l as [|a l IH]; intros s; [done|]. simpl.
  destruct (do_thread c s a) as [s'|] eqn:E; [|by apply IH].
  eapply rtc_l; [by eapply do_thread_step|]. by apply IH.
Qed.

(** The threads leave the place of the main thread. *)
Lemma do_thread_main c s a s' : do_thread c s a = Some s' → main s' = main s.
Proof.
  assert (Hrun : ∀ t (f : thread_pc → option t_system),
    (∀ pc s', f pc = Some s' → main s' = main s) →
    (if (match main s with MPushed => between c | _ => true end) then pc ← threads s !! t; f pc else None) = Some s' →
    main s' = main s).
  { intros t f Hf E. destruct (match main s with MPushed => _ | _ => _ end); [|done].
    destruct (threads s !! t) as [pc|]; [|done]. by eapply Hf. }
  assert (Has : ∀ t n r, main (after_shift t n r s) = main s) by (intros t n [[]]; done).
  destruct a; simpl; intros H; (eapply Hrun; [|exact H]); intros [] s1 E; simplify_eq; try done; try by apply Has.
  - by destruct (vms s !! t); simplify_eq/=.
  - by destruct (spurious c); simplify_eq.
Qed.

Lemma run_threads_main c l s : main (run_threads c l s) = main s.
Proof.
  revert s. induction l as [|a l IH]; intros s; [done|]. simpl. rewrite IH.
  destruct (do_thread c s a) eqn:E; [by eapply do_thread_main|done].
Qed.

(** A request that was announced is there. *)
Lemma handle_shift_exec s : event_ok s → 0 < event_count s → ∃ id req, main (handle_shift s) = MExec id req.
Proof.
  intros [_ E _] Hn. unfold handle_shift. destruct (main_queue s) as [|m q]; simpl in *; [lia|]. eauto.
Qed.

(** The signal of a push wakes somebody who waits, if anybody does. *)
Lemma signal_thread_some t s :
  match t with Some t => t ∈ waiting s | None => waiting s = [] end →
  ∃ s', signal_thread t s = Some s' ∧ main s' = MLoop.
Proof.
  destruct t as [t|]; simpl.
  - intros (p & -> & Hp)%list_elem_of_fmap. apply list_elem_of_filter in Hp as [Hw Hp].
    apply elem_of_map_to_list' in Hp. destruct p as [t pc]. simpl in *. rewrite Hp.
    destruct pc; try done. by eexists.
  - intros ->. rewrite decide_True by done. by eexists.
Qed.

(** A call of lua_async_send_msg that came back without its own answer. *)
Definition early_return (s : t_system) : Prop := ∃ r, r ∈ returns s ∧ r_answer r ≠ Some (r_call r).

(** One script at a time on a platform without surprises has none. *)
Lemma prompt_no_early t s : t ≠ 0 → reachable prompt [t] s → ¬ early_return s.
Proof.
  intros Hz Hr (r & Hin & Ha). destruct (reachable_phase t s Hz Hr) as (n & k & Hp).
  destruct (phase_answers _ _ _ _ Hp) as [_ Hf]. rewrite Forall_forall in Hf. by apply Ha, Hf.
Qed.

(** ** The call that comes back too early *)

(** The main thread pushes the answer to the first call and is overtaken before
    its signal: the script takes the answer, calls again and waits; the late
    signal wakes it. *)
Definition late_signal : list act :=
  [AThread (AStart 7); AThread (ARequest 7 lua_gpioGet 0); AThread (AEvent 7); AHandle; ARespond 2;
   AThread (AShift 7); AThread (ARequest 7 lua_gpioSet 0); AThread (AEvent 7); AThread (AShift 7);
   ASignal 7; AThread (AWake 7); AHandle; ARespond 1; ANoWaiter;
   AThread (ARequest 7 lua_gpioToggle 0); AThread (AEvent 7); AThread (AShift 7)].

(** Two scripts on a platform without surprises: the signal for the answer of the
    first wakes the second, which returns and goes on while the main thread
    starts to execute its request. *)
Definition wrong_signal : list act :=
  [AThread (AStart 7); AThread (AStart 8);
   AThread (ARequest 7 lua_gpioGet 0); AThread (AEvent 7); AThread (AShift 7);
   AThread (ARequest 8 lua_gpioSet 0); AThread (AEvent 8); AThread (AShift 8);
   AHandle; ARespond 2; ASignal 8; AThread (AWake 8); AHandle].

(** C26: mygpiod_queue_shift does not look for its id again after a wake-up, so a
    call can come back without an answer, and a script gets wrong results.
    Already with a single script and no spurious wake-up: a signal that arrives
    late ends the next call at once with 0 values, and the call after it gets
    the response of the call before. With two scripts it needs no late signal:
    the one signal wakes the wrong thread, whose script runs on while the main
    thread executes the function on the same Lua state; and when this script
    ends, the main thread executes the function on a Lua state that is closed. *)
Theorem lua_async_early_return :
  (∃ s, reachable (Sched false true) [7] s ∧
     returns s = [Return (Call 7 0) 2 (Some (Call 7 0)); Return (Call 7 1) 0 None;
                  Return (Call 7 2) 1 (Some (Call 7 1))]) ∧
  (∃ s req, reachable prompt [7; 8] s ∧ returns s = [Return (Call 8 0) 0 None] ∧
     threads s !! 8 = Some (Running 1) ∧ main s = MExec 8 req ∧ vms s !! 8 = Some (lua_vm req)) ∧
  (∃ s req, reachable prompt [7; 8] s ∧ threads s !! 8 = Some (Ended 1) ∧ main s = MExec 8 req ∧
     ¬ vm_open (lua_vm req) s).
Proof.
  split; [|split].
  - destruct (do_acts (Sched false true) (started [7]) late_signal) as [s|] eqn:E; [|vm_compute in E; done].
    exists s. split; [by eapply do_acts_reachable|]. vm_compute in E. by simplify_eq.
  - destruct (do_acts prompt (started [7; 8]) wrong_signal) as [s|] eqn:E; [|vm_compute in E; done].
    exists s, (Request 1 lua_gpioSet (Call 8 0)). split; [by eapply do_acts_reachable|].
    vm_compute in E. by simplify_eq.
  - destruct (do_acts prompt (started [7; 8]) (wrong_signal ++ [AThread (AEnd 8)])) as [s|] eqn:E;
      [|vm_compute in E; done].
    exists s, (Request 1 lua_gpioSet (Call 8 0)). split; [by eapply do_acts_reachable|].
    vm_compute in E. simplify_eq. split; [done|]. split; [done|]. apply (bool_decide_unpack _). by vm_compute.
Qed.

(** ** Witnesses *)

Definition seven_calls : list act :=
  [AThread (AStart 7); AThread (ARequest 7 lua_gpioGet 0); AThread (AEvent 7); AThread (AShift 7)].

Definition seven_waits : t_system :=
  System [(7, Msg (Request 0 lua_gpioGet (Call 7 0)) true 0)] 1 [] {[7 := Waiting 0]} {[7 := 0]} 1 MLoop [].

Lemma seven_waits_reachable : reachable prompt [7] seven_waits.
Proof. by apply (do_acts_reachable prompt (started [7]) seven_calls). Qed.


Lemma lua_async_answers_witness :
  ¬ ∃ s', nsteps (progress 7) 7 seven_waits s'.
Proof.
  destruct (lua_async_answers 7 seven_waits) as (_ & H & _); [done|exact seven_waits_reachable|].
  intros [s' Hs]. specialize (H _ _ Hs). lia.
Defined.

Lemma lua_async_no_sleeper_witness :
  (size (sleepers seven_waits) ≤ signals seven_waits)%nat.
Proof.
  destruct (lua_async_no_sleeper prompt [7] seven_waits 7 0) as [H _].
  - by intros [=]%list_elem_of_singleton.
  - exact seven_waits_reachable.
  - reflexivity.
  - exact H.
Defined.
