(* ===== verification/GpioUtil.v ===== *)
(** * GPIO settings, events and their names

    The enumerations of libgpiod that the daemon stores and compares, the event
    types of mygpiod/lib/event_types.h, and the parse and lookup functions of
    mygpiod/gpio/util.c and mygpiod/lib/events.c. A parse function that sets
    [errno] to [EINVAL] returns [true] as second component. *)

From S2P Require Import Prelude CLib.

Inductive gpiod_line_value :=
  | GPIOD_LINE_VALUE_ERROR
  | GPIOD_LINE_VALUE_INACTIVE
  | GPIOD_LINE_VALUE_ACTIVE.

Inductive gpiod_line_drive :=
  | GPIOD_LINE_DRIVE_PUSH_PULL
  | GPIOD_LINE_DRIVE_OPEN_DRAIN
  | GPIOD_LINE_DRIVE_OPEN_SOURCE.

Inductive gpiod_line_bias :=
  | GPIOD_LINE_BIAS_AS_IS
  | GPIOD_LINE_BIAS_UNKNOWN
  | GPIOD_LINE_BIAS_DISABLED
  | GPIOD_LINE_BIAS_PULL_UP
  | GPIOD_LINE_BIAS_PULL_DOWN.

Inductive gpiod_line_clock :=
  | GPIOD_LINE_CLOCK_MONOTONIC
  | GPIOD_LINE_CLOCK_REALTIME
  | GPIOD_LINE_CLOCK_HTE.

Inductive gpiod_line_edge :=
  | GPIOD_LINE_EDGE_NONE
  | GPIOD_LINE_EDGE_RISING
  | GPIOD_LINE_EDGE_FALLING
  | GPIOD_LINE_EDGE_BOTH.

Inductive gpiod_line_direction :=
  | GPIOD_LINE_DIRECTION_INPUT
  | GPIOD_LINE_DIRECTION_OUTPUT.

Inductive gpiod_edge_event_type :=
  | GPIOD_EDGE_EVENT_RISING_EDGE
  | GPIOD_EDGE_EVENT_FALLING_EDGE.

Inductive mygpiod_event_types :=
  | MYGPIOD_EVENT_GPIO_FALLING
  | MYGPIOD_EVENT_GPIO_RISING
  | MYGPIOD_EVENT_GPIO_LONG_PRESS
  | MYGPIOD_EVENT_GPIO_LONG_PRESS_RELEASE
  | MYGPIOD_EVENT_INPUT
  | MYGPIOD_EVENT_TIMER_EV
  | MYGPIOD_EVENT_HOOK.

#[export] Instance gpiod_line_value_eq_dec : EqDecision gpiod_line_value.
Proof. solve_decision. Defined.
#[export] Instance gpiod_line_edge_eq_dec : EqDecision gpiod_line_edge.
Proof. solve_decision. Defined.
#[export] Instance gpiod_edge_event_type_eq_dec : EqDecision gpiod_edge_event_type.
Proof. solve_decision. Defined.
#[export] Instance mygpiod_event_types_eq_dec : EqDecision mygpiod_event_types.
Proof. solve_decision. Defined.

(** ** Values *)

Definition parse_gpio_value (str : bytes) : gpiod_line_value * bool :=
  if strcasecmp0 str (bs "active") then (GPIOD_LINE_VALUE_ACTIVE, false)
  else if strcasecmp0 str (bs "inactive") then (GPIOD_LINE_VALUE_INACTIVE, false)
  else if strcasecmp0 str (bs "error") then (GPIOD_LINE_VALUE_ERROR, false)
  else (GPIOD_LINE_VALUE_ERROR, true).

Definition lookup_gpio_value (value : gpiod_line_value) : bytes :=
  match value with
  | GPIOD_LINE_VALUE_ERROR => bs "error"
  | GPIOD_LINE_VALUE_INACTIVE => bs "inactive"
  | GPIOD_LINE_VALUE_ACTIVE => bs "active"
  end.

(** ** Drive *)

Definition parse_drive (str : bytes) : gpiod_line_drive * bool :=
  if strcasecmp0 str (bs "push-pull") then (GPIOD_LINE_DRIVE_PUSH_PULL, false)
  else if strcasecmp0 str (bs "open-drain") then (GPIOD_LINE_DRIVE_OPEN_DRAIN, false)
  else if strcasecmp0 str (bs "open-source") then (GPIOD_LINE_DRIVE_OPEN_SOURCE, false)
  else (GPIOD_LINE_DRIVE_PUSH_PULL, true).

Definition lookup_drive (value : gpiod_line_drive) : bytes :=
  match value with
  | GPIOD_LINE_DRIVE_PUSH_PULL => bs "push-pull"
  | GPIOD_LINE_DRIVE_OPEN_DRAIN => bs "open-drain"
  | GPIOD_LINE_DRIVE_OPEN_SOURCE => bs "open-source"
  end.

(** ** Bias *)

Definition parse_bias (str : bytes) : gpiod_line_bias * bool :=
  if strcasecmp0 str (bs "pull-down") then (GPIOD_LINE_BIAS_PULL_DOWN, false)
  else if strcasecmp0 str (bs "pull-up") then (GPIOD_LINE_BIAS_PULL_UP, false)
  else if strcasecmp0 str (bs "disable") then (GPIOD_LINE_BIAS_DISABLED, false)
  else if strcasecmp0 str (bs "as-is") then (GPIOD_LINE_BIAS_AS_IS, false)
  else if strcasecmp0 str (bs "unknown") then (GPIOD_LINE_BIAS_UNKNOWN, false)
  else (GPIOD_LINE_BIAS_UNKNOWN, true).

Definition lookup_bias (bias : gpiod_line_bias) : bytes :=
  match bias with
  | GPIOD_LINE_BIAS_AS_IS => bs "as-is"
  | GPIOD_LINE_BIAS_UNKNOWN => bs "unknown"
  | GPIOD_LINE_BIAS_PULL_DOWN => bs "pull-down"
  | GPIOD_LINE_BIAS_PULL_UP => bs "pull-up"
  | GPIOD_LINE_BIAS_DISABLED => bs "disable"
  end.

(** ** Event clock *)

(** The last comparison is case sensitive in the source. *)
Definition parse_event_clock (str : bytes) : gpiod_line_clock * bool :=
  if strcasecmp0 str (bs "realtime") then (GPIOD_LINE_CLOCK_REALTIME, false)
  else if strcasecmp0 str (bs "hte") then (GPIOD_LINE_CLOCK_HTE, false)
  else if strcmp0 str (bs "monotonic") then (GPIOD_LINE_CLOCK_MONOTONIC, false)
  else (GPIOD_LINE_CLOCK_MONOTONIC, true).

Definition lookup_event_clock (clock : gpiod_line_clock) : bytes :=
  match clock with
  | GPIOD_LINE_CLOCK_REALTIME => bs "realtime"
  | GPIOD_LINE_CLOCK_HTE => bs "hte"
  | GPIOD_LINE_CLOCK_MONOTONIC => bs "monotonic"
  end.

(** ** Requested events *)

Definition parse_event_request (str : bytes) : gpiod_line_edge * bool :=
  if strcasecmp0 str (bs "none") then (GPIOD_LINE_EDGE_NONE, false)
  else if strcasecmp0 str (bs "falling") then (GPIOD_LINE_EDGE_FALLING, false)
  else if strcasecmp0 str (bs "rising") then (GPIOD_LINE_EDGE_RISING, false)
  else if strcasecmp0 str (bs "both") then (GPIOD_LINE_EDGE_BOTH, false)
  else (GPIOD_LINE_EDGE_NONE, true).

Definition lookup_event_request (event : gpiod_line_edge) : bytes :=
  match event with
  | GPIOD_LINE_EDGE_NONE => bs "none"
  | GPIOD_LINE_EDGE_RISING => bs "rising"
  | GPIOD_LINE_EDGE_FALLING => bs "falling"
  | GPIOD_LINE_EDGE_BOTH => bs "both"
  end.

(** ** Event types *)

Definition parse_event_type (str : bytes) : gpiod_edge_event_type * bool :=
  if strcasecmp0 str (bs "falling") then (GPIOD_EDGE_EVENT_FALLING_EDGE, false)
  else if strcasecmp0 str (bs "rising") then (GPIOD_EDGE_EVENT_RISING_EDGE, false)
  else (GPIOD_EDGE_EVENT_FALLING_EDGE, true).

Definition lookup_event_type (event : gpiod_edge_event_type) : bytes :=
  match event with
  | GPIOD_EDGE_EVENT_FALLING_EDGE => bs "falling"
  | GPIOD_EDGE_EVENT_RISING_EDGE => bs "rising"
  end.

Definition mygpiod_event_name (event_type : mygpiod_event_types) : bytes :=
  match event_type with
  | MYGPIOD_EVENT_GPIO_FALLING => bs "gpio_falling"
  | MYGPIOD_EVENT_GPIO_RISING => bs "gpio_rising"
  | MYGPIOD_EVENT_GPIO_LONG_PRESS => bs "gpio_long_press"
  | MYGPIOD_EVENT_GPIO_LONG_PRESS_RELEASE => bs "gpio_long_press_release"
  | MYGPIOD_EVENT_INPUT => bs "input"
  | MYGPIOD_EVENT_TIMER_EV => bs "timer_ev"
  | MYGPIOD_EVENT_HOOK => bs "hook"
  end.

(** ** Facts *)

(** Every setting the daemon prints (with [gpioinfo], [gpiolist] or the
    REST API) is a setting its own configuration parser reads back, without an
    error: looking a value up and parsing the name again is the identity for
    values, drives, biases, event clocks, requested events and event types. *)
Theorem lookup_parse_settings :
  (∀ v, parse_gpio_value (lookup_gpio_value v) = (v, false)) ∧
  (∀ d, parse_drive (lookup_drive d) = (d, false)) ∧
  (∀ b, parse_bias (lookup_bias b) = (b, false)) ∧
  (∀ c, parse_event_clock (lookup_event_clock c) = (c, false)) ∧
  (∀ e, parse_event_request (lookup_event_request e) = (e, false)) ∧
  (∀ t, parse_event_type (lookup_event_type t) = (t, false)).
Proof. split_and!; intros []; reflexivity. Qed.
