(* ===== verification/Config.v ===== *)
(** * Data of the daemon

    The structs of mygpiod/config, mygpiod/actions/actions.h,
    mygpiod/input_ev/input_event.h, mygpiod/lib/events.h and
    mygpiod/server_socket/socket.h, with the fields of the sources. An [sds] is
    a byte list, a [struct t_list] an abstract list ([Lists]), an [int] or
    [unsigned] a [Z], a handle of libgpiod, libmicrohttpd, libmpdclient or Lua
    an [option Z] that is [None] for NULL. The build has every optional feature
    enabled (HTTP server, MPD, HTTP and Lua actions). *)

From S2P Require Import Prelude CLib Lists GpioUtil.

Definition CLIENT_CONNECTIONS_MAX : Z := 10.
Definition GPIOS_MAX : Z := 64.
Definition CFG_SOCKET_PATH : bytes := bs "/run/mygpiod/socket".
Definition TIMEOUT_MS_MAX : Z := 9999.
Definition WAITING_EVENTS_MAX : Z := 10.
Definition BUFFER_SIZE : Z := 1024.
Definition BUFFER_SIZE_INPUT_MAX : Z := 4096.
Definition GPIO_EVENT_BUF_SIZE : Z := 32.
Definition LINE_LENGTH_MAX : nat := 1024.

Definition POLLIN : Z := 1.
Definition POLLPRI : Z := 2.
Definition POLLOUT : Z := 4.
Definition POLLERR : Z := 8.
Definition POLLHUP : Z := 16.
Definition POLLNVAL : Z := 32.

(** ** Actions (mygpiod/actions/actions.h) *)

Inductive mygpiod_actions :=
  | MYGPIOD_ACTION_UNKNOWN
  | MYGPIOD_ACTION_SYSTEM
  | MYGPIOD_ACTION_GPIO_SET
  | MYGPIOD_ACTION_GPIO_TOGGLE
  | MYGPIOD_ACTION_GPIO_BLINK
  | MYGPIOD_ACTION_MPC
  | MYGPIOD_ACTION_HTTP
  | MYGPIOD_ACTION_MYMPD
  | MYGPIOD_ACTION_LUA
  | MYGPIOD_ACTION_LUA_ASYNC
  | MYGPIOD_ACTION_NONE.

#[export] Instance mygpiod_actions_eq_dec : EqDecision mygpiod_actions.
Proof. solve_decision. Defined.

(** [options_count] is the length of [options]. *)
Record t_action := Action { action : mygpiod_actions; options : list bytes }.

(** ** GPIOs (mygpiod/config/gpio.h) *)

Record t_gpio_in_data := GpioIn {
  bias : gpiod_line_bias;
  active_low : bool;
  debounce_period_us : Z;
  event_clock : gpiod_line_clock;
  action_rising : t_list t_action;
  action_falling : t_list t_action;
  event_request : gpiod_line_edge;
  gpio_fd : Z;
  long_press_timeout_ms : Z;
  long_press_interval_ms : Z;
  long_press_action : t_list t_action;
  long_press_release_action : t_list t_action;
  long_press_event : gpiod_line_edge;
  long_press_value : gpiod_line_value;
  ignore_event : bool;
  in_timer_fd : Z;
  in_request : option Z;
  in_name : bytes;
}.

#[export] Instance eta_gpio_in : Eta t_gpio_in_data := λ r,
  GpioIn (bias r) (active_low r) (debounce_period_us r) (event_clock r) (action_rising r)
    (action_falling r) (event_request r) (gpio_fd r) (long_press_timeout_ms r)
    (long_press_interval_ms r) (long_press_action r) (long_press_release_action r)
    (long_press_event r) (long_press_value r) (ignore_event r) (in_timer_fd r)
    (in_request r) (in_name r).

Record t_gpio_out_data := GpioOut {
  drive : gpiod_line_drive;
  value : gpiod_line_value;
  out_timer_fd : Z;
  out_request : option Z;
  out_name : bytes;
}.

#[export] Instance eta_gpio_out : Eta t_gpio_out_data := λ r,
  GpioOut (drive r) (value r) (out_timer_fd r) (out_request r) (out_name r).

(** ** Timers and hooks (mygpiod/config/timer_ev.h, mygpiod/config/hook.h) *)

Record t_timer_definition := TimerDef {
  td_name : bytes;
  td_fd : Z;
  start_hour : Z;
  start_minute : Z;
  interval : Z;
  weekdays : list bool;
  td_action : t_action;
}.

#[export] Instance eta_timer_definition : Eta t_timer_definition := λ r,
  TimerDef (td_name r) (td_fd r) (start_hour r) (start_minute r) (interval r) (weekdays r)
    (td_action r).

Record t_hook := Hook { hook_name : bytes; hook_action : t_action }.

(** ** Input devices (mygpiod/config/input_ev.h, mygpiod/input_ev/input_event.h) *)

Inductive input_event_match := MATCH_ALL | MATCH_VALUE.

#[export] Instance input_event_match_eq_dec : EqDecision input_event_match.
Proof. solve_decision. Defined.

Record t_input_event_actions := InputEventActions {
  iea_type : Z;
  code_match : input_event_match;
  iea_code : Z;
  value_match : input_event_match;
  iea_value : Z;
  iea_state : Z;
  iea_action : t_action;
}.

#[export] Instance eta_input_event_actions : Eta t_input_event_actions := λ r,
  InputEventActions (iea_type r) (code_match r) (iea_code r) (value_match r) (iea_value r)
    (iea_state r) (iea_action r).

Record t_input_device := InputDevice {
  dev_name : bytes;
  dev_fd : Z;
  event_actions : t_list t_input_event_actions;
}.

#[export] Instance eta_input_device : Eta t_input_device := λ r,
  InputDevice (dev_name r) (dev_fd r) (event_actions r).

Record t_input_event := InputEvent {
  tv_sec : Z;
  tv_usec : Z;
  ie_type : Z;
  ie_code : Z;
  ie_value : Z;
}.

(** [device] is a pointer into [input_devices]: the address of its node. *)
Record t_mygpiod_input_event := MygpiodInputEvent {
  device : positive;
  ie_data : t_input_event;
}.

(** ** Events (mygpiod/lib/events.h)

    [input_event] is not initialised for a GPIO event: [None]. *)
Record t_event_data := EventData {
  mygpiod_event_type : mygpiod_event_types;
  timestamp_ns : Z;
  input_event : option t_mygpiod_input_event;
}.

(** ** Socket clients (mygpiod/server_socket/socket.h) *)

Inductive client_socket_state :=
  | CLIENT_SOCKET_STATE_READING
  | CLIENT_SOCKET_STATE_IDLE
  | CLIENT_SOCKET_STATE_WRITING.

#[export] Instance client_socket_state_eq_dec : EqDecision client_socket_state.
Proof. solve_decision. Defined.

Record t_client_data := ClientData {
  client_fd : Z;
  state : client_socket_state;
  buf_in : bytes;
  buf_out : bytes;
  bytes_out : Z;
  events : Z;
  waiting_events : t_list t_event_data;
  timeout_fd : Z;
}.

#[export] Instance eta_client_data : Eta t_client_data := λ r,
  ClientData (client_fd r) (state r) (buf_in r) (buf_out r) (bytes_out r) (events r)
    (waiting_events r) (timeout_fd r).

(** ** HTTP requests and Lua scripts *)

Record t_request_data := RequestData {
  resume_buffer : option bytes;
  connection : Z;
  conn_id : Z;
}.

#[export] Instance eta_request_data : Eta t_request_data := λ r,
  RequestData (resume_buffer r) (connection r) (conn_id r).

Record t_lua_script := LuaScript {
  script_name : bytes;
  script : bytes;
  bytecode : option bytes;
}.

#[export] Instance eta_lua_script : Eta t_lua_script := λ r,
  LuaScript (script_name r) (script r) (bytecode r).

(** ** Global configuration and state (mygpiod/config/config.h)

    The data of [http_suspended] is the address of a [t_request_data]. *)
Record t_config := Config {
  loglevel : Z;
  syslog : bool;
  signal_fd : Z;
  socket_path : bytes;
  socket_timeout_s : Z;
  clients : t_list t_client_data;
  client_id : Z;
  httpd : option Z;
  http_ip : bytes;
  http_port : Z;
  http_suspended : t_list positive;
  http_conn_id : Z;
  dir_gpio : bytes;
  gpios_in : t_list t_gpio_in_data;
  gpios_out : t_list t_gpio_out_data;
  chip_path : bytes;
  chip : option Z;
  input_devices : t_list t_input_device;
  timer_definitions : t_list t_timer_definition;
  hooks : t_list t_hook;
  mpd_conn : option Z;
  lua_file : bytes;
  lua_vm : option Z;
  lua_async_dir : bytes;
  lua_async_scripts : t_list t_lua_script;
}.

#[export] Instance eta_config : Eta t_config := λ r,
  Config (loglevel r) (syslog r) (signal_fd r) (socket_path r) (socket_timeout_s r) (clients r)
    (client_id r) (httpd r) (http_ip r) (http_port r) (http_suspended r) (http_conn_id r)
    (dir_gpio r) (gpios_in r) (gpios_out r) (chip_path r) (chip r) (input_devices r)
    (timer_definitions r) (hooks r) (mpd_conn r) (lua_file r) (lua_vm r) (lua_async_dir r)
    (lua_async_scripts r).
