(* ===== verification/Kernel.v ===== *)
(** * The environment of the daemon, and the state monad it runs in

    [Kernel] collects the calls into code that is not part of the repository
    (the kernel, libgpiod, libmicrohttpd, libmpdclient, Lua, libcurl through a
    new thread) as functions on an abstract state [K]; [KernelLaws] states what
    the daemon relies on of their documentation. [Build] holds what the build
    generates. The daemon is written in the monad [M], which threads the
    configuration, the global [update_pollfds], the threads of the scripts and
    the state of the environment; a computation stops where the C code would
    follow an invalid pointer, and where a Lua script does not come back. *)

From S2P Require Import Prelude CLib LuaAsync Lists GpioUtil Config.

(** ** External code *)

Record itimerspec := Itimerspec {
  it_value_sec : Z;
  it_value_nsec : Z;
  it_interval_sec : Z;
  it_interval_nsec : Z;
}.

Record tm := Tm {
  tm_sec : Z; tm_min : Z; tm_hour : Z; tm_mday : Z; tm_mon : Z; tm_year : Z;
  tm_wday : Z; tm_yday : Z; tm_isdst : Z;
}.

#[export] Instance eta_tm : Eta tm := λ r,
  Tm (tm_sec r) (tm_min r) (tm_hour r) (tm_mday r) (tm_mon r) (tm_year r) (tm_wday r)
    (tm_yday r) (tm_isdst r).

Inductive clockid := CLOCK_REALTIME | CLOCK_MONOTONIC.

(** How a script can end other than by returning: with an error that nothing
    catches, with [os.exit], or never. *)
Inductive lua_end := LuaError | LuaExit | LuaLoop.

#[export] Instance lua_end_eq : EqDecision lua_end.
Proof. solve_decision. Defined.

(** What a running Lua function does next: return, after whatever it did to the
    environment, call a registered C function with arguments, or not come back. *)
Inductive lua_run (V K : Type) :=
  | LuaReturn (f : K → K)
  | LuaCall (f : lua_cfunction) (args : list V) (k : list V → lua_run V K)
  | LuaStop (how : lua_end).
Arguments LuaReturn {V K} _.
Arguments LuaCall {V K} _ _ _.
Arguments LuaStop {V K} _.

(** The function comes back, whatever the C functions answer: from a protected call
    also with an error. *)
Fixpoint lua_returns {V K} (protected : bool) (r : lua_run V K) : Prop :=
  match r with
  | LuaReturn _ => True
  | LuaCall _ _ k => ∀ res, lua_returns protected (k res)
  | LuaStop how => protected = true ∧ how = LuaError
  end.

Class Kernel (K : Type) := {
  (** file descriptors; a failing [int] result is -1, a failing [ssize_t] [None] *)
  timerfd_create : K → Z * K;
  timerfd_settime : Z → itimerspec → K → Z * K;
  timerfd_gettime : Z → K → option itimerspec * K;
  read_fd : Z → Z → K → option bytes * K;
  write_fd : Z → bytes → K → option Z * K;
  close : Z → K → K;
  accept : Z → K → Z * K;
  fcntl : Z → Z → Z → K → Z * K;
  open : bytes → Z → K → Z * K;
  (** time *)
  clock_gettime : clockid → K → option (Z * Z) * K;
  time : K → Z * K;
  localtime_r : Z → K → option tm;
  mktime : tm → K → Z;
  (** libgpiod *)
  line_info : Type;
  edge_event : Type;
  gpiod_line_request_get_value : option Z → Z → K → gpiod_line_value * K;
  gpiod_line_request_set_value : option Z → Z → gpiod_line_value → K → Z * K;
  gpiod_line_request_read_edge_events :
    option Z → Z → K → Z * (Z → option edge_event) * K;
  gpiod_edge_event_get_timestamp_ns : edge_event → Z;
  gpiod_edge_event_get_event_type : edge_event → gpiod_edge_event_type;
  gpiod_chip_get_line_info : option Z → Z → K → option line_info * K;
  gpiod_line_info_is_active_low : line_info → bool;
  gpiod_line_info_get_bias : line_info → gpiod_line_bias;
  gpiod_line_info_get_edge_detection : line_info → gpiod_line_edge;
  gpiod_line_info_is_debounced : line_info → bool;
  gpiod_line_info_get_debounce_period_us : line_info → Z;
  gpiod_line_info_get_event_clock : line_info → gpiod_line_clock;
  gpiod_line_info_get_drive : line_info → gpiod_line_drive;
  gpiod_line_info_get_name : line_info → option bytes;
  (** processes and threads: [fork] with [execl] of the command in the child,
      [pthread_create] of a curl or a Lua thread (0 on success) *)
  fork_execl : bytes → K → Z * K;
  pthread_create_curl : bytes → bytes → option (bytes * bytes) → K → Z * K;
  pthread_create_lua : Z → bytes → K → Z * K;
  (** the [ioctl] on /dev/vcio: the six header words and the command in; the
      result, the sixth word and the 1024 response bytes out *)
  ioctl_mbox : Z → list Z → bytes → K → Z * Z * bytes * K;
  (** libmicrohttpd *)
  MHD_resume_connection : Z → K → K;
  MHD_suspend_connection : Z → K → K;
  MHD_set_connection_option_timeout : Z → Z → K → K;
  (** libmpdclient; [mpd_poll] is [poll] on the connection, with its [revents] *)
  mpd_poll : Z → K → Z * Z * K;
  mpd_connection_new : K → option Z * K;
  mpd_connection_error : Z → K → bool;
  mpd_send_command : Z → list bytes → K → K;
  mpd_response_finish : Z → K → bool * K;
  mpd_connection_free : Z → K → K;
  (** Lua *)
  lua_value : Type;
  lua_isinteger : lua_value → bool;
  lua_tointeger : lua_value → Z;
  lua_tostring : lua_value → option bytes;
  lua_boolean : bool → lua_value;
  lua_string : bytes → lua_value;
  lua_integer : Z → lua_value;
  lua_getglobal_type : Z → bytes → K → Z;
  lua_call : Z → bytes → list bytes → K → lua_run lua_value K * K;
  luaL_newstate : K → option Z * K;
  luaL_load : Z → bytes → K → Z * K;
  lua_dump : Z → K → bytes;
  lua_close : Z → K → K;
  (** start-up: [luaL_dofile] runs the chunk, [lua_status] is its result after it;
      an edge event buffer and libgpiod's structures are always allocated *)
  luaL_dofile : Z → bytes → K → lua_run lua_value K * K;
  lua_status : Z → K → Z;
  gpiod_chip_open : bytes → K → option Z * K;
  line_settings : Type;
  gpiod_line_settings_new : line_settings;
  gpiod_line_settings_set_direction : gpiod_line_direction → line_settings → Z * line_settings;
  gpiod_line_settings_set_bias : gpiod_line_bias → line_settings → Z * line_settings;
  gpiod_line_settings_set_event_clock : gpiod_line_clock → line_settings → Z * line_settings;
  gpiod_line_settings_set_edge_detection : gpiod_line_edge → line_settings → Z * line_settings;
  gpiod_line_settings_set_drive : gpiod_line_drive → line_settings → Z * line_settings;
  gpiod_line_settings_set_active_low : bool → line_settings → line_settings;
  gpiod_line_settings_set_debounce_period_us : Z → line_settings → line_settings;
  line_config : Type;
  gpiod_line_config_new : line_config;
  gpiod_line_config_add_line_settings : list Z → line_settings → line_config → Z * line_config;
  gpiod_line_config_set_output_values : list gpiod_line_value → line_config → Z * line_config;
  gpiod_chip_request_lines : option Z → bytes → line_config → K → option Z * K;
  gpiod_line_request_get_fd : option Z → K → Z;
  eventfd : K → Z * K;
  eventfd_write : Z → Z → K → Z * K;
  (** the descriptor and its counter, which a read that succeeds decrements *)
  eventfd_read : Z → Z → K → Z * K;
  (** the threads of scripts: the ids they have, how the platform schedules them,
      what they do while the main thread is at one place, which of those that
      wait [pthread_cond_signal] wakes, and the stack of a Lua state, from which
      a function takes its arguments and where it leaves its results *)
  script_tids : list Z;
  script_sched : t_sched;
  script_acts : K → list thread_act * K;
  pthread_cond_signal : list Z → K → option Z * K;
  lua_stack : Z → K → list lua_value;
  lua_results : Z → list lua_value → K → K;
  unlink : bytes → K → K;
  socket : K → Z * K;
  bind : Z → bytes → K → Z * K;
  listen : Z → Z → K → Z * K;
  MHD_start_daemon : Z → bytes → K → option Z * K;
  MHD_epoll_fd : Z → K → option Z;
  (** exit *)
  gpiod_line_request_release : Z → K → K;
  gpiod_chip_close : Z → K → K;
  MHD_stop_daemon : Z → K → K;
}.

(** What the build generates: the version, the debug flag, the tables of
    event code names made from the kernel headers, the embedded files. *)
Class Build := {
  MYGPIOD_DEBUG : bool;
  MYGPIO_VERSION : bytes;
  input_event_key_code_names : list (Z * bytes);
  input_event_rel_code_names : list (Z * bytes);
  input_event_abs_code_names : list (Z * bytes);
  input_event_sw_code_names : list (Z * bytes);
  (** the files of the web interface, by name *)
  embedded_file : bytes → bytes;
}.

(** Documented behaviour: [read(2)] and [write(2)] transfer no more than asked
    for, [tm_wday] counts the days since Sunday, [clock_gettime] knows
    CLOCK_REALTIME, the current time is a date, the firmware answers on one line
    and the name of a GPIO line has no line feed. An event descriptor is read only
    when its counter is not 0, [pthread_cond_signal] wakes a thread that waits if
    there is one, and the id of a thread is not 0. *)
Class KernelLaws (K : Type) `{Kernel K} : Prop := {
  read_fd_length fd n k r k' :
    0 ≤ n → read_fd fd n k = (Some r, k') → Z.of_nat (length r) ≤ n;
  write_fd_length fd s k n k' :
    write_fd fd s k = (Some n, k') → n ≤ Z.of_nat (length s);
  write_fd_nonneg fd s k n k' : write_fd fd s k = (Some n, k') → 0 ≤ n;
  localtime_r_wday t k tms : localtime_r t k = Some tms → 0 ≤ tm_wday tms ≤ 6;
  clock_gettime_realtime k : is_Some (clock_gettime CLOCK_REALTIME k).1;
  ioctl_mbox_line fd header command k rv p5 response k' :
    ioctl_mbox fd header command k = (rv, p5, response, k') →
    length response = 1024%nat ∧ one_line (c_str response);
  localtime_r_time k : is_Some (localtime_r (time k).1 (time k).2);
  line_name_line info name :
    gpiod_line_info_get_name info = Some name → one_line (c_str name);
  eventfd_read_count fd n k k' : eventfd_read fd n k = (0, k') → 0 < n;
  cond_signal_wakes ws k :
    match (pthread_cond_signal ws k).1 with Some t => t ∈ ws | None => ws = [] end;
  script_tids_nonzero : 0 ∉ script_tids;
}.

(** The names of event codes and the version fit on a line. *)
Class BuildLaws `{Build} : Prop := {
  key_names_line : Forall (λ e, one_line (e.2)) input_event_key_code_names;
  rel_names_line : Forall (λ e, one_line (e.2)) input_event_rel_code_names;
  abs_names_line : Forall (λ e, one_line (e.2)) input_event_abs_code_names;
  sw_names_line : Forall (λ e, one_line (e.2)) input_event_sw_code_names;
  version_line : one_line MYGPIO_VERSION ∧ no_nul MYGPIO_VERSION;
}.

(** What [close(2)] does: it takes a descriptor from those the process has open.
    Nothing that releases another handle opens one. *)
Class Descriptors (K : Type) `{Kernel K} := {
  open_fds : K → gset Z;
  close_open fd k : open_fds (close fd k) = open_fds k ∖ {[fd]};
  request_release_open r k : open_fds (gpiod_line_request_release r k) ⊆ open_fds k;
  chip_close_open c k : open_fds (gpiod_chip_close c k) ⊆ open_fds k;
  mpd_free_open c k : open_fds (mpd_connection_free c k) ⊆ open_fds k;
  lua_close_open vm k : open_fds (lua_close vm k) ⊆ open_fds k;
  MHD_resume_open c k : open_fds (MHD_resume_connection c k) ⊆ open_fds k;
  MHD_stop_open d k : open_fds (MHD_stop_daemon d k) ⊆ open_fds k;
}.

(** The functions of lua_file that actions call come back, and so does the file
    itself when it is loaded. *)
Definition calls_return (K : Type) `{Kernel K} : Prop :=
  ∀ vm f args (k : K), lua_returns false (lua_call vm f args k).1.

Definition file_returns (K : Type) `{Kernel K} : Prop :=
  ∀ vm f (k : K), lua_returns true (luaL_dofile vm f k).1.

(** ** State and monad *)

Record world (K : Type) := World {
  config : t_config;
  kern : K;
  update_pollfds : bool;
  http_requests : gmap positive t_request_data;
  scripts : t_system;
}.
Arguments World {K} _ _ _ _ _.
Arguments config {K} _.
Arguments kern {K} _.
Arguments update_pollfds {K} _.
Arguments http_requests {K} _.
Arguments scripts {K} _.

#[export] Instance eta_world {K} : Eta (world K) := λ r,
  World (config r) (kern r) (update_pollfds r) (http_requests r) (scripts r).

(** The state at the start, before any script. *)
Definition world_start `{Kernel K} (c : t_config) (k : K) (update : bool) : world K :=
  World c k update ∅ (started script_tids).

(** Why the daemon does not go on: it follows an invalid pointer; a script of the
    main thread does not come back; the main thread executes the function of a
    request on a Lua state that is closed, with the threads at that moment. *)
Inductive ending :=
  | InvalidPointer
  | ScriptStopped (how : lua_end)
  | LuaStateClosed (threads : t_system).

Inductive outcome (A : Type) := Done (r : A) | Stop (e : ending).
Arguments Done {A} _.
Arguments Stop {A} _.

Definition M (K A : Type) : Type := world K → outcome (A * world K).

#[export] Instance M_ret {K} : MRet (M K) := λ A a w, Done (a, w).
#[export] Instance M_bind {K} : MBind (M K) := λ A B f m w,
  match m w with Done (a, w') => f a w' | Stop e => Stop e end.

Section ops.
Context {K : Type}.

Definition stop {A} (e : ending) : M K A := λ _, Stop e.

(** An invalid pointer is followed. *)
Definition undefined {A} : M K A := stop InvalidPointer.

Definition gets {A} (f : t_config → A) : M K A := λ w, Done (f (config w), w).
Definition modify (f : t_config → t_config) : M K unit := λ w, Done (tt, w <| config ::= f |>).

(** A call into the environment. *)
Definition sys {A} (f : K → A * K) : M K A := λ w,
  let '(a, k) := f (kern w) in Done (a, w <| kern := k |>).
Definition sys_ (f : K → K) : M K unit := λ w, Done (tt, w <| kern ::= f |>).
Definition ask {A} (f : K → A) : M K A := λ w, Done (f (kern w), w).

Definition in_scripts {A} (f : t_system → A) : M K A := λ w, Done (f (scripts w), w).
Definition upd_scripts (f : t_system → t_system) : M K unit := λ w, Done (tt, w <| scripts ::= f |>).

Definition set_update_pollfds : M K unit := λ w, Done (tt, w <| update_pollfds := true |>).

(** [p->...] for a node [p] of one of the lists of the configuration. *)
Definition deref {A} (l : t_config → t_list A) (p : positive) : M K A := λ w,
  match list_deref (l (config w)) p with
  | Some n => Done (n_data n, w)
  | None => Stop InvalidPointer
  end.
Definition deref_id {A} (l : t_config → t_list A) (p : positive) : M K Z := λ w,
  match list_deref (l (config w)) p with
  | Some n => Done (n_id n, w)
  | None => Stop InvalidPointer
  end.

(** A loop over the nodes of a list. The loops of the sources that use it
    never link or unlink a node of the list they run over. *)
Fixpoint for_each {A} (xs : list A) (body : A → M K unit) : M K unit :=
  match xs with
  | [] => mret tt
  | x :: xs' => _ ← body x; for_each xs' body
  end.

(** Writes through a [t_client_data], [t_gpio_in_data] or [t_gpio_out_data]
    pointer. *)
Definition upd_client (p : positive) (f : t_client_data → t_client_data) : M K unit :=
  modify (λ c, c <| clients ::= list_upd p f |>).
Definition upd_in (p : positive) (f : t_gpio_in_data → t_gpio_in_data) : M K unit :=
  modify (λ c, c <| gpios_in ::= list_upd p f |>).
Definition upd_out (p : positive) (f : t_gpio_out_data → t_gpio_out_data) : M K unit :=
  modify (λ c, c <| gpios_out ::= list_upd p f |>).
Definition upd_device (p : positive) (f : t_input_device → t_input_device) : M K unit :=
  modify (λ c, c <| input_devices ::= list_upd p f |>).
Definition upd_timer (p : positive) (f : t_timer_definition → t_timer_definition) : M K unit :=
  modify (λ c, c <| timer_definitions ::= list_upd p f |>).
Definition upd_script (p : positive) (f : t_lua_script → t_lua_script) : M K unit :=
  modify (λ c, c <| lua_async_scripts ::= list_upd p f |>).

(** [close_fd] of mygpiod/event_loop/event_loop.c: the new value of the
    variable that holds the descriptor. *)
Definition close_fd `{Kernel K} (fd : Z) : M K Z :=
  if -1 <? fd then
    _ ← sys_ (close fd);
    _ ← set_update_pollfds;
    mret (-1)
  else mret fd.
End ops.

(** ** Weakest preconditions

    [wp m Q w]: from [w], [m] runs to its end and its result and final state
    satisfy [Q], unless it ends in one of the ways that are permitted. *)

Class Endings := permitted : ending → Prop.

Definition wp {K A} {PE : Endings} (m : M K A) (Q : A → world K → Prop) (w : world K) : Prop :=
  match m w with
  | Done (a, w') => Q a w'
  | Stop e => permitted e
  end.

(** Nothing is permitted, if nothing else is said: the computation runs to its end. *)
#[export] Instance no_endings : Endings | 1000 := λ _, False.

(** Scripts that do not come back are permitted to end the daemon. *)
Class CallEndings (K : Type) `{Kernel K} (PE : Endings) : Prop :=
  permit_call how : ¬ calls_return K → permitted (ScriptStopped how).

Class ClosedEndings (K : Type) `{Kernel K} (PE : Endings) : Prop :=
  permit_closed s :
    reachable script_sched script_tids s → early_return s → permitted (LuaStateClosed s).

Class FileEndings (K : Type) `{Kernel K} (PE : Endings) : Prop :=
  permit_file how : ¬ file_returns K → permitted (ScriptStopped how).

Section wp.
Context {K : Type} {PE : Endings}.
Implicit Types (w : world K).

Lemma wp_ret {A} (a : A) (Q : A → world K → Prop) w : Q a w → wp (mret a) Q w.
Proof. done. Qed.

Lemma wp_stop {A} e (Q : A → world K → Prop) w : permitted e → wp (stop e) Q w.
Proof. done. Qed.

Lemma wp_bind {A B} (m : M K A) (f : A → M K B) (Q : B → world K → Prop) w :
  wp m (λ a, wp (f a) Q) w → wp (mbind f m) Q w.
Proof. unfold wp, mbind, M_bind. by destruct (m w) as [[a w']|]. Qed.

Lemma wp_mono {A} (m : M K A) (Q R : A → world K → Prop) w :
  wp m Q w → (∀ a w', Q a w' → R a w') → wp m R w.
Proof. unfold wp. destruct (m w) as [[a w']|]; auto. Qed.

Lemma wp_gets {A} (f : t_config → A) (Q : A → world K → Prop) w :
  Q (f (config w)) w → wp (gets f) Q w.
Proof. done. Qed.

Lemma wp_modify f (Q : unit → world K → Prop) w :
  Q tt (w <| config ::= f |>) → wp (modify f) Q w.
Proof. done. Qed.

Lemma wp_sys {A} (f : K → A * K) (Q : A → world K → Prop) w :
  (∀ a k, f (kern w) = (a, k) → Q a (w <| kern := k |>)) → wp (sys f) Q w.
Proof. unfold wp, sys. destruct (f (kern w)) as [a k] eqn:Hf. auto. Qed.

Lemma wp_ask {A} (f : K → A) (Q : A → world K → Prop) w : Q (f (kern w)) w → wp (ask f) Q w.
Proof. done. Qed.

Lemma wp_deref {A} (l : t_config → t_list A) p n (Q : A → world K → Prop) w :
  list_deref (l (config w)) p = Some n → Q (n_data n) w → wp (deref l p) Q w.
Proof. unfold wp, deref. by intros ->. Qed.

Lemma wp_deref_id {A} (l : t_config → t_list A) p n (Q : Z → world K → Prop) w :
  list_deref (l (config w)) p = Some n → Q (n_id n) w → wp (deref_id l p) Q w.
Proof. unfold wp, deref_id. by intros ->. Qed.

(** The run that [wp] speaks about. *)
Lemma wp_cases {A} (m : M K A) (Q : A → world K → Prop) w :
  wp m Q w ↔ (∃ a w', m w = Done (a, w') ∧ Q a w') ∨ (∃ e, m w = Stop e ∧ permitted e).
Proof.
  unfold wp. destruct (m w) as [[a w']|e]; split.
  - intros HQ. left. eauto.
  - by intros [(? & ? & [= <- <-] & HQ)|(? & [=] & _)].
  - intros He. right. eauto.
  - by intros [(? & ? & [=] & _)|(? & [= <-] & He)].
Qed.

Lemma wp_done {A} (m : M K A) (Q : A → world K → Prop) w a w' :
  m w = Done (a, w') → wp m Q w ↔ Q a w'.
Proof. unfold wp. by intros ->. Qed.
End wp.

(** With nothing permitted, an equation. *)
Lemma wp_run {K A} (m : M K A) (Q : A → world K → Prop) w :
  wp (PE := no_endings) m Q w ↔ ∃ a w', m w = Done (a, w') ∧ Q a w'.
Proof.
  rewrite wp_cases. split; [|by left]. by intros [?|(? & _ & [])].
Qed.

Lemma wp_permit {K A} {PE : Endings} (m : M K A) (Q : A → world K → Prop) w :
  wp (PE := no_endings) m Q w → wp m Q w.
Proof. unfold wp. by destruct (m w) as [[a w']|e]. Qed.

(** [keeps I m]: [m] runs and preserves [I]. *)
Definition keeps {K A} {PE : Endings} (I : world K → Prop) (m : M K A) : Prop :=
  ∀ w, I w → wp m (λ _, I) w.

Section keeps.
Context {K : Type} {PE : Endings} (I : world K → Prop).

Lemma keeps_stop {A} e : permitted e → keeps I (stop (A := A) e).
Proof. by intros He w _. Qed.

Lemma keeps_ret {A} (a : A) : keeps I (mret a).
Proof. by intros w Hw. Qed.

Lemma keeps_bind {A B} (m : M K A) (f : A → M K B) :
  keeps I m → (∀ a, keeps I (f a)) → keeps I (mbind f m).
Proof.
  intros Hm Hf w Hw. apply wp_bind. eapply wp_mono; [by apply Hm|].
  intros a w' Hw'. by apply Hf.
Qed.

Lemma keeps_gets {A} (f : t_config → A) : keeps I (gets f).
Proof. by intros w Hw. Qed.

Lemma keeps_ask {A} (f : K → A) : keeps I (ask f).
Proof. by intros w Hw. Qed.

(** The first result carries a fact the rest of the computation needs. *)
Lemma keeps_bind_wp {A B} (m : M K A) (f : A → M K B) (P : A → Prop) :
  (∀ w, I w → wp m (λ a w', P a ∧ I w') w) → (∀ a, P a → keeps I (f a)) →
  keeps I (mbind f m).
Proof.
  intros Hm Hf w Hw. apply wp_bind. eapply wp_mono; [by apply Hm|].
  intros a w' [Ha Hw']. by apply Hf.
Qed.

Lemma keeps_for_each {A} (xs : list A) (body : A → M K unit) :
  (∀ x, x ∈ xs → keeps I (body x)) → keeps I (for_each xs body).
Proof.
  induction xs as [|x xs IH]; intros Hb; simpl; [apply keeps_ret|].
  apply keeps_bind; [apply Hb; by left|].
  intros _. apply IH. intros y Hy. apply Hb. by right.
Qed.
End keeps.

Arguments wp : simpl never.

(** ** Runs

    Writing through a client pointer, as an equation. *)

Section runs.
Context {K : Type}.
Implicit Types (w : world K) (p : positive).

Definition w_clients (f : t_list t_client_data → t_list t_client_data) w : world K :=
  w <| config ::= λ c, c <| clients ::= f |> |>.

Lemma upd_client_run p f w : upd_client p f w = Done (tt, w_clients (list_upd p f) w).
Proof. done. Qed.

Lemma w_clients_compose f g w : w_clients f (w_clients g w) = w_clients (f ∘ g) w.
Proof. by destruct w as [[]]. Qed.

Lemma w_clients_upd_compose p f g w :
  w_clients (list_upd p f) (w_clients (list_upd p g) w) = w_clients (list_upd p (f ∘ g)) w.
Proof.
  destruct w as [[]]. unfold w_clients. simpl. by rewrite list_upd_compose.
Qed.

Lemma w_clients_ext f g w :
  f (clients (config w)) = g (clients (config w)) → w_clients f w = w_clients g w.
Proof. destruct w as [[]]. unfold w_clients. simpl. by intros ->. Qed.

Lemma w_clients_id w : w_clients (λ l, l) w = w.
Proof. by destruct w as [[]]. Qed.

Lemma bind_run {A B} (m : M K A) (f : A → M K B) w a w' :
  m w = Done (a, w') → mbind f m w = f a w'.
Proof. unfold mbind, M_bind. by intros ->. Qed.

Lemma deref_run {A} (l : t_config → t_list A) p n w :
  list_deref (l (config w)) p = Some n → deref l p w = Done (n_data n, w).
Proof. unfold deref. by intros ->. Qed.

Lemma for_each_run {A} (xs : list A) (body : A → M K unit) (f : A → world K → world K)
    (I : world K → Prop) w :
  I w → (∀ x w, x ∈ xs → I w → body x w = Done (tt, f x w) ∧ I (f x w)) →
  for_each xs body w = Done (tt, foldl (λ w x, f x w) w xs).
Proof.
  revert w. induction xs as [|x xs IH]; intros w Hw Hb; simpl; [done|].
  destruct (Hb x w) as [Hx HI]; [by left|done|].
  rewrite (bind_run _ _ _ _ _ Hx). apply IH; [done|].
  intros y w' Hy. apply Hb. by right.
Qed.
End runs.
