(* ===== verification/Sim.v ===== *)
(** * A concrete environment

    A small simulated kernel for evaluating the daemon on concrete inputs: GPIO
    lines are an association list, descriptors are numbered upwards, timers
    always have one second left, [read] delivers prepared chunks, [write] takes
    one byte more than [sim_quota] at most and remembers them. One script calls
    [gpioGet] once. It satisfies [KernelLaws]. *)

From S2P Require Import Prelude CLib LuaAsync Lists GpioUtil Config Kernel.

Record sim := Sim {
  sim_next_fd : Z;
  sim_open : list Z;
  sim_now : Z;
  sim_lines : list (Z * gpiod_line_value);
  sim_in : list bytes;
  sim_out : bytes;
  sim_quota : nat;
  sim_edges : list (Z * gpiod_edge_event_type);
  sim_log : list bytes;
  sim_script : bool;     (** a script is about to call *)
}.

#[export] Instance eta_sim : Eta sim := λ r,
  Sim (sim_next_fd r) (sim_open r) (sim_now r) (sim_lines r) (sim_in r) (sim_out r) (sim_quota r)
    (sim_edges r) (sim_log r) (sim_script r).

Definition sim_new_fd (k : sim) : Z * sim :=
  let fd := Z.max 3 (sim_next_fd k) in
  (fd, k <| sim_next_fd := fd + 1 |> <| sim_open ::= cons fd |>).

Definition sim_line (k : sim) (gpio : Z) : gpiod_line_value :=
  match find (λ e, e.1 =? gpio) (sim_lines k) with
  | Some (_, v) => v
  | None => GPIOD_LINE_VALUE_ERROR
  end.

(** Timers deliver eight bytes, other descriptors the next chunk. *)
Definition sim_read (fd n : Z) (k : sim) : option bytes * sim :=
  if n =? 8 then (Some (replicate 8 NUL), k)
  else
    match sim_in k with
    | [] => (None, k)
    | c :: r => (Some (take (Z.to_nat n) c), k <| sim_in := r |>)
    end.

Definition sim_write (fd : Z) (s : bytes) (k : sim) : option Z * sim :=
  let n := Nat.min (length s) (S (sim_quota k)) in
  (Some (Z.of_nat n), k <| sim_out ::= λ o, o ++ take n s |>).

Definition sim_tm : tm := Tm 0 0 0 1 0 100 2 0 0.

Definition sim_response : bytes := bs "temp=48.3" ++ replicate 1015 NUL.

#[export] Instance sim_kernel : Kernel sim := {|
  timerfd_create := sim_new_fd;
  timerfd_settime fd its k := (0, k);
  timerfd_gettime fd k := (Some (Itimerspec 1 0 0 0), k);
  read_fd := sim_read;
  write_fd := sim_write;
  close fd k := k <| sim_open ::= filter (λ x, x ≠ fd) |>;
  accept fd k := sim_new_fd k;
  fcntl fd c a k := (0, k);
  open name flags k := sim_new_fd k;
  clock_gettime c k := (Some (sim_now k, 0), k);
  time k := (sim_now k, k);
  localtime_r t k := Some sim_tm;
  mktime t k := tm_hour t * 3600 + tm_min t * 60 + tm_sec t;
  line_info := unit;
  edge_event := Z * gpiod_edge_event_type;
  gpiod_line_request_get_value r gpio k := (sim_line k gpio, k);
  gpiod_line_request_set_value r gpio v k := (0, k <| sim_lines ::= cons (gpio, v) |>);
  gpiod_line_request_read_edge_events r n k :=
    (Z.of_nat (length (sim_edges k)), λ j, sim_edges k !! Z.to_nat j, k <| sim_edges := [] |>);
  gpiod_edge_event_get_timestamp_ns e := e.1;
  gpiod_edge_event_get_event_type e := e.2;
  gpiod_chip_get_line_info c gpio k := (Some tt, k);
  gpiod_line_info_is_active_low i := false;
  gpiod_line_info_get_bias i := GPIOD_LINE_BIAS_AS_IS;
  gpiod_line_info_get_edge_detection i := GPIOD_LINE_EDGE_BOTH;
  gpiod_line_info_is_debounced i := false;
  gpiod_line_info_get_debounce_period_us i := 0;
  gpiod_line_info_get_event_clock i := GPIOD_LINE_CLOCK_REALTIME;
  gpiod_line_info_get_drive i := GPIOD_LINE_DRIVE_PUSH_PULL;
  gpiod_line_info_get_name i := None;
  fork_execl cmd k := (1, k <| sim_log ::= cons cmd |>);
  pthread_create_curl m u b k := (0, k <| sim_log ::= cons u |>);
  pthread_create_lua vm n k := (0, k <| sim_log ::= cons n |>);
  ioctl_mbox fd h c k := (0, 0, sim_response, k);
  MHD_resume_connection c k := k;
  MHD_suspend_connection c k := k;
  MHD_set_connection_option_timeout c t k := k;
  mpd_poll c k := (0, 0, k);
  mpd_connection_new k := (Some 1, k);
  mpd_connection_error c k := false;
  mpd_send_command c a k := k;
  mpd_response_finish c k := (true, k);
  mpd_connection_free c k := k;
  lua_value := bytes;
  lua_isinteger v := false;
  lua_tointeger v := 0;
  lua_tostring v := Some v;
  lua_boolean b := if b then bs "true" else bs "false";
  lua_string s := s;
  lua_integer z := print_d z;
  lua_getglobal_type vm f k := 6;
  lua_call vm f args k := (LuaReturn (λ k, k), k);
  luaL_newstate k := (Some 1, k);
  luaL_load vm s k := (0, k);
  lua_dump vm k := [];
  lua_close vm k := k;
  luaL_dofile vm f k := (LuaReturn (λ k, k), k);
  lua_status vm k := 0;
  gpiod_chip_open p k := (Some 1, k);
  line_settings := unit;
  gpiod_line_settings_new := tt;
  gpiod_line_settings_set_direction x s := (0, s);
  gpiod_line_settings_set_bias x s := (0, s);
  gpiod_line_settings_set_event_clock x s := (0, s);
  gpiod_line_settings_set_edge_detection x s := (0, s);
  gpiod_line_settings_set_drive x s := (0, s);
  gpiod_line_settings_set_active_low x s := s;
  gpiod_line_settings_set_debounce_period_us x s := s;
  line_config := list Z;
  gpiod_line_config_new := [];
  gpiod_line_config_add_line_settings offsets s c := (0, c ++ offsets);
  gpiod_line_config_set_output_values vs c := (0, c);
  gpiod_chip_request_lines chip consumer c k := let '(fd, k) := sim_new_fd k in (Some fd, k);
  gpiod_line_request_get_fd r k := default (-1) r;
  eventfd := sim_new_fd;
  eventfd_write fd n k := (0, k);
  eventfd_read fd n k := (if 0 <? n then 0 else -1, k);
  script_tids := [7];
  script_sched := prompt;
  script_acts k :=
    if sim_script k
    then ([AStart 7; ARequest 7 lua_gpioGet 0; AEvent 7; AShift 7], k <| sim_script := false |>)
    else ([AWake 7; AEnd 7], k);
  pthread_cond_signal ws k := (head ws, k);
  lua_stack vm k := [bs "4"];
  lua_results vm res k := k <| sim_log ::= app res |>;
  unlink f k := k;
  socket := sim_new_fd;
  bind fd f k := (0, k);
  listen fd n k := (0, k);
  MHD_start_daemon port ip k := (Some 1, k);
  MHD_epoll_fd d k := Some 100;
  gpiod_line_request_release r k := k <| sim_open ::= filter (λ x, x ≠ r) |>;
  gpiod_chip_close c k := k;
  MHD_stop_daemon d k := k;
|}.

#[export] Instance sim_laws : KernelLaws sim.
Proof.
  constructor.
  - intros fd n k r k' Hn. simpl. unfold sim_read. destruct (Z.eqb_spec n 8) as [-> |].
    + intros [= <- <-]. done.
    + destruct (sim_in k) as [|c cs]; [done|]. intros [= <- <-]. rewrite length_take. lia.
  - intros fd s k n k'. simpl. unfold sim_write. intros [= <- <-]. lia.
  - intros fd s k n k'. simpl. unfold sim_write. intros [= <- <-]. lia.
  - intros t k tms. simpl. intros [= <-]. simpl. lia.
  - intros k. simpl. eauto.
  - intros fd h c k rv p5 resp k'. simpl. intros [= <- <- <- <-]. done.
  - intros k. simpl. by eexists.
  - intros info name. done.
  - intros fd n k k'. simpl. by destruct (Z.ltb_spec 0 n).
  - intros [|t ws] k; simpl; [done|by left].
  - by intros [=]%list_elem_of_singleton.
Qed.

#[export] Instance sim_descriptors : Descriptors sim.
Proof.
  refine {| open_fds k := list_to_set (sim_open k) |}; intros; simpl; try done.
  - apply set_eq. intros x. rewrite elem_of_difference, !elem_of_list_to_set, list_elem_of_filter, elem_of_singleton.
    tauto.
  - intros x. rewrite !elem_of_list_to_set, list_elem_of_filter. tauto.
Defined.

#[export] Instance sim_build : Build := {|
  MYGPIOD_DEBUG := false;
  MYGPIO_VERSION := bs "0.9.0";
  input_event_key_code_names := [(30, bs "KEY_A"); (48, bs "KEY_B")];
  input_event_rel_code_names := [(0, bs "REL_X")];
  input_event_abs_code_names := [(0, bs "ABS_X")];
  input_event_sw_code_names := [(0, bs "SW_LID")];
  embedded_file name := bs "contents of " ++ name;
|}.

#[export] Instance sim_build_laws : BuildLaws.
Proof. constructor; repeat constructor. Qed.

Definition sim_start : sim :=
  Sim 10 [] 1000 [(4, GPIOD_LINE_VALUE_INACTIVE); (17, GPIOD_LINE_VALUE_ACTIVE)] [] [] 4 [] [] true.

Lemma sim_new_fd_pos k : 0 ≤ (sim_new_fd k).1.
Proof. unfold sim_new_fd. simpl. lia. Qed.

(** ** A configuration *)

Definition sim_action : t_action := Action MYGPIOD_ACTION_GPIO_TOGGLE [bs "4"].

Definition sim_gpio_in : t_gpio_in_data :=
  GpioIn GPIOD_LINE_BIAS_AS_IS false 0 GPIOD_LINE_CLOCK_REALTIME [] [Node 1 0 sim_action]
    GPIOD_LINE_EDGE_BOTH 5 500 0 [Node 1 0 sim_action] [] GPIOD_LINE_EDGE_FALLING
    GPIOD_LINE_VALUE_ERROR false (-1) (Some 1) (bs "GPIO17").

Definition sim_gpio_out : t_gpio_out_data :=
  GpioOut GPIOD_LINE_DRIVE_PUSH_PULL GPIOD_LINE_VALUE_INACTIVE (-1) (Some 2) (bs "GPIO4").

Definition sim_timer : t_timer_definition :=
  TimerDef (bs "wake") 6 7 0 86400 (replicate 7 true) sim_action.

Definition sim_config : t_config :=
  Config 6 false 3 (bs "/run/mygpiod/socket") 60 [] 0 None [] 0 [] 0 (bs "/etc/mygpiod.d")
    [Node 1 17 sim_gpio_in] [Node 1 4 sim_gpio_out] (bs "/dev/gpiochip0") (Some 1) []
    [Node 1 0 sim_timer] [Node 1 0 (Hook (bs "door") sim_action)] None [] None [] [].

Definition sim_world : world sim := world_start sim_config sim_start true.

(** The result and the final world of a computation of the simulated daemon. *)
Definition sim_result {A} (m : M sim A) (w : world sim) : option A :=
  match m w with Done (a, _) => Some a | Stop _ => None end.
Definition sim_run {A} (m : M sim A) (w : world sim) : world sim :=
  match m w with Done (_, w') => w' | Stop _ => w end.
