(* ===== verification/Timer.v ===== *)
(** * Timers and client responses

    mygpiod/lib/timer.c, mygpiod/server_socket/response.c and the client
    timeouts of mygpiod/server_socket/socket.c. Functions that only log
    (timer_log_next_expire) are left out. *)

From S2P Require Import Prelude CLib Lists GpioUtil Config Kernel.

Section timer.
Context `{Kernel K}.

(** The [struct itimerspec] that [timer_set] builds. *)
Definition timer_spec (timeout_ms interval_ms : Z) : itimerspec :=
  {| it_value_sec := Z.quot timeout_ms 1000;
     it_value_nsec := Z.rem timeout_ms 1000 * 1000000;
     it_interval_sec := if 0 <? interval_ms then Z.quot interval_ms 1000 else 0;
     it_interval_nsec := if 0 <? interval_ms then Z.rem interval_ms 1000 * 1000000 else 0 |}.

Definition timer_set (timer_fd timeout_ms interval_ms : Z) : M K bool :=
  rc ← sys (timerfd_settime timer_fd (timer_spec timeout_ms interval_ms));
  if rc =? -1 then
    _ ← close_fd timer_fd;
    mret false
  else mret true.

Definition timer_new (timeout_ms interval_ms : Z) : M K Z :=
  timer_fd ← sys timerfd_create;
  if timer_fd =? -1 then mret (-1)
  else
    ok ← timer_set timer_fd timeout_ms interval_ms;
    if negb ok then mret (-1)
    else
      _ ← set_update_pollfds;
      mret timer_fd.

(** [time(NULL) + its.it_value.tv_sec + its.it_value.tv_nsec / 1000000000] *)
Definition timer_get_next_expire_ts (timer_fd : Z) : M K Z :=
  its ← sys (timerfd_gettime timer_fd);
  match its with
  | None => mret (-1)
  | Some its =>
      now ← sys time;
      mret (now + it_value_sec its + Z.quot (it_value_nsec its) 1000000000)
  end.

Definition timer_repeat (timer_fd : Z) : M K bool :=
  its ← sys (timerfd_gettime timer_fd);
  match its with
  | None => mret false
  | Some its => mret (negb ((it_value_sec its =? 0) && (it_value_nsec its =? 0)))
  end.

(** [s != sizeof(uint64_t)] *)
Definition timerfd_read_value (fd : Z) : M K bool :=
  s ← sys (read_fd fd 8);
  match s with
  | Some r => mret (Z.of_nat (length r) =? 8)
  | None => mret false
  end.

Definition server_client_connection_set_timeout (timeout_fd timeout_s : Z) : M K Z :=
  ok ← (if 0 <? timeout_fd then timer_set timeout_fd (timeout_s * 1000) 0 else mret false);
  if (ok : bool) then mret timeout_fd else timer_new (timeout_s * 1000) 0.

(** *** Responses *)

Implicit Types (p : positive).

Definition server_client_connection_remove_timeout p : M K unit :=
  data ← deref clients p;
  fd ← close_fd (timeout_fd data);
  upd_client p (λ d, d <| timeout_fd := fd |>).

Definition server_response_start p : M K unit :=
  upd_client p (λ d, d <| buf_out := [] |>).

(** The argument is the formatted text; a line feed ends it. *)
Definition server_response_append p (line : bytes) : M K unit :=
  upd_client p (λ d, d <| buf_out ::= λ b, b ++ line ++ [LF] |>).

Definition server_response_end p : M K unit :=
  _ ← upd_client p (λ d, d <| state := CLIENT_SOCKET_STATE_WRITING |>
                           <| bytes_out := 0 |> <| events := POLLOUT |>);
  set_update_pollfds.

Definition server_response_send p (message : bytes) : M K unit :=
  _ ← server_response_start p;
  _ ← server_response_append p (c_str message);
  server_response_end p.
End timer.

Definition DEFAULT_MSG_ERROR : bytes := bs "ERROR:".
Definition DEFAULT_MSG_OK : bytes := bs "OK".
Definition DEFAULT_MSG_END : bytes := bs "END".

(** [DEFAULT_MSG_OK "\n" DEFAULT_MSG_END] *)
Definition MSG_OK_END : bytes := DEFAULT_MSG_OK ++ [LF] ++ DEFAULT_MSG_END.
