(* ===== verification/InputNames.v ===== *)
(** * Names of input events

    mygpiod/input_ev/event_type.c and event_code.c. The constants are those of
    linux/input-event-codes.h; the code tables are generated by the build and
    come from [Build]. A loop over a table ended by a [NULL] name is a search
    in the list of its entries. *)

From S2P Require Import Prelude CLib Lists Config Kernel.

Definition EV_SYN : Z := 0.
Definition EV_KEY : Z := 1.
Definition EV_REL : Z := 2.
Definition EV_ABS : Z := 3.
Definition EV_MSC : Z := 4.
Definition EV_SW : Z := 5.
Definition EV_MAX : Z := 31.
Definition KEY_MAX : Z := 767.
Definition KEY_CNT : Z := 768.

Definition input_event_type_names : list (Z * bytes) := [
  (EV_SYN, bs "EV_SYN"); (EV_KEY, bs "EV_KEY"); (EV_REL, bs "EV_REL"); (EV_ABS, bs "EV_ABS");
  (EV_MSC, bs "EV_MSC"); (EV_SW, bs "EV_SW"); (17, bs "EV_LED"); (18, bs "EV_SND");
  (20, bs "EV_REP"); (21, bs "EV_FF"); (22, bs "EV_PWR"); (23, bs "EV_FF_STATUS")].

Fixpoint name_of_code (table : list (Z * bytes)) (code : Z) : option bytes :=
  match table with
  | [] => None
  | (c, name) :: t => if c =? code then Some name else name_of_code t code
  end.

Fixpoint code_of_name (table : list (Z * bytes)) (name : bytes) : option Z :=
  match table with
  | [] => None
  | (c, n) :: t => if strcasecmp0 name n then Some c else code_of_name t name
  end.

Definition input_event_type_name (event_type : Z) : option bytes :=
  name_of_code input_event_type_names event_type.

(** [EV_MAX] when the name is not known. *)
Definition input_event_type_parse (name : bytes) : Z :=
  default EV_MAX (code_of_name input_event_type_names name).

Section codes.
Context `{Build}.

Definition input_event_code_name (event_type event_code : Z) : option bytes :=
  if event_type =? EV_KEY then name_of_code input_event_key_code_names event_code
  else if event_type =? EV_REL then name_of_code input_event_rel_code_names event_code
  else if event_type =? EV_ABS then name_of_code input_event_abs_code_names event_code
  else if event_type =? EV_SW then name_of_code input_event_sw_code_names event_code
  else None.

(** [KEY_MAX] when the name is in none of the tables. *)
Definition input_event_code_parse (name : bytes) : Z :=
  match code_of_name input_event_key_code_names name with
  | Some c => c
  | None =>
    match code_of_name input_event_rel_code_names name with
    | Some c => c
    | None =>
      match code_of_name input_event_abs_code_names name with
      | Some c => c
      | None => default KEY_MAX (code_of_name input_event_sw_code_names name)
      end
    end
  end.
End codes.

(** [%s] with a NULL argument prints [(null)] (glibc). *)
Definition print_s (s : option bytes) : bytes :=
  match s with Some s => c_str s | None => bs "(null)" end.

(** ** Facts *)

Lemma name_of_code_In table c n : name_of_code table c = Some n → (c, n) ∈ table.
Proof.
  induction table as [|[c' n'] t IH]; simpl; [done|].
  destruct (Z.eqb_spec c' c) as [-> |]; [intros [= ->]; by left|right; auto].
Qed.

Lemma name_of_code_one_line table c :
  Forall (λ e, one_line (e.2)) table → one_line (print_s (name_of_code table c)).
Proof.
  intros Ht. destruct (name_of_code table c) as [n|] eqn:E; [|done].
  apply name_of_code_In in E. rewrite Forall_forall in Ht.
  apply one_line_c_str, (Ht _ E).
Qed.

Lemma input_event_type_name_one_line t : one_line (print_s (input_event_type_name t)).
Proof. apply name_of_code_one_line. repeat constructor. Qed.

(** ** Configured devices (mygpiod/input_ev/device.c, action.c) *)

Definition input_device_get_by_fd (inputs : t_list t_input_device) (fd : Z)
    : option (node t_input_device) :=
  list_find_node (λ n, dev_fd (n_data n) =? fd) inputs.

Definition input_device_get_by_name (inputs : t_list t_input_device) (name : bytes)
    : option (node t_input_device) :=
  list_find_node (λ n, strcmp0 (dev_name (n_data n)) name) inputs.

(** [UINT_MAX] when no action is configured for the code. *)
Definition input_ev_get_state (d : t_input_device) (code : Z) : Z :=
  match list_find_node (λ n, iea_code (n_data n) =? code) (event_actions d) with
  | Some n => iea_state (n_data n)
  | None => UINT_MAX
  end.
