(* ===== verification/Events.v ===== *)
(** * Events and the idle protocol

    mygpiod/lib/events.c, mygpiod/server_socket/idle.c and the resumption of
    suspended HTTP requests of mygpiod/server_http/util.c: how an event reaches
    the clients of the daemon. *)

From S2P Require Import Prelude CLib Sds Lists GpioUtil Config Kernel Timer InputNames.

Section events.
Context `{Kernel K} `{Build}.
Implicit Types (p : positive) (e : t_mygpiod_input_event).

(** ** Event data *)

Definition event_data_new_gpio (mygpiod_event_type : mygpiod_event_types) (timestamp_ns : Z)
    : t_event_data := EventData mygpiod_event_type timestamp_ns None.

(** The [long] product wraps in the conversion to [uint64_t]. *)
Definition event_data_new_input e : t_event_data :=
  EventData MYGPIOD_EVENT_INPUT
    (u64 (u64 (tv_sec (ie_data e) * 1000000) + u64 (tv_usec (ie_data e) * 1000)))
    (Some e).

(** ** The idle commands *)

(** The lines of one waiting event. *)
Definition send_idle_event p (current : node t_event_data) : M K unit :=
  let event_data := n_data current in
  _ ← server_response_append p (bs "event:" ++ mygpiod_event_name (mygpiod_event_type event_data));
  _ ← server_response_append p
        (bs "timestamp_ms:" ++ print_u (timestamp_ns event_data / 1000000));
  if decide (mygpiod_event_type event_data = MYGPIOD_EVENT_INPUT) then
    match input_event event_data with
    | None => undefined
    | Some ie =>
        dev ← deref input_devices (device ie);
        _ ← server_response_append p (bs "device:" ++ c_str (dev_name dev));
        _ ← server_response_append p
              (bs "type:" ++ print_s (input_event_type_name (ie_type (ie_data ie))));
        _ ← server_response_append p
              (bs "code:" ++ print_s (input_event_code_name (ie_type (ie_data ie))
                                        (ie_code (ie_data ie))));
        server_response_append p (bs "value:" ++ print_u (ie_value (ie_data ie)))
    end
  else server_response_append p (bs "gpio:" ++ print_u (n_id current)).

Definition send_idle_events p (send_ok : bool) : M K bool :=
  _ ← server_response_start p;
  _ ← (if send_ok then server_response_append p DEFAULT_MSG_OK else mret tt);
  client_data ← deref clients p;
  _ ← for_each (waiting_events client_data) (send_idle_event p);
  _ ← upd_client p (λ d, d <| waiting_events := [] |>);
  _ ← server_response_append p DEFAULT_MSG_END;
  _ ← server_response_end p;
  mret true.

Definition handle_idle p : M K bool :=
  client_data ← deref clients p;
  if list_length (waiting_events client_data) =? 0 then
    _ ← server_client_connection_remove_timeout p;
    _ ← upd_client p (λ d, d <| state := CLIENT_SOCKET_STATE_IDLE |>);
    mret true
  else send_idle_events p false.

Definition handle_noidle p : M K bool :=
  client_data ← deref clients p;
  timeout_s ← gets socket_timeout_s;
  fd ← server_client_connection_set_timeout (timeout_fd client_data) timeout_s;
  _ ← upd_client p (λ d, d <| timeout_fd := fd |>);
  client_data ← deref clients p;
  if list_length (waiting_events client_data) =? 0 then
    _ ← server_response_send p MSG_OK_END;
    mret true
  else send_idle_events p true.

(** ** Long polling HTTP requests *)

Definition set_resume_buffer p (buffer : bytes) : M K unit := λ w,
  match http_requests w !! p with
  | Some r => Done (tt, w <| http_requests ::= <[p := r <| resume_buffer := Some buffer |>]> |>)
  | None => Stop InvalidPointer
  end.

Definition MHD_resume_request p : M K unit := λ w,
  match http_requests w !! p with
  | Some r => Done (tt, w <| kern ::= MHD_resume_connection (connection r) |>)
  | None => Stop InvalidPointer
  end.

(** The quoted member of a JSON object. *)
Definition json_str (key v : bytes) : bytes :=
  [DQUOTE] ++ key ++ [DQUOTE] ++ bs ":" ++ [DQUOTE] ++ v ++ [DQUOTE].
Definition json_num (key v : bytes) : bytes := [DQUOTE] ++ key ++ [DQUOTE] ++ bs ":" ++ v.

Definition http_connection_resume_gpio p (gpio : Z) (event_type : mygpiod_event_types)
    (timestamp : Z) : M K unit :=
  _ ← set_resume_buffer p
        (bs "{" ++ json_str (bs "event") (mygpiod_event_name event_type) ++ bs ","
           ++ json_num (bs "gpio") (print_u gpio) ++ bs ","
           ++ json_num (bs "timestamp_ms") (print_u (timestamp / 1000000)) ++ bs "}");
  MHD_resume_request p.

Definition http_connection_resume_input p e : M K unit :=
  dev ← deref input_devices (device e);
  let d := ie_data e in
  let timestamp_ms := u64 (u64 (tv_sec d * 1000) + u64 (tv_usec d)) in
  _ ← set_resume_buffer p
        (bs "{" ++ json_str (bs "event") (mygpiod_event_name MYGPIOD_EVENT_INPUT) ++ bs ","
           ++ json_str (bs "device") (c_str (dev_name dev)) ++ bs ","
           ++ json_num (bs "timestamp_ms") (print_u timestamp_ms) ++ bs ","
           ++ json_str (bs "type") (print_s (input_event_type_name (ie_type d))) ++ bs ","
           ++ json_str (bs "code") (print_s (input_event_code_name (ie_type d) (ie_code d)))
           ++ bs "," ++ json_num (bs "value") (print_u (ie_value d)) ++ bs "}");
  MHD_resume_request p.

(** ** Enqueueing *)

(** The body of the loop over the socket clients. *)
Definition event_enqueue_client (id : Z) (event_data : t_event_data) p : M K unit :=
  _ ← upd_client p (λ d, d <| waiting_events ::= λ l, list_push l id event_data |>);
  data ← deref clients p;
  if decide (state data = CLIENT_SOCKET_STATE_IDLE) then
    _ ← send_idle_events p false; mret tt
  else if WAITING_EVENTS_MAX <? list_length (waiting_events data) then
    upd_client p (λ d, d <| waiting_events ::= λ l, (list_shift l).2 |>)
  else mret tt.

Definition event_enqueue_gpio (gpio : Z) (event_type : mygpiod_event_types) (timestamp : Z)
    : M K unit :=
  cls ← gets clients;
  _ ← for_each (ptrs cls)
        (event_enqueue_client gpio (event_data_new_gpio event_type timestamp));
  suspended ← gets http_suspended;
  _ ← for_each suspended
        (λ current, http_connection_resume_gpio (n_data current) gpio event_type timestamp);
  modify (λ c, c <| http_suspended := [] |>).

Definition event_enqueue_input e : M K unit :=
  cls ← gets clients;
  _ ← for_each (ptrs cls) (event_enqueue_client 0 (event_data_new_input e));
  suspended ← gets http_suspended;
  _ ← for_each suspended (λ current, http_connection_resume_input (n_data current) e);
  modify (λ c, c <| http_suspended := [] |>).
End events.

(** ** What the operations do

    The text of the idle events, and the effect of an operation as a function
    on the data of one client. *)

(** The lines, each ended by a line feed. *)
Definition unlines (ls : list bytes) : bytes := concat (map (λ l, l ++ [LF]) ls).

Lemma unlines_app ls1 ls2 : unlines (ls1 ++ ls2) = unlines ls1 ++ unlines ls2.
Proof. unfold unlines. by rewrite map_app, concat_app. Qed.

Section spec.
Context `{Kernel K} `{Build} {PE : Endings}.
Implicit Types (p : positive) (w : world K) (d : t_client_data).

(** The lines about an input event. *)
Definition input_lines (devs : t_list t_input_device) (ie : t_mygpiod_input_event)
    : list bytes :=
  match list_deref devs (device ie) with
  | None => []
  | Some dev =>
      [bs "device:" ++ c_str (dev_name (n_data dev));
       bs "type:" ++ print_s (input_event_type_name (ie_type (ie_data ie)));
       bs "code:" ++ print_s (input_event_code_name (ie_type (ie_data ie)) (ie_code (ie_data ie)));
       bs "value:" ++ print_u (ie_value (ie_data ie))]
  end.

Definition event_lines (devs : t_list t_input_device) (n : node t_event_data) : list bytes :=
  let e := n_data n in
  [bs "event:" ++ mygpiod_event_name (mygpiod_event_type e);
   bs "timestamp_ms:" ++ print_u (timestamp_ns e / 1000000)] ++
  if decide (mygpiod_event_type e = MYGPIOD_EVENT_INPUT) then
    match input_event e with Some ie => input_lines devs ie | None => [] end
  else [bs "gpio:" ++ print_u (n_id n)].

(** The answer of [send_idle_events]. *)
Definition idle_text (devs : t_list t_input_device) (send_ok : bool)
    (q : t_list t_event_data) : bytes :=
  unlines ((if send_ok then [DEFAULT_MSG_OK] else []) ++ concat (map (event_lines devs) q)
           ++ [DEFAULT_MSG_END]).

(** A client that starts to write [text]. *)
Definition respond (text : bytes) d : t_client_data :=
  d <| buf_out := text |> <| state := CLIENT_SOCKET_STATE_WRITING |> <| bytes_out := 0 |>
    <| events := POLLOUT |>.

Definition idle_respond (devs : t_list t_input_device) (send_ok : bool) d : t_client_data :=
  respond (idle_text devs send_ok (waiting_events d)) d <| waiting_events := [] |>.

(** The last ten events. *)
Definition last_events (q : t_list t_event_data) : t_list t_event_data :=
  drop (length q - Z.to_nat WAITING_EVENTS_MAX) q.

(** What an event does to a client: an idle client is told at once, for any
    other the event waits, and the oldest waiting event makes room. *)
Definition client_event (devs : t_list t_input_device) (id : Z) (e : t_event_data) d
    : t_client_data :=
  if decide (state d = CLIENT_SOCKET_STATE_IDLE) then
    idle_respond devs false (d <| waiting_events ::= λ q, list_push q id e |>)
  else d <| waiting_events ::= λ q, last_events (list_push q id e) |>.

(** An input event refers to a configured device. *)
Definition event_ok (devs : list positive) (e : t_event_data) : Prop :=
  mygpiod_event_type e = MYGPIOD_EVENT_INPUT →
  ∃ ie, input_event e = Some ie ∧ device ie ∈ devs.

Definition queue_ok (devs : list positive) (q : t_list t_event_data) : Prop :=
  Forall (λ n, event_ok devs (n_data n)) q.

(** ** Responses *)

Lemma append_run p l w :
  server_response_append p l w
  = Done (tt, w_clients (list_upd p (λ d, d <| buf_out ::= λ b, b ++ unlines [l] |>)) w).
Proof. unfold unlines. simpl. by rewrite app_nil_r. Qed.

Lemma start_run p w :
  server_response_start p w
  = Done (tt, w_clients (list_upd p (λ d, d <| buf_out := [] |>)) w).
Proof. done. Qed.

Lemma end_run p w :
  server_response_end p w
  = Done (tt, (w_clients (list_upd p (λ d, respond (buf_out d) d)) w) <| update_pollfds := true |>).
Proof. done. Qed.

Lemma appends_fuse p ls1 ls2 w :
  w_clients (list_upd p (λ d, d <| buf_out ::= λ b, b ++ unlines ls2 |>))
    (w_clients (list_upd p (λ d, d <| buf_out ::= λ b, b ++ unlines ls1 |>)) w)
  = w_clients (list_upd p (λ d, d <| buf_out ::= λ b, b ++ unlines (ls1 ++ ls2) |>)) w.
Proof.
  rewrite w_clients_upd_compose. apply w_clients_ext. unfold list_upd. apply map_ext.
  intros n. destruct (Pos.eqb _ _); [|done]. unfold set_field. simpl.
  by rewrite unlines_app, app_assoc.
Qed.

Lemma append_nothing p w :
  w_clients (list_upd p (λ d, d <| buf_out ::= λ b, b ++ unlines [] |>)) w = w.
Proof.
  rewrite <- (w_clients_id w) at 2. apply w_clients_ext.
  rewrite <- (list_upd_id p (clients (config w))) at 2. apply list_upd_ext_all.
  intros []. unfold set_field. simpl. by rewrite app_nil_r.
Qed.

(** [server_response_send] as an equation. *)
Lemma send_run p msg w :
  server_response_send p msg w
  = Done (tt, (w_clients (list_upd p (respond (c_str msg ++ [LF]))) w) <| update_pollfds := true |>).
Proof.
  unfold server_response_send.
  erewrite bind_run by apply start_run. erewrite bind_run by apply append_run.
  rewrite end_run, !w_clients_upd_compose. unfold unlines. simpl. rewrite app_nil_r. done.
Qed.

(** ** Idle events *)

Definition devs_of w : t_list t_input_device := input_devices (config w).

Lemma devs_of_clients f w : devs_of (w_clients f w) = devs_of w.
Proof. by destruct w as [[]]. Qed.

Ltac run_append := erewrite bind_run by apply append_run.

Lemma send_idle_event_run p n w :
  event_ok (ptrs (devs_of w)) (n_data n) →
  send_idle_event p n w
  = Done (tt, w_clients (list_upd p (λ d, d <| buf_out ::= λ b, b ++ unlines (event_lines (devs_of w) n) |>)) w).
Proof.
  intros Hok. unfold send_idle_event, event_lines. do 2 run_append. rewrite appends_fuse.
  destruct (decide _) as [HI|HI].
  - destruct (Hok HI) as (ie & -> & Hdev).
    apply list_deref_is_Some in Hdev as [dev Hdev].
    erewrite bind_run by (apply deref_run; exact Hdev).
    do 3 run_append. rewrite append_run, !appends_fuse. unfold input_lines. by rewrite Hdev.
  - by rewrite append_run, appends_fuse.
Qed.

Lemma send_idle_each_run p q w :
  queue_ok (ptrs (devs_of w)) q →
  for_each q (send_idle_event p) w
  = Done (tt, w_clients (list_upd p (λ d, d <| buf_out ::= λ b,
                b ++ unlines (concat (map (event_lines (devs_of w)) q)) |>)) w).
Proof.
  revert w. induction q as [|n q IH]; intros w Hq; simpl.
  - by rewrite append_nothing.
  - apply Forall_cons in Hq as [Hn Hq].
    erewrite bind_run by (apply send_idle_event_run; exact Hn).
    rewrite IH by (by rewrite devs_of_clients). by rewrite devs_of_clients, appends_fuse.
Qed.

Lemma deref_upd_clients p f n w :
  list_deref (clients (config w)) p = Some n →
  list_deref (clients (config (w_clients (list_upd p f) w))) p = Some (n <| n_data ::= f |>).
Proof. intros Hn. simpl. rewrite list_deref_upd, Hn. simpl. by rewrite Pos.eqb_refl. Qed.

Lemma NoDup_w_clients p f w :
  NoDup (ptrs (clients (config w))) →
  NoDup (ptrs (clients (config (w_clients (list_upd p f) w)))).
Proof. simpl. by rewrite ptrs_upd. Qed.

(** [send_idle_events] writes one block of lines per waiting event between
    the optional OK and END, empties the queue and starts the response. *)
Lemma send_idle_events_run p (send_ok : bool) n w :
  NoDup (ptrs (clients (config w))) →
  list_deref (clients (config w)) p = Some n →
  queue_ok (ptrs (devs_of w)) (waiting_events (n_data n)) →
  send_idle_events p send_ok w
  = Done (true, (w_clients (list_upd p (idle_respond (devs_of w) send_ok)) w)
                  <| update_pollfds := true |>).
Proof.
  intros Hnd Hn Hq. unfold send_idle_events.
  erewrite bind_run by apply start_run.
  set (head := if send_ok then [DEFAULT_MSG_OK] else []).
  assert (Hhead : ∀ w', (if send_ok then server_response_append p DEFAULT_MSG_OK else mret tt) w'
    = Done (tt, w_clients (list_upd p (λ d, d <| buf_out ::= λ b, b ++ unlines head |>)) w')).
  { intros w'. destruct send_ok; [apply append_run|].
    by rewrite append_nothing. }
  erewrite bind_run by apply Hhead. rewrite w_clients_upd_compose.
  erewrite bind_run by (apply deref_run, deref_upd_clients, Hn).
  erewrite bind_run by (apply send_idle_each_run; by rewrite devs_of_clients).
  rewrite devs_of_clients.
  erewrite bind_run by apply upd_client_run. run_append.
  erewrite bind_run by apply end_run. rewrite !w_clients_upd_compose.
  unfold mret, M_ret. do 3 f_equal. apply w_clients_ext.
  eapply list_upd_ext; [done|exact Hn|]. unfold compose, set_field, idle_respond, respond, idle_text.
  simpl. by rewrite !unlines_app, app_assoc.
Qed.

(** ** Enqueueing *)

Lemma last_events_short q :
  Z.of_nat (length q) ≤ WAITING_EVENTS_MAX → last_events q = q.
Proof.
  intros Hq. unfold last_events. replace (length q - _)%nat with 0%nat; [done|].
  unfold WAITING_EVENTS_MAX in *. lia.
Qed.

Lemma last_events_length q : Z.of_nat (length (last_events q)) ≤ WAITING_EVENTS_MAX.
Proof. unfold last_events, WAITING_EVENTS_MAX. rewrite length_drop. lia. Qed.

(** A queue as the daemon keeps it. *)
Definition queue_short d : Prop := Z.of_nat (length (waiting_events d)) ≤ WAITING_EVENTS_MAX.

Lemma queue_ok_push devs q id e :
  queue_ok devs q → event_ok devs e → queue_ok devs (list_push q id e).
Proof. intros Hq He. apply Forall_app. split; [done|]. by constructor. Qed.

Definition is_idle d : bool := bool_decide (state d = CLIENT_SOCKET_STATE_IDLE).

(** What the enqueueing functions rely on: the queue is short, and what an
    idle client would be sent refers to configured devices. *)
Definition client_pre (devs : list positive) (n : node t_client_data) : Prop :=
  queue_short (n_data n) ∧
  (state (n_data n) = CLIENT_SOCKET_STATE_IDLE → queue_ok devs (waiting_events (n_data n))).

Lemma event_enqueue_client_run id e p n w :
  NoDup (ptrs (clients (config w))) →
  list_deref (clients (config w)) p = Some n →
  client_pre (ptrs (devs_of w)) n → event_ok (ptrs (devs_of w)) e →
  event_enqueue_client id e p w
  = Done (tt, (w_clients (list_upd p (client_event (devs_of w) id e)) w)
                <| update_pollfds ::= orb (is_idle (n_data n)) |>).
Proof.
  intros Hnd Hn [Hs Hq] He. unfold event_enqueue_client, is_idle.
  erewrite bind_run by apply upd_client_run.
  erewrite bind_run by (apply deref_run, deref_upd_clients, Hn). simpl.
  destruct (decide _) as [HI|HI].
  - rewrite bool_decide_true by done.
    erewrite bind_run.
    2:{ eapply send_idle_events_run; [by apply NoDup_w_clients|by apply deref_upd_clients|].
        rewrite devs_of_clients. simpl. apply queue_ok_push; auto. }
    rewrite devs_of_clients, w_clients_upd_compose.
    rewrite (w_clients_ext _ (list_upd p (client_event (devs_of w) id e))); [done|].
    eapply list_upd_ext; [done|exact Hn|]. unfold client_event, compose. simpl.
    by rewrite decide_True.
  - rewrite bool_decide_false by done.
    assert (Hlen : list_length (list_push (waiting_events (n_data n)) id e)
                   = Z.of_nat (length (waiting_events (n_data n))) + 1).
    { unfold queue_short, WAITING_EVENTS_MAX in Hs. unfold list_length, list_push.
      rewrite length_app, u32_small; simpl; [lia|]. unfold is_u32, UINT_MAX. lia. }
    rewrite Hlen. unfold queue_short in Hs.
    destruct (WAITING_EVENTS_MAX <? _) eqn:E; zbool.
    + rewrite upd_client_run, w_clients_upd_compose.
      rewrite (w_clients_ext _ (list_upd p (client_event (devs_of w) id e))); [by destruct w as [[]]|].
      eapply list_upd_ext; [done|exact Hn|]. unfold client_event, compose. simpl.
      rewrite decide_False by done. unfold set_field. f_equal.
      unfold last_events, list_push, WAITING_EVENTS_MAX in *. rewrite length_app. simpl.
      replace (length _ + 1 - _)%nat with 1%nat by lia.
      by destruct (waiting_events (n_data n)).
    + rewrite (w_clients_ext _ (list_upd p (client_event (devs_of w) id e))); [by destruct w as [[]]|].
      eapply list_upd_ext; [done|exact Hn|]. unfold client_event. simpl.
      rewrite decide_False by done. unfold set_field. f_equal. symmetry.
      apply last_events_short. unfold list_push, WAITING_EVENTS_MAX in *. rewrite length_app. simpl. lia.
Qed.

(** The loop over the clients: every client gets the event once. *)
Lemma enqueue_clients_run id e (l1 l2 : t_list t_client_data) w :
  clients (config w) = l1 ++ l2 → NoDup (ptrs (l1 ++ l2)) →
  Forall (client_pre (ptrs (devs_of w))) l2 → event_ok (ptrs (devs_of w)) e →
  for_each (ptrs l2) (event_enqueue_client id e) w
  = Done (tt, (w_clients (λ _, l1 ++ map (λ n, n <| n_data ::= client_event (devs_of w) id e |>) l2) w)
                <| update_pollfds ::= orb (existsb (λ n, is_idle (n_data n)) l2) |>).
Proof.
  revert l1 w. induction l2 as [|n l2 IH]; intros l1 w Hcl Hnd Hpre He; simpl.
  - unfold mret, M_ret. do 2 f_equal. destruct w as [[] k u r]. simpl in *. by subst.
  - apply Forall_cons in Hpre as [Hn Hpre].
    assert (Hp : n_ptr n ∉ ptrs l1 ∧ n_ptr n ∉ ptrs l2).
    { unfold ptrs in Hnd. rewrite map_app in Hnd. apply NoDup_app in Hnd as (_ & Hx & Hl).
      apply NoDup_cons in Hl as [Hl _]. split; [|done]. intros Hin. apply (Hx _ Hin). by left. }
    assert (Hder : list_deref (clients (config w)) (n_ptr n) = Some n).
    { apply list_deref_elem; rewrite Hcl; [done|]. apply elem_of_app. right. by left. }
    erewrite bind_run by (apply event_enqueue_client_run; [by rewrite Hcl|exact Hder|done..]).
    set (f := client_event (devs_of w) id e). set (w1 := _ <| _ ::= _ |>).
    assert (Hw1 : clients (config w1) = (l1 ++ [n <| n_data ::= f |>]) ++ l2).
    { unfold w1. simpl. rewrite Hcl. unfold list_upd. rewrite map_app. simpl.
      rewrite Pos.eqb_refl.
      change (map ?g l1) with (list_upd (n_ptr n) f l1).
      change (map ?g l2) with (list_upd (n_ptr n) f l2).
      rewrite !list_upd_not_in by tauto. by rewrite <- app_assoc. }
    rewrite (IH _ _ Hw1); try done.
    + do 2 f_equal. unfold w1. destruct w as [[] k u r]. unfold w_clients, set_field. simpl.
      rewrite <- app_assoc. simpl. f_equal. by rewrite orb_assoc, (orb_comm (existsb _ _)).
    + rewrite <- app_assoc. unfold ptrs in *. rewrite map_app in *. done.
Qed.

(** ** Suspended HTTP requests *)

Definition w_resume (text : bytes) p w : world K :=
  match http_requests w !! p with
  | Some r => w <| http_requests ::= <[p := r <| resume_buffer := Some text |>]> |>
                <| kern ::= MHD_resume_connection (connection r) |>
  | None => w
  end.

Lemma resume_run text p w :
  is_Some (http_requests w !! p) →
  (_ ← set_resume_buffer p text; MHD_resume_request p) w = Done (tt, w_resume text p w).
Proof.
  intros [r Hr]. unfold w_resume. rewrite Hr.
  erewrite bind_run by (unfold set_resume_buffer; by rewrite Hr).
  unfold MHD_resume_request. simpl. by rewrite lookup_insert_eq.
Qed.

Lemma w_resume_config text p w : config (w_resume text p w) = config w.
Proof. unfold w_resume. by destruct (http_requests w !! p). Qed.

Lemma w_resume_update text p w : update_pollfds (w_resume text p w) = update_pollfds w.
Proof. unfold w_resume. by destruct (http_requests w !! p). Qed.

Lemma w_resume_scripts text p w : scripts (w_resume text p w) = scripts w.
Proof. unfold w_resume. by destruct (http_requests w !! p). Qed.

Lemma w_resume_lookup text p q w :
  is_Some (http_requests w !! q) → is_Some (http_requests (w_resume text p w) !! q).
Proof.
  intros Hq. unfold w_resume. destruct (http_requests w !! p) eqn:E; [|done]. simpl.
  destruct (decide (p = q)) as [-> |]; [by rewrite lookup_insert_eq|by rewrite lookup_insert_ne].
Qed.

Definition resumed (text : bytes) w p : Prop :=
  resume_buffer <$> http_requests w !! p = Some (Some text).

Lemma w_resume_resumed text p q w :
  is_Some (http_requests w !! p) → p = q ∨ resumed text w q → resumed text (w_resume text p w) q.
Proof.
  intros [r Hr] Hq. unfold w_resume, resumed in *. rewrite Hr. simpl.
  destruct (decide (p = q)) as [-> |]; [by rewrite lookup_insert_eq|].
  rewrite lookup_insert_ne by done. by destruct Hq.
Qed.

(** The loop over the suspended requests. *)
Lemma resume_all_wp text (ns : t_list positive) (body : node positive → M K unit) w :
  Forall (λ n, is_Some (http_requests w !! n_data n)) ns →
  (∀ n w', n ∈ ns → config w' = config w → is_Some (http_requests w' !! n_data n) →
     body n w' = Done (tt, w_resume text (n_data n) w')) →
  wp (for_each ns body)
    (λ _ w', config w' = config w ∧ update_pollfds w' = update_pollfds w ∧ scripts w' = scripts w ∧
             (∀ q, is_Some (http_requests w !! q) → is_Some (http_requests w' !! q)) ∧
             (∀ q, (∃ n, n ∈ ns ∧ n_data n = q) ∨ resumed text w q → resumed text w' q)) w.
Proof.
  revert w. induction ns as [|n ns IH]; intros w Hns Hb; simpl.
  - apply wp_ret. split_and!; try done. intros q [(n & Hn & _)|Hq]; [|done].
    by apply not_elem_of_nil in Hn.
  - apply Forall_cons in Hns as [Hn Hns]. apply wp_bind. unfold wp at 1.
    rewrite (Hb n w); [|by left|done..]. eapply wp_mono; [apply IH|].
    + eapply Forall_impl; [exact Hns|]. intros m. apply w_resume_lookup.
    + intros m w' Hm Hc. rewrite w_resume_config in Hc. apply Hb; [by right|done].
    + cbn beta. rewrite w_resume_config, w_resume_update, w_resume_scripts.
      intros _ w' (Hc & Hu & Hs & Hl & Hr). split_and!; try done.
      * intros q Hq. by apply Hl, w_resume_lookup.
      * intros q Hq. apply Hr. destruct Hq as [(m & Hm & <-)|Hq].
        -- apply elem_of_cons in Hm as [-> |Hm]; [|left; eauto].
           right. apply w_resume_resumed; auto.
        -- right. apply w_resume_resumed; auto.
Qed.

(** ** The two enqueueing functions *)

Definition enqueue_pre w : Prop :=
  NoDup (ptrs (clients (config w))) ∧
  Forall (client_pre (ptrs (devs_of w))) (clients (config w)) ∧
  Forall (λ n, is_Some (http_requests w !! n_data n)) (http_suspended (config w)).

(** What every event does: each client is handled by [client_event], the
    suspended requests are answered with [text] and forgotten, and nothing
    else of the configuration changes. *)
Definition event_post id e (text : bytes) w w' : Prop :=
  config w' = (config w)
    <| clients ::= map (λ n, n <| n_data ::= client_event (devs_of w) id e |>) |>
    <| http_suspended := [] |> ∧
  update_pollfds w' = existsb (λ n, is_idle (n_data n)) (clients (config w)) || update_pollfds w ∧
  scripts w' = scripts w ∧
  (∀ q, is_Some (http_requests w !! q) → is_Some (http_requests w' !! q)) ∧
  (∀ n, n ∈ http_suspended (config w) → resumed text w' (n_data n)).

Lemma enqueue_wp id e text (body : node positive → M K unit) w :
  enqueue_pre w → event_ok (ptrs (devs_of w)) e →
  (∀ n w', input_devices (config w') = input_devices (config w) →
     is_Some (http_requests w' !! n_data n) → body n w' = Done (tt, w_resume text (n_data n) w')) →
  wp (cls ← gets clients;
      _ ← for_each (ptrs cls) (event_enqueue_client id e);
      suspended ← gets http_suspended;
      _ ← for_each suspended body;
      modify (λ c, c <| http_suspended := [] |>)) (λ _, event_post id e text w) w.
Proof.
  intros (Hnd & Hpre & Hhttp) He Hb. apply wp_bind, wp_gets, wp_bind. unfold wp at 1.
  rewrite (enqueue_clients_run id e [] (clients (config w)) w) by done.
  set (w1 := _ <| _ ::= _ |>). apply wp_bind, wp_gets, wp_bind.
  eapply wp_mono; [apply (resume_all_wp text)|].
  - exact Hhttp.
  - intros n w' _ Hc. apply Hb. by rewrite Hc.
  - intros _ w' (Hc & Hu & Hs & Hl & Hr). apply wp_modify. split_and!; simpl.
    + by rewrite Hc.
    + by rewrite Hu.
    + by rewrite Hs.
    + exact Hl.
    + intros n Hn. apply Hr. left. eauto.
Qed.

(** The JSON text of a GPIO event. *)
Definition gpio_json (gpio : Z) (event_type : mygpiod_event_types) (timestamp : Z) : bytes :=
  bs "{" ++ json_str (bs "event") (mygpiod_event_name event_type) ++ bs ","
    ++ json_num (bs "gpio") (print_u gpio) ++ bs ","
    ++ json_num (bs "timestamp_ms") (print_u (timestamp / 1000000)) ++ bs "}".

Lemma event_enqueue_gpio_wp gpio event_type timestamp w :
  event_type ≠ MYGPIOD_EVENT_INPUT → enqueue_pre w →
  wp (event_enqueue_gpio gpio event_type timestamp)
    (λ _, event_post gpio (event_data_new_gpio event_type timestamp)
            (gpio_json gpio event_type timestamp) w) w.
Proof.
  intros Ht Hpre. apply enqueue_wp; [done|by intros ?|]. intros n w' _ Hn. by apply resume_run.
Qed.

(** The JSON text of an input event of the device [dev]. *)
Definition input_json (dev : t_input_device) (d : t_input_event) : bytes :=
  let timestamp_ms := u64 (u64 (tv_sec d * 1000) + u64 (tv_usec d)) in
  bs "{" ++ json_str (bs "event") (mygpiod_event_name MYGPIOD_EVENT_INPUT) ++ bs ","
    ++ json_str (bs "device") (c_str (dev_name dev)) ++ bs ","
    ++ json_num (bs "timestamp_ms") (print_u timestamp_ms) ++ bs ","
    ++ json_str (bs "type") (print_s (input_event_type_name (ie_type d))) ++ bs ","
    ++ json_str (bs "code") (print_s (input_event_code_name (ie_type d) (ie_code d)))
    ++ bs "," ++ json_num (bs "value") (print_u (ie_value d)) ++ bs "}".

Lemma event_enqueue_input_wp e n w :
  list_deref (input_devices (config w)) (device e) = Some n → enqueue_pre w →
  wp (event_enqueue_input e)
    (λ _, event_post 0 (event_data_new_input e) (input_json (n_data n) (ie_data e)) w) w.
Proof.
  intros Hdev Hpre. apply enqueue_wp; [done| |].
  - intros _. exists e. split; [done|]. by eapply list_deref_in_ptrs.
  - intros m w' Hc Hm. unfold http_connection_resume_input.
    erewrite bind_run by (apply deref_run; rewrite Hc; exact Hdev). by apply resume_run.
Qed.
End spec.
