(* ===== verification/Gpio.v ===== *)
(** * GPIO operations

    gpio_get_value of mygpiod/gpio/gpio.c, the operations on configured output
    GPIOs of mygpiod/gpio/output.c and get_timestamp_ns of mygpiod/gpio/util.c.
    The requests of the lines at start-up are in [Start]. *)

From S2P Require Import Prelude CLib Sds Lists GpioUtil Config Kernel Timer InputNames Events.

Section gpio.
Context `{Kernel K} `{Build}.
Implicit Types (gpio : Z).

Definition get_timestamp_ns (event_clock : gpiod_line_clock) : M K Z :=
  ts ← sys (clock_gettime (match event_clock with
                           | GPIOD_LINE_CLOCK_HTE | GPIOD_LINE_CLOCK_REALTIME => CLOCK_REALTIME
                           | GPIOD_LINE_CLOCK_MONOTONIC => CLOCK_MONOTONIC
                           end));
  match ts with
  | None => mret 0
  | Some (tv_sec, tv_nsec) => mret (u64 (u64 (tv_sec * 1000000000) + u64 tv_nsec))
  end.

Definition gpio_get_value gpio : M K gpiod_line_value :=
  gins ← gets gpios_in;
  match list_node_by_id gins gpio with
  | Some node => sys (gpiod_line_request_get_value (in_request (n_data node)) gpio)
  | None =>
      gouts ← gets gpios_out;
      match list_node_by_id gouts gpio with
      | Some node => sys (gpiod_line_request_get_value (out_request (n_data node)) gpio)
      | None => mret GPIOD_LINE_VALUE_ERROR
      end
  end.

Definition gpio_set_value_by_line_request (line_request : option Z) gpio
    (value : gpiod_line_value) : M K bool :=
  rc ← sys (gpiod_line_request_set_value line_request gpio value);
  if rc =? 0 then
    let event := if decide (value = GPIOD_LINE_VALUE_ACTIVE)
                 then MYGPIOD_EVENT_GPIO_RISING else MYGPIOD_EVENT_GPIO_FALLING in
    timestamp_ns ← get_timestamp_ns GPIOD_LINE_CLOCK_REALTIME;
    _ ← event_enqueue_gpio gpio event timestamp_ns;
    mret true
  else mret false.

Definition gpio_toggle_value_by_line_request (line_request : option Z) gpio : M K bool :=
  v ← sys (gpiod_line_request_get_value line_request gpio);
  let value := if decide (v = GPIOD_LINE_VALUE_INACTIVE)
               then GPIOD_LINE_VALUE_ACTIVE else GPIOD_LINE_VALUE_INACTIVE in
  gpio_set_value_by_line_request line_request gpio value.

(** [close_fd(&data->timer_fd)] for the output GPIO at [p] *)
Definition close_out_timer (p : positive) : M K unit :=
  data ← deref gpios_out p;
  fd ← close_fd (out_timer_fd data);
  upd_out p (λ d, d <| out_timer_fd := fd |>).

Definition gpio_set_value gpio (value : gpiod_line_value) : M K bool :=
  gouts ← gets gpios_out;
  match list_node_by_id gouts gpio with
  | None => mret false
  | Some node =>
      _ ← close_out_timer (n_ptr node);
      gpio_set_value_by_line_request (out_request (n_data node)) gpio value
  end.

Definition gpio_toggle_value gpio : M K bool :=
  gouts ← gets gpios_out;
  match list_node_by_id gouts gpio with
  | None => mret false
  | Some node =>
      _ ← close_out_timer (n_ptr node);
      gpio_toggle_value_by_line_request (out_request (n_data node)) (n_id node)
  end.

Definition gpio_blink gpio (timeout_ms interval_ms : Z) : M K bool :=
  gouts ← gets gpios_out;
  match list_node_by_id gouts gpio with
  | None => mret false
  | Some node =>
      ok ← gpio_toggle_value_by_line_request (out_request (n_data node)) (n_id node);
      if negb ok then mret false
      else
        fd ← timer_new timeout_ms interval_ms;
        _ ← upd_out (n_ptr node) (λ d, d <| out_timer_fd := fd |>);
        mret (negb (fd =? -1))
  end.
End gpio.
