(* ===== verification/Actions.v ===== *)
(** * Actions

    mygpiod/actions: the names of the actions, the options of each and their
    execution, with the C functions a Lua function of the main thread can call
    (mygpiod/lua/sync/functions). *)

From S2P Require Import Prelude CLib LuaAsync ParseUtil Sds Lists GpioUtil Config Kernel Timer InputNames.
From S2P Require Import Events Gpio.

(** ** Names (actions.c) *)

Definition lookup_action (a : mygpiod_actions) : bytes :=
  match a with
  | MYGPIOD_ACTION_SYSTEM => bs "system"
  | MYGPIOD_ACTION_GPIO_SET => bs "gpioset"
  | MYGPIOD_ACTION_GPIO_TOGGLE => bs "gpiotoggle"
  | MYGPIOD_ACTION_GPIO_BLINK => bs "gpioblink"
  | MYGPIOD_ACTION_MPC => bs "mpc"
  | MYGPIOD_ACTION_HTTP => bs "http"
  | MYGPIOD_ACTION_MYMPD => bs "mympd"
  | MYGPIOD_ACTION_LUA => bs "lua"
  | MYGPIOD_ACTION_LUA_ASYNC => bs "lua_async"
  | MYGPIOD_ACTION_NONE => bs "none"
  | MYGPIOD_ACTION_UNKNOWN => []
  end.

(** The chain of comparisons of the source, in its order. *)
Definition parse_action (str : bytes) : mygpiod_actions :=
  if strcasecmp0 str (bs "system") then MYGPIOD_ACTION_SYSTEM
  else if strcasecmp0 str (bs "gpioset") then MYGPIOD_ACTION_GPIO_SET
  else if strcasecmp0 str (bs "gpiotoggle") then MYGPIOD_ACTION_GPIO_TOGGLE
  else if strcasecmp0 str (bs "gpioblink") then MYGPIOD_ACTION_GPIO_BLINK
  else if strcasecmp0 str (bs "mpc") then MYGPIOD_ACTION_MPC
  else if strcasecmp0 str (bs "http") then MYGPIOD_ACTION_HTTP
  else if strcasecmp0 str (bs "mympd") then MYGPIOD_ACTION_MYMPD
  else if strcasecmp0 str (bs "lua") then MYGPIOD_ACTION_LUA
  else if strcasecmp0 str (bs "lua_async") then MYGPIOD_ACTION_LUA_ASYNC
  else if strcasecmp0 str (bs "none") then MYGPIOD_ACTION_NONE
  else MYGPIOD_ACTION_UNKNOWN.

Definition action_node_data_new (a : mygpiod_actions) (option : bytes) : t_action :=
  Action a (split_args option).

Section actions.
Context `{Kernel K} `{Build}.

Definition opt (a : t_action) (i : nat) : option bytes := options a !! i.

Definition options_count (a : t_action) : Z := Z.of_nat (length (options a)).

(** ** GPIO actions (gpio.c) *)

Definition action_gpioset (a : t_action) : M K bool :=
  if negb (options_count a =? 2) then mret false
  else
    match mygpio_parse_uint (opt a 0) true 0 GPIOS_MAX with
    | None => mret false
    | Some (gpio, _) =>
        let '(value, einval) := parse_gpio_value (default [] (opt a 1)) in
        if (einval : bool) then mret false else gpio_set_value gpio value
    end.

Definition action_gpiotoggle (a : t_action) : M K bool :=
  if negb (options_count a =? 1) then mret false
  else
    match mygpio_parse_uint (opt a 0) true 0 GPIOS_MAX with
    | None => mret false
    | Some (gpio, _) => gpio_toggle_value gpio
    end.

Definition action_gpioblink (a : t_action) : M K bool :=
  if negb (options_count a =? 3) then mret false
  else
    match mygpio_parse_uint (opt a 0) true 0 GPIOS_MAX with
    | None => mret false
    | Some (gpio, _) =>
        match mygpio_parse_int (opt a 1) true 0 TIMEOUT_MS_MAX with
        | None => mret false
        | Some (timeout, _) =>
            match mygpio_parse_int (opt a 2) true 0 TIMEOUT_MS_MAX with
            | None => mret false
            | Some (interval, _) => gpio_blink gpio timeout interval
            end
        end
    end.

(** ** System, HTTP and myMPD actions (system.c, http.c, mympd.c) *)

Definition action_system_async (cmd : bytes) : M K bool :=
  pid ← sys (fork_execl (c_str cmd));
  mret (negb (pid =? -1)).

Definition http_methods : list bytes :=
  [bs "DELETE"; bs "GET"; bs "HEAD"; bs "OPTIONS"; bs "PATCH"; bs "POST"; bs "PUT"].

Definition validate_http_method (method : bytes) : bool := existsb (strcmp0 method) http_methods.

Definition action_http2_async (method uri : bytes) (content_type postdata : option bytes)
    : M K bool :=
  if negb (validate_http_method method) then mret false
  else
    let body := match content_type, postdata with
                | Some c, Some d => Some (c_str c, c_str d)
                | _, _ => None
                end in
    rc ← sys (pthread_create_curl (c_str method) (c_str uri) body);
    mret (rc =? 0).

Definition action_http_async (a : t_action) : M K bool :=
  match options a with
  | [method; uri; content_type; postdata] =>
      action_http2_async method uri (Some content_type) (Some postdata)
  | [method; uri] => action_http2_async method uri None None
  | _ => mret false
  end.

(** The two formatted strings of a myMPD call. *)
Definition mympd_uri (uri partition : bytes) : bytes := c_str uri ++ bs "/api/" ++ c_str partition.

Definition mympd_postdata (script : bytes) : bytes :=
  let str s := [DQUOTE] ++ s ++ [DQUOTE] in
  bs "{" ++ str (bs "jsonrpc") ++ bs ":" ++ str (bs "2.0") ++ bs "," ++ str (bs "id") ++ bs ":0,"
  ++ str (bs "method") ++ bs ":" ++ str (bs "MYMPD_API_SCRIPT_EXECUTE") ++ bs ","
  ++ str (bs "params") ++ bs ":{" ++ str (bs "event") ++ bs ":" ++ str (bs "user") ++ bs ","
  ++ str (bs "script") ++ bs ":" ++ str (c_str script) ++ bs "," ++ str (bs "arguments")
  ++ bs ":{}}}".

Definition action_mympd2_async (uri partition script : bytes) : M K bool :=
  action_http2_async (bs "POST") (mympd_uri uri partition) (Some (bs "application/json"))
    (Some (mympd_postdata script)).

Definition action_mympd_async (a : t_action) : M K bool :=
  match options a with
  | uri :: partition :: script :: _ => action_mympd2_async uri partition script
  | _ => mret false
  end.

(** ** MPD actions (mpc.c) *)

Definition mpc_disconnect : M K unit :=
  conn ← gets mpd_conn;
  match conn with
  | None => mret tt
  | Some c =>
      _ ← sys_ (mpd_connection_free c);
      modify (λ cfg, cfg <| mpd_conn := None |>)
  end.

Definition mpc_check_conn : M K bool :=
  conn ← gets mpd_conn;
  match conn with
  | None => mret false
  | Some c =>
      r ← sys (mpd_poll c);
      let '(rc, revents) := r in
      if (-1 <? rc) && (Z.land revents POLLHUP =? 0) && (Z.land revents POLLERR =? 0)
         && (Z.land revents POLLNVAL =? 0)
      then mret true
      else
        _ ← mpc_disconnect;
        mret false
  end.

Definition mpc_connect : M K bool :=
  conn ← sys mpd_connection_new;
  _ ← modify (λ cfg, cfg <| mpd_conn := conn |>);
  match conn with
  | None => mret false
  | Some c =>
      err ← ask (mpd_connection_error c);
      if (err : bool) then
        _ ← mpc_disconnect;
        mret false
      else mret true
  end.

Definition max_mpc_args : Z := 10.

Definition action_mpc (a : t_action) : M K bool :=
  if (options_count a <? 1) || (max_mpc_args <? options_count a) then mret false
  else
    ready ← mpc_check_conn;
    connected ← (if (ready : bool) then mret true else mpc_connect);
    if negb connected then mret false
    else
      conn ← gets mpd_conn;
      match conn with
      | None => undefined
      | Some c =>
          _ ← sys_ (mpd_send_command c (options a));
          ok ← sys (mpd_response_finish c);
          if (ok : bool) then mret true
          else
            _ ← mpc_disconnect;
            mret true
      end.

(** ** Lua functions of the main thread (lua/sync/functions, lua_sync.c) *)

Definition set_lua_rc (rc : bool) : list lua_value := [lua_boolean rc].

Definition arg_isinteger (args : list lua_value) (i : nat) : bool :=
  match args !! i with Some v => lua_isinteger v | None => false end.
Definition arg_tointeger (args : list lua_value) (i : nat) : Z :=
  match args !! i with Some v => lua_tointeger v | None => 0 end.
Definition arg_tostring (args : list lua_value) (i : nat) : option bytes :=
  args !! i ≫= lua_tostring.

(** [check_lua_arg_count] *)
Definition check_lua_arg_count (args : list lua_value) (required : nat) : bool :=
  Nat.eqb (length args) required.

Definition lua_gpio_blink (args : list lua_value) : M K (list lua_value) :=
  if negb (check_lua_arg_count args 3) then mret (set_lua_rc false)
  else if negb (arg_isinteger args 0) then mret (set_lua_rc false)
  else if negb (arg_isinteger args 1) then mret (set_lua_rc false)
  else if negb (arg_isinteger args 2) then mret (set_lua_rc false)
  else
    rc ← gpio_blink (u32 (arg_tointeger args 0)) (i32 (arg_tointeger args 1))
           (i32 (arg_tointeger args 2));
    mret (set_lua_rc rc).

Definition lua_gpio_get (args : list lua_value) : M K (list lua_value) :=
  if negb (check_lua_arg_count args 1) then mret (set_lua_rc false)
  else if negb (arg_isinteger args 0) then mret (set_lua_rc false)
  else
    value ← gpio_get_value (u32 (arg_tointeger args 0));
    mret [lua_boolean true; lua_string (lookup_gpio_value value)].

Definition lua_gpio_set (args : list lua_value) : M K (list lua_value) :=
  if negb (check_lua_arg_count args 2) then mret (set_lua_rc false)
  else if negb (arg_isinteger args 0) then mret (set_lua_rc false)
  else
    match arg_tostring args 1 with
    | None => mret (set_lua_rc false)
    | Some value_str =>
        let value := (parse_gpio_value value_str).1 in
        if decide (value = GPIOD_LINE_VALUE_ERROR) then mret (set_lua_rc false)
        else
          rc ← gpio_set_value (u32 (arg_tointeger args 0)) value;
          mret (set_lua_rc rc)
    end.

Definition lua_gpio_toggle (args : list lua_value) : M K (list lua_value) :=
  if negb (check_lua_arg_count args 1) then mret (set_lua_rc false)
  else if negb (arg_isinteger args 0) then mret (set_lua_rc false)
  else
    rc ← gpio_toggle_value (u32 (arg_tointeger args 0));
    mret (set_lua_rc rc).

Definition lua_input_ev_get (args : list lua_value) : M K (list lua_value) :=
  if negb (check_lua_arg_count args 2) then mret (set_lua_rc false)
  else
    match arg_tostring args 0 with
    | None => mret (set_lua_rc false)
    | Some device_name =>
        devices ← gets input_devices;
        match input_device_get_by_name devices device_name, arg_tostring args 1 with
        | None, _ | _, None => mret (set_lua_rc false)
        | Some device, Some code_str =>
            let code := input_event_code_parse code_str in
            if code =? KEY_MAX then mret (set_lua_rc false)
            else
              let value := input_ev_get_state (n_data device) code in
              mret [lua_boolean (negb (value =? UINT_MAX)); lua_integer value]
        end
    end.

Definition lua_system_async (args : list lua_value) : M K (list lua_value) :=
  if negb (check_lua_arg_count args 1) then mret (set_lua_rc false)
  else
    match arg_tostring args 0 with
    | None => mret (set_lua_rc false)
    | Some cmd => rc ← action_system_async cmd; mret (set_lua_rc rc)
    end.

Definition lua_mpc_sync (args : list lua_value) : M K (list lua_value) :=
  if negb (check_lua_arg_count args 1) then mret (set_lua_rc false)
  else
    match arg_tostring args 0 with
    | None => mret (set_lua_rc false)
    | Some cmd =>
        rc ← action_mpc (Action MYGPIOD_ACTION_MPC (split_args cmd));
        mret (set_lua_rc rc)
    end.

Definition lua_mympd_async (args : list lua_value) : M K (list lua_value) :=
  if negb (check_lua_arg_count args 3) then mret (set_lua_rc false)
  else
    match arg_tostring args 0, arg_tostring args 1, arg_tostring args 2 with
    | Some uri, Some partition, Some script =>
        rc ← action_mympd2_async uri partition script; mret (set_lua_rc rc)
    | _, _, _ => mret (set_lua_rc false)
    end.

Definition lua_http_async (args : list lua_value) : M K (list lua_value) :=
  if negb (check_lua_arg_count args 4) then mret (set_lua_rc false)
  else
    match arg_tostring args 0, arg_tostring args 1 with
    | Some method, Some uri =>
        rc ← action_http2_async method uri (arg_tostring args 2) (arg_tostring args 3);
        mret (set_lua_rc rc)
    | _, _ => mret (set_lua_rc false)
    end.

(** The functions that [luavm_sync_init] registers. *)
Definition lua_dispatch (f : lua_cfunction) (args : list lua_value) : M K (list lua_value) :=
  match f with
  | lua_gpioBlink => lua_gpio_blink args
  | lua_gpioGet => lua_gpio_get args
  | lua_gpioSet => lua_gpio_set args
  | lua_gpioToggle => lua_gpio_toggle args
  | lua_inputEvGet => lua_input_ev_get args
  | lua_system => lua_system_async args
  | lua_mpc => lua_mpc_sync args
  | lua_mympd => lua_mympd_async args
  | lua_http => lua_http_async args
  end.

(** A running function. In a protected call an error is caught; otherwise it ends
    the process (Lua panics and aborts), as [os.exit] does, and a function that does
    not end blocks it. *)
Fixpoint lua_exec (protected : bool) (r : lua_run lua_value K) : M K unit :=
  match r with
  | LuaReturn f => sys_ f
  | LuaCall f args k =>
      res ← lua_dispatch f args;
      lua_exec protected (k res)
  | LuaStop how =>
      if protected && bool_decide (how = LuaError) then mret tt else stop (ScriptStopped how)
  end.

Definition LUA_TFUNCTION : Z := 6.

Definition action_lua_sync (a : t_action) : M K bool :=
  vm ← gets lua_vm;
  match vm with
  | None => mret false
  | Some vm =>
      match options a with
      | [] => mret false
      | f :: args =>
          rv ← ask (lua_getglobal_type vm (c_str f));
          if negb (rv =? LUA_TFUNCTION) then mret false
          else
            r ← sys (lua_call vm (c_str f) (map c_str args));
            _ ← lua_exec false r;
            mret true
      end
  end.

(** ** Lua scripts in threads of their own (lua_async.c, lua/async/bytecode.c) *)

Definition get_script_by_name (lua_async_scripts : t_list t_lua_script) (name : bytes)
    : option (node t_lua_script) :=
  list_find_node (λ n, strcmp0 (script_name (n_data n)) name) lua_async_scripts.

Definition lua_async_load_source (n : node t_lua_script) : M K (option Z) :=
  vm ← sys luaL_newstate;
  match vm with
  | None => mret None
  | Some vm =>
      rc ← sys (luaL_load vm (c_str (script (n_data n))));
      if rc =? 0 then
        code ← ask (lua_dump vm);
        _ ← upd_script (n_ptr n) (λ s, s <| bytecode := Some code |>);
        mret (Some vm)
      else
        _ ← sys_ (lua_close vm);
        mret None
  end.

Definition lua_async_load_bytecode (code : bytes) : M K (option Z) :=
  vm ← sys luaL_newstate;
  match vm with
  | None => mret None
  | Some vm =>
      rc ← sys (luaL_load vm code);
      if rc =? 0 then mret (Some vm)
      else
        _ ← sys_ (lua_close vm);
        mret None
  end.

Definition action_lua_async (a : t_action) : M K bool :=
  match options a with
  | [] => mret false
  | name :: _ =>
      scripts ← gets lua_async_scripts;
      match get_script_by_name scripts name with
      | None => mret false
      | Some n =>
          vm ← match bytecode (n_data n) with
               | None => lua_async_load_source n
               | Some code => lua_async_load_bytecode code
               end;
          match vm with
          | None => mret false
          | Some vm =>
              rc ← sys (pthread_create_lua vm (script_name (n_data n)));
              if rc =? 0 then mret true
              else
                _ ← sys_ (lua_close vm);
                mret false
          end
      end
  end.

(** ** Execution (execute.c) *)

Definition action_execute (a : t_action) : M K unit :=
  match action a with
  | MYGPIOD_ACTION_SYSTEM =>
      match options a with
      | [cmd] => _ ← action_system_async cmd; mret tt
      | _ => mret tt
      end
  | MYGPIOD_ACTION_GPIO_SET => _ ← action_gpioset a; mret tt
  | MYGPIOD_ACTION_GPIO_TOGGLE => _ ← action_gpiotoggle a; mret tt
  | MYGPIOD_ACTION_GPIO_BLINK => _ ← action_gpioblink a; mret tt
  | MYGPIOD_ACTION_MPC => _ ← action_mpc a; mret tt
  | MYGPIOD_ACTION_HTTP => _ ← action_http_async a; mret tt
  | MYGPIOD_ACTION_MYMPD => _ ← action_mympd_async a; mret tt
  | MYGPIOD_ACTION_LUA => _ ← action_lua_sync a; mret tt
  | MYGPIOD_ACTION_LUA_ASYNC => _ ← action_lua_async a; mret tt
  | MYGPIOD_ACTION_NONE | MYGPIOD_ACTION_UNKNOWN => mret tt
  end.

Definition actions_execute (actions : t_list t_action) : M K unit :=
  for_each actions (λ current, action_execute (n_data current)).
End actions.

(** ** Facts *)

(** Reading back the name of an action gives the action, for every action
    the configuration can hold; the name of the unknown action reads as the
    unknown action. *)
Theorem lookup_parse_action (a : mygpiod_actions) : parse_action (lookup_action a) = a.
Proof. by destruct a. Qed.
