(* ===== verification/ConfigParse.v ===== *)
(** * Reading the configuration

    mygpiod/config: the configuration file, the GPIO directory, the directory
    of Lua scripts, and parse_loglevel of mygpiod/lib/log.c. A file is its
    contents ([None] when it cannot be opened), a directory its entries. A
    result [None] stands for a NULL pointer that is followed. *)

From S2P Require Import Prelude CLib ParseUtil Sds Lists GpioUtil Config Kernel Timer InputNames.
From S2P Require Import Events Gpio Actions.

(** ** Log levels (lib/log.c) *)

Definition loglevel_names : list bytes :=
  [bs "EMERG"; bs "ALERT"; bs "CRITICAL"; bs "ERROR"; bs "WARN"; bs "NOTICE"; bs "INFO"; bs "DEBUG"].

Fixpoint find_loglevel (names : list bytes) (i : Z) (name : bytes) : option Z :=
  match names with
  | [] => None
  | n :: rest => if strcasecmp0 name n then Some i else find_loglevel rest (i + 1) name
  end.

(** [CFG_SYSLOG] is false, and what an unknown name is read as. *)
Definition CFG_SYSLOG : bool := false.

Definition parse_loglevel (name : bytes) : Z :=
  default (if CFG_SYSLOG then 1 else 0) (find_loglevel loglevel_names 0 name).

Definition lookup_loglevel (level : Z) : bytes :=
  if (0 <? level) && (level <? 8) then default [] (loglevel_names !! Z.to_nat level) else [].

(** ** Options of an action *)

(** The [action] member of a timer, a hook or an input event. *)
Definition action_from (a : mygpiod_actions) (config_value : bytes) : t_action :=
  if decide (a = MYGPIOD_ACTION_NONE) then Action a [] else Action a (split_args config_value).

(** [sds_getvalue(config_value, ':')], the rest of the value afterwards. *)
Definition field (config_value : bytes) : option bytes * bytes := sds_getvalue config_value ":".

(** ** Timers (config/timer_ev.c) *)

Definition interval_unit (unit : bytes) : option Z :=
  match unit with
  | c :: _ =>
      if ch c "s" then Some 1 else if ch c "m" then Some 60 else if ch c "h" then Some 3600
      else if ch c "d" then Some 86400 else if ch c "w" then Some 604800 else None
  | [] => None
  end.

Definition parse_interval (interval_str : option bytes) : option Z :=
  match mygpio_parse_int interval_str false 1 604800 with
  | None => None
  | Some (interval, unit) =>
      match interval_unit unit with
      | None => None
      | Some quantifier =>
          if INT_MAX / quantifier <? interval then None else Some (interval * quantifier)
      end
  end.

(** One character: the cases of the switch are the numbers 0 to 7, not digits. *)
Definition parse_weekday (c : ascii) (weekdays : list bool) : option (list bool) :=
  if code c =? 0 then Some (<[0%nat := true]> weekdays)
  else if code c =? 1 then Some (<[1%nat := true]> weekdays)
  else if code c =? 2 then Some (<[2%nat := true]> weekdays)
  else if code c =? 3 then Some (<[3%nat := true]> weekdays)
  else if code c =? 4 then Some (<[4%nat := true]> weekdays)
  else if code c =? 5 then Some (<[5%nat := true]> weekdays)
  else if code c =? 6 then Some (<[6%nat := true]> weekdays)
  else if code c =? 7 then Some (<[0%nat := true]> weekdays)
  else if ch c "," || ch c " " then Some weekdays
  else None.

Fixpoint parse_weekdays_go (s : bytes) (weekdays : list bool) : option (list bool) :=
  match s with
  | [] => Some weekdays
  | c :: r => match parse_weekday c weekdays with
              | Some w => parse_weekdays_go r w
              | None => None
              end
  end.

Definition parse_weekdays (weekdays_str : bytes) : option (list bool) :=
  match weekdays_str with
  | c :: _ => if ch c "*" then Some (replicate 7 true)
              else parse_weekdays_go weekdays_str (replicate 7 false)
  | [] => Some (replicate 7 false)
  end.

(** A NULL weekday or action string is followed. *)
Definition parse_timer_ev (timer_definitions : t_list t_timer_definition) (config_value : bytes)
    : option (bool * t_list t_timer_definition) :=
  let '(name, v) := field config_value in
  let '(hour_str, v) := field v in
  let '(min_str, v) := field v in
  let '(interval_str, v) := field v in
  let '(weekdays_str, v) := field v in
  let '(action_str, v) := field v in
  let hour := mygpio_parse_int hour_str true 0 23 in
  let minute := mygpio_parse_int min_str true 0 59 in
  let interval := parse_interval interval_str in
  weekdays_str ← weekdays_str;
  action_str ← action_str;
  let a := parse_action action_str in
  match hour, minute, interval, parse_weekdays weekdays_str, name with
  | Some (hour, _), Some (minute, _), Some interval, Some weekdays, Some name =>
      if decide (a = MYGPIOD_ACTION_UNKNOWN) then Some (false, timer_definitions)
      else Some (true, list_push timer_definitions 0
             (TimerDef name (-1) hour minute interval weekdays (action_from a v)))
  | _, _, _, _, _ => Some (false, timer_definitions)
  end.

(** ** Hooks (config/hook.c) *)

(** The name of a hook may be NULL only when the whole value is empty, and then
    the action is NULL too. *)
Definition parse_hook (hooks : t_list t_hook) (config_value : bytes)
    : option (bool * t_list t_hook) :=
  let '(name, v) := field config_value in
  let '(action_str, v) := field v in
  action_str ← action_str;
  let a := parse_action action_str in
  if decide (a = MYGPIOD_ACTION_UNKNOWN) then Some (false, hooks)
  else Some (true, list_push hooks 0 (Hook (default [] name) (action_from a v))).

(** ** Input devices (config/input_ev.c) *)

Definition new_device (device_name : bytes) : t_input_device := InputDevice device_name (-1) [].

Section input_ev.
Context `{Build}.

(** A device stays in the list although its first event is invalid. *)
Definition parse_input_ev (input_devices : t_list t_input_device) (config_value : bytes)
    : option (bool * t_list t_input_device) :=
  let '(device_str, v) := field config_value in
  let '(type_str, v) := field v in
  let '(code_str, v) := field v in
  let '(value_str, v) := field v in
  let '(action_str, v) := field v in
  type_str ← type_str;
  let type := input_event_type_parse type_str in
  code_str ← code_str;
  let '(code, code_match) :=
    if strcmp0 code_str (bs "*") then (KEY_CNT, MATCH_ALL)
    else (input_event_code_parse code_str, MATCH_VALUE) in
  value_str ← value_str;
  let '(value, value_match) :=
    if strcmp0 value_str (bs "*") then (Some UINT_MAX, MATCH_ALL)
    else (fst <$> mygpio_parse_uint (Some value_str) true 0 UINT_MAX, MATCH_VALUE) in
  action_str ← action_str;
  let a := parse_action action_str in
  device_str ← device_str;
  let '(device, input_devices) :=
    match input_device_get_by_name input_devices device_str with
    | Some n => (n_ptr n, input_devices)
    | None => (fresh_ptr input_devices, list_push input_devices 0 (new_device device_str))
    end in
  match value with
  | Some value =>
      if (type =? EV_MAX) || (code =? KEY_MAX) || bool_decide (a = MYGPIOD_ACTION_UNKNOWN)
      then Some (false, input_devices)
      else
        Some (true, list_upd device (λ d, d <| event_actions ::= λ l,
                list_push l 0 (InputEventActions type code_match code value_match value 0
                                 (action_from a v)) |>) input_devices)
  | None => Some (false, input_devices)
  end.
End input_ev.

(** ** GPIOs (config/gpio.c) *)

Definition gpio_in_data_new : t_gpio_in_data :=
  GpioIn GPIOD_LINE_BIAS_AS_IS false 0 GPIOD_LINE_CLOCK_REALTIME [] [] GPIOD_LINE_EDGE_RISING (-1)
    0 0 [] [] GPIOD_LINE_EDGE_FALLING GPIOD_LINE_VALUE_ERROR false (-1) None [].

Definition gpio_out_data_new : t_gpio_out_data :=
  GpioOut GPIOD_LINE_DRIVE_PUSH_PULL GPIOD_LINE_VALUE_INACTIVE (-1) None [].

Definition action_node_data_from_value (value : bytes) : option t_action :=
  match sds_splitfirst value ":" with
  | [act; options] =>
      let a := parse_action act in
      if decide (a = MYGPIOD_ACTION_UNKNOWN) then None else Some (action_node_data_new a options)
  | _ => None
  end.

Definition parse_gpio_config_file_out_kv (key value : bytes) (data : t_gpio_out_data)
    : bool * t_gpio_out_data :=
  if strcmp0 key (bs "drive") then
    let '(v, einval) := parse_drive value in (negb einval, data <| drive := v |>)
  else if strcmp0 key (bs "value") then
    let '(v, einval) := parse_gpio_value value in (negb einval, data <| Config.value := v |>)
  else (false, data).

(** [list_push(l, l->length, action_data)] *)
Definition push_action (l : t_list t_action) (a : t_action) : t_list t_action :=
  list_push l (list_length l) a.

Definition parse_gpio_config_file_in_kv (key value : bytes) (data : t_gpio_in_data)
    : bool * t_gpio_in_data :=
  let with_action (push : t_action → t_gpio_in_data) :=
    match action_node_data_from_value value with
    | Some a => (true, push a)
    | None => (false, data)
    end in
  if strcmp0 key (bs "active_low") then
    let '(v, einval) := mygpio_parse_bool value in (negb einval, data <| active_low := v |>)
  else if strcmp0 key (bs "bias") then
    let '(v, einval) := parse_bias value in (negb einval, data <| bias := v |>)
  else if strcmp0 key (bs "event_request") then
    let '(v, einval) := parse_event_request value in (negb einval, data <| event_request := v |>)
  else if strcmp0 key (bs "debounce") then
    match mygpio_parse_ulong (Some value) true 0 UINT_MAX with
    | Some (v, _) => (true, data <| debounce_period_us := v |>)
    | None => (false, data)
    end
  else if strcmp0 key (bs "event_clock") then
    let '(v, einval) := parse_event_clock value in (negb einval, data <| event_clock := v |>)
  else if strcmp0 key (bs "action_falling") then
    with_action (λ a, data <| action_falling ::= λ l, push_action l a |>)
  else if strcmp0 key (bs "action_rising") then
    with_action (λ a, data <| action_rising ::= λ l, push_action l a |>)
  else if strcmp0 key (bs "long_press_timeout") then
    match mygpio_parse_int (Some value) true 0 TIMEOUT_MS_MAX with
    | Some (v, _) => (true, data <| long_press_timeout_ms := v |>)
    | None => (false, data)
    end
  else if strcmp0 key (bs "long_press_interval") then
    match mygpio_parse_int (Some value) true 0 TIMEOUT_MS_MAX with
    | Some (v, _) => (true, data <| long_press_interval_ms := v |>)
    | None => (false, data)
    end
  else if strcmp0 key (bs "long_press_event") then
    let '(v, einval) := parse_event_request value in (negb einval, data <| long_press_event := v |>)
  else if strcmp0 key (bs "long_press_action") then
    with_action (λ a, data <| long_press_action ::= λ l, push_action l a |>)
  else if strcmp0 key (bs "long_press_release_action") then
    with_action (λ a, data <| long_press_release_action ::= λ l, push_action l a |>)
  else (false, data).

(** *** Files of lines [key = value]

    The loop that config.c and gpio.c share: blank lines, comments and lines
    without [=] are skipped; it ends at the end of the file or when [body]
    reports an error. [fuel] bounds the lines. *)
Fixpoint config_loop {S} (fuel : nat) (body : bytes → bytes → S → option (bool * S)) (fp : bytes)
    (s : S) : option (bool * S) :=
  match fuel with
  | O => None
  | S fuel' =>
      let '(line, nread, fp') := sds_getline fp LINE_LENGTH_MAX in
      if nread <? 0 then Some (true, s)
      else
        match line with
        | [] => config_loop fuel' body fp' s
        | c :: _ =>
            if ch c "#" then config_loop fuel' body fp' s
            else
              match sds_splitfirst line "=" with
              | [key; value] =>
                  '(ok, s') ← body key value s;
                  if ok : bool then config_loop fuel' body fp' s' else Some (false, s')
              | _ => config_loop fuel' body fp' s
              end
        end
  end.

(** An invalid line of a GPIO file is only reported. *)
Definition parse_gpio_config_file {D} (kv : bytes → bytes → D → bool * D) (data : D)
    (file : option bytes) : option (bool * D) :=
  match file with
  | None => Some (false, data)
  | Some fp => config_loop (S (length fp)) (λ key value d, Some (true, (kv key value d).2)) fp data
  end.

(** [struct dirent] with the contents of the file. *)
Record dirent := Dirent {
  d_reg : bool;
  d_name : bytes;
  d_file : option bytes;
}.

Definition dir_in : bytes := bs "in".
Definition dir_out : bytes := bs "out".

(** The loop over the directory; [i] counts the GPIOs. *)
Fixpoint gpio_read_go (dir : list dirent) (i : Z) (gpios_in : t_list t_gpio_in_data)
    (gpios_out : t_list t_gpio_out_data)
    : option (t_list t_gpio_in_data * t_list t_gpio_out_data) :=
  match dir with
  | [] => Some (gpios_in, gpios_out)
  | e :: dir' =>
      let skip (_ : unit) :=
        if i =? GPIOS_MAX then Some (gpios_in, gpios_out)
        else gpio_read_go dir' i gpios_in gpios_out in
      if negb (d_reg e) then gpio_read_go dir' i gpios_in gpios_out
      else
        match mygpio_parse_uint (Some (d_name e)) false 0 99 with
        | Some (gpio, c :: rest) =>
            if negb (ch c ".") then skip tt
            else if strcmp0 rest dir_in then
              '(rc, data) ← parse_gpio_config_file parse_gpio_config_file_in_kv gpio_in_data_new (d_file e);
              if rc : bool then gpio_read_go dir' (u32 (i + 1)) (list_push gpios_in gpio data) gpios_out
              else skip tt
            else if strcmp0 rest dir_out then
              '(rc, data) ← parse_gpio_config_file parse_gpio_config_file_out_kv gpio_out_data_new (d_file e);
              if rc : bool then gpio_read_go dir' (u32 (i + 1)) gpios_in (list_push gpios_out gpio data)
              else skip tt
            else skip tt
        | _ => skip tt
        end
  end.

Definition gpio_read_dir (gpios_in : t_list t_gpio_in_data) (gpios_out : t_list t_gpio_out_data)
    (gpio_dir : option (list dirent))
    : option (bool * (t_list t_gpio_in_data * t_list t_gpio_out_data)) :=
  match gpio_dir with
  | None => Some (false, (gpios_in, gpios_out))
  | Some dir => r ← gpio_read_go dir 0 gpios_in gpios_out; Some (true, r)
  end.

(** ** Lua scripts (config/lua_async.c) *)

(** [strrchr(name, c)] *)
Fixpoint strrchr (s : bytes) (c : ascii) : option bytes :=
  match s with
  | [] => None
  | x :: r => match strrchr r c with
              | Some e => Some e
              | None => if ch x c then Some s else None
              end
  end.

(** [*nread] is -1 when the file cannot be opened. *)
Definition sds_getfile (file : option bytes) : bytes * Z :=
  match file with
  | None => ([], -1)
  | Some s => (s, i32 (Z.of_nat (length s)))
  end.

Definition lua_async_read_entry (scripts : t_list t_lua_script) (e : dirent) : t_list t_lua_script :=
  if negb (d_reg e) then scripts
  else
    match strrchr (d_name e) "." with
    | None => scripts
    | Some ext =>
        if negb (strcmp0 ext (bs ".lua")) then scripts
        else
          let name := take (length (d_name e) - 4) (d_name e) in
          let '(script, nread) := sds_getfile (d_file e) in
          if 0 <? nread then list_push scripts 0 (LuaScript name script None) else scripts
    end.

Definition lua_async_read_scripts (scripts : t_list t_lua_script) (dir : option (list dirent))
    : bool * t_list t_lua_script :=
  match dir with
  | None => (false, scripts)
  | Some entries => (true, foldl lua_async_read_entry scripts entries)
  end.

(** ** The configuration file (config/config.c) *)

Definition CFG_GPIO_DIR : bytes := bs "/etc/mygpiod.d/gpio.d".
Definition CFG_LUA_ASYNC_DIR : bytes := bs "/etc/mygpiod.d/lua_async.d".
Definition CFG_HTTP_IP : bytes := bs "127.0.0.1".

(** event_loop/signal_handler.c: the results of sigprocmask, which blocks SIGTERM
    and SIGINT, and of signalfd, which is called after it. *)
Definition make_signalfd (sigprocmask_rc signalfd_rc : Z) : Z :=
  if sigprocmask_rc <? 0 then -1 else if signalfd_rc <? 0 then -1 else signalfd_rc.

(** [signalfd] is the result of [make_signalfd], [level] the global loglevel. *)
Definition config_new (signalfd level : Z) : option t_config :=
  if signalfd =? -1 then None
  else Some (Config level CFG_SYSLOG signalfd CFG_SOCKET_PATH 60 [] 0 None CFG_HTTP_IP 8081 [] 0
               CFG_GPIO_DIR [] [] [] None [] [] [] None [] None CFG_LUA_ASYNC_DIR []).

Section config.
Context `{Build}.

Definition parse_config_file_kv (key value : bytes) (c : t_config) : option (bool * t_config) :=
  if strcmp0 key (bs "chip") then Some (true, c <| chip_path := value |>)
  else if strcmp0 key (bs "loglevel") then Some (true, c <| loglevel := parse_loglevel value |>)
  else if strcmp0 key (bs "syslog") then
    let '(v, einval) := mygpio_parse_bool value in Some (negb einval, c <| syslog := v |>)
  else if strcmp0 key (bs "gpio_dir") then Some (true, c <| dir_gpio := c_str value |>)
  else if strcmp0 key (bs "socket") then
    if 108 <=? Z.of_nat (length value) then Some (false, c)
    else Some (true, c <| socket_path := value |>)
  else if strcmp0 key (bs "timeout") then
    match mygpio_parse_int (Some value) true 10 120 with
    | Some (v, _) => Some (true, c <| socket_timeout_s := v |>)
    | None => Some (false, c)
    end
  else if strcmp0 key (bs "http_ip") then Some (true, c <| http_ip := c_str value |>)
  else if strcmp0 key (bs "http_port") then
    match mygpio_parse_uint (Some value) true 1025 65535 with
    | Some (v, _) => Some (true, c <| http_port := v |>)
    | None => Some (false, c)
    end
  else if strcmp0 key (bs "lua_file") then Some (true, c <| lua_file ::= λ f, f ++ value |>)
  else if strcmp0 key (bs "lua_async_dir") then Some (true, c <| lua_async_dir := c_str value |>)
  else if strcmp0 key (bs "input_ev") then
    '(ok, l) ← parse_input_ev (input_devices c) value; Some (ok, c <| input_devices := l |>)
  else if strcmp0 key (bs "timer_ev") then
    '(ok, l) ← parse_timer_ev (timer_definitions c) value; Some (ok, c <| timer_definitions := l |>)
  else if strcmp0 key (bs "hook") then
    '(ok, l) ← parse_hook (hooks c) value; Some (ok, c <| hooks := l |>)
  else Some (false, c).

(** [dir_of] is the contents of a directory. *)
Definition config_read (c : t_config) (file : option bytes) (dir_of : bytes → option (list dirent))
    : option (bool * t_config) :=
  match file with
  | None => Some (false, c)
  | Some fp =>
      '(rc, c) ← config_loop (S (length fp)) parse_config_file_kv fp c;
      if negb rc then Some (false, c)
      else
        '(ok, (gins, gouts)) ← gpio_read_dir (gpios_in c) (gpios_out c) (dir_of (dir_gpio c));
        let c := c <| gpios_in := gins |> <| gpios_out := gouts |> in
        if negb ok then Some (false, c)
        else
          let '(ok, l) := lua_async_read_scripts (lua_async_scripts c) (dir_of (lua_async_dir c)) in
          Some (ok, c <| lua_async_scripts := l |>)
  end.

(** NULL is the inner [None]. *)
Definition get_config (signalfd level : Z) (file : option bytes)
    (dir_of : bytes → option (list dirent)) : option (option t_config) :=
  match config_new signalfd level with
  | None => Some None
  | Some c =>
      '(ok, c) ← config_read c file dir_of;
      Some (if ok : bool then Some c else None)
  end.
End config.
