(* ===== verification/Log.v ===== *)
(** * Log lines

    mygpiod/lib/log.c, the calls of mygpiod/main.c that set the log up, and the
    messages about scripts of mygpiod/lua/util.c: what is logged, and what a line
    of the log looks like. The rest of the model leaves log output out. *)

From S2P Require Import Prelude CLib Sds Config Kernel ConfigParse.

Inductive log_types := LOG_TO_SYSLOG | LOG_TO_TTY | LOG_TO_SYSTEMD | LOG_TO_STDOUT | LOG_WITH_TS.

#[export] Instance log_types_eq : EqDecision log_types.
Proof. solve_decision. Defined.

(** The levels of syslog.h *)
Definition LOG_ERR : Z := 3.
Definition LOG_NOTICE : Z := 5.
Definition LOG_DEBUG : Z := 7.

Definition ESC : ascii := "027"%char.

Definition loglevel_colors : list bytes :=
  [ESC :: bs "[0;31m"; ESC :: bs "[0;31m"; ESC :: bs "[0;31m"; ESC :: bs "[0;31m"; ESC :: bs "[0;33m"; []; [];
   ESC :: bs "[0;32m"].

(** The line buffer of the thread and the global variables. *)
Record t_log := LogState { logline : bytes; log_level : Z; log_type : log_types }.

#[export] Instance eta_log : Eta t_log := λ r, LogState (logline r) (log_level r) (log_type r).

(** A call of vsyslog or of fputs. *)
Inductive log_output := ToSyslog (level : Z) (text : bytes) | ToStdout (line : bytes).

(** "%02d" of a number below 100 and "%-8s" *)
Definition pad2 (n : Z) : bytes := if n <? 10 then "0"%char :: print_u n else print_u n.
Definition pad8 (s : bytes) : bytes := s ++ replicate (8 - length s) " "%char.

(** [now]: the hour, minute and second of localtime_r, when it succeeds. *)
Definition time_text (now : option (Z * Z * Z)) : bytes :=
  match now with
  | Some (h, m, s) => pad2 h ++ bs ":" ++ pad2 m ++ bs ":" ++ pad2 s ++ bs " "
  | None => []
  end.

(** ** Messages about scripts (lua/util.c) *)

(** The results of lua_pcall and of the functions that load a script (lua.h,
    lauxlib.h). *)
Definition LUA_ERRRUN : Z := 2.
Definition LUA_ERRSYNTAX : Z := 3.
Definition LUA_ERRMEM : Z := 4.
Definition LUA_ERRERR : Z := 5.
Definition LUA_ERRFILE : Z := 6.

Definition lua_err_to_str (rc : Z) : bytes :=
  if rc =? LUA_ERRSYNTAX then bs "Syntax error during precompilation"
  else if rc =? LUA_ERRMEM then bs "Memory allocation error"
  else if rc =? LUA_ERRFILE then bs "Can not open or read script file"
  else if rc =? LUA_ERRRUN then bs "Runtime error"
  else if rc =? LUA_ERRERR then bs "Error while running the message handler"
  else bs "Unknown error".

(** [stack]: the values on the stack of the script as lua_tostring gives them. *)
Definition lua_log_result (stack : list bytes) (rc : Z) (script_name : bytes) : list bytes :=
  if rc =? 0 then []
  else
    (bs "Failure loading lua file " ++ [DQUOTE] ++ script_name ++ [DQUOTE] ++ bs ": " ++ [DQUOTE] ++ lua_err_to_str rc
      ++ [DQUOTE]) :: match stack with [err] => [err] | _ => [] end.

(** What the thread of a script logs: the result of lua_pcall is stored in a [bool]. *)
Definition script_run_log (stack : list bytes) (pcall_rc : Z) (script_name : bytes) : list bytes :=
  let rc := negb (pcall_rc =? 0) in
  if rc then lua_log_result stack (Z.b2z rc) script_name else [].

Section log.
Context `{Build}.

(** What comes before the message. *)
Definition log_prefix (st : t_log) (level : Z) (file : bytes) (line : Z) (now : option (Z * Z * Z)) : option bytes :=
  head ← match log_type st with
         | LOG_TO_TTY => colour ← loglevel_colors !! Z.to_nat level; Some (colour ++ time_text now)
         | LOG_WITH_TS => Some (time_text now)
         | LOG_TO_SYSTEMD => Some (bs "<" ++ print_d level ++ bs ">")
         | _ => Some []
         end;
  name ← loglevel_names !! Z.to_nat level;
  Some (head ++ pad8 name ++ if MYGPIOD_DEBUG then file ++ bs ":" ++ print_d line ++ bs ": " else []).

(** [text]: the message as vsnprintf formats it. *)
Definition mygpiod_log (level : Z) (file : bytes) (line : Z) (now : option (Z * Z * Z)) (text : bytes) (st : t_log)
  : option (t_log * list log_output) :=
  if log_level st <? level then Some (st, [])
  else if decide (log_type st = LOG_TO_SYSLOG) then Some (st, [ToSyslog level text])
  else
    prefix ← log_prefix st level file line now;
    let l := logline st ++ prefix ++ text in
    let l := if 1023 <? Z.of_nat (length l) then sdsrange l 0 1020 ++ bs "..." else l in
    let l := sdstrim l [LF] in
    let l := l ++ if decide (log_type st = LOG_TO_TTY) then ESC :: bs "[0m" ++ [LF] else [LF] in
    Some (st <| logline := [] |>, [ToStdout (c_str l)]).

(** [err]: the text of strerror_r, when it succeeds. *)
Definition mygpiod_log_errno (file : bytes) (line errnum : Z) (err : option bytes) (now : option (Z * Z * Z))
    (st : t_log) : option (t_log * list log_output) :=
  if errnum =? 0 then Some (st, [])
  else mygpiod_log LOG_ERR file line now (default (bs "Unknown error") err) st.

Definition set_loglevel (level : Z) (file : bytes) (line : Z) (now : option (Z * Z * Z)) (st : t_log)
  : option (t_log * list log_output) :=
  if level =? log_level st then Some (st, [])
  else
    let level := if 7 <? level then 7 else if level <? 0 then 0 else level in
    name ← loglevel_names !! Z.to_nat level;
    '(st, out) ← mygpiod_log LOG_NOTICE file line now (bs "Setting loglevel to " ++ name) st;
    Some (st <| log_level := level |>, out).

(** [tty], [invocation] and [log_ts]: the results of isatty and getenv. *)
Definition log_init (tty invocation log_ts : bool) (file : bytes) (line : Z) (now : option (Z * Z * Z)) (st : t_log)
  : option (t_log * list log_output) :=
  let type := if tty then LOG_TO_TTY else if invocation then LOG_TO_SYSTEMD
              else if log_ts then LOG_WITH_TS else LOG_TO_STDOUT in
  let st := st <| log_type := type |> in
  if MYGPIOD_DEBUG then set_loglevel LOG_DEBUG file line now st else Some (st, []).

(** The global variables when the program starts. *)
Definition log_start : t_log := LogState [] 0 LOG_TO_SYSLOG.

(** What main does to the log once the configuration is read. *)
Definition main_log (c : t_config) (file : bytes) (line : Z) (now : option (Z * Z * Z)) (st : t_log)
  : option (t_log * list log_output) :=
  '(st, out) ← if MYGPIOD_DEBUG then Some (st, []) else set_loglevel (loglevel c) file line now st;
  Some (if syslog c && negb (bool_decide (log_type st = LOG_TO_SYSTEMD)) then st <| log_type := LOG_TO_SYSLOG |> else st,
        out).

(** ** Theorems *)

Lemma log_prefix_is_Some st level file line now :
  0 ≤ level ≤ 7 → ∃ p, log_prefix st level file line now = Some p.
Proof.
  intros Hl. assert (Hn : ∃ n, loglevel_names !! Z.to_nat level = Some n) by (apply lookup_lt_is_Some; change (length loglevel_names) with 8%nat; lia).
  assert (Hc : ∃ n, loglevel_colors !! Z.to_nat level = Some n) by (apply lookup_lt_is_Some; change (length loglevel_colors) with 8%nat; lia).
  destruct Hn as (n & Hn), Hc as (c & Hc). unfold log_prefix. rewrite Hn, Hc. by destruct (log_type st); eexists.
Qed.

Lemma length_sdstrim_LF l : (length (sdstrim l [LF]) ≤ length l)%nat.
Proof.
  unfold sdstrim. rewrite length_reverse.
  assert (Hd : ∀ m : bytes, (length (drop_while (in_cset [LF]) m) ≤ length m)%nat).
  { intros m. induction m as [|c m IH]; simpl; [done|]. destruct (in_cset _ c); simpl; lia. }
  etransitivity; [apply Hd|]. rewrite length_reverse. apply Hd.
Qed.

Lemma length_sdsrange_1021 l : (1021 <= length l)%nat → length (sdsrange l 0 1020) = 1021%nat.
Proof.
  intros Hl. unfold sdsrange. rewrite (proj2 (Z.eqb_neq _ _)) by lia. cbv zeta.
  change (0 <? 0) with false. change (1020 <? 0) with false. cbv iota. change (1020 <? 0) with false. cbv iota.
  change (u64 0) with 0. change (u64 (1020 - 0 + 1)) with 1021. unfold sdssubstr.
  destruct (Z.leb_spec (Z.of_nat (length l)) 0); [lia|]. cbv beta iota.
  destruct (Z.ltb_spec (Z.of_nat (length l) - 0) 1021); rewrite length_take, length_drop; lia.
Qed.

(** A message whose level is a level of syslog: it is dropped when its level is
    above the log level; otherwise it gives one line of 1029 bytes at most, and
    the line buffer is empty again, so that no message ever continues another. *)
Lemma mygpiod_log_spec st level file line now text :
  0 ≤ level ≤ 7 → logline st = [] →
  ∃ st' out, mygpiod_log level file line now text st = Some (st', out) ∧
    logline st' = [] ∧ log_level st' = log_level st ∧ log_type st' = log_type st ∧
    if log_level st <? level then out = []
    else if decide (log_type st = LOG_TO_SYSLOG) then out = [ToSyslog level text]
    else ∃ l, out = [ToStdout l] ∧ (length l ≤ 1029)%nat.
Proof.
  intros Hl Hst. unfold mygpiod_log. destruct (log_level st <? level); [by eexists _, _|].
  destruct (decide (log_type st = LOG_TO_SYSLOG)); [by eexists _, _|].
  destruct (log_prefix_is_Some st level file line now Hl) as (p & ->). cbn [mbind option_bind].
  eexists _, _. split; [done|]. split_and!; [done..|]. eexists. split; [done|].
  unfold c_str. etransitivity; [apply length_take_while|]. rewrite length_app.
  set (l := logline st ++ p ++ text). set (l2 := if 1023 <? _ then _ else l).
  assert (H2 : (length l2 ≤ 1024)%nat).
  { unfold l2. destruct (Z.ltb_spec 1023 (Z.of_nat (length l))); [|lia].
    rewrite length_app, length_sdsrange_1021 by lia. simpl. lia. }
  pose proof (length_sdstrim_LF l2). destruct (decide _); simpl; lia.
Qed.

(** The log level stays one of the eight. *)
Lemma set_loglevel_spec st level file line now :
  0 ≤ log_level st ≤ 7 → logline st = [] →
  ∃ st' out, set_loglevel level file line now st = Some (st', out) ∧ logline st' = [] ∧
    log_level st' = Z.max 0 (Z.min 7 level).
Proof.
  intros Hl Hst. unfold set_loglevel. destruct (Z.eqb_spec level (log_level st)) as [->|Hne].
  { exists st, []. split_and!; [done..|lia]. }
  set (n := if 7 <? level then 7 else if level <? 0 then 0 else level).
  assert (Hn : n = Z.max 0 (Z.min 7 level)) by (unfold n; repeat case_match_goal; zbool; lia).
  assert (Hs : ∃ s, loglevel_names !! Z.to_nat n = Some s) by (apply lookup_lt_is_Some; change (length loglevel_names) with 8%nat; lia).
  destruct Hs as (s & ->). cbn [mbind option_bind].
  destruct (mygpiod_log_spec st LOG_NOTICE file line now (bs "Setting loglevel to " ++ s)) as (st' & out & -> & H1 & _);
    [unfold LOG_NOTICE; lia|done|]. cbn [mbind option_bind]. eexists _, _. by split_and!.
Qed.

(** A release build starts with the level EMERG and takes over that of the
    configuration only when it has been read: all errors in the configuration
    files, and the start-up notices, are dropped. *)
Lemma startup_messages_dropped (Hd : MYGPIOD_DEBUG = false) tty invocation log_ts file line now level text :
  0 < level →
  ∃ st, log_init tty invocation log_ts file line now log_start = Some (st, []) ∧
    mygpiod_log level file line now text st = Some (st, []).
Proof.
  intros Hl. unfold log_init. rewrite Hd. eexists. split; [done|]. unfold mygpiod_log. cbn -[Z.ltb].
  by rewrite (proj2 (Z.ltb_lt _ _) Hl).
Qed.

(** And without a log level in the configuration it stays there. *)
Lemma default_loglevel_is_emerg (Hd : MYGPIOD_DEBUG = false) st signalfd c file line now :
  log_level st = 0 → config_new signalfd (log_level st) = Some c →
  ∃ st', main_log c file line now st = Some (st', []) ∧ log_level st' = 0.
Proof.
  intros Hl. rewrite Hl. unfold config_new. destruct (signalfd =? -1); [done|]. intros [= <-].
  unfold main_log, set_loglevel. rewrite Hd, Hl. cbn. eexists. split; [done|]. by destruct CFG_SYSLOG, (log_type st).
Qed.
End log.

(** A script that ends with an error is logged, but never with its error. *)
Lemma script_error_unknown stack rc name :
  rc ≠ 0 → ∃ rest, script_run_log stack rc name =
    (bs "Failure loading lua file " ++ [DQUOTE] ++ name ++ [DQUOTE] ++ bs ": " ++ [DQUOTE] ++ bs "Unknown error"
      ++ [DQUOTE]) :: rest.
Proof. intros Hrc%Z.eqb_neq. unfold script_run_log. rewrite Hrc. by eexists. Qed.

(** A line, and a level that is filtered. *)
Lemma mygpiod_log_lines `{Build} (Hd : MYGPIOD_DEBUG = false) :
  let st := LogState [] 5 LOG_TO_SYSTEMD in
  mygpiod_log 4 [] 0 None (bs "Could not open" ++ [LF]) st = Some (st, [ToStdout (bs "<4>WARN    Could not open" ++ [LF])]) ∧
  mygpiod_log 6 [] 0 None (bs "text") st = Some (st, []).
Proof. unfold mygpiod_log, log_prefix. rewrite Hd. done. Qed.
