(* ===== verification/GpioEvent.v ===== *)
(** * Event sources: GPIO lines, GPIO timers, input devices, timers and hooks

    mygpiod/gpio/action.c, event.c and timer.c, mygpiod/input_ev/action.c and
    event.c, mygpiod/timer_ev and mygpiod/hook/action.c. *)

From S2P Require Import Prelude CLib ParseUtil Sds Lists GpioUtil Config Kernel Timer InputNames.
From S2P Require Import Events Gpio Actions.

Section gpio_event.
Context `{Kernel K} `{Build}.
Implicit Types (gpio : Z) (p : positive).

(** ** Input GPIOs (gpio/action.c); [p] is the [struct t_gpio_in_data *] *)

Definition gpio_action_delay_abort p : M K unit :=
  data ← deref gpios_in p;
  fd ← close_fd (in_timer_fd data);
  upd_in p (λ d, d <| in_timer_fd := fd |>).

Definition gpio_action_delay p : M K unit :=
  data ← deref gpios_in p;
  ok ← (if 0 <? in_timer_fd data
        then timer_set (in_timer_fd data) (long_press_timeout_ms data) (long_press_interval_ms data)
        else mret false);
  if (ok : bool) then mret tt
  else
    fd ← timer_new (long_press_timeout_ms data) (long_press_interval_ms data);
    upd_in p (λ d, d <| in_timer_fd := fd |>).

(** The long press part of both edges. *)
Definition gpio_action_long_press gpio p (edge : gpiod_line_edge) : M K unit :=
  data ← deref gpios_in p;
  if decide (long_press_event data = edge) then
    if 0 <? long_press_timeout_ms data then
      v ← gpio_get_value gpio;
      _ ← upd_in p (λ d, d <| long_press_value := v |>);
      gpio_action_delay p
    else mret tt
  else mret tt.

Definition gpio_action_handle gpio (timestamp_ns : Z) (event_type : gpiod_edge_event_type) p
    : M K unit :=
  data ← deref gpios_in p;
  if ignore_event data then
    _ ← upd_in p (λ d, d <| ignore_event := false |>);
    _ ← event_enqueue_gpio gpio MYGPIOD_EVENT_GPIO_LONG_PRESS_RELEASE timestamp_ns;
    data ← deref gpios_in p;
    actions_execute (long_press_release_action data)
  else if decide (event_type = GPIOD_EDGE_EVENT_FALLING_EDGE) then
    _ ← event_enqueue_gpio gpio MYGPIOD_EVENT_GPIO_FALLING timestamp_ns;
    data ← deref gpios_in p;
    _ ← (if 0 <? list_length (action_falling data)
         then actions_execute (action_falling data) else mret tt);
    gpio_action_long_press gpio p GPIOD_LINE_EDGE_FALLING
  else
    _ ← event_enqueue_gpio gpio MYGPIOD_EVENT_GPIO_RISING timestamp_ns;
    data ← deref gpios_in p;
    _ ← (if 0 <? list_length (action_rising data)
         then actions_execute (action_rising data) else mret tt);
    gpio_action_long_press gpio p GPIOD_LINE_EDGE_RISING.

Definition gpio_action_execute_delayed gpio p : M K unit :=
  v ← gpio_get_value gpio;
  data ← deref gpios_in p;
  keep ← (if decide (v = long_press_value data) then
            timestamp_ns ← get_timestamp_ns (event_clock data);
            _ ← event_enqueue_gpio gpio MYGPIOD_EVENT_GPIO_LONG_PRESS timestamp_ns;
            data ← deref gpios_in p;
            _ ← actions_execute (long_press_action data);
            data ← deref gpios_in p;
            _ ← (if decide (event_request data = GPIOD_LINE_EDGE_BOTH)
                 then upd_in p (λ d, d <| ignore_event := true |>) else mret tt);
            mret (0 <? long_press_interval_ms data)
          else mret false);
  if (keep : bool) then mret tt else gpio_action_delay_abort p.

(** ** Line events (gpio/event.c) *)

Definition get_node_by_gpio_fd (gpios : t_list t_gpio_in_data) (fd : Z)
    : option (node t_gpio_in_data) :=
  list_find_node (λ n, gpio_fd (n_data n) =? fd) gpios.

(** The body of the loop over the events of the buffer. *)
Definition gpio_handle_edge_event (node : node t_gpio_in_data) (event : option edge_event)
    : M K unit :=
  match event with
  | None => mret tt
  | Some event =>
      _ ← gpio_action_delay_abort (n_ptr node);
      gpio_action_handle (n_id node) (gpiod_edge_event_get_timestamp_ns event)
        (gpiod_edge_event_get_event_type event) (n_ptr node)
  end.

Definition gpio_handle_event (fd : Z) : M K bool :=
  gins ← gets gpios_in;
  match get_node_by_gpio_fd gins fd with
  | None => mret false
  | Some node =>
      r ← sys (gpiod_line_request_read_edge_events (in_request (n_data node))
                 GPIO_EVENT_BUF_SIZE);
      let '(ret, buffer) := r in
      if ret <? 0 then mret false
      else
        _ ← for_each (seqZ 0 ret) (λ j, gpio_handle_edge_event node (buffer j));
        mret true
  end.

(** ** GPIO timers (gpio/timer.c) *)

Definition get_node_by_gpio_in_timerfd (gpios : t_list t_gpio_in_data) (fd : Z)
    : option (node t_gpio_in_data) :=
  list_find_node (λ n, in_timer_fd (n_data n) =? fd) gpios.

Definition get_node_by_gpio_out_timerfd (gpios : t_list t_gpio_out_data) (fd : Z)
    : option (node t_gpio_out_data) :=
  list_find_node (λ n, out_timer_fd (n_data n) =? fd) gpios.

Definition gpio_in_timer_handle_event (fd : Z) : M K bool :=
  ok ← timerfd_read_value fd;
  if negb ok then mret false
  else
    gins ← gets gpios_in;
    match get_node_by_gpio_in_timerfd gins fd with
    | None => mret false
    | Some node =>
        _ ← gpio_action_execute_delayed (n_id node) (n_ptr node);
        mret true
    end.

Definition gpio_out_timer_handle_event (fd : Z) : M K bool :=
  ok ← timerfd_read_value fd;
  if negb ok then mret false
  else
    gouts ← gets gpios_out;
    match get_node_by_gpio_out_timerfd gouts fd with
    | None => mret false
    | Some node =>
        _ ← gpio_toggle_value_by_line_request (out_request (n_data node)) (n_id node);
        repeat ← timer_repeat fd;
        if (repeat : bool) then mret true
        else
          _ ← close_out_timer (n_ptr node);
          mret true
    end.

(** ** Input devices (input_ev/action.c, event.c) *)

Definition check_event (event : t_input_event_actions) (input_data : t_input_event) : bool :=
  if negb (iea_type event =? ie_type input_data) then false
  else if bool_decide (code_match event = MATCH_VALUE) && negb (iea_code event =? ie_code input_data)
  then false
  else if bool_decide (value_match event = MATCH_VALUE)
          && negb (iea_value event =? ie_value input_data)
  then false
  else true.

(** The loop over the configured actions of the device; the result is
    [subscribed]. *)
Fixpoint input_ev_run (dev : positive) (data : t_input_event)
    (actions : t_list t_input_event_actions) : M K bool :=
  match actions with
  | [] => mret false
  | current :: rest =>
      if check_event (n_data current) data then
        _ ← upd_device dev (λ d, d <| event_actions ::=
               list_upd (n_ptr current) (λ a, a <| iea_state := ie_value data |>) |>);
        _ ← action_execute (iea_action (n_data current));
        _ ← input_ev_run dev data rest;
        mret true
      else input_ev_run dev data rest
  end.

Definition input_ev_action_handle (e : t_mygpiod_input_event) : M K unit :=
  dev ← deref input_devices (device e);
  subscribed ← (if list_length (event_actions dev) =? 0 then mret false
                else input_ev_run (device e) (ie_data e) (event_actions dev));
  if (subscribed : bool) then event_enqueue_input e else mret tt.

(** The bytes of a [struct t_input_event] as the kernel writes them (LP64,
    little endian: two 64-bit times, two 16-bit and one 32-bit field). *)
Definition le_bytes (s : bytes) : Z := foldr (λ c v, code c + 256 * v) 0 s.
Definition signed64 (z : Z) : Z := if z <? 9223372036854775808 then z else z - 18446744073709551616.

Definition input_size : Z := 24.

(** [memset] to zero and [read]: what a short read leaves is zero. *)
Definition decode_input_event (r : bytes) : t_input_event :=
  let s := r ++ replicate (24 - length r) NUL in
  {| tv_sec := signed64 (le_bytes (take 8 s));
     tv_usec := signed64 (le_bytes (take 8 (drop 8 s)));
     ie_type := le_bytes (take 2 (drop 16 s));
     ie_code := le_bytes (take 2 (drop 18 s));
     ie_value := le_bytes (take 4 (drop 20 s)) |}.

Definition input_ev_handle_event (fd : Z) : M K bool :=
  devices ← gets input_devices;
  match input_device_get_by_fd devices fd with
  | None => mret false
  | Some dev =>
      nread ← sys (read_fd fd input_size);
      match nread with
      | None => mret false
      | Some r =>
          let data := decode_input_event r in
          if (ie_type data =? EV_KEY) || (ie_type data =? EV_REL) || (ie_type data =? EV_ABS)
             || (ie_type data =? EV_SW)
          then
            _ ← input_ev_action_handle (MygpiodInputEvent (n_ptr dev) data);
            mret true
          else mret true
      end
  end.

(** ** Timers (timer_ev/timer_ev.c, action.c, event.c) *)

Definition timer_ev_get_by_fd (timer_definitions : t_list t_timer_definition) (fd : Z)
    : option (node t_timer_definition) :=
  list_find_node (λ n, td_fd (n_data n) =? fd) timer_definitions.

(** The loops of [calc_starttime]: down by [interval] while [start > now],
    up while [start < now]. [fuel] bounds the iterations. *)
Fixpoint start_down (fuel : nat) (start now interval : Z) : option Z :=
  match fuel with
  | O => None
  | S f => if now <? start then start_down f (start - interval) now interval else Some start
  end.

Fixpoint start_up (fuel : nat) (start now interval : Z) : option Z :=
  match fuel with
  | O => None
  | S f => if start <? now then start_up f (start + interval) now interval else Some start
  end.

Definition start_fuel (start now : Z) : nat := S (S (Z.to_nat (Z.abs (start - now)))).

Definition starttime_loops (start now interval : Z) : option Z :=
  start_down (start_fuel start now) start now interval ≫= λ s,
  start_up (start_fuel s now) s now interval.

(** The [time_t] of today's start time and the offset to the next start. *)
Definition calc_starttime (hour minute interval : Z) : M K Z :=
  now ← sys time;
  tms ← ask (localtime_r now);
  match tms with
  | None => undefined
  | Some tms =>
      start ← ask (mktime (tms <| tm_hour := hour |> <| tm_min := minute |> <| tm_sec := 0 |>));
      match starttime_loops start now interval with
      | None => undefined
      | Some s => mret (i32 (s - now))
      end
  end.

Definition timer_ev_action_handle (timer_definition : t_timer_definition) : M K unit :=
  t ← sys time;
  now ← ask (localtime_r t);
  match now with
  | None => mret tt
  | Some now =>
      let wday := tm_wday now in
      let wday := if 0 <? wday then wday - 1 else 6 in
      match weekdays timer_definition !! Z.to_nat wday with
      | None => undefined
      | Some false => mret tt
      | Some true => action_execute (td_action timer_definition)
      end
  end.

(** The definition is used after the read, whether it was found or not. *)
Definition timer_ev_handle_event (fd : Z) : M K bool :=
  timers ← gets timer_definitions;
  let timer_definition := timer_ev_get_by_fd timers fd in
  ok ← timerfd_read_value fd;
  if negb ok then mret false
  else
    match timer_definition with
    | None => undefined
    | Some n =>
        _ ← timer_ev_action_handle (n_data n);
        mret true
    end.

(** ** Hooks (hook/action.c) *)

Definition hook_action_handler (name : bytes) : M K bool :=
  hs ← gets hooks;
  match list_find_node (λ n, strcmp0 (hook_name (n_data n)) name) hs with
  | None => mret false
  | Some hook =>
      _ ← action_execute (hook_action (n_data hook));
      mret true
  end.
End gpio_event.
