(* ===== verification/LuaThread.v ===== *)
(** * What scripts do in threads of their own

    The functions that mygpiod/lua/async registers for asynchronous scripts
    (functions/http.c, system.c, mpc.c and the wrappers of gpio.c and input_ev.c,
    bytecode.c), mygpiod/lib/http_client.c, and curl_thread of
    mygpiod/actions/http.c. They block in their thread; what they call there, curl,
    popen and libmpdclient, is the class [Thread]. A computation is [None] where a
    NULL pointer is followed, memory that was never written is read, or the fuel of
    a loop that reads until the end of its input is used up. *)

From S2P Require Import Prelude CLib ParseUtil Sds Lists LuaAsync GpioUtil Config Kernel Sim Timer InputNames.
From S2P Require Import Events Gpio Actions ConfigParse.

(** The options of a curl handle when it is performed. *)
Record t_http_request := HttpOptions {
  opt_url : bytes;
  opt_method : bytes;
  opt_useragent : bytes;
  opt_header : option bytes;
  opt_postfields : option bytes;
}.

Class Thread (T : Type) := {
  curl_easy_init : T → option Z * T;
  curl_slist_append : bytes → T → option Z * T;
  (** the result, and what the callback is given of the header and the body *)
  curl_easy_perform : t_http_request → T → Z * list bytes * list bytes * T;
  curl_easy_cleanup : Z → T → T;
  file_contents : bytes → T → option bytes;
  popen : bytes → T → option Z * T;
  fread : Z → Z → T → bytes * T;
  ferror : Z → T → bool;
  pclose : Z → T → T;
  th_mpd_connection_new : T → option Z * T;
  th_mpd_connection_error : Z → T → bool;
  th_mpd_send_command : Z → list bytes → T → bool * T;
  th_poll : Z → Z → T → Z * T;
  th_read : Z → Z → T → option bytes * T;
  th_mpd_connection_free : Z → T → T;
}.

Definition CURLE_OK : Z := 0.

(** ** HTTP requests (lib/http_client.c) *)

Definition catch_output (output ptr : bytes) : bytes := output ++ ptr.

Section thread.
Context `{Thread T}.
Implicit Types (t : T).

(** From the error buffer on: the response header and body, and the result. *)
Definition http_perform (curl : Z) (method uri : bytes) (header postfields : option bytes) t
    : bool * bytes * bytes * T :=
  let '(res, headers, bodies, t) :=
    curl_easy_perform (HttpOptions (c_str uri) (c_str method) (bs "myGPIOd") header postfields) t in
  (res =? CURLE_OK, foldl catch_output [] headers, foldl catch_output [] bodies, curl_easy_cleanup curl t).

(** A [%s] with NULL has no defined behaviour. *)
Definition http_client (method uri : bytes) (content_type postdata : option bytes) t
    : option (bool * bytes * bytes * T) :=
  let '(curl, t) := curl_easy_init t in
  match curl with
  | None => Some (false, [], [], t)
  | Some curl =>
      let out t := Some (false, [], [], curl_easy_cleanup curl t) in
      match postdata with
      | None => Some (http_perform curl method uri None None t)
      | Some postdata =>
          content_type ← content_type;
          let header := bs "Content-type: " ++ c_str content_type in
          let '(slist, t) := curl_slist_append header t in
          match slist with
          | None => out t
          | Some _ =>
              if strprefix (bs "<</") postdata then
                let file_path := sdsrange (c_str postdata) 2 (-1) in
                let '(file_content, nread) := sds_getfile (file_contents file_path t) in
                if nread =? -1 then out t
                else Some (http_perform curl method uri (Some header) (Some (c_str file_content)) t)
              else Some (http_perform curl method uri (Some header) (Some (c_str postdata)) t)
          end
      end
  end.

(** ** The thread of an HTTP action (actions/http.c) *)

Record t_curl_arguments := CurlArguments {
  arg_method : bytes;
  arg_uri : bytes;
  arg_content_type : option bytes;
  arg_postdata : option bytes;
}.

(** A response on one line, shortened for the log. *)
Definition log_response (resp : bytes) : bytes :=
  let resp := sdstrim resp [CR; LF] in
  let resp := sdsmapchars resp [CR; LF] (bs "  ") in
  if 1023 <? Z.of_nat (length resp) then sdsrange resp 0 1020 ++ bs "..." else resp.

(** What is logged. *)
Definition curl_thread (arg : t_curl_arguments) t : option (bytes * bytes * T) :=
  '(_, resp_header, resp_body, t) ←
    http_client (arg_method arg) (arg_uri arg) (arg_content_type arg) (arg_postdata arg) t;
  Some (log_response resp_header, log_response resp_body, t).

(** ** Functions of scripts *)

Section lua.
Context `{Kernel K}.
Implicit Types (args : list lua_value).

Definition lua_http_result (r : bool * bytes * bytes * T) : list lua_value * T :=
  let '(rc, header, body, t) := r in
  ([lua_boolean rc; lua_string (c_str header); lua_string (c_str body)], t).

(** functions/http.c *)
Definition lua_mympd_sync args t : option (list lua_value * T) :=
  if negb (check_lua_arg_count args 3) then Some (set_lua_rc false, t)
  else
    match arg_tostring args 0, arg_tostring args 1, arg_tostring args 2 with
    | Some uri, Some partition, Some script =>
        lua_http_result <$> http_client (bs "POST") (mympd_uri uri partition)
          (Some (bs "application/json")) (Some (mympd_postdata script)) t
    | _, _, _ => Some (set_lua_rc false, t)
    end.

Definition lua_http_sync args t : option (list lua_value * T) :=
  if negb (check_lua_arg_count args 4) then Some (set_lua_rc false, t)
  else
    match arg_tostring args 0, arg_tostring args 1 with
    | Some method, Some uri =>
        lua_http_result <$> http_client method uri (arg_tostring args 2) (arg_tostring args 3) t
    | _, _ => Some (set_lua_rc false, t)
    end.

(** functions/system.c; one round for each [fread]. *)
Definition READ_SIZE : Z := 10240.

Fixpoint fread_go (fuel : nat) (fp : Z) (output : bytes) t : option (bytes * T) :=
  match fuel with
  | O => None
  | S fuel' =>
      let '(r, t) := fread fp READ_SIZE t in
      match r with
      | [] => Some (output, t)
      | _ => fread_go fuel' fp (output ++ r) t
      end
  end.

Definition lua_system_sync (fuel : nat) args t : option (list lua_value * T) :=
  if negb (check_lua_arg_count args 1) then Some (set_lua_rc false, t)
  else
    match arg_tostring args 0 with
    | None => Some (set_lua_rc false, t)
    | Some cmd =>
        let '(fp, t) := popen cmd t in
        match fp with
        | None => Some (set_lua_rc false, t)
        | Some fp =>
            '(output, t) ← fread_go fuel fp [] t;
            let rc := negb (ferror fp t) in
            let t := pclose fp t in
            Some ([lua_boolean rc; lua_string (c_str output)], t)
        end
    end.

(** *** functions/mpc.c

    The buffer: its length, and its cells up to and with the terminating NUL;
    a cell that was never written is [None]. *)
Definition cells := list (option ascii).

(** [read(fd, output + oldlen, ...)] with [oldlen], which stays 0, and
    sdsIncrLen: the bytes go to the start, the length grows, and the cell after
    the end becomes NUL. *)
Definition read_into (len : nat) (mem : cells) (r : bytes) : nat * cells :=
  let len' := (len + length r)%nat in
  let mem := map Some r ++ drop (length r) mem in
  (len', take len' (mem ++ replicate len' None) ++ [Some NUL]).

Fixpoint mpc_read_go (fuel : nat) (conn : Z) (len : nat) (mem : cells) t : option (nat * cells * T) :=
  match fuel with
  | O => None
  | S fuel' =>
      let '(r, t) := th_read conn READ_SIZE t in
      match r with
      | None | Some [] => Some (len, mem, t)
      | Some r => let '(len, mem) := read_into len mem r in mpc_read_go fuel' conn len mem t
      end
  end.

(** [strncmp(p, s, length s) == 0] for an [s] without NUL; a cell is looked at
    when those before it are equal. *)
Fixpoint cells_prefix (s : bytes) (p : cells) : option bool :=
  match s, p with
  | [], _ => Some true
  | c :: s', Some d :: p' => if ch c d then cells_prefix s' p' else Some false
  | _ :: _, _ => None
  end.

(** The C string in the buffer. *)
Fixpoint cells_str (p : cells) : option bytes :=
  match p with
  | Some c :: p' => if ch c NUL then Some [] else cons c <$> cells_str p'
  | _ => None
  end.

Definition mpc_ok (len : nat) (mem : cells) : option bool :=
  if (3 <? len)%nat then cells_prefix (bs "OK") (drop (len - 3) mem) else Some false.

Definition lua_mpc_async (fuel : nat) args t : option (list lua_value * T) :=
  if negb (check_lua_arg_count args 1) then Some (set_lua_rc false, t)
  else
    match arg_tostring args 0 with
    | None => Some (set_lua_rc false, t)
    | Some cmd =>
        let '(mpd_conn, t) := th_mpd_connection_new t in
        match mpd_conn with
        | None => Some (set_lua_rc false, t)
        | Some conn =>
            if th_mpd_connection_error conn t
            then Some (set_lua_rc false, th_mpd_connection_free conn t)
            else
              let '(rc, t) := th_mpd_send_command conn (take (Z.to_nat max_mpc_args) (split_args cmd)) t in
              '(rc, mem, t) ←
                (if negb rc then Some (false, [Some NUL], t)
                 else
                   let '(ready, t) := th_poll conn 60000 t in
                   '(len, mem, t) ← (if -1 <? ready then mpc_read_go fuel conn 0 [Some NUL] t
                                     else Some (0%nat, [Some NUL], t));
                   ok ← mpc_ok len mem;
                   Some (ok, mem, t));
              output ← cells_str mem;
              Some ([lua_boolean rc; lua_string output], th_mpd_connection_free conn t)
        end
    end.

(** ** What create_lua_vm registers (async/bytecode.c)

    A function of the daemon is sent to the main thread as a request, see
    [LuaAsync]; the others run in the thread of the script. *)
Inductive thread_function :=
  | Sent (lua_func : lua_cfunction)
  | InThread (run : nat → list lua_value → T → option (list lua_value * T)).

Definition lua_gpio_blink_async := Sent lua_gpioBlink.
Definition lua_gpio_get_async := Sent lua_gpioGet.
Definition lua_gpio_set_async := Sent lua_gpioSet.
Definition lua_gpio_toggle_async := Sent lua_gpioToggle.
Definition lua_input_ev_get_async := Sent lua_inputEvGet.

(** In their order; a later registration of a name replaces an earlier one. *)
Definition create_lua_vm : list (bytes * thread_function) :=
  [(bs "gpioBlink", lua_gpio_blink_async);
   (bs "gpioGet", lua_gpio_get_async);
   (bs "gpioSet", lua_gpio_set_async);
   (bs "gpioToggle", lua_gpio_toggle_async);
   (bs "inputEvGet", lua_input_ev_get_async);
   (bs "system", InThread lua_system_sync);
   (bs "mpc", InThread lua_mpc_async);
   (bs "http", InThread (λ _, lua_mympd_sync));
   (bs "http", InThread (λ _, lua_http_sync))].

(** The global of that name. *)
Definition lua_global (name : bytes) : option thread_function :=
  foldl (λ found e, if bool_decide (e.1 = name) then Some e.2 else found) None create_lua_vm.
End lua.
End thread.

(** ** What they return *)

Section theorems.
Context `{Thread T} `{Kernel K}.
Implicit Types (t : T) (args : list lua_value).

(** The reads of a pipe until its end. *)
Inductive freads (fp : Z) : list bytes → T → T → Prop :=
  | FreadsEnd t t' : fread fp READ_SIZE t = ([], t') → freads fp [] t t'
  | FreadsChunk c cs t t1 t' :
      fread fp READ_SIZE t = (c, t1) → c ≠ [] → freads fp cs t1 t' → freads fp (c :: cs) t t'.

Lemma fread_go_run fp cs t t' fuel output :
  freads fp cs t t' → (length cs < fuel)%nat → fread_go fuel fp output t = Some (output ++ concat cs, t').
Proof.
  intros Hcs. revert fuel output. induction Hcs as [t t' E|c cs t t1 t' E Hc _ IH]; intros [|fuel] output Hf;
    simpl in *; try lia; rewrite E.
  - by rewrite app_nil_r.
  - destruct c as [|c0 c]; [done|]. rewrite IH by lia. by rewrite <- app_assoc.
Qed.

(** A script gets all that its command wrote. *)
Lemma lua_system_sync_run args cmd fp t t1 cs t2 fuel :
  length args = 1%nat → arg_tostring args 0 = Some cmd → popen cmd t = (Some fp, t1) →
  freads fp cs t1 t2 → (length cs < fuel)%nat →
  lua_system_sync fuel args t =
    Some ([lua_boolean (negb (ferror fp t2)); lua_string (c_str (concat cs))], pclose fp t2).
Proof.
  intros Hl Ha Hp Hcs Hf. unfold lua_system_sync, check_lua_arg_count. rewrite Hl, Ha, Hp. cbn [negb Nat.eqb].
  by rewrite (fread_go_run fp cs t1 t2 fuel [] Hcs Hf).
Qed.

(** A connection that was opened, has sent the command and is ready. *)
Definition mpc_ready args (conn : Z) t t1 : Prop :=
  length args = 1%nat ∧ ∃ cmd t2 t3 ready, arg_tostring args 0 = Some cmd ∧
    th_mpd_connection_new t = (Some conn, t2) ∧ th_mpd_connection_error conn t2 = false ∧
    th_mpd_send_command conn (take 10 (split_args cmd)) t2 = (true, t3) ∧
    th_poll conn 60000 t3 = (ready, t1) ∧ -1 < ready.

Inductive mpc_reads (conn : Z) : list bytes → T → T → Prop :=
  | MpcEnd r t t' : th_read conn READ_SIZE t = (r, t') → r = None ∨ r = Some [] → mpc_reads conn [] t t'
  | MpcChunk c cs t t1 t' :
      th_read conn READ_SIZE t = (Some c, t1) → c ≠ [] → mpc_reads conn cs t1 t' → mpc_reads conn (c :: cs) t t'.

(** The buffer after the reads. *)
Definition buffer_of (cs : list bytes) : nat * cells :=
  foldl (λ b c, read_into b.1 b.2 c) (0%nat, [Some NUL]) cs.

Lemma mpc_read_go_run conn cs t t' fuel len mem :
  mpc_reads conn cs t t' → (length cs < fuel)%nat →
  mpc_read_go fuel conn len mem t =
    Some (foldl (λ b c, read_into b.1 b.2 c) (len, mem) cs, t').
Proof.
  intros Hcs. revert fuel len mem. induction Hcs as [r t t' E Hr|c cs t t1 t' E Hc _ IH];
    intros [|fuel] len mem Hf; simpl in Hf; try lia; cbn [mpc_read_go]; rewrite E.
  - by destruct Hr as [-> | ->].
  - destruct c as [|c0 c]; [done|]. cbn [foldl fst snd]. destruct (read_into len mem (c0 :: c)) as [len1 mem1].
    by rewrite IH by lia.
Qed.

Lemma lua_mpc_async_run args conn t t1 cs t2 fuel :
  mpc_ready args conn t t1 → mpc_reads conn cs t1 t2 → (length cs < fuel)%nat →
  lua_mpc_async fuel args t =
    (ok ← mpc_ok (buffer_of cs).1 (buffer_of cs).2;
     output ← cells_str (buffer_of cs).2;
     Some ([lua_boolean ok; lua_string output], th_mpd_connection_free conn t2)).
Proof.
  intros (Hl & cmd & t3 & t4 & ready & Ha & En & Ee & Es & Ep & Hr) Hcs Hf.
  unfold lua_mpc_async, check_lua_arg_count. rewrite Hl, Ha. cbn [negb Nat.eqb]. rewrite En, Ee.
  change (Z.to_nat max_mpc_args) with 10%nat. rewrite Es. cbn [negb]. rewrite Ep.
  rewrite (proj2 (Z.ltb_lt _ _) Hr), (mpc_read_go_run _ _ _ _ _ _ _ Hcs Hf).
  unfold buffer_of. destruct (foldl _ _ cs) as [len mem]. cbn.
  by destruct (mpc_ok len mem) as [ok|].
Qed.

Lemma cells_str_text s rest : cells_str (map Some s ++ Some NUL :: rest) = Some (c_str s).
Proof.
  induction s as [|c s IH]; [done|]. cbn [map app cells_str]. unfold c_str in *. cbn [take_while].
  destruct (ch c NUL); [done|]. cbn [negb]. by rewrite IH.
Qed.

Lemma cells_prefix_text s r rest :
  (length s ≤ length r)%nat → cells_prefix s (map Some r ++ rest) = Some (bool_decide (take (length s) r = s)).
Proof.
  revert r. induction s as [|c s IH]; intros r Hr; [done|].
  destruct r as [|d r]; cbn [length] in *; [lia|]. cbn [map app cells_prefix take]. destruct (ch c d) eqn:E.
  - apply ch_true in E as ->. rewrite IH by lia. f_equal. apply bool_decide_ext. split; [by intros ->|by intros [=]].
  - apply ch_false in E. rewrite bool_decide_eq_false_2; [done|]. by intros [=].
Qed.

(** The answer ends with OK and one more byte. *)
Definition ends_ok (r : bytes) : bool :=
  (3 <? length r)%nat && bool_decide (take 2 (drop (length r - 3) r) = bs "OK").

Lemma buffer_one r : buffer_of [r] = (length r, map Some r ++ [Some NUL]).
Proof.
  unfold buffer_of, read_into. cbn [foldl fst snd Nat.add]. f_equal. f_equal.
  rewrite <- app_assoc, take_app_le by by rewrite length_map. by rewrite take_ge by by rewrite length_map.
Qed.

(** In two reads: the second one overwrites the start of the first. *)
Lemma buffer_two r1 r2 n :
  length r2 = S n → (length r2 < length r1)%nat →
  buffer_of [r1; r2] = ((length r1 + length r2)%nat,
    map Some (r2 ++ drop (length r2) r1) ++ Some NUL :: replicate n None ++ [Some NUL]).
Proof.
  intros Hn Hl. change (buffer_of [r1; r2]) with (read_into (buffer_of [r1]).1 (buffer_of [r1]).2 r2).
  rewrite buffer_one. unfold read_into. cbn [fst snd]. f_equal.
  rewrite drop_app_le by (rewrite length_map; lia). rewrite map_app.
  change (map Some (drop (length r2) r1)) with (Some <$> drop (length r2) r1).
  change (map Some r1) with (Some <$> r1). rewrite fmap_drop.
  set (text := map Some r2 ++ drop (length r2) (Some <$> r1)).
  assert (Ht : length text = length r1).
  { unfold text. rewrite length_app, length_map, length_drop, length_fmap. lia. }
  replace (map Some r2 ++ drop (length r2) (Some <$> r1) ++ [Some NUL]) with (text ++ [Some NUL])
    by (unfold text; by rewrite <- app_assoc).
  rewrite <- app_assoc. rewrite take_app_ge by lia. rewrite Ht, <- app_assoc. f_equal.
  replace (length r1 + length r2 - length r1)%nat with (S n) by lia. cbn [app take]. f_equal.
  by rewrite take_replicate, Nat.min_l by lia.
Qed.

(** C27: The "mpc" function of a script that runs in a thread. When the answer of MPD
    arrives in a single read, the script gets all of it and true if it ends with
    OK. When it takes two, the second read goes to the start of the buffer, over
    the first: after a final read of the three bytes "OK" and line feed the
    script gets false and an answer with its start overwritten; a longer one, but
    shorter than the first, makes the function compare memory that was never
    written. *)
Theorem lua_mpc_async_reads args conn t t1 t2 r1 r2 fuel :
  mpc_ready args conn t t1 → (2 < fuel)%nat →
  (mpc_reads conn [r1] t1 t2 →
   lua_mpc_async fuel args t =
     Some ([lua_boolean (ends_ok r1); lua_string (c_str r1)], th_mpd_connection_free conn t2)) ∧
  (mpc_reads conn [r1; r2] t1 t2 → (length r2 < length r1)%nat →
   (length r2 = 3%nat →
    lua_mpc_async fuel args t =
      Some ([lua_boolean false; lua_string (c_str (r2 ++ drop 3 r1))], th_mpd_connection_free conn t2)) ∧
   ((3 < length r2)%nat → lua_mpc_async fuel args t = None)).
Proof.
  intros Hready Hf. split.
  - intros Hr. rewrite (lua_mpc_async_run _ _ _ _ _ _ _ Hready Hr) by (simpl; lia). rewrite buffer_one. cbn [fst snd].
    rewrite cells_str_text. unfold mpc_ok, ends_ok. destruct (Nat.ltb_spec 3 (length r1)); [|done].
    rewrite drop_app_le by (rewrite length_map; lia). change (map Some r1) with (Some <$> r1).
    rewrite <- fmap_drop. change (Some <$> ?l) with (map Some l).
    rewrite cells_prefix_text by (rewrite length_drop; simpl; lia). done.
  - intros Hr Hl. rewrite (lua_mpc_async_run _ _ _ _ _ _ _ Hready Hr) by (simpl; lia).
    set (text := r2 ++ drop (length r2) r1).
    assert (Ht : length text = length r1) by (unfold text; rewrite length_app, length_drop; lia).
    destruct (length r2) as [|n] eqn:En; [split; lia|]. rewrite (buffer_two r1 r2 n En) by lia. cbn [fst snd].
    rewrite En. fold text. rewrite cells_str_text. unfold mpc_ok.
    split; intros Hn.
    + assert (n = 2%nat) as -> by lia. rewrite (proj2 (Nat.ltb_lt _ _)) by lia.
      rewrite drop_app_ge by (rewrite length_map; lia). rewrite length_map, Ht.
      by replace (length r1 + 3 - 3 - length r1)%nat with 0%nat by lia.
    + rewrite (proj2 (Nat.ltb_lt _ _)) by lia.
      rewrite drop_app_ge by (rewrite length_map; lia). rewrite length_map, Ht.
      replace (length r1 + S n - 3 - length r1)%nat with (S (n - 3)) by lia. cbn [drop].
      rewrite drop_app_le by (rewrite length_replicate; lia). rewrite drop_replicate.
      by replace (n - (n - 3))%nat with 3%nat by lia.
Qed.

(** ** Registration *)

(** myMPD is registered under the name of the HTTP function and then replaced. *)
Lemma mympd_not_registered :
  lua_global (T := T) (bs "mympd") = None ∧ lua_global (T := T) (bs "http") = Some (InThread (λ _, lua_http_sync)).
Proof. done. Qed.

(** Post data without a content type. *)
Lemma http_no_content_type method uri postdata curl t t1 :
  curl_easy_init t = (Some curl, t1) → http_client method uri None (Some postdata) t = None.
Proof. intros E. unfold http_client. by rewrite E. Qed.
End theorems.

(** ** A witness *)

(** The state is what can be read. *)
#[export] Instance sim_thread : Thread (list bytes) := {|
  curl_easy_init t := (Some 1, t);
  curl_slist_append h t := (Some 1, t);
  curl_easy_perform r t := (0, [], t, []);
  curl_easy_cleanup c t := t;
  file_contents f t := None;
  popen c t := (Some 1, t);
  fread fp n t := match t with [] => ([], []) | c :: t => (c, t) end;
  ferror fp t := false;
  pclose fp t := t;
  th_mpd_connection_new t := (Some 1, t);
  th_mpd_connection_error c t := false;
  th_mpd_send_command c args t := (true, t);
  th_poll c timeout t := (1, t);
  th_read c n t := match t with [] => (None, []) | c :: t => (Some c, t) end;
  th_mpd_connection_free c t := t;
|}.

Definition volume_line : bytes := bs "volume: 50" ++ [LF].
Definition ok_line : bytes := bs "OK" ++ [LF].

Definition mpd_status : list (@lua_value sim sim_kernel) := [bs "status"].

Lemma lua_mpc_async_reads_witness :
  lua_mpc_async 3 mpd_status [volume_line ++ ok_line] =
    Some ([lua_boolean true; lua_string (volume_line ++ ok_line)], []) ∧
  lua_mpc_async 3 mpd_status [volume_line; ok_line] =
    Some ([lua_boolean false; lua_string (bs "OK" ++ [LF] ++ bs "ume: 50" ++ [LF])], []).
Proof.
  assert (Hready : ∀ t, mpc_ready mpd_status 1 t t).
  { intros t. split; [done|]. by exists (bs "status"), t, t, 1. }
  split.
  - apply (proj1 (lua_mpc_async_reads mpd_status 1 _ [volume_line ++ ok_line] [] (volume_line ++ ok_line) [] 3
                    (Hready _) ltac:(lia))).
    eapply MpcChunk; [done|done|]. eapply MpcEnd; [done|by left].
  - apply (proj2 (lua_mpc_async_reads mpd_status 1 _ [volume_line; ok_line] [] volume_line ok_line 3
                    (Hready _) ltac:(lia))); [|simpl; lia|done].
    eapply MpcChunk; [done|done|]. eapply MpcChunk; [done|done|]. eapply MpcEnd; [done|by left].
Defined.
