(* ===== verification/Protocol.v ===== *)
(** * The socket protocol

    mygpiod/server_socket/protocol.c and the command handlers of gpio.c,
    event.c, hook.c, timerev.c and raspberry.c, with vcgencmd of
    mygpiod/raspberry/vcgencmd.c and server_client_disconnect of socket.c. A
    [client_node] is the address [p] of a node of [clients]. *)

From S2P Require Import Prelude CLib ParseUtil Sds Lists GpioUtil Config Kernel Timer InputNames.
From S2P Require Import Events Gpio Actions GpioEvent.

(** ** Commands (protocol.h) *)

Inductive cmd_ids :=
  | CMD_INVALID | CMD_CLOSE | CMD_IDLE | CMD_NOIDLE | CMD_GPIOLIST | CMD_GPIOGET | CMD_GPIOSET
  | CMD_GPIOTOGGLE | CMD_GPIOBLINK | CMD_GPIOINFO | CMD_EVENT | CMD_VCIOTEMP | CMD_VCIOVOLTS
  | CMD_VCIOCLOCK | CMD_VCIOTHROTTLED | CMD_HOOK | CMD_TIMEREVLIST | CMD_COUNT.

#[export] Instance cmd_ids_eq_dec : EqDecision cmd_ids.
Proof. solve_decision. Defined.

(** The enumerators before [CMD_COUNT] with their strings, in order. *)
Definition cmd_strs : list (cmd_ids * bytes) := [
  (CMD_INVALID, bs "CMD_INVALID"); (CMD_CLOSE, bs "CMD_CLOSE"); (CMD_IDLE, bs "CMD_IDLE");
  (CMD_NOIDLE, bs "CMD_NOIDLE"); (CMD_GPIOLIST, bs "CMD_GPIOLIST");
  (CMD_GPIOGET, bs "CMD_GPIOGET"); (CMD_GPIOSET, bs "CMD_GPIOSET");
  (CMD_GPIOTOGGLE, bs "CMD_GPIOTOGGLE"); (CMD_GPIOBLINK, bs "CMD_GPIOBLINK");
  (CMD_GPIOINFO, bs "CMD_GPIOINFO"); (CMD_EVENT, bs "CMD_EVENT");
  (CMD_VCIOTEMP, bs "CMD_VCIOTEMP"); (CMD_VCIOVOLTS, bs "CMD_VCIOVOLTS");
  (CMD_VCIOCLOCK, bs "CMD_VCIOCLOCK"); (CMD_VCIOTHROTTLED, bs "CMD_VCIOTHROTTLED");
  (CMD_HOOK, bs "CMD_HOOK"); (CMD_TIMEREVLIST, bs "CMD_TIMEREVLIST")].

Fixpoint find_cmd (strs : list (cmd_ids * bytes)) (cmd : bytes) : cmd_ids :=
  match strs with
  | [] => CMD_INVALID
  | (i, s) :: rest => if strcmp0 cmd s then i else find_cmd rest cmd
  end.

Definition get_cmd_id (cmd : bytes) : cmd_ids := find_cmd cmd_strs cmd.

Definition parse_command (cmd : bytes) : cmd_ids :=
  get_cmd_id (sdstoupper (bs "CMD_" ++ c_str cmd)).

Section protocol.
Context `{Kernel K} `{Build}.
Implicit Types (p : positive) (args : list bytes).

(** [options->args[i]] and [options->len] *)
Definition arg args (i : nat) : option bytes := args !! i.
Definition args_len args : Z := Z.of_nat (length args).

(** [server_response_send(client_data, DEFAULT_MSG_ERROR msg); return false] *)
Definition send_error p (msg : bytes) : M K bool :=
  _ ← server_response_send p (DEFAULT_MSG_ERROR ++ msg);
  mret false.

(** [server_response_send(client_data, DEFAULT_MSG_OK "\n" DEFAULT_MSG_END); return true] *)
Definition send_ok_end p : M K bool :=
  _ ← server_response_send p MSG_OK_END;
  mret true.

(** ** GPIO commands (gpio.c) *)

Definition gpiolist_entry p (direction name : bytes) (id : Z) : M K unit :=
  _ ← server_response_append p (bs "gpio:" ++ print_u id);
  _ ← server_response_append p (bs "direction:" ++ direction);
  v ← gpio_get_value id;
  _ ← server_response_append p (bs "value:" ++ lookup_gpio_value v);
  server_response_append p (bs "name:" ++ c_str name).

Definition handle_gpiolist p : M K bool :=
  _ ← server_response_start p;
  _ ← server_response_append p DEFAULT_MSG_OK;
  gins ← gets gpios_in;
  _ ← for_each gins (λ current,
        gpiolist_entry p (bs "in") (in_name (n_data current)) (n_id current));
  gouts ← gets gpios_out;
  _ ← for_each gouts (λ current,
        gpiolist_entry p (bs "out") (out_name (n_data current)) (n_id current));
  _ ← server_response_append p DEFAULT_MSG_END;
  _ ← server_response_end p;
  mret true.

(** The lines about an input GPIO. *)
Definition gpioinfo_in p (gpio id : Z) (data : t_gpio_in_data) : M K unit :=
  c ← gets chip;
  info ← sys (gpiod_chip_get_line_info c id);
  match info with
  | None => mret tt
  | Some info =>
      _ ← server_response_append p (bs "direction:in");
      v ← gpio_get_value gpio;
      _ ← server_response_append p (bs "value:" ++ lookup_gpio_value v);
      _ ← server_response_append p
            (bs "active_low:" ++ mygpio_bool_to_str (gpiod_line_info_is_active_low info));
      _ ← server_response_append p (bs "bias:" ++ lookup_bias (gpiod_line_info_get_bias info));
      _ ← server_response_append p
            (bs "event_request:" ++ lookup_event_request (gpiod_line_info_get_edge_detection info));
      _ ← server_response_append p
            (bs "is_debounced:" ++ mygpio_bool_to_str (gpiod_line_info_is_debounced info));
      _ ← server_response_append p
            (bs "debounce_period_us:" ++ print_u (gpiod_line_info_get_debounce_period_us info));
      _ ← server_response_append p
            (bs "event_clock:" ++ lookup_event_clock (gpiod_line_info_get_event_clock info));
      server_response_append p (bs "name:" ++ c_str (in_name data))
  end.

(** The lines about an output GPIO. *)
Definition gpioinfo_out p (gpio id : Z) (data : t_gpio_out_data) : M K unit :=
  c ← gets chip;
  info ← sys (gpiod_chip_get_line_info c id);
  match info with
  | None => mret tt
  | Some info =>
      _ ← server_response_append p (bs "direction:out");
      v ← gpio_get_value gpio;
      _ ← server_response_append p (bs "value:" ++ lookup_gpio_value v);
      _ ← server_response_append p (bs "drive:" ++ lookup_drive (gpiod_line_info_get_drive info));
      server_response_append p (bs "name:" ++ c_str (out_name data))
  end.

(** The common frame of a [gpioinfo] answer. *)
Definition gpioinfo_answer p (gpio : Z) (body : M K unit) : M K bool :=
  _ ← server_response_start p;
  _ ← server_response_append p DEFAULT_MSG_OK;
  _ ← server_response_append p (bs "gpio:" ++ print_u gpio);
  _ ← body;
  _ ← server_response_append p DEFAULT_MSG_END;
  _ ← server_response_end p;
  mret true.

Definition handle_gpioinfo args p : M K bool :=
  if negb (args_len args =? 2) then send_error p (bs "Invalid number of arguments")
  else
    match mygpio_parse_uint (arg args 1) true 0 GPIOS_MAX with
    | None => send_error p (bs "Invalid GPIO number")
    | Some (gpio, _) =>
        gins ← gets gpios_in;
        match list_node_by_id gins gpio with
        | Some node => gpioinfo_answer p gpio (gpioinfo_in p gpio (n_id node) (n_data node))
        | None =>
            gouts ← gets gpios_out;
            match list_node_by_id gouts gpio with
            | Some node => gpioinfo_answer p gpio (gpioinfo_out p gpio (n_id node) (n_data node))
            | None => send_error p (bs "GPIO not configured")
            end
        end
    end.

Definition handle_gpioget args p : M K bool :=
  if negb (args_len args =? 2) then send_error p (bs "Invalid number of arguments")
  else
    match mygpio_parse_uint (arg args 1) true 0 GPIOS_MAX with
    | None => send_error p (bs "Invalid GPIO number")
    | Some (gpio, _) =>
        value ← gpio_get_value gpio;
        if decide (value = GPIOD_LINE_VALUE_ERROR)
        then send_error p (bs "Getting GPIO value failed")
        else
          _ ← server_response_start p;
          _ ← server_response_append p DEFAULT_MSG_OK;
          _ ← server_response_append p (bs "value:" ++ lookup_gpio_value value);
          _ ← server_response_append p DEFAULT_MSG_END;
          _ ← server_response_end p;
          mret true
    end.

Definition handle_gpioset args p : M K bool :=
  if negb (args_len args =? 3) then send_error p (bs "Invalid number of arguments")
  else
    match mygpio_parse_uint (arg args 1) true 0 GPIOS_MAX with
    | None => send_error p (bs "Invalid GPIO number")
    | Some (gpio, _) =>
        let '(value, einval) := parse_gpio_value (default [] (arg args 2)) in
        if (einval : bool) then send_error p (bs "Invalid value")
        else
          ok ← gpio_set_value gpio value;
          if (ok : bool) then send_ok_end p
          else send_error p (bs "Setting GPIO value failed")
    end.

Definition handle_gpiotoggle args p : M K bool :=
  if negb (args_len args =? 2) then send_error p (bs "Invalid number of arguments")
  else
    match mygpio_parse_uint (arg args 1) true 0 GPIOS_MAX with
    | None => send_error p (bs "Invalid GPIO number")
    | Some (gpio, _) =>
        ok ← gpio_toggle_value gpio;
        if (ok : bool) then send_ok_end p
        else send_error p (bs "Setting GPIO value failed")
    end.

Definition handle_gpioblink args p : M K bool :=
  if negb (args_len args =? 4) then send_error p (bs "Invalid number of arguments")
  else
    match mygpio_parse_uint (arg args 1) true 0 GPIOS_MAX with
    | None => send_error p (bs "Invalid GPIO number")
    | Some (gpio, _) =>
        match mygpio_parse_int (arg args 2) true 0 TIMEOUT_MS_MAX with
        | None => send_error p (bs "Invalid timeout")
        | Some (timeout, _) =>
            match mygpio_parse_int (arg args 3) true 0 TIMEOUT_MS_MAX with
            | None => send_error p (bs "Invalid interval")
            | Some (interval, _) =>
                ok ← gpio_blink gpio timeout interval;
                if (ok : bool) then send_ok_end p
                else send_error p (bs "Setting GPIO to blinking")
            end
        end
    end.

(** ** Synthetic events of debug builds (event.c) *)

Definition handle_event args p : M K bool :=
  if negb (args_len args =? 3) then send_error p (bs "Invalid number of arguments")
  else
    match mygpio_parse_uint (arg args 1) true 0 GPIOS_MAX with
    | None => send_error p (bs "Invalid GPIO number")
    | Some (gpio, _) =>
        let '(event_type, einval) := parse_event_type (default [] (arg args 2)) in
        if (einval : bool) then send_error p (bs "Invalid event type")
        else
          gins ← gets gpios_in;
          match list_node_by_id gins gpio with
          | None => send_error p (bs "GPIO not configured")
          | Some node =>
              ts ← sys (clock_gettime CLOCK_REALTIME);
              match ts with
              | None => undefined
              | Some (tv_sec, tv_nsec) =>
                  _ ← gpio_action_handle gpio (u64 (tv_sec * 1000000000 + tv_nsec)) event_type
                        (n_ptr node);
                  send_ok_end p
              end
          end
    end.

(** ** Hooks and timers (hook.c, timerev.c) *)

Definition handle_hook args p : M K bool :=
  if negb (args_len args =? 2) then send_error p (bs "Invalid number of arguments")
  else
    found ← hook_action_handler (default [] (arg args 1));
    if (found : bool) then send_ok_end p else send_error p (bs "Invalid hook").

Definition handle_timerevlist p : M K bool :=
  _ ← server_response_start p;
  _ ← server_response_append p DEFAULT_MSG_OK;
  timers ← gets timer_definitions;
  _ ← for_each timers (λ current,
        let data := n_data current in
        _ ← server_response_append p (bs "name:" ++ c_str (td_name data));
        next ← timer_get_next_expire_ts (td_fd data);
        server_response_append p (bs "next:" ++ print_d next));
  _ ← server_response_append p DEFAULT_MSG_END;
  _ ← server_response_end p;
  mret true.

(** ** Raspberry Pi firmware (vcgencmd.c, raspberry.c) *)

Definition DEVICE_FILE_NAME : bytes := bs "/dev/vcio".
Definition MAX_STRING : Z := 1024.
Definition GET_GENCMD_RESULT : Z := 196736.

Definition mbox_open : M K Z :=
  file_desc ← sys (open DEVICE_FILE_NAME 0);
  mret (if file_desc <? 0 then -1 else file_desc).

(** The result buffer and [(int)p[5]]. *)
Definition gencmd (file_desc : Z) (command buffer : bytes) : M K (Z * bytes) :=
  let header := [(6 + MAX_STRING / 4 + 1) * 4; 0; GET_GENCMD_RESULT; MAX_STRING; 0; 0] in
  r ← sys (ioctl_mbox file_desc header (c_str command ++ [NUL]));
  let '(ret_val, p5, response) := r in
  mret (i32 p5,
        if ret_val <? 0 then buffer ++ bs "ioctl_set_msg failed" else buffer ++ response).

(** [strchr(buffer, c) - buffer], -1 when there is none. *)
Definition index_of (buffer : bytes) (c : ascii) : Z :=
  match strchr buffer c with
  | None => -1
  | Some e => Z.of_nat (length (c_str buffer)) - Z.of_nat (length e)
  end.

Definition vcgencmd (command : bytes) : M K (bytes * bool) :=
  mb ← mbox_open;
  if mb =? -1 then mret (bs "Can't open device file: " ++ DEVICE_FILE_NAME, false)
  else
    r ← gencmd mb command [];
    let '(ret, buffer) := r in
    let start := index_of buffer "=" in
    let buffer' :=
      if (-1 <? start) && (start + 1 <? Z.of_nat (length buffer))
      then sdsrange buffer (start + 1) (-1) else buffer in
    _ ← sys_ (close mb);
    mret (if ret =? 0 then (buffer', true) else (buffer, false)).

Definition handle_raspberry_vcio p (command : bytes) : M K bool :=
  r ← vcgencmd command;
  let '(result, rc) := r in
  if negb rc then send_error p result
  else
    _ ← server_response_start p;
    _ ← server_response_append p DEFAULT_MSG_OK;
    _ ← server_response_append p (bs "value:" ++ c_str result);
    _ ← server_response_append p DEFAULT_MSG_END;
    _ ← server_response_end p;
    mret true.

(** ** Disconnecting (socket.c) *)

(** server_client_connection_clear on the data of the unlinked node *)
Definition server_client_connection_clear (data : t_client_data) : M K unit :=
  _ ← close_fd (client_fd data);
  _ ← close_fd (timeout_fd data);
  set_update_pollfds.

Definition server_client_disconnect p : M K bool :=
  cls ← gets clients;
  match list_deref cls p with
  | None => mret false
  | Some node =>
      _ ← modify (λ c, c <| clients ::= list_del p |>);
      _ ← server_client_connection_clear (n_data node);
      mret true
  end.

(** ** Dispatch (protocol.c) *)

Definition dispatch_command (cmd_id : cmd_ids) args p : M K bool :=
  match cmd_id with
  | CMD_CLOSE => server_client_disconnect p
  | CMD_IDLE => handle_idle p
  | CMD_NOIDLE => handle_noidle p
  | CMD_GPIOGET => handle_gpioget args p
  | CMD_GPIOSET => handle_gpioset args p
  | CMD_GPIOTOGGLE => handle_gpiotoggle args p
  | CMD_GPIOBLINK => handle_gpioblink args p
  | CMD_GPIOLIST => handle_gpiolist p
  | CMD_GPIOINFO => handle_gpioinfo args p
  | CMD_EVENT => if MYGPIOD_DEBUG then handle_event args p else mret false
  | CMD_VCIOTEMP => handle_raspberry_vcio p (bs "measure_temp")
  | CMD_VCIOVOLTS => handle_raspberry_vcio p (bs "measure_volts core")
  | CMD_VCIOCLOCK => handle_raspberry_vcio p (bs "measure_clock arm")
  | CMD_VCIOTHROTTLED => handle_raspberry_vcio p (bs "get_throttled")
  | CMD_HOOK => handle_hook args p
  | CMD_TIMEREVLIST => handle_timerevlist p
  | CMD_INVALID | CMD_COUNT => send_error p (bs "Invalid command")
  end.

Definition server_protocol_handler p : M K bool :=
  client_data ← deref clients p;
  let args := split_args (buf_in client_data) in
  _ ← upd_client p (λ d, d <| buf_in := [] |>);
  match args with
  | [] => mret true
  | cmd :: _ =>
      let cmd_id := parse_command cmd in
      if bool_decide (state client_data = CLIENT_SOCKET_STATE_IDLE)
         && negb (bool_decide (cmd_id = CMD_NOIDLE))
      then send_error p (bs "In idle state, only the noidle command is allowed")
      else dispatch_command cmd_id args p
  end.
End protocol.
