(* ===== verification/Http.v ===== *)
(** * The HTTP server

    mygpiod/server_http: the request handler of httpd.c, the REST API
    (rest_api.c, rest_api_gpio.c, rest_api_timerev.c, rest_api_raspberry.c), the
    hooks (hook.c), the embedded files (webui.c) and the connection data of util.c.
    libmicrohttpd calls [request_handler] and [http_connection_done]; the result of
    a handler is what it passes to [MHD_queue_response]. *)

From S2P Require Import Prelude CLib ParseUtil Sds Lists GpioUtil Config Kernel Timer InputNames.
From S2P Require Import Events Gpio Actions GpioEvent Protocol.

Inductive http_method := HTTP_UNKNOWN | HTTP_GET | HTTP_OPTIONS | HTTP_PATCH.

#[export] Instance http_method_eq_dec : EqDecision http_method.
Proof. solve_decision. Defined.

Definition http_parse_method (method : bytes) : http_method :=
  if strcmp0 method (bs "GET") then HTTP_GET
  else if strcmp0 method (bs "OPTIONS") then HTTP_OPTIONS
  else if strcmp0 method (bs "PATCH") then HTTP_PATCH
  else HTTP_UNKNOWN.

Definition http_lookup_method (method : http_method) : option bytes :=
  match method with
  | HTTP_GET => Some (bs "GET")
  | HTTP_OPTIONS => Some (bs "OPTIONS")
  | HTTP_PATCH => Some (bs "PATCH")
  | HTTP_UNKNOWN => None
  end.

Definition MHD_HTTP_OK : Z := 200.
Definition MHD_HTTP_NOT_FOUND : Z := 404.
Definition MHD_HTTP_INTERNAL_SERVER_ERROR : Z := 500.

(** Nothing is queued, or a response: status code, content type and body. *)
Inductive http_reply := NoReply | Reply (status : Z) (content_type body : bytes).

(** A literal of the source, written with apostrophes for quotation marks. *)
Definition dq (s : string) : bytes := map (λ c, if ch c "'" then DQUOTE else c) (bs s).

Definition APPLICATION_JSON : bytes := bs "application/json".
Definition TEXT_PLAIN : bytes := bs "text/plain; charset=utf-8".

(** ** URLs (rest_api.c) *)

(** The first loop of match_url_gpio: what is left of the pattern, from its star
    on, and of the URL. *)
Fixpoint match_prefix (pattern url : bytes) : option (bytes * bytes) :=
  match pattern with
  | [] => Some ([], url)
  | c :: pattern' =>
      if ch c "*" then Some (pattern, url)
      else
        match url with
        | d :: url' => if ch c d then match_prefix pattern' url' else None
        | [] => None
        end
  end.

(** The third loop: it ends with the pattern, wherever the URL ends. *)
Fixpoint match_suffix (pattern url : bytes) : bool :=
  match pattern, url with
  | [], _ => true
  | c :: pattern', d :: url' => ch c d && match_suffix pattern' url'
  | _ :: _, [] => false
  end.

Definition match_url_gpio (url pattern : bytes) : option Z :=
  '(pattern_i, url_i) ← match_prefix pattern (c_str url);
  let number := take_while (λ c, negb (ch c "/")) url_i in
  '(gpio, _) ← mygpio_parse_uint (Some number) true 1 GPIOS_MAX;
  if match_suffix (drop 1 pattern_i) (drop (length number) url_i) then Some gpio else None.

Section http.
Context `{Kernel K} `{Build}.
Implicit Types (buffer url : bytes).

(** [MHD_lookup_connection_value] of the connection, for arguments of the URL. *)
Implicit Types (args : bytes → option bytes).

(** ** GPIOs (rest_api_gpio.c) *)

(** The body of both loops of rest_api_gpio_get. *)
Definition rest_gpio_entry buffer (i id : Z) (name direction : bytes) : M K bytes :=
  let buffer := if i =? 0 then buffer else buffer ++ bs "," in
  let buffer := buffer ++ bs "{" ++ dq "'gpio':" ++ print_u id ++ bs "," in
  let buffer := sds_catjson (buffer ++ dq "'name':") name ++ bs "," in
  let buffer := buffer ++ dq "'direction':'" ++ direction ++ dq "'," ++ dq "'value':" in
  v ← gpio_get_value id;
  mret (sds_catjson buffer (lookup_gpio_value v) ++ bs "}").

Fixpoint rest_gpio_entries {A} (name : A → bytes) (direction : bytes) (l : t_list A) buffer (i : Z)
    : M K (bytes * Z) :=
  match l with
  | [] => mret (buffer, i)
  | current :: l' =>
      buffer ← rest_gpio_entry buffer i (n_id current) (name (n_data current)) direction;
      rest_gpio_entries name direction l' buffer (u32 (i + 1))
  end.

Definition rest_api_gpio_get buffer : M K (bytes * bool) :=
  let buffer := buffer ++ dq "{'data':[" in
  gins ← gets gpios_in;
  r ← rest_gpio_entries in_name (bs "in") gins buffer 0;
  let '(buffer, i) := r in
  gouts ← gets gpios_out;
  r ← rest_gpio_entries out_name (bs "out") gouts buffer i;
  let '(buffer, i) := r in
  mret (buffer ++ dq "],'entries':" ++ print_u i ++ bs "}", true).

Definition rest_api_gpio_gpio_get buffer (gpio_nr : Z) : M K (bytes * bool) :=
  value ← gpio_get_value gpio_nr;
  if decide (value = GPIOD_LINE_VALUE_ERROR)
  then mret (buffer ++ dq "{'error':'Getting GPIO value failed'}", false)
  else mret (buffer ++ bs "{" ++ dq "'gpio': " ++ print_u gpio_nr ++ bs "," ++
             dq "'value':'" ++ lookup_gpio_value value ++ dq "'" ++ bs "}", true).

Definition rest_options_in buffer (data : t_gpio_in_data) (info : line_info) : bytes :=
  let buffer := sds_catjson (buffer ++ dq "'name':") (in_name data) ++ bs "," in
  let buffer := buffer ++ dq "'direction':'in'," in
  let buffer := buffer ++ dq "'active_low':" ++ bool_to_str (gpiod_line_info_is_active_low info) ++ bs "," in
  let buffer := sds_catjson (buffer ++ dq "'bias':") (lookup_bias (gpiod_line_info_get_bias info)) ++ bs "," in
  let buffer := sds_catjson (buffer ++ dq "'event_request':")
                  (lookup_event_request (gpiod_line_info_get_edge_detection info)) ++ bs "," in
  let buffer := buffer ++ dq "'is_debounced':" ++ bool_to_str (gpiod_line_info_is_debounced info) ++ bs "," in
  let buffer := buffer ++ dq "'debounce_period_us':" ++
                  print_d (gpiod_line_info_get_debounce_period_us info) ++ bs "," in
  sds_catjson (buffer ++ dq "'event_clock':") (lookup_event_clock (gpiod_line_info_get_event_clock info)).

Definition rest_options_out buffer (data : t_gpio_out_data) (info : line_info) : bytes :=
  let buffer := sds_catjson (buffer ++ dq "'name':") (out_name data) ++ bs "," in
  let buffer := buffer ++ dq "'direction':'out'," in
  sds_catjson (buffer ++ dq "'drive':") (lookup_drive (gpiod_line_info_get_drive info)).

(** From the line information on; [settings] is the branch for the direction. *)
Definition rest_options_answer buffer (gpio_nr id : Z) (settings : bytes → line_info → bytes)
    : M K (bytes * bool) :=
  c ← gets chip;
  info ← sys (gpiod_chip_get_line_info c id);
  match info with
  | None => mret (buffer ++ dq "{'error':'Failure geeting GPIO info'}", false)
  | Some info =>
      let buffer := buffer ++ dq "{'data':" ++ bs "{" ++ dq "'gpio':" ++ print_u gpio_nr ++ bs "," in
      v ← gpio_get_value gpio_nr;
      let buffer := sds_catjson (buffer ++ dq "'value':") (lookup_gpio_value v) ++ bs "," in
      mret (settings buffer info ++ bs "}}", true)
  end.

Definition rest_api_gpio_gpio_options buffer (gpio_nr : Z) : M K (bytes * bool) :=
  gins ← gets gpios_in;
  match list_node_by_id gins gpio_nr with
  | Some node => rest_options_answer buffer gpio_nr (n_id node) (λ b, rest_options_in b (n_data node))
  | None =>
      gouts ← gets gpios_out;
      match list_node_by_id gouts gpio_nr with
      | Some node => rest_options_answer buffer gpio_nr (n_id node) (λ b, rest_options_out b (n_data node))
      | None => mret (buffer ++ dq "{'error':'GPIO not configured'}", false)
      end
  end.

(** The end of the PATCH handlers. *)
Definition rest_result buffer (rc : bool) (error : bytes) : bytes * bool :=
  (buffer ++ (if rc then dq "{'message':'OK'}" else dq "{'error':'" ++ error ++ dq "'}"), rc).

Definition rest_api_gpio_gpio_blink buffer (gpio_nr : Z) args : M K (bytes * bool) :=
  let invalid := mret (buffer ++ dq "{'error':'Parameter 'timeout' or 'interval' not found or invalid'}", false) in
  match args (bs "timeout"), args (bs "interval") with
  | Some timeout, Some interval =>
      match mygpio_parse_int (Some timeout) true 0 TIMEOUT_MS_MAX,
            mygpio_parse_int (Some interval) true 0 TIMEOUT_MS_MAX with
      | Some (timeout_i, _), Some (interval_i, _) =>
          rc ← gpio_blink gpio_nr timeout_i interval_i;
          mret (rest_result buffer rc (bs "Blinking GPIO failed"))
      | _, _ => invalid
      end
  | _, _ => invalid
  end.

Definition rest_api_gpio_gpio_set buffer (gpio_nr : Z) args : M K (bytes * bool) :=
  match args (bs "value") with
  | None => mret (buffer ++ dq "{'error':'Parameter 'value' not found'}", false)
  | Some value =>
      let '(line_value, einval) := parse_gpio_value value in
      if (einval : bool) then mret (buffer ++ dq "{'error':'Invalid value'}", false)
      else
        rc ← gpio_set_value gpio_nr line_value;
        mret (rest_result buffer rc (bs "Setting GPIO failed"))
  end.

Definition rest_api_gpio_gpio_toggle buffer (gpio_nr : Z) : M K (bytes * bool) :=
  rc ← gpio_toggle_value gpio_nr;
  mret (rest_result buffer rc (bs "Toggling GPIO failed")).

(** ** Timers (rest_api_timerev.c) *)

Fixpoint rest_timer_entries (l : t_list t_timer_definition) buffer (i : Z) : M K (bytes * Z) :=
  match l with
  | [] => mret (buffer, i)
  | current :: l' =>
      let data := n_data current in
      let buffer := if i =? 0 then buffer else buffer ++ bs "," in
      let buffer := sds_catjson (buffer ++ dq "{'name':") (td_name data) ++ bs "," in
      next ← timer_get_next_expire_ts (td_fd data);
      rest_timer_entries l' (buffer ++ dq "'next':" ++ print_d next ++ bs "}") (u32 (i + 1))
  end.

Definition rest_api_timerev_list buffer : M K (bytes * bool) :=
  timers ← gets timer_definitions;
  r ← rest_timer_entries timers (buffer ++ dq "{'timers':[") 0;
  let '(buffer, i) := r in
  mret (buffer ++ dq "],'entries':" ++ print_u i ++ bs "}", true).

(** ** Raspberry Pi firmware (rest_api_raspberry.c) *)

Definition rest_api_raspberry_vcio buffer (command : bytes) : M K (bytes * bool) :=
  r ← vcgencmd command;
  let '(result, rc) := r in
  mret (sds_catjson (buffer ++ (if (rc : bool) then dq "{'value':" else dq "{'error':")) result ++ bs "}", rc).

(** The loop over [commands] and [keys], with [result] and [rc] when it stops. *)
Fixpoint vcio_go (commands : list (bytes * bytes)) buffer (i : Z) (result : bytes) (rc : bool)
    : M K (bytes * bytes * bool) :=
  match commands with
  | [] => mret (buffer, result, rc)
  | (command, key) :: commands' =>
      r ← vcgencmd command;
      let '(result, rc) := r in
      if negb rc then mret (buffer, result, rc)
      else
        let buffer := if i =? 0 then buffer else buffer ++ bs "," in
        let buffer := buffer ++ dq "'" ++ key ++ dq "':" in
        vcio_go commands' (sds_catjson buffer result) (u32 (i + 1)) result rc
  end.

Definition vcio_commands : list (bytes * bytes) :=
  [(bs "measure_temp", bs "temp"); (bs "measure_volts core", bs "volts");
   (bs "measure_clock arm", bs "clock"); (bs "get_throttled", bs "throttled")].

Definition rest_api_raspberry_vcio_all buffer : M K (bytes * bool) :=
  r ← vcio_go vcio_commands (buffer ++ dq "{'values':{") 0 [] false;
  let '(buffer, result, rc) := r in
  mret (if (rc : bool) then buffer ++ bs "}}"
        else sds_catjson (dq "{'error':") result ++ bs "}", rc).

(** ** Dispatch (rest_api.c) *)

Definition rest_invalid buffer : M K (bytes * bool) :=
  mret (buffer ++ dq "{'error':'Invalid API request'}", false).

(** The routes are tried in their order; [gpio] routes match the URL. *)
Definition rest_gpio_route url (pattern : string) (handler : Z → M K (bytes * bool))
    (next : M K (bytes * bool)) : M K (bytes * bool) :=
  match match_url_gpio url (bs pattern) with
  | Some gpio_nr => handler gpio_nr
  | None => next
  end.

Definition rest_route url (path : string) (handler next : M K (bytes * bool)) : M K (bytes * bool) :=
  if strcmp0 url (bs path) then handler else next.

Definition rest_dispatch url (method : http_method) args : M K (bytes * bool) :=
  let buffer : bytes := [] in
  match method with
  | HTTP_GET =>
      rest_route url "/api/v1/gpio" (rest_api_gpio_get buffer)
      (rest_gpio_route url "/api/v1/gpio/*" (rest_api_gpio_gpio_get buffer)
      (rest_route url "/api/v1/vcio" (rest_api_raspberry_vcio_all buffer)
      (rest_route url "/api/v1/vcio/temp" (rest_api_raspberry_vcio buffer (bs "measure_temp"))
      (rest_route url "/api/v1/vcio/volts" (rest_api_raspberry_vcio buffer (bs "measure_volts core"))
      (rest_route url "/api/v1/vcio/clock" (rest_api_raspberry_vcio buffer (bs "measure_clock arm"))
      (rest_route url "/api/v1/vcio/throttled" (rest_api_raspberry_vcio buffer (bs "get_throttled"))
      (rest_route url "/api/v1/timerev" (rest_api_timerev_list buffer)
      (rest_invalid buffer))))))))
  | HTTP_OPTIONS =>
      rest_gpio_route url "/api/v1/gpio/*" (rest_api_gpio_gpio_options buffer) (rest_invalid buffer)
  | HTTP_PATCH =>
      rest_gpio_route url "/api/v1/gpio/*/blink" (λ g, rest_api_gpio_gpio_blink buffer g args)
      (rest_gpio_route url "/api/v1/gpio/*/set" (λ g, rest_api_gpio_gpio_set buffer g args)
      (rest_gpio_route url "/api/v1/gpio/*/toggle" (rest_api_gpio_gpio_toggle buffer)
      (rest_invalid buffer)))
  | HTTP_UNKNOWN => rest_invalid buffer
  end.

Definition rest_status (rc : bool) : Z := if rc then MHD_HTTP_OK else MHD_HTTP_INTERNAL_SERVER_ERROR.

Definition rest_api_handler url (method : http_method) args : M K http_reply :=
  r ← rest_dispatch url method args;
  let '(buffer, rc) := r in
  mret (Reply (rest_status rc) APPLICATION_JSON buffer).

(** ** Hooks and files (hook.c, webui.c) *)

(** [rc] is never set to true. *)
Definition hook_handler url : M K http_reply :=
  let rc := false in
  found ← hook_action_handler (drop 6 (c_str url));
  let buffer := if (found : bool) then dq "{'message':'Triggered'}" else dq "{'error':'Invalid hook'}" in
  mret (Reply (rest_status rc) APPLICATION_JSON buffer).

Definition serve_embedded_file url : option (bytes * bytes) :=
  let file (name : string) (type : string) next :=
    if strcmp0 url (bs "/" ++ bs name) then Some (bs type, embedded_file (bs name)) else next in
  file "bootstrap-native.min.js" "application/javascript"
  (file "bootstrap.min.css" "text/css"
  (file "favicon.svg" "image/svg+xml"
  (if strcmp0 url (bs "/index.html") || strcmp0 url (bs "/")
   then Some (bs "text/html; charset=utf-8", embedded_file (bs "index.html"))
   else
  (file "mygpiod.css" "text/css"
  (file "mygpiod.js" "application/javascript"
  (file "openapi.yml" "text/yaml" None)))))).

Definition webui_handler url : http_reply :=
  match serve_embedded_file url with
  | Some (type, data) => Reply MHD_HTTP_OK type data
  | None => Reply MHD_HTTP_NOT_FOUND TEXT_PLAIN (bs "File not found.")
  end.

(** ** The request handler (httpd.c) *)

(** The first call: data for the connection, whose pointer MHD keeps. *)
Definition request_data_new (connection : Z) : M K positive := λ w,
  let p := fresh (dom (http_requests w)) in
  let id := u32 (http_conn_id (config w) + 1) in
  Done (p, w <| config ::= λ c, c <| http_conn_id := id |> |>
             <| http_requests ::= <[p := RequestData None connection id]> |>).

Definition request_get (p : positive) : M K t_request_data := λ w,
  match http_requests w !! p with Some r => Done (r, w) | None => Stop InvalidPointer end.

(** A later call. *)
Definition request_process (p : positive) (connection : Z)
    url (method_str : bytes) (upload_data_size : Z) args : M K http_reply :=
  request_data ← request_get p;
  if negb (upload_data_size =? 0) then mret NoReply
  else
    match resume_buffer request_data with
    | Some buffer => mret (Reply 200 APPLICATION_JSON buffer)
    | None =>
        let method := http_parse_method method_str in
        if decide (method = HTTP_UNKNOWN)
        then mret (Reply 405 TEXT_PLAIN (bs "405 Method Not Allowed"))
        else if strprefix (bs "/api/v1/") url then rest_api_handler url method args
        else if strcmp0 url (bs "/poll") then
          _ ← sys_ (MHD_set_connection_option_timeout connection 0);
          _ ← sys_ (MHD_suspend_connection connection);
          _ ← modify (λ c, c <| http_suspended ::= λ l, list_push l 0 p |>);
          mret NoReply
        else if strprefix (bs "/hook/") url then hook_handler url
        else mret (webui_handler url)
    end.

(** [con_cls] is what the calls before stored; the result has it too. *)
Definition request_handler (con_cls : option positive) (connection : Z)
    url (method_str : bytes) (upload_data_size : Z) args : M K (http_reply * positive) :=
  match con_cls with
  | None => p ← request_data_new connection; mret (NoReply, p)
  | Some p =>
      r ← request_process p connection url method_str upload_data_size args;
      mret (r, p)
  end.

(** The request data is freed. *)
Definition http_connection_done (p : positive) : M K unit := λ w,
  match http_requests w !! p with
  | Some _ => Done (tt, w <| http_requests ::= delete p |>)
  | None => Stop InvalidPointer
  end.

(** ** What libmicrohttpd does in MHD_run

    A sequence of calls. A connection has the data of its first call until it is
    done; while it is suspended it is neither served nor closed. *)

Inductive http_call :=
  | HttpRequest (con_cls : option positive) (connection : Z) (url method : bytes)
      (upload_data_size : Z) (args : bytes → option bytes)
  | HttpDone (p : positive).

Definition http_do (c : http_call) : M K unit :=
  match c with
  | HttpRequest con_cls connection url method size args =>
      _ ← request_handler con_cls connection url method size args; mret tt
  | HttpDone p => http_connection_done p
  end.

Definition live_connection (w : world K) (p : positive) : Prop :=
  is_Some (http_requests w !! p) ∧ Forall (λ n, n_data n ≠ p) (http_suspended (config w)).

Definition mhd_allows (w : world K) (c : http_call) : Prop :=
  match c with
  | HttpRequest None _ _ _ _ _ => True
  | HttpRequest (Some p) _ _ _ _ _ | HttpDone p => live_connection w p
  end.

Definition http_step (w w' : world K) : Prop := ∃ c, mhd_allows w c ∧ http_do c w = Done (tt, w').
End http.
