(* ===== verification/Socket.v ===== *)
(** * The socket server

    mygpiod/server_socket/socket.c: accepting clients, reading command lines,
    writing responses, timeouts. *)

From S2P Require Import Prelude CLib ParseUtil Sds Lists GpioUtil Config Kernel Timer InputNames.
From S2P Require Import Events Gpio Actions GpioEvent Protocol.

Definition F_GETFD : Z := 1.
Definition F_SETFD : Z := 2.
Definition O_NONBLOCK : Z := 2048.
Definition O_CLOEXEC : Z := 524288.

Section socket.
Context `{Kernel K} `{Build}.
Implicit Types (p : positive) (fd : Z).

Definition get_node_by_clientfd (cls : t_list t_client_data) fd : option (node t_client_data) :=
  list_find_node (λ n, client_fd (n_data n) =? fd) cls.

Definition get_node_by_timeoutfd (cls : t_list t_client_data) fd : option (node t_client_data) :=
  list_find_node (λ n, timeout_fd (n_data n) =? fd) cls.

(** [bytes_out] and [events] are set by the first response. *)
Definition server_client_connection_new fd : t_client_data :=
  ClientData fd CLIENT_SOCKET_STATE_WRITING [] [] 0 0 [] (-1).

(** The welcome message. *)
Definition MSG_VERSION : bytes :=
  DEFAULT_MSG_OK ++ [LF] ++ bs "version:" ++ MYGPIO_VERSION ++ [LF] ++ DEFAULT_MSG_END.

Definition server_client_connection_accept (server_fd : Z) : M K bool :=
  cfd ← sys (accept server_fd);
  if cfd <? 0 then mret false
  else
    cls ← gets clients;
    if list_length cls =? CLIENT_CONNECTIONS_MAX then
      _ ← sys_ (close cfd);
      mret false
    else
      flags ← sys (fcntl cfd F_GETFD 0);
      rc ← sys (fcntl cfd F_SETFD (Z.lor (Z.lor flags O_NONBLOCK) O_CLOEXEC));
      if negb (rc =? 0) then
        _ ← sys_ (close cfd);
        mret false
      else
        _ ← set_update_pollfds;
        _ ← modify (λ c, c <| client_id ::= λ i, u32 (i + 1) |>);
        id ← gets client_id;
        let p := fresh_ptr cls in
        _ ← modify (λ c, c <| clients ::= λ l,
              list_push l id (server_client_connection_new cfd) |>);
        _ ← server_response_send p MSG_VERSION;
        data ← deref clients p;
        timeout_s ← gets socket_timeout_s;
        tfd ← server_client_connection_set_timeout (timeout_fd data) timeout_s;
        _ ← upd_client p (λ d, d <| timeout_fd := tfd |>);
        mret true.

(** [CLIENT_SOCKET_STATE_READING] and [CLIENT_SOCKET_STATE_IDLE]: read, and
    run a complete line. *)
Definition server_client_read p : M K bool :=
  data ← deref clients p;
  nread ← sys (read_fd (client_fd data) BUFFER_SIZE);
  match nread with
  | None | Some [] =>
      _ ← server_client_disconnect p;
      mret false
  | Some r =>
      let buf := buf_in data ++ r in
      _ ← upd_client p (λ d, d <| buf_in := buf |>);
      if existsb (ch LF) buf then
        _ ← upd_client p (λ d, d <| buf_in ::= λ b, sdstrim b [" "%char; TAB; " "%char; LF] |>);
        data ← deref clients p;
        timeout_s ← gets socket_timeout_s;
        tfd ← server_client_connection_set_timeout (timeout_fd data) timeout_s;
        _ ← upd_client p (λ d, d <| timeout_fd := tfd |>);
        _ ← server_protocol_handler p;
        mret true
      else if BUFFER_SIZE_INPUT_MAX <=? Z.of_nat (length buf) then
        _ ← server_client_disconnect p;
        mret false
      else mret true
  end.

(** [CLIENT_SOCKET_STATE_WRITING]: write what is left of the response. *)
Definition server_client_write p : M K bool :=
  data ← deref clients p;
  let rest := drop (Z.to_nat (bytes_out data)) (buf_out data) in
  result ← sys (write_fd (client_fd data) rest);
  match result with
  | None =>
      _ ← server_client_disconnect p;
      mret false
  | Some n =>
      _ ← upd_client p (λ d, d <| bytes_out ::= λ b, b + n |>);
      if n =? Z.of_nat (length (buf_out data)) - bytes_out data then
        _ ← upd_client p (λ d, d <| state := CLIENT_SOCKET_STATE_READING |>
                                 <| events := POLLIN |>);
        _ ← set_update_pollfds;
        _ ← upd_client p (λ d, d <| buf_out := [] |>);
        mret true
      else mret true
  end.

Definition server_client_connection_handle fd (revents : Z) : M K bool :=
  cls ← gets clients;
  match get_node_by_clientfd cls fd with
  | None => mret false
  | Some node =>
      if negb (Z.land revents POLLHUP =? 0) then
        _ ← server_client_disconnect (n_ptr node);
        mret true
      else if negb (Z.land revents POLLERR =? 0) || negb (Z.land revents POLLNVAL =? 0) then
        _ ← server_client_disconnect (n_ptr node);
        mret false
      else
        match state (n_data node) with
        | CLIENT_SOCKET_STATE_READING | CLIENT_SOCKET_STATE_IDLE =>
            server_client_read (n_ptr node)
        | CLIENT_SOCKET_STATE_WRITING => server_client_write (n_ptr node)
        end
  end.

Definition server_client_timeout fd : M K bool :=
  cls ← gets clients;
  match get_node_by_timeoutfd cls fd with
  | None => mret false
  | Some node =>
      _ ← server_client_disconnect (n_ptr node);
      mret true
  end.
End socket.
