(* ===== verification/EventLoop.v ===== *)
(** * The event loop

    mygpiod/event_loop/event_loop.c and eventfd_wrap.c, lua_async_handle_msg of
    mygpiod/lua/async/queue_msg.c, and the loop of mygpiod/main.c. The table of
    poll descriptors is the list of its first [len] entries. *)

From S2P Require Import Prelude CLib LuaAsync ParseUtil Sds Lists GpioUtil Config Kernel Timer InputNames.
From S2P Require Import Events Gpio Actions GpioEvent Protocol Http Socket.

Inductive pfd_types :=
  | PFD_TYPE_GPIO | PFD_TYPE_GPIO_IN_TIMER | PFD_TYPE_GPIO_OUT_TIMER | PFD_TYPE_SIGNAL
  | PFD_TYPE_CONNECT | PFD_TYPE_CLIENT | PFD_TYPE_CLIENT_TIMEOUT | PFD_TYPE_HTTPD
  | PFD_TYPE_INPUT | PFD_TYPE_TIMER_EV | PFD_TYPE_LUA_ASYNC.

#[export] Instance pfd_types_eq_dec : EqDecision pfd_types.
Proof. solve_decision. Defined.

(** [MAX_FDS ((GPIOS_MAX * 2) + (CLIENT_CONNECTIONS_MAX * 2) + 1)] *)
Definition MAX_FDS : Z := GPIOS_MAX * 2 + CLIENT_CONNECTIONS_MAX * 2 + 1.

(** A [struct pollfd] with its type. *)
Record t_poll_fd := PollFd {
  pfd_fd : Z;
  pfd_events : Z;
  pfd_type : pfd_types;
}.

#[export] Instance t_poll_fd_eq_dec : EqDecision t_poll_fd.
Proof. solve_decision. Defined.

Definition event_poll_fd_add (poll_fds : list t_poll_fd) (fd : Z) (type : pfd_types) (events : Z)
    : bool * list t_poll_fd :=
  if Z.of_nat (length poll_fds) =? MAX_FDS then (false, poll_fds)
  else (true, poll_fds ++ [PollFd fd events type]).

Definition event_add_gpio_in_timer_fds (cfg : t_config) (poll_fds : list t_poll_fd)
    : list t_poll_fd :=
  foldl (λ pf n, let fd := in_timer_fd (n_data n) in
           if 0 <? fd then (event_poll_fd_add pf fd PFD_TYPE_GPIO_IN_TIMER (Z.lor POLLIN POLLPRI)).2
           else pf) poll_fds (gpios_in cfg).

Definition event_add_gpio_out_timer_fds (cfg : t_config) (poll_fds : list t_poll_fd)
    : list t_poll_fd :=
  foldl (λ pf n, let fd := out_timer_fd (n_data n) in
           if 0 <? fd then (event_poll_fd_add pf fd PFD_TYPE_GPIO_OUT_TIMER (Z.lor POLLIN POLLPRI)).2
           else pf) poll_fds (gpios_out cfg).

Definition event_add_client_fds (cfg : t_config) (poll_fds : list t_poll_fd) : list t_poll_fd :=
  foldl (λ pf n,
           let d := n_data n in
           let pf := if 0 <? client_fd d
                     then (event_poll_fd_add pf (client_fd d) PFD_TYPE_CLIENT (events d)).2
                     else pf in
           if 0 <? timeout_fd d
           then (event_poll_fd_add pf (timeout_fd d) PFD_TYPE_CLIENT_TIMEOUT (Z.lor POLLIN POLLPRI)).2
           else pf) poll_fds (clients cfg).

(** The body of [if (update_pollfds == true)] in [main]: [init] are the first
    [pfd_len_init] entries. *)
Definition refresh_pollfds (cfg : t_config) (init : list t_poll_fd) : list t_poll_fd :=
  event_add_client_fds cfg
    (event_add_gpio_out_timer_fds cfg (event_add_gpio_in_timer_fds cfg init)).

Section event_loop.
Context `{Kernel K} `{Build}.

(** ** Event descriptors (event_loop/eventfd_wrap.c) *)

Definition event_eventfd_create : M K Z := sys eventfd.

Definition event_eventfd_write (fd : Z) : M K bool :=
  rc ← sys (eventfd_write fd 1);
  mret (rc =? 0).

Definition event_eventfd_read (fd : Z) : M K bool :=
  n ← in_scripts event_count;
  rc ← sys (eventfd_read fd n);
  mret (rc =? 0).

Definition event_fd_close (fd : Z) : M K unit :=
  if -1 <? fd then sys_ (close fd) else mret tt.

(** ** Requests of script threads (lua/async/queue_msg.c)

    The queues and the threads are those of [LuaAsync], with its steps. The
    threads run while the main thread does; it sees of them what is in the queues,
    so it is enough to let them run before and inside this function. *)
Definition threads_run : M K unit :=
  acts ← sys script_acts;
  upd_scripts (run_threads script_sched acts).

(** [req->lua_vm] is used: the script may have ended and closed it. *)
Definition use_lua_vm (vm : Z) : M K unit := λ w,
  if decide (vm_open vm (scripts w)) then Done (tt, w) else Stop (LuaStateClosed (scripts w)).

(** The end of the push to [script_queue], after its unlock. *)
Definition script_queue_signal : M K unit :=
  ws ← in_scripts waiting;
  t ← sys (pthread_cond_signal ws);
  s ← in_scripts (signal_thread t);
  match s with
  | Some s => upd_scripts (λ _, s)
  | None => undefined
  end.

(** [msg->data] is read without a test. The read of the descriptor and the shift
    are one step of [LuaAsync]: a push between them only appends. *)
Definition lua_async_handle_msg (fd : Z) : M K bool :=
  _ ← threads_run;
  ok ← event_eventfd_read fd;
  if negb ok then mret false
  else
    _ ← upd_scripts handle_shift;
    m ← in_scripts main;
    match m with
    | MExec id req =>
        let vm := LuaAsync.lua_vm req in
        _ ← threads_run;
        _ ← use_lua_vm vm;
        stack ← ask (lua_stack vm);
        res ← lua_dispatch (lua_func req) stack;
        _ ← threads_run;
        _ ← use_lua_vm vm;
        _ ← sys_ (lua_results vm res);
        now ← sys time;
        _ ← upd_scripts (handle_respond id req (Z.of_nat (length res)) now);
        _ ← threads_run;
        _ ← script_queue_signal;
        mret true
    | _ => undefined
    end.

(** One ready descriptor; false to leave the event loop. HTTP requests are
    served by MHD_run ([http_step]). *)
Definition event_delegate (fd revents : Z) (type : pfd_types) : M K bool :=
  match type with
  | PFD_TYPE_GPIO => _ ← gpio_handle_event fd; mret true
  | PFD_TYPE_GPIO_IN_TIMER =>
      _ ← (if negb (Z.land revents POLLIN =? 0) then gpio_in_timer_handle_event fd
           else mret false);
      mret true
  | PFD_TYPE_GPIO_OUT_TIMER =>
      _ ← (if negb (Z.land revents POLLIN =? 0) then gpio_out_timer_handle_event fd
           else mret false);
      mret true
  | PFD_TYPE_SIGNAL => mret false
  | PFD_TYPE_CONNECT => _ ← server_client_connection_accept fd; mret true
  | PFD_TYPE_CLIENT => _ ← server_client_connection_handle fd revents; mret true
  | PFD_TYPE_CLIENT_TIMEOUT => _ ← server_client_timeout fd; mret true
  | PFD_TYPE_HTTPD => mret true
  | PFD_TYPE_INPUT => _ ← input_ev_handle_event fd; mret true
  | PFD_TYPE_TIMER_EV => _ ← timer_ev_handle_event fd; mret true
  | PFD_TYPE_LUA_ASYNC => _ ← lua_async_handle_msg fd; mret true
  end.

(** [ready] pairs each descriptor with its [revents]. *)
Fixpoint event_read_delegate (ready : list (t_poll_fd * Z)) : M K bool :=
  match ready with
  | [] => mret true
  | (pf, revents) :: rest =>
      if revents =? 0 then event_read_delegate rest
      else event_delegate (pfd_fd pf) revents (pfd_type pf)
  end.

(** ** The loop of [main] as a transition system *)

Record loop_state := Loop {
  l_world : world K;
  l_init : list t_poll_fd;       (** the first [pfd_len_init] entries *)
  l_poll_fds : list t_poll_fd;
}.

(** The rebuild at the top of the loop. *)
Definition loop_refresh (s : loop_state) : loop_state :=
  if update_pollfds (l_world s) then
    Loop ((l_world s) <| update_pollfds := false |>) (l_init s)
      (refresh_pollfds (config (l_world s)) (l_init s))
  else s.

(** One iteration: rebuild, [poll] with some outcome, MHD_run, delegate. *)
Inductive loop_step : loop_state → loop_state → Prop :=
  | LoopStep s revents w w' :
      length revents = length (l_poll_fds (loop_refresh s)) →
      rtc http_step (l_world (loop_refresh s)) w →
      event_read_delegate (zip (l_poll_fds (loop_refresh s)) revents) w = Done (true, w') →
      loop_step s (Loop w' (l_init s) (l_poll_fds (loop_refresh s))).
End event_loop.
