(* ===== verification/Release.v ===== *)
(** * Release

    What main does when it leaves its loop: config_clear of mygpiod/config/config.c
    with the functions that close and free the parts of the configuration
    (mygpiod/config/gpio.c, timer_ev.c, input_ev.c, server_socket/socket.c), and
    the queues. Freeing memory has no effect in the model but that a list is empty
    afterwards; closing descriptors and releasing handles are kernel operations. *)

From S2P Require Import Prelude CLib ParseUtil Sds Lists MsgQueue GpioUtil Config Kernel Timer InputNames.
From S2P Require Import Events Gpio Actions GpioEvent Protocol Http Socket EventLoop.

Section release.
Context `{Kernel K} `{Build}.

(** A handle that is not NULL is released. *)
Definition release (h : option Z) (free : Z → K → K) : M K unit :=
  match h with
  | Some h => sys_ (free h)
  | None => mret tt
  end.

Definition gpio_in_data_clear (data : t_gpio_in_data) : M K unit :=
  _ ← close_fd (gpio_fd data);
  _ ← close_fd (in_timer_fd data);
  release (in_request data) gpiod_line_request_release.

Definition gpio_out_data_clear (data : t_gpio_out_data) : M K unit :=
  _ ← close_fd (out_timer_fd data);
  release (out_request data) gpiod_line_request_release.

(** [list_clear] on a list of the configuration: each node is given to [clear]
    before it is freed; [empty] leaves the list empty. *)
Definition clear_nodes {A} (l : t_config → t_list A) (clear : A → M K unit) (empty : t_config → t_config)
    : M K unit :=
  nodes ← gets l;
  _ ← for_each nodes (λ n, clear (n_data n));
  modify empty.

Definition gpios_config_clear : M K unit :=
  _ ← clear_nodes gpios_in gpio_in_data_clear (λ c, c <| gpios_in := [] |>);
  clear_nodes gpios_out gpio_out_data_clear (λ c, c <| gpios_out := [] |>).

Definition input_data_clear (device : t_input_device) : M K unit :=
  _ ← close_fd (dev_fd device); mret tt.

Definition timer_definition_data_clear (definition : t_timer_definition) : M K unit :=
  _ ← close_fd (td_fd definition); mret tt.

(** The connections that are not done, in some order. *)
Definition live_requests : M K (list positive) := λ w, Done ((map_to_list (http_requests w)).*1, w).

(** Suspended connections are resumed first; MHD_stop_daemon then ends every
    connection, with a call of http_connection_done for each. *)
Definition httpd_clear : M K unit :=
  httpd ← gets httpd;
  match httpd with
  | None => mret tt
  | Some daemon =>
      suspended ← gets http_suspended;
      _ ← for_each suspended (λ n, r ← request_get (n_data n); sys_ (MHD_resume_connection (connection r)));
      _ ← sys_ (MHD_stop_daemon daemon);
      requests ← live_requests;
      _ ← for_each requests http_connection_done;
      modify (λ c, c <| http_suspended := [] |>)
  end.

Definition config_clear : M K unit :=
  _ ← gpios_config_clear;
  _ ← clear_nodes clients server_client_connection_clear (λ c, c <| clients := [] |>);
  c ← gets chip;
  _ ← release c gpiod_chip_close;
  signal ← gets signal_fd;
  signal ← close_fd signal;
  _ ← modify (λ c, c <| signal_fd := signal |>);
  conn ← gets mpd_conn;
  _ ← release conn mpd_connection_free;
  vm ← gets lua_vm;
  _ ← release vm lua_close;
  _ ← modify (λ c, c <| lua_async_scripts := [] |>);
  _ ← httpd_clear;
  _ ← clear_nodes input_devices input_data_clear (λ c, c <| input_devices := [] |>);
  _ ← clear_nodes timer_definitions timer_definition_data_clear (λ c, c <| timer_definitions := [] |>);
  modify (λ c, c <| hooks := [] |>).

(** The end of [main]: a queue that was not created is NULL, and only the first
    has a descriptor. *)
Definition main_exit (main_queue : option t_mygpiod_queue) : M K unit :=
  _ ← config_clear;
  match main_queue with
  | Some queue => event_fd_close (q_event_fd queue)
  | None => mret tt
  end.

(** Where [main] leaves its loop from a state, and with which exit code: [poll]
    fails, MHD_run fails after some calls, or event_read_delegate asks for the
    end. *)
Inductive loop_exit (st : @loop_state K) : Z → world K → Prop :=
  | ExitPoll : loop_exit st EXIT_FAILURE (l_world (loop_refresh st))
  | ExitMHD w : rtc http_step (l_world (loop_refresh st)) w → loop_exit st EXIT_FAILURE w
  | ExitEvent revents w w' :
      length revents = length (l_poll_fds (loop_refresh st)) →
      rtc http_step (l_world (loop_refresh st)) w →
      event_read_delegate (zip (l_poll_fds (loop_refresh st)) revents) w = Done (false, w') →
      loop_exit st EXIT_SUCCESS w'.
End release.
