(* ===== verification/Invariant.v ===== *)
(** * The invariant of the daemon

    [inv q s w] holds in every state between two iterations of the event loop
    ([q] is [None]) and while a command of the client [p] is executed ([q] is
    [Some (p, phase)]). The shape [s] records what an operation leaves alone:
    the addresses of the nodes of each list, the timers, the descriptors in the
    poll table, and the threads of scripts. This file defines it and proves that the primitives of the
    monad keep it. *)

From S2P Require Import Prelude CLib LuaAsync ParseUtil Sds Lists GpioUtil Config Kernel Timer InputNames.
From S2P Require Import Events Gpio Actions GpioEvent Protocol Socket EventLoop.

(** ** What the poll table shows of the configuration *)

Record pollview := PollView {
  pv_in : list Z;
  pv_out : list Z;
  pv_clients : list (Z * Z * Z);
}.

Definition view (cfg : t_config) : pollview :=
  PollView (map (λ n, in_timer_fd (n_data n)) (gpios_in cfg))
    (map (λ n, out_timer_fd (n_data n)) (gpios_out cfg))
    (map (λ n, (client_fd (n_data n), events (n_data n), timeout_fd (n_data n))) (clients cfg)).

(** ** Shape and phases *)

Record shape := Shape {
  sh_clients : list positive;
  sh_in : list positive;
  sh_out : list positive;
  sh_dev : list positive;
  sh_timers : t_list t_timer_definition;
  sh_poll : pollview;
  sh_scripts : t_system;
}.

(** How far the response to the current command is: nothing is known of the
    output buffer, or it holds OK and complete lines. *)
Inductive phase := Fresh | Body.

#[export] Instance phase_eq_dec : EqDecision phase.
Proof. solve_decision. Defined.

(** A line of a response: [key:value]. *)
Definition line_ok (l : bytes) : Prop := one_line l ∧ existsb (ch ":") l = true.

(** The lines of a complete answer: OK, lines and END; or an error; or, for
    the idle commands, event lines and END. *)
Definition answer (ls : list bytes) : Prop :=
  (∃ body, ls = [DEFAULT_MSG_OK] ++ body ++ [DEFAULT_MSG_END] ∧ Forall line_ok body) ∨
  (∃ msg, ls = [DEFAULT_MSG_ERROR ++ msg] ∧ one_line msg) ∨
  (∃ body, ls = body ++ [DEFAULT_MSG_END] ∧ Forall line_ok body ∧ body ≠ []).

(** A client between two iterations of the event loop. *)
Record client_ok (devs : list positive) (d : t_client_data) : Prop := {
  co_short : queue_short d;
  co_queue : queue_ok devs (waiting_events d);
  co_idle : state d = CLIENT_SOCKET_STATE_IDLE → waiting_events d = [];
  co_writing : state d = CLIENT_SOCKET_STATE_WRITING →
    events d = POLLOUT ∧ 0 ≤ bytes_out d ≤ Z.of_nat (length (buf_out d));
  co_reading : state d ≠ CLIENT_SOCKET_STATE_WRITING → events d = POLLIN;
  co_line : one_line (buf_in d);
  co_limit : Z.of_nat (length (buf_in d)) < BUFFER_SIZE_INPUT_MAX;
}.

(** The client whose command is executed. *)
Record cur_ok (devs : list positive) (ph : phase) (d : t_client_data) : Prop := {
  cu_short : queue_short d;
  cu_queue : queue_ok devs (waiting_events d);
  cu_state : state d = CLIENT_SOCKET_STATE_READING;
  cu_events : events d = POLLIN;
  cu_in : buf_in d = [];
  cu_out : ph = Body → ∃ ls, buf_out d = unlines (DEFAULT_MSG_OK :: ls) ∧ Forall line_ok ls;
}.

Definition client_inv (devs : list positive) (q : option (positive * phase))
    (n : node t_client_data) : Prop :=
  match q with
  | Some (p, ph) =>
      if decide (n_ptr n = p) then cur_ok devs ph (n_data n) else client_ok devs (n_data n)
  | None => client_ok devs (n_data n)
  end.

(** Names that are printed fit on a line. *)
Definition names_ok (cfg : t_config) : Prop :=
  Forall (λ n, one_line (in_name (n_data n))) (gpios_in cfg) ∧
  Forall (λ n, one_line (out_name (n_data n))) (gpios_out cfg) ∧
  Forall (λ n, one_line (dev_name (n_data n))) (input_devices cfg).

Section invariant.
Context `{Kernel K} `{Build} {PE : Endings}.
Implicit Types (w : world K) (s : shape) (q : option (positive * phase)).

(** No descriptor shortage: the only failure that the poll table cannot see. *)
Definition timers_available : Prop := ∀ k : K, 0 ≤ (timerfd_create k).1.

Record inv q s w : Prop := {
  inv_clients : ptrs (clients (config w)) = sh_clients s;
  inv_in : ptrs (gpios_in (config w)) = sh_in s;
  inv_out : ptrs (gpios_out (config w)) = sh_out s;
  inv_dev : ptrs (input_devices (config w)) = sh_dev s;
  inv_timers : timer_definitions (config w) = sh_timers s;
  inv_limit : Z.of_nat (length (sh_clients s)) ≤ CLIENT_CONNECTIONS_MAX;
  inv_nd_clients : NoDup (sh_clients s);
  inv_nd_in : NoDup (sh_in s);
  inv_nd_out : NoDup (sh_out s);
  inv_nd_dev : NoDup (sh_dev s);
  inv_client : Forall (client_inv (sh_dev s) q) (clients (config w));
  inv_http : Forall (λ n, is_Some (http_requests w !! n_data n)) (http_suspended (config w));
  inv_names : names_ok (config w);
  inv_weekdays : Forall (λ n, length (weekdays (n_data n)) = 7%nat ∧ one_line (td_name (n_data n)))
                   (sh_timers s);
  inv_scripts : scripts w = sh_scripts s;
  inv_sync : timers_available → update_pollfds w = true ∨ view (config w) = sh_poll s;
}.

(** ** Changes the invariant does not see *)

(** The parts of the configuration the invariant speaks about. *)
Definition same_core (c c' : t_config) : Prop :=
  clients c' = clients c ∧ gpios_in c' = gpios_in c ∧ gpios_out c' = gpios_out c ∧
  input_devices c' = input_devices c ∧ timer_definitions c' = timer_definitions c ∧
  http_suspended c' = http_suspended c.

Lemma inv_same_core q s w w' :
  inv q s w → same_core (config w) (config w') → http_requests w' = http_requests w →
  scripts w' = scripts w → (update_pollfds w = true → update_pollfds w' = true) → inv q s w'.
Proof.
  intros [] (Hc & Hi & Ho & Hd & Ht & Hh) Hr Hsc Hu. unfold names_ok, view in *.
  constructor; unfold names_ok, view; rewrite ?Hc, ?Hi, ?Ho, ?Hd, ?Ht, ?Hh, ?Hr, ?Hsc; try done.
  intros Ha. destruct (inv_sync0 Ha); auto.
Qed.

Lemma keeps_sys {A} q s (f : K → A * K) : keeps (inv q s) (sys f).
Proof. intros w Hw. apply wp_sys. intros a k _. by eapply inv_same_core. Qed.

Lemma keeps_sys_ q s (f : K → K) : keeps (inv q s) (sys_ f).
Proof. intros w Hw. by eapply inv_same_core. Qed.

Lemma keeps_set_update q s : keeps (inv q s) set_update_pollfds.
Proof. intros w Hw. by eapply inv_same_core. Qed.

Lemma keeps_modify q s f : (∀ c, same_core c (f c)) → keeps (inv q s) (modify f).
Proof. intros Hf w Hw. apply wp_modify. by eapply inv_same_core. Qed.

Lemma keeps_close_fd q s fd : keeps (inv q s) (close_fd fd).
Proof.
  unfold close_fd. destruct (-1 <? fd); [|apply keeps_ret].
  apply keeps_bind; [apply keeps_sys_|]. intros _.
  apply keeps_bind; [apply keeps_set_update|]. intros _. apply keeps_ret.
Qed.

(** [frame w w']: only the environment changed, and the flag was not reset. *)
Definition frame w w' : Prop :=
  config w' = config w ∧ http_requests w' = http_requests w ∧ scripts w' = scripts w ∧
  (update_pollfds w = true → update_pollfds w' = true).

Lemma frame_refl w : frame w w.
Proof. by split_and!. Qed.

Lemma frame_trans w1 w2 w3 : frame w1 w2 → frame w2 w3 → frame w1 w3.
Proof. intros (? & ? & ? & ?) (? & ? & ? & ?). split_and!; [congruence..|auto]. Qed.

Lemma frame_kern w k : frame w (w <| kern := k |>).
Proof. by split_and!. Qed.

Lemma frame_update w : frame w (w <| update_pollfds := true |>).
Proof. by split_and!. Qed.

Lemma inv_frame q s w w' : inv q s w → frame w w' → inv q s w'.
Proof. intros Hw (Hc & Hr & Hs & Hu). eapply inv_same_core; try done. by rewrite Hc. Qed.

(** What [close_fd] does to the variable and to the flag. *)
Lemma close_fd_wp fd w :
  wp (close_fd fd) (λ fd' w', frame w w' ∧ (update_pollfds w' = true ∨ fd' = fd) ∧ fd' < 0) w.
Proof.
  unfold close_fd. destruct (-1 <? fd) eqn:E.
  - apply wp_bind. unfold wp, sys_. apply wp_bind. unfold wp, set_update_pollfds.
    split_and!; [done..|by left|done].
  - zbool. apply wp_ret. split_and!; [done..|by right|lia].
Qed.

(** ** Writes to GPIO data *)

Lemma map_upd_same {A B} (g : A → B) p (f : A → A) (l : t_list A) :
  NoDup (ptrs l) → (∀ n, list_deref l p = Some n → g (f (n_data n)) = g (n_data n)) →
  map (λ n, g (n_data n)) (list_upd p f l) = map (λ n, g (n_data n)) l.
Proof.
  intros Hnd Hg. unfold list_upd. rewrite map_map. apply map_ext_in.
  intros n Hn%list_elem_of_In. destruct (Pos.eqb_spec (n_ptr n) p) as [<- |]; [|done].
  apply Hg. by apply list_deref_elem.
Qed.

Lemma Forall_names_upd {A} (nm : A → bytes) p (f : A → A) (l : t_list A) :
  (∀ d, nm (f d) = nm d) → Forall (λ n, one_line (nm (n_data n))) l →
  Forall (λ n, one_line (nm (n_data n))) (list_upd p f l).
Proof. intros Hf Hl. apply Forall_upd; [done|]. intros n Hn _. simpl. by rewrite Hf. Qed.

Lemma upd_in_wp q s p f w :
  inv q s w → (∀ d, in_name (f d) = in_name d) →
  (timers_available → update_pollfds w = true ∨
     ∀ n, list_deref (gpios_in (config w)) p = Some n →
          in_timer_fd (f (n_data n)) = in_timer_fd (n_data n)) →
  wp (upd_in p f) (λ _, inv q s) w.
Proof.
  intros Hw Hn Hu. apply wp_modify. destruct Hw.
  constructor; simpl; rewrite ?ptrs_upd; try done.
  - destruct inv_names0 as (Hi & Ho & Hd). split_and!; [by apply Forall_names_upd|done..].
  - intros Ha. destruct (Hu Ha) as [|Hsame]; [by left|].
    destruct (inv_sync0 Ha) as [|Hv]; [by left|right]. rewrite <- Hv. unfold view. simpl.
    f_equal. apply (map_upd_same in_timer_fd); [by rewrite inv_in0|done].
Qed.

Lemma keeps_upd_in q s p f :
  (∀ d, in_name (f d) = in_name d) → (∀ d, in_timer_fd (f d) = in_timer_fd d) →
  keeps (inv q s) (upd_in p f).
Proof. intros Hn Ht w Hw. apply upd_in_wp; auto. Qed.

Lemma upd_out_wp q s p f w :
  inv q s w → (∀ d, out_name (f d) = out_name d) →
  (timers_available → update_pollfds w = true ∨
     ∀ n, list_deref (gpios_out (config w)) p = Some n →
          out_timer_fd (f (n_data n)) = out_timer_fd (n_data n)) →
  wp (upd_out p f) (λ _, inv q s) w.
Proof.
  intros Hw Hn Hu. apply wp_modify. destruct Hw.
  constructor; simpl; rewrite ?ptrs_upd; try done.
  - destruct inv_names0 as (Hi & Ho & Hd). split_and!; [done|by apply Forall_names_upd|done].
  - intros Ha. destruct (Hu Ha) as [|Hsame]; [by left|].
    destruct (inv_sync0 Ha) as [|Hv]; [by left|right]. rewrite <- Hv. unfold view. simpl.
    f_equal. apply (map_upd_same out_timer_fd); [by rewrite inv_out0|done].
Qed.

Lemma keeps_upd_device q s p f :
  (∀ d, dev_name (f d) = dev_name d) → keeps (inv q s) (upd_device p f).
Proof.
  intros Hn w Hw. apply wp_modify. destruct Hw.
  constructor; simpl; rewrite ?ptrs_upd; try done.
  destruct inv_names0 as (Hi & Ho & Hd). split_and!; [done|done|by apply Forall_names_upd].
Qed.

(** ** Following a pointer of the shape *)

Lemma deref_ex {A} (l : t_config → t_list A) ps p w :
  ptrs (l (config w)) = ps → p ∈ ps → ∃ n, list_deref (l (config w)) p = Some n ∧ n ∈ l (config w) ∧ n_ptr n = p.
Proof.
  intros <- Hp. destruct (list_deref_is_Some _ _ Hp) as [n Hn]. exists n.
  split; [done|]. by apply list_deref_Some.
Qed.

Lemma keeps_deref_in q s p : p ∈ sh_in s → keeps (inv q s) (deref gpios_in p).
Proof.
  intros Hp w Hw. destruct (deref_ex gpios_in _ p w (inv_in _ _ _ Hw) Hp) as (n & Hn & _).
  by eapply wp_deref.
Qed.

Lemma keeps_deref_out q s p : p ∈ sh_out s → keeps (inv q s) (deref gpios_out p).
Proof.
  intros Hp w Hw. destruct (deref_ex gpios_out _ p w (inv_out _ _ _ Hw) Hp) as (n & Hn & _).
  by eapply wp_deref.
Qed.

Lemma keeps_deref_dev q s p : p ∈ sh_dev s → keeps (inv q s) (deref input_devices p).
Proof.
  intros Hp w Hw. destruct (deref_ex input_devices _ p w (inv_dev _ _ _ Hw) Hp) as (n & Hn & _).
  by eapply wp_deref.
Qed.

(** A list read from the configuration has the nodes of the shape. *)
Lemma keeps_gets_in {B} q s (f : t_list t_gpio_in_data → M K B) :
  (∀ l, ptrs l = sh_in s → Forall (λ n, one_line (in_name (n_data n))) l → keeps (inv q s) (f l)) →
  keeps (inv q s) (l ← gets gpios_in; f l).
Proof.
  intros Hf w Hw. apply wp_bind, wp_gets, Hf; [apply Hw| |done]. apply (inv_names _ _ _ Hw).
Qed.

Lemma keeps_gets_out {B} q s (f : t_list t_gpio_out_data → M K B) :
  (∀ l, ptrs l = sh_out s → Forall (λ n, one_line (out_name (n_data n))) l → keeps (inv q s) (f l)) →
  keeps (inv q s) (l ← gets gpios_out; f l).
Proof.
  intros Hf w Hw. apply wp_bind, wp_gets, Hf; [apply Hw| |done]. apply (inv_names _ _ _ Hw).
Qed.

Lemma find_in_shape {A} (P : node A → bool) l n ps :
  ptrs l = ps → list_find_node P l = Some n → n_ptr n ∈ ps.
Proof. intros <- [Hn _]%list_find_node_Some. by apply list_elem_of_fmap_2. Qed.

(** ** Timers of GPIOs *)

(** [close_fd(&data->timer_fd)] *)
Lemma keeps_close_out_timer q s p : p ∈ sh_out s → keeps (inv q s) (close_out_timer p).
Proof.
  intros Hp w Hw. destruct (deref_ex gpios_out _ p w (inv_out _ _ _ Hw) Hp) as (n & Hn & _).
  apply wp_bind. eapply wp_deref; [exact Hn|]. apply wp_bind.
  eapply wp_mono; [apply close_fd_wp|]. intros fd w' (Hf & Hu & _).
  apply upd_out_wp; [by eapply inv_frame|done|]. intros _. destruct Hu as [|Hu]; [by left|right].
  intros m. rewrite (proj1 Hf), Hn. by intros [= <-].
Qed.

Lemma keeps_gpio_action_delay_abort q s p :
  p ∈ sh_in s → keeps (inv q s) (gpio_action_delay_abort p).
Proof.
  intros Hp w Hw. destruct (deref_ex gpios_in _ p w (inv_in _ _ _ Hw) Hp) as (n & Hn & _).
  apply wp_bind. eapply wp_deref; [exact Hn|]. apply wp_bind.
  eapply wp_mono; [apply close_fd_wp|]. intros fd w' (Hf & Hu & _).
  apply upd_in_wp; [by eapply inv_frame|done|]. intros _. destruct Hu as [|Hu]; [by left|right].
  intros m. rewrite (proj1 Hf), Hn. by intros [= <-].
Qed.

(** [timer_set] on an open descriptor either works and changes nothing, or
    closes it and raises the flag. *)
Lemma timer_set_wp fd a b w :
  0 ≤ fd →
  wp (timer_set fd a b) (λ ok w', frame w w' ∧ (ok = false → update_pollfds w' = true)) w.
Proof.
  intros Hfd. apply wp_bind, wp_sys. intros rc k _. destruct (rc =? -1).
  - unfold close_fd. replace (-1 <? fd) with true by (symmetry; apply Z.ltb_lt; lia).
    apply wp_bind, wp_bind. unfold wp at 1, sys_. apply wp_bind. unfold wp at 1, set_update_pollfds.
    apply wp_ret, wp_ret. by split; [split_and!|].
  - apply wp_ret. split; [apply frame_kern|done].
Qed.

(** A new timer is announced to the poll table, unless there is no
    descriptor left for it. *)
Lemma timer_new_wp a b w :
  wp (timer_new a b) (λ _ w', frame w w' ∧ (timers_available → update_pollfds w' = true)) w.
Proof.
  apply wp_bind, wp_sys. intros fd k Hk.
  assert (Hav : timers_available → 0 ≤ fd).
  { intros Ha. specialize (Ha (kern w)). by rewrite Hk in Ha. }
  destruct (Z.eqb_spec fd (-1)) as [-> |Hne].
  - apply wp_ret. split; [apply frame_kern|]. intros Ha. specialize (Hav Ha). lia.
  - apply wp_bind. destruct (decide (0 ≤ fd)) as [Hge|Hlt].
    + eapply wp_mono; [by apply timer_set_wp|]. intros ok w' [Hf Hok].
      destruct ok; simpl.
      * apply wp_bind. unfold wp at 1, set_update_pollfds. apply wp_ret. split; [|done].
        eapply frame_trans; [apply frame_kern|]. eapply frame_trans; [exact Hf|apply frame_update].
      * apply wp_ret. split; [|auto]. eapply frame_trans; [apply frame_kern|done].
    + apply wp_bind, wp_sys. intros rc k' _. destruct (rc =? -1).
      * apply wp_bind. unfold close_fd. replace (-1 <? fd) with false by (symmetry; apply Z.ltb_ge; lia).
        apply wp_ret, wp_ret. simpl. apply wp_ret. split; [by split_and!|].
        intros Ha. specialize (Hav Ha). lia.
      * apply wp_ret. simpl. apply wp_bind. unfold wp at 1, set_update_pollfds. apply wp_ret.
        by split; [split_and!|].
Qed.

Lemma keeps_gpio_action_delay q s p : p ∈ sh_in s → keeps (inv q s) (gpio_action_delay p).
Proof.
  intros Hp w Hw. destruct (deref_ex gpios_in _ p w (inv_in _ _ _ Hw) Hp) as (n & Hn & _).
  apply wp_bind. eapply wp_deref; [exact Hn|]. apply wp_bind.
  apply (wp_mono _ (λ ok w', inv q s w')).
  - destruct (0 <? in_timer_fd (n_data n)) eqn:E; [|by apply wp_ret]. zbool.
    eapply wp_mono; [apply timer_set_wp; lia|]. intros ok w' [Hf _]. by eapply inv_frame.
  - intros ok w' Hw'. destruct ok; [by apply wp_ret|]. apply wp_bind.
    eapply wp_mono; [apply timer_new_wp|]. intros fd w2 [Hf Hu].
    apply upd_in_wp; [by eapply inv_frame|done|]. intros Ha. left. auto.
Qed.

Lemma set_timeout_wp fd t w :
  wp (server_client_connection_set_timeout fd t)
    (λ fd' w', frame w w' ∧ (timers_available → update_pollfds w' = true ∨ fd' = fd)) w.
Proof.
  apply wp_bind. apply (wp_mono _ (λ ok w', frame w w')).
  - destruct (0 <? fd) eqn:E; [|apply wp_ret, frame_refl]. zbool.
    eapply wp_mono; [apply timer_set_wp; lia|]. by intros ok w' [].
  - intros ok w' Hf. destruct ok; [apply wp_ret; auto|].
    eapply wp_mono; [apply timer_new_wp|]. intros fd' w2 [Hf2 Hu].
    split; [by eapply frame_trans|auto].
Qed.

(** ** Writes to client data *)

(** [q] speaks of no other client than [p]. *)
Definition about p q : Prop := match q with Some (p', _) => p' = p | None => True end.

Lemma about_ne p q q' (devs : list positive) n :
  about p q → about p q' → n_ptr n ≠ p → client_inv devs q n → client_inv devs q' n.
Proof.
  unfold client_inv. destruct q as [[p1 ph]|], q' as [[p2 ph']|]; simpl; intros;
    subst; repeat destruct (decide _); try done; try congruence.
Qed.

Definition same_view (f : t_client_data → t_client_data) d : Prop :=
  client_fd (f d) = client_fd d ∧ events (f d) = events d ∧ timeout_fd (f d) = timeout_fd d.

(** The invariant after a write to the client [p]. *)
Lemma inv_reclient q q' s p f w w' :
  inv q s w → about p q → about p q' →
  frame (w_clients (list_upd p f) w) w' →
  (∀ n, list_deref (clients (config w)) p = Some n → client_inv (sh_dev s) q n →
        client_inv (sh_dev s) q' (n <| n_data ::= f |>)) →
  (timers_available → update_pollfds w' = true ∨
     ∀ n, list_deref (clients (config w)) p = Some n → same_view f (n_data n)) →
  inv q' s w'.
Proof.
  intros Hw Hq Hq' (Hc' & Hr' & Hs' & Hu') Hf Hu. pose proof Hw as Hw0. destruct Hw. unfold names_ok in *.
  constructor; rewrite ?Hc', ?Hr', ?Hs'; simpl; rewrite ?ptrs_upd; try done.
  - unfold list_upd. apply Forall_map. apply Forall_forall. intros n Hn.
    pose proof (proj1 (Forall_forall _ _) inv_client0 n Hn) as Hc. cbn beta.
    destruct (Pos.eqb_spec (n_ptr n) p) as [E|E].
    + apply Hf; [|done]. rewrite <- E. apply list_deref_elem; [by rewrite inv_clients0|done].
    + exact (about_ne _ _ _ _ _ Hq Hq' E Hc).
  - intros Ha. destruct (Hu Ha) as [|Hsame]; [by left|].
    destruct (inv_sync0 Ha) as [|Hv]; [left; auto|right]. rewrite <- Hv. unfold view. simpl.
    f_equal. apply (map_upd_same (λ d, (client_fd d, events d, timeout_fd d)));
      [by rewrite inv_clients0|].
    intros n Hn. destruct (Hsame n Hn) as (-> & -> & ->). done.
Qed.

Lemma inv_upd_client q q' s p f w :
  inv q s w → about p q → about p q' →
  (∀ n, list_deref (clients (config w)) p = Some n → client_inv (sh_dev s) q n →
        client_inv (sh_dev s) q' (n <| n_data ::= f |>)) →
  (timers_available → update_pollfds w = true ∨
     ∀ n, list_deref (clients (config w)) p = Some n → same_view f (n_data n)) →
  inv q' s (w_clients (list_upd p f) w).
Proof. intros. eapply inv_reclient; eauto using frame_refl. Qed.

Lemma inv_set_update q s w : inv q s w → inv q s (w <| update_pollfds := true |>).
Proof. intros Hw. by eapply inv_same_core. Qed.

(** ** Events *)

Lemma queue_ok_last devs qu : queue_ok devs qu → queue_ok devs (last_events qu).
Proof. apply Forall_drop. Qed.

Lemma client_event_ok devs dl id e d :
  client_ok devs d → event_ok devs e → client_ok devs (client_event dl id e d).
Proof.
  intros [] He. unfold client_event. destruct (decide _) as [HI|HI].
  - constructor; simpl; try done; try constructor; [done|lia].
  - constructor; simpl; try done.
    + apply last_events_length.
    + by apply queue_ok_last, queue_ok_push.
Qed.

Lemma client_event_cur devs dl ph id e d :
  cur_ok devs ph d → event_ok devs e → cur_ok devs ph (client_event dl id e d).
Proof.
  intros [] He. unfold client_event. rewrite decide_False by (by rewrite cu_state0).
  constructor; simpl; try done; [apply last_events_length|by apply queue_ok_last, queue_ok_push].
Qed.

Lemma client_event_inv devs dl q id e n :
  client_inv devs q n → event_ok devs e →
  client_inv devs q (n <| n_data ::= client_event dl id e |>).
Proof.
  unfold client_inv. intros Hn He. destruct q as [[p ph]|]; simpl.
  - destruct (decide _); [by apply client_event_cur|by apply client_event_ok].
  - by apply client_event_ok.
Qed.

Lemma client_inv_pre devs q n : client_inv devs q n → client_pre devs n.
Proof.
  unfold client_inv, client_pre. intros Hn. destruct q as [[p ph]|]; [destruct (decide _)|];
    destruct Hn; auto.
Qed.

Lemma inv_enqueue_pre q s w : inv q s w → enqueue_pre w.
Proof.
  intros Hw. split_and!.
  - rewrite (inv_clients _ _ _ Hw). apply Hw.
  - eapply Forall_impl; [apply Hw|]. intros n Hn. unfold devs_of.
    rewrite (inv_dev _ _ _ Hw). by eapply client_inv_pre.
  - apply Hw.
Qed.

Lemma client_event_view dl id e d :
  is_idle d = false → same_view (client_event dl id e) d.
Proof.
  intros HI%bool_decide_eq_false. unfold client_event, same_view. by rewrite decide_False.
Qed.

Lemma event_post_inv q s id e text w w' :
  inv q s w → event_ok (sh_dev s) e → event_post id e text w w' → inv q s w'.
Proof.
  intros Hw He (Hc & Hu & Hsc & Hh & _). destruct Hw.
  constructor; rewrite ?Hc, ?Hsc; simpl; try done.
  - rewrite <- inv_clients0. unfold ptrs. rewrite map_map. by apply map_ext.
  - apply Forall_map. eapply Forall_impl; [done|]. intros n Hn. by apply client_event_inv.
  - intros Ha. rewrite Hu. destruct (inv_sync0 Ha) as [-> |Hv]; [left; apply orb_true_r|].
    destruct (existsb _ _) eqn:E; [by left|right]. rewrite <- Hv. unfold view. simpl. f_equal.
    rewrite map_map. apply map_ext_in. intros n Hn.
    assert (HI : is_idle (n_data n) = false).
    { destruct (is_idle (n_data n)) eqn:E'; [|done]. exfalso.
      by rewrite (proj2 (existsb_exists _ _)) in E by eauto. }
    destruct (client_event_view (devs_of w) id e _ HI) as (H1 & H2 & H3).
    unfold set_field. simpl. by rewrite H1, H2, H3.
Qed.

Lemma keeps_event_enqueue_gpio q s gpio et ts :
  et ≠ MYGPIOD_EVENT_INPUT → keeps (inv q s) (event_enqueue_gpio gpio et ts).
Proof.
  intros Ht w Hw. eapply wp_mono; [apply event_enqueue_gpio_wp; [done|by eapply inv_enqueue_pre]|].
  intros ? w' Hp. eapply event_post_inv; [done| |exact Hp]. by intros ?.
Qed.

Lemma keeps_event_enqueue_input q s e :
  device e ∈ sh_dev s → keeps (inv q s) (event_enqueue_input e).
Proof.
  intros Hd w Hw.
  destruct (deref_ex input_devices _ (device e) w (inv_dev _ _ _ Hw) Hd) as (n & Hn & _).
  eapply wp_mono; [apply event_enqueue_input_wp; [exact Hn|by eapply inv_enqueue_pre]|].
  intros ? w' Hp. eapply event_post_inv; [done| |exact Hp]. intros _. by exists e.
Qed.
End invariant.

(** ** Automation

    [keep] decomposes a computation; the lemmas of the database [keeps] say
    that its parts keep the invariant. *)

Create HintDb keeps discriminated.

Ltac keep_step :=
  lazymatch goal with
  | |- keeps _ (mret _) => apply keeps_ret
  | |- keeps _ (gets gpios_in ≫= _) => apply keeps_gets_in; intros ???
  | |- keeps _ (gets gpios_out ≫= _) => apply keeps_gets_out; intros ???
  | |- keeps _ (gets _) => apply keeps_gets
  | |- keeps _ (ask _) => apply keeps_ask
  | |- keeps _ (mbind _ _) => apply keeps_bind; [|intros ?]
  | |- keeps _ (sys _) => apply keeps_sys
  | |- keeps _ (sys_ _) => apply keeps_sys_
  | |- keeps _ set_update_pollfds => apply keeps_set_update
  | |- keeps _ (close_fd _) => apply keeps_close_fd
  | |- keeps _ (modify _) => apply keeps_modify; by intros ?
  | |- keeps _ (for_each _ _) => apply keeps_for_each; intros ??
  | |- keeps _ (match ?x with _ => _ end) => destruct x eqn:?
  | |- keeps _ (let _ := _ in _) => cbv zeta
  end.

Ltac keep := repeat (first [solve [eauto 3 with keeps] | keep_step]).

#[export] Hint Resolve keeps_close_out_timer keeps_gpio_action_delay_abort keeps_gpio_action_delay
  keeps_event_enqueue_gpio keeps_event_enqueue_input find_in_shape keeps_deref_in keeps_deref_out
  keeps_deref_dev : keeps.
