(* ===== verification/InvOps.v ===== *)
(** * Every operation keeps the invariant: GPIOs, actions and event sources *)

From S2P Require Import Prelude CLib ParseUtil Sds Lists GpioUtil Config Kernel Timer InputNames.
From S2P Require Import Events Gpio Actions GpioEvent Protocol Socket EventLoop Invariant.

Section ops.
Context `{Kernel K} `{Build} {PE : Endings} {CE : CallEndings K PE}.
Implicit Types (w : world K) (s : shape) (q : option (positive * phase)).

(** ** GPIOs *)

Lemma node_by_id_shape {A} (l : t_list A) id n ps :
  ptrs l = ps → list_node_by_id l id = Some n → n_ptr n ∈ ps.
Proof. apply find_in_shape. Qed.

Lemma keeps_get_timestamp_ns q s c : keeps (inv q s) (get_timestamp_ns c).
Proof. unfold get_timestamp_ns. keep. Qed.

Lemma keeps_gpio_get_value q s gpio : keeps (inv q s) (gpio_get_value gpio).
Proof. unfold gpio_get_value. keep. Qed.

Lemma keeps_set_by_request q s r gpio v :
  keeps (inv q s) (gpio_set_value_by_line_request r gpio v).
Proof.
  unfold gpio_set_value_by_line_request. keep; [apply keeps_get_timestamp_ns|].
  apply keeps_event_enqueue_gpio. by destruct (decide _).
Qed.

Lemma keeps_toggle_by_request q s r gpio :
  keeps (inv q s) (gpio_toggle_value_by_line_request r gpio).
Proof. unfold gpio_toggle_value_by_line_request. keep. all: apply keeps_set_by_request. Qed.

Lemma keeps_gpio_set_value q s gpio v : keeps (inv q s) (gpio_set_value gpio v).
Proof.
  unfold gpio_set_value. keep_step. destruct (list_node_by_id _ _) eqn:E; [|keep].
  keep_step; [|apply keeps_set_by_request].
  apply keeps_close_out_timer. by eapply node_by_id_shape.
Qed.

Lemma keeps_gpio_toggle_value q s gpio : keeps (inv q s) (gpio_toggle_value gpio).
Proof.
  unfold gpio_toggle_value. keep_step. destruct (list_node_by_id _ _) eqn:E; [|keep].
  keep_step; [|apply keeps_toggle_by_request].
  apply keeps_close_out_timer. by eapply node_by_id_shape.
Qed.

Lemma keeps_gpio_blink q s gpio t i : keeps (inv q s) (gpio_blink gpio t i).
Proof.
  unfold gpio_blink. keep_step. destruct (list_node_by_id _ _) eqn:E; [|keep].
  keep_step; [apply keeps_toggle_by_request|]. destruct (negb _); [keep|].
  intros w Hw. apply wp_bind. eapply wp_mono; [apply timer_new_wp|].
  intros fd w' [Hf Hu]. apply wp_bind.
  eapply wp_mono; [apply (upd_out_wp q s); [by eapply inv_frame|done|intros Ha; left; auto]|].
  intros ? w2 Hw2. by apply wp_ret.
Qed.

Hint Resolve keeps_get_timestamp_ns keeps_gpio_get_value keeps_set_by_request
  keeps_toggle_by_request keeps_gpio_set_value keeps_gpio_toggle_value keeps_gpio_blink : keeps.

(** ** Actions *)

Lemma keeps_action_system_async q s cmd : keeps (inv q s) (action_system_async cmd).
Proof. unfold action_system_async. keep. Qed.

Lemma keeps_action_http2_async q s a b c d : keeps (inv q s) (action_http2_async a b c d).
Proof. unfold action_http2_async. keep. Qed.

Lemma keeps_action_mympd2_async q s a b c : keeps (inv q s) (action_mympd2_async a b c).
Proof. apply keeps_action_http2_async. Qed.

Lemma keeps_mpc_disconnect q s : keeps (inv q s) mpc_disconnect.
Proof. unfold mpc_disconnect. keep. Qed.

Hint Resolve keeps_action_system_async keeps_action_http2_async keeps_action_mympd2_async
  keeps_mpc_disconnect : keeps.

(** A connection that is ready, or was just made, is not NULL. *)
Definition mpd_connected w : Prop := is_Some (mpd_conn (config w)).

Lemma mpc_check_conn_wp q s w :
  inv q s w → wp mpc_check_conn (λ ok w', inv q s w' ∧ (ok = true → mpd_connected w')) w.
Proof.
  intros Hw. apply wp_bind, wp_gets. destruct (mpd_conn (config w)) as [c|] eqn:E.
  - apply wp_bind, wp_sys. intros [rc rev] k _.
    assert (Hw' : inv q s (w <| kern := k |>)) by (by eapply inv_same_core).
    destruct (_ && _).
    + apply wp_ret. split; [done|]. intros _. by exists c.
    + apply wp_bind. eapply wp_mono; [by apply keeps_mpc_disconnect|].
      intros ? w2 Hw2. by apply wp_ret.
  - by apply wp_ret.
Qed.

Lemma mpc_connect_wp q s w :
  inv q s w → wp mpc_connect (λ ok w', inv q s w' ∧ (ok = true → mpd_connected w')) w.
Proof.
  intros Hw. apply wp_bind, wp_sys. intros conn k _. apply wp_bind, wp_modify.
  set (w1 := _ <| config ::= _ |>).
  assert (Hw1 : inv q s w1) by (by eapply inv_same_core).
  destruct conn as [c|]; [|by apply wp_ret].
  apply wp_bind. unfold wp at 1, ask. destruct (mpd_connection_error _ _).
  - apply wp_bind. eapply wp_mono; [by apply keeps_mpc_disconnect|].
    intros ? w2 Hw2. by apply wp_ret.
  - apply wp_ret. split; [done|]. intros _. by exists c.
Qed.

Lemma keeps_action_mpc q s a : keeps (inv q s) (action_mpc a).
Proof.
  intros w Hw. unfold action_mpc. destruct (_ || _); [by apply wp_ret|].
  apply wp_bind. eapply wp_mono; [by apply (mpc_check_conn_wp q s)|].
  intros ready w1 [Hw1 Hr]. apply wp_bind.
  eapply (wp_mono _ (λ ok w', inv q s w' ∧ (ok = true → mpd_connected w'))).
  { destruct ready; [by apply wp_ret; split; [|intros; apply Hr]|by apply mpc_connect_wp]. }
  intros ok w2 [Hw2 Hc]. destruct ok; simpl; [|by apply wp_ret].
  apply wp_bind, wp_gets. destruct (Hc eq_refl) as [c ->].
  cut (keeps (inv q s) (_ ← sys_ (mpd_send_command c (options a));
     ok ← sys (mpd_response_finish c);
     if (ok : bool) then mret true else _ ← mpc_disconnect; mret true)); [by intros Hk; apply Hk|].
  keep.
Qed.

Lemma keeps_action_gpioset q s a : keeps (inv q s) (action_gpioset a).
Proof. unfold action_gpioset. keep. Qed.
Lemma keeps_action_gpiotoggle q s a : keeps (inv q s) (action_gpiotoggle a).
Proof. unfold action_gpiotoggle. keep. Qed.
Lemma keeps_action_gpioblink q s a : keeps (inv q s) (action_gpioblink a).
Proof. unfold action_gpioblink. keep. Qed.
Lemma keeps_action_http_async q s a : keeps (inv q s) (action_http_async a).
Proof. unfold action_http_async. keep. Qed.
Lemma keeps_action_mympd_async q s a : keeps (inv q s) (action_mympd_async a).
Proof. unfold action_mympd_async. keep. Qed.

Hint Resolve keeps_action_mpc keeps_action_gpioset keeps_action_gpiotoggle keeps_action_gpioblink
  keeps_action_http_async keeps_action_mympd_async : keeps.

(** Whatever a Lua function does through the registered C functions. *)
Lemma keeps_lua_dispatch q s f args : keeps (inv q s) (lua_dispatch f args).
Proof.
  destruct f; simpl; unfold lua_gpio_blink, lua_gpio_get, lua_gpio_set, lua_gpio_toggle,
    lua_input_ev_get, lua_system_async, lua_mpc_sync, lua_mympd_async, lua_http_async; keep.
Qed.

Lemma keeps_lua_exec q s protected r (P : Prop) :
  (P → lua_returns protected r) → (∀ how, ¬ P → permitted (ScriptStopped how)) →
  keeps (inv q s) (lua_exec protected r).
Proof.
  intros Hr Hp. induction r as [f|f args k IH|how]; simpl in *; [apply keeps_sys_| |].
  - apply keeps_bind; [apply keeps_lua_dispatch|]. intros res. apply IH. auto.
  - destruct (protected && _) eqn:E; [apply keeps_ret|]. apply keeps_stop, Hp.
    intros [-> ->]%Hr. done.
Qed.

(** A run that a Lua call returned. *)
Lemma keeps_lua_run {B} q s protected (call : K → lua_run lua_value K * K) (f : unit → M K B) (P : Prop) :
  (P → ∀ k, lua_returns protected (call k).1) → (∀ how, ¬ P → permitted (ScriptStopped how)) →
  (∀ x, keeps (inv q s) (f x)) →
  keeps (inv q s) (r ← sys call; x ← lua_exec protected r; f x).
Proof.
  intros Hr Hp Hf. apply (keeps_bind_wp _ _ _ (λ r, P → lua_returns protected r)).
  - intros w Hw. apply wp_sys. intros r k E. split; [|by eapply inv_same_core].
    intros HP. specialize (Hr HP (kern w)). by rewrite E in Hr.
  - intros r HrP. apply keeps_bind; [by apply (keeps_lua_exec _ _ _ _ P)|done].
Qed.

Lemma keeps_action_lua_sync q s a : keeps (inv q s) (action_lua_sync a).
Proof.
  unfold action_lua_sync. keep_step; [keep|]. destruct a0 as [vm|]; [|keep].
  destruct (options a) as [|f args]; [keep|]. keep_step; [keep|]. destruct (negb _); [keep|].
  apply (keeps_lua_run _ _ _ _ _ (calls_return K)); [by intros Hc k|apply permit_call|intros ?; keep].
Qed.

Lemma keeps_lua_load q s n : keeps (inv q s) (lua_async_load_source n).
Proof. unfold lua_async_load_source, upd_script. keep. Qed.

Lemma keeps_lua_load_bytecode q s c : keeps (inv q s) (lua_async_load_bytecode c).
Proof. unfold lua_async_load_bytecode. keep. Qed.

Hint Resolve keeps_lua_load keeps_lua_load_bytecode : keeps.

Lemma keeps_action_lua_async q s a : keeps (inv q s) (action_lua_async a).
Proof. unfold action_lua_async. keep. Qed.

Hint Resolve keeps_action_lua_sync keeps_action_lua_async : keeps.

Lemma keeps_action_execute q s a : keeps (inv q s) (action_execute a).
Proof. unfold action_execute. keep. Qed.

Hint Resolve keeps_action_execute : keeps.

Lemma keeps_actions_execute q s l : keeps (inv q s) (actions_execute l).
Proof. unfold actions_execute. keep. Qed.

Hint Resolve keeps_actions_execute : keeps.

(** ** Input GPIOs *)

Lemma keeps_gpio_action_long_press q s gpio p e :
  p ∈ sh_in s → keeps (inv q s) (gpio_action_long_press gpio p e).
Proof.
  intros Hp. unfold gpio_action_long_press. keep. by apply keeps_upd_in.
Qed.

Hint Resolve keeps_gpio_action_long_press : keeps.

Lemma keeps_gpio_action_handle q s gpio ts et p :
  p ∈ sh_in s → keeps (inv q s) (gpio_action_handle gpio ts et p).
Proof. intros Hp. unfold gpio_action_handle. keep. by apply keeps_upd_in. Qed.

Lemma keeps_gpio_action_execute_delayed q s gpio p :
  p ∈ sh_in s → keeps (inv q s) (gpio_action_execute_delayed gpio p).
Proof. intros Hp. unfold gpio_action_execute_delayed. keep. by apply keeps_upd_in. Qed.

Hint Resolve keeps_gpio_action_handle keeps_gpio_action_execute_delayed : keeps.

Lemma keeps_gpio_handle_event q s fd : keeps (inv q s) (gpio_handle_event fd).
Proof.
  unfold gpio_handle_event. keep_step. destruct (get_node_by_gpio_fd _ _) eqn:E; [|keep].
  assert (Hp : n_ptr n ∈ sh_in s) by (by eapply find_in_shape).
  keep_step; [keep|]. destruct a as [ret buffer]. destruct (ret <? 0); [keep|].
  keep_step; [|keep]. keep_step. unfold gpio_handle_edge_event. keep.
Qed.

Lemma keeps_timerfd_read_value q s fd : keeps (inv q s) (timerfd_read_value fd).
Proof. unfold timerfd_read_value. keep. Qed.

Lemma keeps_timer_repeat q s fd : keeps (inv q s) (timer_repeat fd).
Proof. unfold timer_repeat. keep. Qed.

Hint Resolve keeps_timerfd_read_value keeps_timer_repeat : keeps.

Lemma keeps_gpio_in_timer_handle_event q s fd : keeps (inv q s) (gpio_in_timer_handle_event fd).
Proof.
  unfold gpio_in_timer_handle_event. keep_step; [keep|]. destruct (negb _); [keep|].
  keep_step. destruct (get_node_by_gpio_in_timerfd _ _) eqn:E; [|keep].
  assert (Hp : n_ptr n ∈ sh_in s) by (by eapply find_in_shape). keep.
Qed.

Lemma keeps_gpio_out_timer_handle_event q s fd :
  keeps (inv q s) (gpio_out_timer_handle_event fd).
Proof.
  unfold gpio_out_timer_handle_event. keep_step; [keep|]. destruct (negb _); [keep|].
  keep_step. destruct (get_node_by_gpio_out_timerfd _ _) eqn:E; [|keep].
  assert (Hp : n_ptr n ∈ sh_out s) by (by eapply find_in_shape). keep.
Qed.

(** ** Input devices *)

Lemma keeps_input_ev_run q s dev data l : keeps (inv q s) (input_ev_run dev data l).
Proof.
  induction l as [|n l IH]; simpl; [keep|]. destruct (check_event _ _); [|done].
  keep_step; [by apply keeps_upd_device|]. keep.
Qed.

Hint Resolve keeps_input_ev_run : keeps.

Lemma keeps_input_ev_action_handle q s e :
  device e ∈ sh_dev s → keeps (inv q s) (input_ev_action_handle e).
Proof. intros Hd. unfold input_ev_action_handle. keep. Qed.

Lemma keeps_input_ev_handle_event q s fd : keeps (inv q s) (input_ev_handle_event fd).
Proof.
  unfold input_ev_handle_event. intros w Hw. apply wp_bind, wp_gets.
  destruct (input_device_get_by_fd _ _) eqn:E; [|by apply wp_ret].
  assert (Hd : n_ptr n ∈ sh_dev s).
  { eapply find_in_shape; [|exact E]. apply Hw. }
  revert w Hw E. cut (keeps (inv q s) (nread ← sys (read_fd fd input_size);
    match nread with
    | None => mret false
    | Some r =>
        let data := decode_input_event r in
        if (ie_type data =? EV_KEY) || (ie_type data =? EV_REL) || (ie_type data =? EV_ABS)
           || (ie_type data =? EV_SW)
        then _ ← input_ev_action_handle (MygpiodInputEvent (n_ptr n) data); mret true
        else mret true
    end)).
  { intros Hk w Hw _. by apply Hk. }
  keep_step; [keep|]. destruct a; [|keep]. cbv zeta. destruct (_ || _); [|keep].
  keep_step; [by apply keeps_input_ev_action_handle|keep].
Qed.

(** ** Timers and hooks *)

Lemma keeps_timer_ev_action_handle `{!KernelLaws K} q s n :
  n ∈ sh_timers s → keeps (inv q s) (timer_ev_action_handle (n_data n)).
Proof.
  intros Hn w Hw. apply wp_bind, wp_sys. intros t k _. apply wp_bind. unfold wp at 1, ask.
  assert (Hw' : inv q s (w <| kern := k |>)) by (by eapply inv_same_core).
  destruct (localtime_r t _) as [now|] eqn:Hnow; [|by apply wp_ret].
  apply localtime_r_wday in Hnow. cbv zeta.
  destruct (proj1 (Forall_forall _ _) (inv_weekdays _ _ _ Hw) _ Hn) as [Hl _].
  destruct (weekdays (n_data n) !! _) as [b|] eqn:E.
  - destruct b; [by apply keeps_action_execute|by apply wp_ret].
  - apply lookup_ge_None in E. destruct (0 <? tm_wday now) eqn:Ew; zbool; lia.
Qed.

Lemma keeps_timer_ev_handle_event `{!KernelLaws K} q s fd :
  (∃ n, n ∈ sh_timers s ∧ td_fd (n_data n) = fd) →
  keeps (inv q s) (timer_ev_handle_event fd).
Proof.
  intros (m & Hm & Hfd) w Hw. apply wp_bind, wp_gets. cbv zeta. rewrite (inv_timers _ _ _ Hw).
  destruct (timer_ev_get_by_fd _ _) as [n|] eqn:E.
  - apply list_find_node_Some in E as [Hn _].
    apply (keeps_bind (inv q s)); [apply keeps_timerfd_read_value| |done].
    intros ok. destruct ok; simpl; [|keep]. keep_step; [by apply keeps_timer_ev_action_handle|keep].
  - apply (list_find_node_None _ _ E) in Hm. by rewrite Hfd, Z.eqb_refl in Hm.
Qed.

Lemma keeps_hook_action_handler q s name : keeps (inv q s) (hook_action_handler name).
Proof. unfold hook_action_handler. keep. Qed.
End ops.

#[export] Hint Resolve keeps_get_timestamp_ns keeps_gpio_get_value keeps_set_by_request
  keeps_toggle_by_request keeps_gpio_set_value keeps_gpio_toggle_value keeps_gpio_blink
  keeps_action_execute keeps_actions_execute keeps_timerfd_read_value
  keeps_timer_repeat keeps_gpio_action_handle keeps_gpio_action_execute_delayed
  keeps_gpio_handle_event keeps_gpio_in_timer_handle_event keeps_gpio_out_timer_handle_event
  keeps_input_ev_handle_event keeps_hook_action_handler : keeps.
