(* ===== verification/InvProtocol.v ===== *)
(** * Every command is answered, and the protocol keeps the invariant *)

From S2P Require Import Prelude CLib ParseUtil Sds Lists GpioUtil Config Kernel Timer InputNames.
From S2P Require Import Events Gpio Actions GpioEvent Protocol Socket EventLoop Invariant InvOps.

(** ** Lines *)

Lemma print_u_line n : one_line (print_u n).
Proof.
  apply one_line_Forall. eapply Forall_impl; [apply print_u_digits|]. intros c Hc.
  apply negb_true_iff, (isdigit_not_char c LF Hc). done.
Qed.

Lemma print_d_line n : one_line (print_d n).
Proof.
  unfold print_d. destruct (n <? 0); [|apply print_u_line].
  apply (one_line_app (bs "-")); [done|apply print_u_line].
Qed.

(** A key of the protocol ends with a colon. *)
Lemma line_ok_kv key v :
  one_line key → existsb (ch ":") key = true → one_line v → line_ok (key ++ v).
Proof. intros. split; [by apply one_line_app|]. rewrite existsb_app. by apply orb_true_intro; left. Qed.

Ltac kv := first [split; reflexivity | apply line_ok_kv; [reflexivity|reflexivity|]; eauto with gpio].

#[export] Hint Resolve print_u_line print_d_line input_event_type_name_one_line : gpio.

Lemma lookup_gpio_value_line v : one_line (lookup_gpio_value v).
Proof. by destruct v. Qed.
Lemma lookup_bias_line v : one_line (lookup_bias v).
Proof. by destruct v. Qed.
Lemma lookup_drive_line v : one_line (lookup_drive v).
Proof. by destruct v. Qed.
Lemma lookup_event_request_line v : one_line (lookup_event_request v).
Proof. by destruct v. Qed.
Lemma lookup_event_clock_line v : one_line (lookup_event_clock v).
Proof. by destruct v. Qed.
Lemma bool_to_str_line v : one_line (mygpio_bool_to_str v).
Proof. by destruct v. Qed.
Lemma event_name_line v : one_line (mygpiod_event_name v).
Proof. by destruct v. Qed.

#[export] Hint Resolve lookup_gpio_value_line lookup_bias_line lookup_drive_line
  lookup_event_request_line lookup_event_clock_line bool_to_str_line event_name_line : gpio.

Lemma input_event_code_name_line `{BuildLaws} t c : one_line (print_s (input_event_code_name t c)).
Proof.
  unfold input_event_code_name.
  repeat (destruct (_ =? _); [apply name_of_code_one_line; apply H0|]). done.
Qed.

#[export] Hint Resolve input_event_code_name_line : gpio.

Lemma event_lines_ok `{BuildLaws} devs n :
  Forall (λ n, one_line (dev_name (n_data n))) devs → Forall line_ok (event_lines devs n).
Proof.
  intros Hd. unfold event_lines, input_lines. apply Forall_app. split.
  { repeat constructor; kv. }
  destruct (decide _); [|repeat constructor; kv].
  destruct (input_event _) as [ie|]; [|constructor].
  destruct (list_deref devs _) as [dev|] eqn:E; [|constructor].
  apply list_deref_Some in E as [E _]. apply (proj1 (Forall_forall _ _) Hd) in E.
  repeat constructor; kv.
Qed.

Section protocol.
Context `{Kernel K} `{Build} `{!BuildLaws} {PE : Endings}.
Implicit Types (w : world K) (s : shape) (q : option (positive * phase)) (p : positive).

(** The client [p] has a complete answer in its output buffer and waits for
    the socket to take it. *)
Definition replied p w : Prop :=
  ∃ n ls, list_deref (clients (config w)) p = Some n ∧
    state (n_data n) = CLIENT_SOCKET_STATE_WRITING ∧ bytes_out (n_data n) = 0 ∧
    events (n_data n) = POLLOUT ∧ buf_out (n_data n) = unlines ls ∧ answer ls ∧
    update_pollfds w = true.

(** What every client data satisfies, whether its command is executed or not. *)
Definition base_ok (devs : list positive) (d : t_client_data) : Prop :=
  queue_short d ∧ queue_ok devs (waiting_events d) ∧ one_line (buf_in d) ∧
  Z.of_nat (length (buf_in d)) < BUFFER_SIZE_INPUT_MAX.

Lemma client_inv_base devs q n : client_inv devs q n → base_ok devs (n_data n).
Proof.
  assert (Ho : client_ok devs (n_data n) → base_ok devs (n_data n)) by (intros []; by split_and!).
  unfold client_inv. destruct q as [[p ph]|]; [destruct (decide _)|]; try done.
  intros Hc. unfold base_ok. rewrite (cu_in _ _ _ Hc). split_and!; [apply Hc..|done|done].
Qed.

Lemma respond_ok devs text d : base_ok devs d → client_ok devs (respond text d).
Proof.
  intros (? & ? & ? & ?). constructor; simpl; try done. intros _. split; [done|lia].
Qed.

Lemma idle_respond_ok devs dl b d : base_ok devs d → client_ok devs (idle_respond dl b d).
Proof.
  intros (? & ? & ? & ?). constructor; simpl; try done; try constructor; [done|lia].
Qed.

(** Sending a complete text to the client [p]. *)
Lemma respond_inv q s p f ls w :
  inv q s w → about p q → p ∈ sh_clients s →
  (∀ d, base_ok (sh_dev s) d → client_ok (sh_dev s) (f d)) →
  (∀ n, list_deref (clients (config w)) p = Some n →
     state (f (n_data n)) = CLIENT_SOCKET_STATE_WRITING ∧ bytes_out (f (n_data n)) = 0 ∧
     events (f (n_data n)) = POLLOUT ∧ buf_out (f (n_data n)) = unlines ls) → answer ls →
  let w' := (w_clients (list_upd p f) w) <| update_pollfds := true |> in
  inv None s w' ∧ replied p w'.
Proof.
  intros Hw Hq Hp Hf Hn Hls w'. split.
  - eapply (inv_reclient q None s p f w w'); try done.
    + intros n _ Hc. apply Hf. by eapply client_inv_base.
    + intros _. by left.
  - destruct (deref_ex clients _ p w (inv_clients _ _ _ Hw) Hp) as (n & Hd & _).
    destruct (Hn _ Hd) as (Ha & Hb & Hc & Hd').
    exists (n <| n_data ::= f |>), ls. split; [by apply deref_upd_clients|]. by split_and!.
Qed.

Lemma send_wp q s p msg ls w :
  inv q s w → about p q → p ∈ sh_clients s → c_str msg ++ [LF] = unlines ls → answer ls →
  wp (server_response_send p msg) (λ _ w', inv None s w' ∧ replied p w') w.
Proof.
  intros Hw Hq Hp Hm Hls. unfold wp. rewrite send_run.
  eapply respond_inv; try done. intros d. apply respond_ok.
Qed.

(** ** Commands *)

(** [m] ends with a complete answer to the client [p]. *)
Definition finishes {A} q s p (m : M K A) : Prop :=
  ∀ w, inv q s w → wp m (λ _ w', inv None s w' ∧ replied p w') w.

Lemma finishes_bind {A B} q s p (m : M K A) (f : A → M K B) :
  keeps (inv q s) m → (∀ a, finishes q s p (f a)) → finishes q s p (mbind f m).
Proof.
  intros Hm Hf w Hw. apply wp_bind. eapply wp_mono; [by apply Hm|].
  intros a w' Hw'. by apply Hf.
Qed.

Lemma finishes_ret {A B} q s p (m : M K A) (b : B) :
  finishes q s p m → finishes q s p (_ ← m; mret b).
Proof. intros Hm w Hw. apply wp_bind. eapply wp_mono; [by apply Hm|]. by intros a w' Hw'. Qed.

Lemma finishes_send q s p msg ls :
  about p q → p ∈ sh_clients s → c_str msg ++ [LF] = unlines ls → answer ls →
  finishes q s p (server_response_send p msg).
Proof. intros Hq Hp Hm Hls w Hw. by eapply send_wp. Qed.

Lemma c_str_idem b : c_str (c_str b) = c_str b.
Proof. apply c_str_id, c_str_no_nul. Qed.

Lemma c_str_app_lit a b : no_nul a → c_str (a ++ b) = a ++ c_str b.
Proof. intros Ha. unfold c_str. by rewrite take_while_all. Qed.

Lemma finishes_error q s p msg :
  about p q → p ∈ sh_clients s → one_line (c_str msg) → finishes q s p (send_error p msg).
Proof.
  intros Hq Hp Hm. apply finishes_ret.
  apply (finishes_send q s p _ [DEFAULT_MSG_ERROR ++ c_str msg]); try done.
  - rewrite c_str_app_lit by (repeat constructor). unfold unlines. simpl. by rewrite app_nil_r.
  - right. left. by eexists.
Qed.

Lemma finishes_ok_end q s p :
  about p q → p ∈ sh_clients s → finishes q s p (send_ok_end p).
Proof.
  intros Hq Hp. apply finishes_ret.
  apply (finishes_send q s p _ [DEFAULT_MSG_OK; DEFAULT_MSG_END]); try done.
  left. by exists [].
Qed.

(** *** Answers of several lines *)

Lemma client_inv_at devs p ph n : n_ptr n = p → client_inv devs (Some (p, ph)) n ↔ cur_ok devs ph (n_data n).
Proof. intros Hn. unfold client_inv. by rewrite decide_True. Qed.

Lemma keeps_append s p l :
  line_ok l → keeps (inv (Some (p, Body)) s) (server_response_append p l).
Proof.
  intros Hl w Hw. unfold wp. rewrite append_run.
  eapply inv_upd_client; try done; [|by intros _; right].
  intros n Hn. pose proof (proj2 (list_deref_Some _ _ _ Hn)) as Hp.
  rewrite !client_inv_at by done. intros []. constructor; simpl; try done.
  intros _. destruct cu_out as (ls & -> & Hls); [done|]. exists (ls ++ [l]).
  split; [by rewrite <- unlines_app|]. apply Forall_app. auto.
Qed.

Lemma finishes_start {A} s p (m : M K A) :
  finishes (Some (p, Body)) s p m →
  finishes (Some (p, Fresh)) s p
    (_ ← server_response_start p; _ ← server_response_append p DEFAULT_MSG_OK; m).
Proof.
  intros Hm w Hw. apply wp_bind. unfold wp at 1. rewrite start_run.
  apply wp_bind. unfold wp at 1. rewrite append_run, w_clients_upd_compose. apply Hm.
  eapply inv_upd_client; try done; [|by intros _; right].
  intros n Hn. pose proof (proj2 (list_deref_Some _ _ _ Hn)) as Hp.
  rewrite !client_inv_at by done. intros []. constructor; simpl; try done.
  intros _. by exists [].
Qed.

Lemma finishes_end {B} s p (b : B) :
  p ∈ sh_clients s →
  finishes (Some (p, Body)) s p
    (_ ← server_response_append p DEFAULT_MSG_END; _ ← server_response_end p; mret b).
Proof.
  intros Hp w Hw. apply wp_bind. unfold wp at 1. rewrite append_run.
  apply wp_bind. unfold wp at 1. rewrite end_run, w_clients_upd_compose. apply wp_ret.
  destruct (deref_ex clients _ p w (inv_clients _ _ _ Hw) Hp) as (n & Hd & Hin & Hpn).
  pose proof (proj1 (Forall_forall _ _) (inv_client _ _ _ Hw) _ Hin) as Hc.
  apply client_inv_at in Hc; [|done]. destruct (cu_out _ _ _ Hc eq_refl) as (ls & Hls & Hok).
  eapply (respond_inv _ _ _ _ (DEFAULT_MSG_OK :: ls ++ [DEFAULT_MSG_END])); try done.
  - intros d Hb. unfold compose. apply respond_ok. destruct Hb as (? & ? & ? & ?). by split_and!.
  - intros m Hm. rewrite Hm in Hd. injection Hd as ->. unfold compose. simpl. rewrite Hls.
    split_and!; try done. by rewrite <- unlines_app.
  - left. by exists ls.
Qed.

Ltac finish :=
  repeat lazymatch goal with
  | |- finishes _ _ _ (_ ← server_response_append _ DEFAULT_MSG_END; _) =>
      by apply finishes_end
  | |- finishes _ _ _ (_ ← server_response_append _ _; _) =>
      apply finishes_bind; [apply keeps_append; try kv|intros ?]
  | |- finishes _ _ _ (mbind _ _) =>
      apply finishes_bind; [solve [keep]|intros ?]
  | |- finishes _ _ _ (send_error _ _) => apply finishes_error; [done..|try reflexivity]
  | |- finishes _ _ _ (send_ok_end _) => by apply finishes_ok_end
  | |- finishes _ _ _ (match ?x with _ => _ end) => destruct x eqn:?
  end.

(** A loop whose body appends lines. *)
Lemma keeps_gpiolist_entry s p dir name id :
  one_line dir → one_line name → keeps (inv (Some (p, Body)) s) (gpiolist_entry p dir name id).
Proof.
  intros Hd Hn. unfold gpiolist_entry.
  repeat lazymatch goal with
  | |- keeps _ (server_response_append _ _) => apply keeps_append; kv
  | |- keeps _ _ => keep_step; [solve [keep | apply keeps_append; kv]|intros]
  end.
Qed.

Ltac keep_lines :=
  repeat lazymatch goal with
  | |- keeps _ (server_response_append _ _) => apply keeps_append; try kv
  | |- keeps _ (match ?x with _ => _ end) => destruct x eqn:?
  | |- keeps _ (mret _) => apply keeps_ret
  | |- keeps _ _ => keep_step; [solve [keep | apply keeps_append; kv]|intros]
  end.

Lemma Forall_in {A} (P : node A → Prop) l n : Forall P l → n ∈ l → P n.
Proof. intros Hl. by apply Forall_forall. Qed.

Lemma finishes_gpiolist s p :
  p ∈ sh_clients s → finishes (Some (p, Fresh)) s p (handle_gpiolist p).
Proof.
  intros Hp. apply finishes_start. intros w Hw.
  apply wp_bind, wp_gets. pose proof (inv_names _ _ _ Hw) as (Hin & Hout & _).
  apply wp_bind. eapply wp_mono.
  { apply (keeps_for_each (inv (Some (p, Body)) s)); [|done]. intros n Hn.
    apply keeps_gpiolist_entry; [done|]. by apply (Forall_in _ _ _ Hin). }
  intros ? w1 Hw1. apply wp_bind, wp_gets. pose proof (inv_names _ _ _ Hw1) as (_ & Hout1 & _).
  apply wp_bind. eapply wp_mono.
  { apply (keeps_for_each (inv (Some (p, Body)) s)); [|done]. intros n Hn.
    apply keeps_gpiolist_entry; [done|]. by apply (Forall_in _ _ _ Hout1). }
  intros ? w2 Hw2. by apply finishes_end.
Qed.

Lemma finishes_gpioinfo_answer s p gpio body :
  p ∈ sh_clients s → keeps (inv (Some (p, Body)) s) body →
  finishes (Some (p, Fresh)) s p (gpioinfo_answer p gpio body).
Proof.
  intros Hp Hb. apply finishes_start. apply finishes_bind; [apply keeps_append; kv|]. intros _.
  apply finishes_bind; [done|]. intros _. by apply finishes_end.
Qed.

Lemma keeps_gpioinfo_in s p gpio id d :
  one_line (in_name d) → keeps (inv (Some (p, Body)) s) (gpioinfo_in p gpio id d).
Proof. intros Hd. unfold gpioinfo_in. keep_lines. Qed.

Lemma keeps_gpioinfo_out s p gpio id d :
  one_line (out_name d) → keeps (inv (Some (p, Body)) s) (gpioinfo_out p gpio id d).
Proof. intros Hd. unfold gpioinfo_out. keep_lines. Qed.

Lemma finishes_gpioinfo args s p :
  p ∈ sh_clients s → finishes (Some (p, Fresh)) s p (handle_gpioinfo args p).
Proof.
  intros Hp. unfold handle_gpioinfo. destruct (negb _); [by apply finishes_error|].
  destruct (mygpio_parse_uint _ _ _ _) as [[gpio r]|]; [|by apply finishes_error].
  intros w Hw. apply wp_bind, wp_gets. pose proof (inv_names _ _ _ Hw) as (Hin & Hout & _).
  destruct (list_node_by_id (gpios_in _) _) as [n|] eqn:E.
  - apply finishes_gpioinfo_answer; [done| |done]. apply keeps_gpioinfo_in.
    apply (Forall_in _ _ _ Hin). by apply (list_find_node_Some _ _ _ E).
  - apply wp_bind, wp_gets. destruct (list_node_by_id (gpios_out _) _) as [n|] eqn:E2.
    + apply finishes_gpioinfo_answer; [done| |done]. apply keeps_gpioinfo_out.
      apply (Forall_in _ _ _ Hout). by apply (list_find_node_Some _ _ _ E2).
    + by apply (finishes_error (Some (p, Fresh)) s p).
Qed.

Lemma finishes_gpioget args s p :
  p ∈ sh_clients s → finishes (Some (p, Fresh)) s p (handle_gpioget args p).
Proof.
  intros Hp. unfold handle_gpioget. finish. apply finishes_start. finish.
Qed.

Lemma finishes_gpioset args s p :
  p ∈ sh_clients s → finishes (Some (p, Fresh)) s p (handle_gpioset args p).
Proof. intros Hp. unfold handle_gpioset. finish. Qed.

Lemma finishes_gpiotoggle args s p :
  p ∈ sh_clients s → finishes (Some (p, Fresh)) s p (handle_gpiotoggle args p).
Proof. intros Hp. unfold handle_gpiotoggle. finish. Qed.

Lemma finishes_gpioblink args s p :
  p ∈ sh_clients s → finishes (Some (p, Fresh)) s p (handle_gpioblink args p).
Proof. intros Hp. unfold handle_gpioblink. finish. Qed.

Lemma finishes_hook `{!CallEndings K PE} args s p :
  p ∈ sh_clients s → finishes (Some (p, Fresh)) s p (handle_hook args p).
Proof. intros Hp. unfold handle_hook. finish. Qed.

Lemma finishes_event `{!KernelLaws K} `{!CallEndings K PE} args s p :
  p ∈ sh_clients s → finishes (Some (p, Fresh)) s p (handle_event args p).
Proof.
  intros Hp. unfold handle_event. destruct (negb _); [by apply finishes_error|].
  destruct (mygpio_parse_uint _ _ _ _) as [[gpio r]|]; [|by apply finishes_error].
  destruct (parse_event_type _) as [et [|]]; [by apply finishes_error|].
  intros w Hw. apply wp_bind, wp_gets.
  destruct (list_node_by_id (gpios_in _) _) as [n|] eqn:E;
    [|by apply (finishes_error (Some (p, Fresh)) s p)].
  assert (Hin : n_ptr n ∈ sh_in s).
  { rewrite <- (inv_in _ _ _ Hw). by eapply node_by_id_shape. }
  apply wp_bind, wp_sys. intros ts k Hts.
  destruct (clock_gettime_realtime (kern w)) as [[sec nsec] Hsome]. rewrite Hts in Hsome.
  simpl in Hsome. subst ts.
  apply (finishes_bind (Some (p, Fresh)) s p); [by apply keeps_gpio_action_handle| |].
  - intros _. by apply finishes_ok_end.
  - by eapply inv_frame; [|apply frame_kern].
Qed.

Lemma finishes_timerevlist s p :
  p ∈ sh_clients s → finishes (Some (p, Fresh)) s p (handle_timerevlist p).
Proof.
  intros Hp. apply finishes_start. intros w Hw.
  apply wp_bind, wp_gets. rewrite (inv_timers _ _ _ Hw). apply wp_bind. eapply wp_mono.
  { apply (keeps_for_each (inv (Some (p, Body)) s)); [|done]. intros n Hn. cbv zeta.
    destruct (Forall_in _ _ _ (inv_weekdays _ _ _ Hw) Hn) as [_ Hname].
    unfold timer_get_next_expire_ts. keep_step; [apply keeps_append; kv|].
    keep_step; [keep|]. apply keeps_append. kv. }
  intros ? w1 Hw1. by apply finishes_end.
Qed.

(** ** The firmware *)

Lemma one_line_sub a b : one_line (a ++ b) → one_line b.
Proof. unfold one_line. rewrite forallb_app. by intros [_ ?]%andb_true_iff. Qed.

Lemma c_str_tail (b : bytes) : c_str (drop_while (λ c, negb (ch c NUL)) b) = [].
Proof.
  destruct (drop_while _ b) as [|c r] eqn:E; [done|].
  apply drop_while_head in E. unfold c_str. simpl. by rewrite E.
Qed.

Lemma c_str_drop_line (b : bytes) n :
  one_line (c_str b) → (n ≤ length (c_str b))%nat → one_line (c_str (drop n b)).
Proof.
  intros Hb Hn. rewrite <- (take_drop_while (λ c, negb (ch c NUL)) b).
  change (take_while _ b) with (c_str b).
  rewrite drop_app_le by done.
  pose proof (c_str_no_nul b) as Hnn. rewrite <- (take_drop n (c_str b)) in Hb, Hnn.
  apply Forall_app in Hnn as [_ Hnn].
  rewrite c_str_app_lit by exact Hnn. rewrite c_str_tail, app_nil_r. by eapply one_line_sub.
Qed.

Lemma index_of_bound b c : index_of b c < Z.of_nat (length (c_str b)).
Proof.
  unfold index_of, strchr. destruct (drop_while _ (c_str b)) as [|x r] eqn:E; simpl; lia.
Qed.

Lemma vcgencmd_wp `{!KernelLaws K} q s command w :
  inv q s w → wp (vcgencmd command) (λ r w', inv q s w' ∧ one_line (c_str (r.1))) w.
Proof.
  intros Hw. apply wp_bind, wp_bind, wp_sys. intros fd k _. apply wp_ret.
  set (mb := if fd <? 0 then -1 else fd). destruct (mb =? -1).
  { apply wp_ret. split; [by eapply inv_frame; [|apply frame_kern]|done]. }
  apply wp_bind, wp_bind, wp_sys. intros [[rv p5] resp] k2 Hr. apply wp_ret.
  apply ioctl_mbox_line in Hr as [Hlen Hr]. set (buffer := if rv <? 0 then _ else _).
  assert (Hl : one_line (c_str buffer)) by (unfold buffer; by destruct (rv <? 0)).
  assert (Hmax : (length buffer ≤ 1024)%nat).
  { unfold buffer. destruct (rv <? 0); [simpl; lia|by rewrite app_nil_l, Hlen]. }
  cbv zeta. apply wp_bind. unfold wp at 1, sys_. apply wp_ret.
  split; [by eapply inv_frame; [|split_and!]|].
  destruct (i32 p5 =? 0); simpl; [|done].
  destruct (_ && _) eqn:E; [|done]. zbool.
  pose proof (index_of_bound buffer "=") as Hi.
  replace (index_of buffer "=" + 1) with (Z.of_nat (Z.to_nat (index_of buffer "=" + 1))) by lia.
  rewrite sdsrange_from by (unfold INT_MAX; lia). apply c_str_drop_line; [done|lia].
Qed.

Lemma finishes_vcio `{!KernelLaws K} command s p :
  p ∈ sh_clients s → finishes (Some (p, Fresh)) s p (handle_raspberry_vcio p command).
Proof.
  intros Hp w Hw. apply wp_bind. eapply wp_mono; [by apply vcgencmd_wp|].
  intros [result rc] w1 [Hw1 Hl]. simpl in Hl. destruct rc; cbn [negb].
  - eapply finishes_start; [|done]. apply finishes_bind; [apply keeps_append; kv|]. intros _.
    by apply finishes_end.
  - by apply (finishes_error (Some (p, Fresh)) s p).
Qed.

(** ** Idle *)

Lemma list_length_0 {A} (l : t_list A) d :
  Z.of_nat (length l) ≤ WAITING_EVENTS_MAX → (list_length l =? 0) = d → (d = true ↔ l = []).
Proof.
  unfold WAITING_EVENTS_MAX. intros Hl <-. unfold list_length.
  rewrite u32_small by (unfold is_u32, UINT_MAX; lia). rewrite Z.eqb_eq.
  destruct l; simpl; split; try done; lia.
Qed.

Lemma send_idle_events_wp q s p (b : bool) w n :
  inv q s w → about p q → list_deref (clients (config w)) p = Some n →
  b = true ∨ waiting_events (n_data n) ≠ [] →
  wp (send_idle_events p b) (λ _ w', inv None s w' ∧ replied p w') w.
Proof.
  intros Hw Hq Hn Hne.
  assert (Hp : p ∈ sh_clients s).
  { rewrite <- (inv_clients _ _ _ Hw). by eapply list_deref_in_ptrs. }
  assert (Hb : base_ok (sh_dev s) (n_data n)).
  { eapply client_inv_base, (Forall_in _ _ _ (inv_client _ _ _ Hw)). by apply list_deref_Some in Hn as []. }
  assert (Hnd : NoDup (ptrs (clients (config w)))).
  { rewrite (inv_clients _ _ _ Hw). apply Hw. }
  assert (Hqu : queue_ok (ptrs (devs_of w)) (waiting_events (n_data n))).
  { unfold devs_of. rewrite (inv_dev _ _ _ Hw). apply Hb. }
  unfold wp. rewrite (send_idle_events_run p b n w Hnd Hn Hqu).
  eapply respond_inv; try done; [intros d; apply idle_respond_ok| |].
  - intros m. rewrite Hn. intros [= <-]. by split_and!.
  - assert (Hl : Forall line_ok (concat (map (event_lines (devs_of w)) (waiting_events (n_data n))))).
    { apply Forall_concat, Forall_map, Forall_forall. intros e _. apply event_lines_ok.
      apply (inv_names _ _ _ Hw). }
    destruct b; [left; by eexists|]. right. right. eexists. split_and!; [reflexivity|done|].
    destruct Hne as [|Hne]; [done|]. destruct (waiting_events (n_data n)); done.
Qed.

(** The client [p] waits for events: its queue is empty and no timer runs. *)
Definition idling p w : Prop :=
  ∃ n, list_deref (clients (config w)) p = Some n ∧
    state (n_data n) = CLIENT_SOCKET_STATE_IDLE ∧ waiting_events (n_data n) = [] ∧
    timeout_fd (n_data n) < 0.

Lemma client_of q s p w :
  inv q s w → p ∈ sh_clients s →
  ∃ n, list_deref (clients (config w)) p = Some n ∧ n_ptr n = p ∧
       client_inv (sh_dev s) q n ∧ base_ok (sh_dev s) (n_data n).
Proof.
  intros Hw Hp. destruct (deref_ex clients _ p w (inv_clients _ _ _ Hw) Hp) as (n & Hn & Hin & Hpn).
  pose proof (Forall_in _ _ _ (inv_client _ _ _ Hw) Hin) as Hc.
  exists n. split_and!; try done. by eapply client_inv_base.
Qed.

Lemma handle_idle_wp s p w :
  inv (Some (p, Fresh)) s w → p ∈ sh_clients s →
  wp (handle_idle p) (λ _ w', inv None s w' ∧ (replied p w' ∨ idling p w')) w.
Proof.
  intros Hw Hp. destruct (client_of _ _ _ _ Hw Hp) as (n & Hn & Hpn & Hc & Hb).
  apply client_inv_at in Hc; [|done].
  apply wp_bind. eapply wp_deref; [exact Hn|].
  destruct (list_length _ =? 0) eqn:E; apply list_length_0 in E; try apply Hc.
  - destruct E as [E _]. specialize (E eq_refl).
    apply wp_bind, wp_bind. eapply wp_deref; [exact Hn|]. apply wp_bind.
    eapply wp_mono; [apply close_fd_wp|]. intros fd w1 (Hf & Hu & Hfd).
    unfold wp at 1. rewrite upd_client_run. apply wp_bind. unfold wp at 1. rewrite upd_client_run.
    rewrite w_clients_upd_compose. apply wp_ret. split.
    + eapply (inv_upd_client (Some (p, Fresh)) None s p); try done; [by eapply inv_frame| |].
      * rewrite (proj1 Hf), Hn. intros m [= <-] _. destruct Hc. unfold compose.
        constructor; simpl; try done; rewrite ?cu_in; done.
      * intros _. destruct Hu as [|Hu]; [by left|right].
        rewrite (proj1 Hf), Hn. intros m [= <-]. by split_and!.
    + right. eexists. split; [apply deref_upd_clients; rewrite (proj1 Hf); exact Hn|].
      by split_and!.
  - eapply wp_mono; [eapply send_idle_events_wp; try done|].
    + right. intros Hnil. apply E in Hnil. done.
    + intros ? w' [? ?]. auto.
Qed.

Lemma handle_noidle_wp q s p w :
  inv q s w → about p q → p ∈ sh_clients s →
  wp (handle_noidle p) (λ _ w', inv None s w' ∧ replied p w') w.
Proof.
  intros Hw Hq Hp. destruct (client_of _ _ _ _ Hw Hp) as (n & Hn & Hpn & Hc & Hb).
  apply wp_bind. eapply wp_deref; [exact Hn|]. apply wp_bind, wp_gets, wp_bind.
  eapply wp_mono; [apply set_timeout_wp|]. intros fd w1 [Hf Hu].
  assert (Hn1 : list_deref (clients (config w1)) p = Some n) by (by rewrite (proj1 Hf)).
  apply wp_bind. unfold wp at 1. rewrite upd_client_run.
  set (f := λ d, d <| timeout_fd := fd |>).
  assert (Hw2 : inv q s (w_clients (list_upd p f) w1)).
  { eapply (inv_upd_client q q s p); try done; [by eapply inv_frame| |].
    - intros m _. unfold client_inv. destruct q as [[p' ph]|].
      + simpl. destruct (decide _); intros []; by constructor.
      + intros []. by constructor.
    - intros Ha. destruct (Hu Ha) as [|Hu']; [by left|right].
      rewrite Hn1. intros m [= <-]. by split_and!. }
  pose proof (deref_upd_clients p f n w1 Hn1) as Hn2.
  apply wp_bind. eapply wp_deref; [exact Hn2|].
  destruct (list_length _ =? 0) eqn:E.
  - apply wp_bind. eapply wp_mono.
    { eapply (send_wp q s p _ [DEFAULT_MSG_OK; DEFAULT_MSG_END]); try done.
      left. by exists []. }
    intros ? w' ?. by apply wp_ret.
  - eapply send_idle_events_wp; try done. by left.
Qed.

(** ** Disconnecting *)

Definition with_clients (l : list positive) s : shape :=
  Shape l (sh_in s) (sh_out s) (sh_dev s) (sh_timers s) (sh_poll s) (sh_scripts s).

Lemma about_absent p q (devs : list positive) n :
  about p q → n_ptr n ≠ p → client_inv devs q n → client_inv devs None n.
Proof. intros Hq Hn. by apply (about_ne p q None). Qed.

Lemma list_del_spec {A} (l : t_list A) p n :
  NoDup (ptrs l) → n ∈ list_del p l → n ∈ l ∧ n_ptr n ≠ p.
Proof.
  intros Hnd Hn. split.
  - assert (Hl : Forall (λ m, m ∈ l) l) by (by apply Forall_forall).
    apply (Forall_remove _ p) in Hl. by apply (Forall_in _ _ _ Hl).
  - intros <-. apply (list_deref_elem _ _ (NoDup_remove_ptr _ _ Hnd)) in Hn.
    by rewrite list_deref_remove in Hn.
Qed.

Lemma disconnect_wp q s p w :
  inv q s w → about p q → p ∈ sh_clients s →
  wp (server_client_disconnect p) (λ _ w',
    inv None (with_clients (ptrs (list_del p (clients (config w)))) s) w' ∧
    clients (config w') = list_del p (clients (config w)) ∧ update_pollfds w' = true) w.
Proof.
  intros Hw Hq Hp. destruct (client_of _ _ _ _ Hw Hp) as (n & Hn & Hpn & Hc & Hb).
  apply wp_bind, wp_gets. rewrite Hn. apply wp_bind, wp_modify.
  set (w1 := _ <| config ::= _ |>). apply wp_bind, wp_bind.
  eapply wp_mono; [apply close_fd_wp|]. intros fd w2 (Hf2 & _ & _). apply wp_bind.
  eapply wp_mono; [apply close_fd_wp|]. intros fd' w3 (Hf3 & _ & _).
  unfold wp at 1, set_update_pollfds. apply wp_ret.
  pose proof (frame_trans _ _ _ Hf2 Hf3) as (Hc3 & Hr3 & Hs3 & _).
  split; [|split; [simpl; by rewrite Hc3|done]].
  assert (Hnd : NoDup (ptrs (clients (config w)))).
  { rewrite (inv_clients _ _ _ Hw). apply Hw. }
  destruct Hw. unfold names_ok in *. constructor; simpl; rewrite ?Hc3, ?Hr3, ?Hs3; simpl; try done.
  - rewrite <- inv_clients in inv_limit. etransitivity; [|exact inv_limit]. unfold ptrs.
    rewrite !length_map. apply inj_le, list_remove_length.
  - by apply NoDup_remove_ptr.
  - apply Forall_forall. intros m Hm. apply list_del_spec in Hm as [Hm Hne]; [|done].
    eapply about_absent; [exact Hq|exact Hne|]. by apply (Forall_in _ _ _ inv_client).
  - intros _. by left.
Qed.

(** ** Dispatch *)

(** How a command can end: the client is gone (close), or it has its answer,
    or it waits for events (idle), or the command is the debug command of a
    build without it, which is not answered. *)
Definition command_post (cmd : cmd_ids) s p w' : Prop :=
  ∃ l, inv None (with_clients l s) w' ∧
    ((cmd = CMD_CLOSE ∧ p ∉ l) ∨
     (l = sh_clients s ∧
      (replied p w' ∨ (cmd = CMD_IDLE ∧ idling p w') ∨
       (cmd = CMD_EVENT ∧ MYGPIOD_DEBUG = false)))).

Lemma with_clients_id s : with_clients (sh_clients s) s = s.
Proof. by destruct s. Qed.

Lemma cur_client devs ph d : cur_ok devs ph d → client_ok devs d.
Proof.
  intros Hc. pose proof (cu_state _ _ _ Hc) as Hs. pose proof (cu_in _ _ _ Hc) as Hi.
  constructor; [apply Hc|apply Hc|by rewrite Hs|by rewrite Hs|intros _; apply Hc|by rewrite Hi..].
Qed.

Lemma inv_done s p w : inv (Some (p, Fresh)) s w → inv None s w.
Proof.
  intros Hw. rewrite <- (w_clients_id w).
  replace (w_clients (λ l, l) w) with (w_clients (list_upd p (λ d, d)) w).
  - eapply (inv_upd_client (Some (p, Fresh)) None); try done; [|by intros _; right].
    intros n Hn Hc. pose proof (proj2 (list_deref_Some _ _ _ Hn)) as Hp.
    apply client_inv_at in Hc; [|done]. by eapply cur_client.
  - apply w_clients_ext. apply list_upd_id.
Qed.

Lemma finishes_post (cmd : cmd_ids) s p (m : M K bool) w :
  finishes (Some (p, Fresh)) s p m → inv (Some (p, Fresh)) s w →
  wp m (λ _, command_post cmd s p) w.
Proof.
  intros Hm Hw. eapply wp_mono; [by apply Hm|]. intros b w' [Hw' Hr].
  exists (sh_clients s). rewrite with_clients_id. auto.
Qed.

(** The commands that execute actions: a hook, and the debug command that acts as
    an edge of a GPIO. *)
Definition cmd_acts (cmd : cmd_ids) : Prop :=
  match cmd with CMD_HOOK => True | CMD_EVENT => MYGPIOD_DEBUG = true | _ => False end.

Lemma dispatch_wp `{!KernelLaws K} cmd args s p w :
  (cmd_acts cmd → CallEndings K PE) → inv (Some (p, Fresh)) s w → p ∈ sh_clients s →
  wp (dispatch_command cmd args p) (λ _, command_post cmd s p) w.
Proof.
  intros Hce Hw Hp. destruct cmd; simpl; try specialize (Hce I);
    try (by apply finishes_post; [|exact Hw]; eauto using finishes_gpiolist, finishes_gpioget,
           finishes_gpioset, finishes_gpiotoggle, finishes_gpioblink, finishes_gpioinfo,
           finishes_vcio, finishes_hook, finishes_timerevlist).
  - apply finishes_post; [|done]. by apply finishes_error.
  - eapply wp_mono; [by eapply disconnect_wp|]. intros b w' (Hw' & _).
    eexists. split; [exact Hw'|]. left. split; [done|]. intros Hin.
    apply list_elem_of_fmap in Hin as (n & Hpn & Hn). apply list_del_spec in Hn as [_ Hn]; [done|].
    rewrite (inv_clients _ _ _ Hw). apply Hw.
  - eapply wp_mono; [by apply handle_idle_wp|]. intros b w' [Hw' Hr].
    exists (sh_clients s). rewrite with_clients_id. split; [done|]. right. split; [done|].
    destruct Hr; auto.
  - eapply wp_mono; [by eapply handle_noidle_wp|]. intros b w' [Hw' Hr].
    exists (sh_clients s). rewrite with_clients_id. auto.
  - destruct MYGPIOD_DEBUG eqn:Hdbg.
    + specialize (Hce Hdbg). apply finishes_post; [|done]. by apply finishes_event.
    + apply wp_ret. exists (sh_clients s). rewrite with_clients_id.
      split; [by eapply inv_done|]. right. auto.
  - apply finishes_post; [|done]. by apply finishes_error.
Qed.

(** The world in which the line that the client [p] sent is consumed. *)
Definition clear_in p w : world K := w_clients (list_upd p (λ d, d <| buf_in := [] |>)) w.

(** What the handler can do about a line: nothing but forget it when it holds
    no argument, else what the command asks for. *)
Definition line_post (line : bytes) (idle : bool) s p w' : Prop :=
  match split_args line with
  | [] => inv None s w' ∧ ∃ n, list_deref (clients (config w')) p = Some n ∧
            state (n_data n) = (if idle then CLIENT_SOCKET_STATE_IDLE else CLIENT_SOCKET_STATE_READING)
  | cmd :: _ =>
      if idle && negb (bool_decide (parse_command cmd = CMD_NOIDLE))
      then inv None s w' ∧ replied p w'
      else command_post (parse_command cmd) s p w'
  end.

(** The line is a command that executes actions. *)
Definition line_acts (line : bytes) : Prop :=
  ∃ cmd args, split_args line = cmd :: args ∧ cmd_acts (parse_command cmd).

Lemma protocol_handler_wp `{!KernelLaws K} s p n w :
  (line_acts (buf_in (n_data n)) → CallEndings K PE) →
  inv None s (clear_in p w) → list_deref (clients (config w)) p = Some n →
  state (n_data n) ≠ CLIENT_SOCKET_STATE_WRITING →
  wp (server_protocol_handler p) (λ _, line_post (buf_in (n_data n)) (is_idle (n_data n)) s p) w.
Proof.
  intros Hce Hw Hn Hst. apply wp_bind. eapply wp_deref; [exact Hn|]. cbv zeta. apply wp_bind.
  unfold wp at 1. rewrite upd_client_run. change (w_clients _ w) with (clear_in p w).
  unfold line_post.
  assert (Hp : p ∈ sh_clients s).
  { rewrite <- (inv_clients _ _ _ Hw). eapply list_deref_in_ptrs, deref_upd_clients, Hn. }
  destruct (split_args _) as [|cmd args] eqn:Hsplit.
  - apply wp_ret. split; [done|]. eexists. split; [by apply deref_upd_clients|].
    unfold is_idle. simpl. destruct (state (n_data n)); done.
  - unfold is_idle. destruct (bool_decide (state _ = _) && _) eqn:E.
    + by apply (finishes_error None s p).
    + destruct (decide (state (n_data n) = CLIENT_SOCKET_STATE_IDLE)) as [HI|HI].
      * rewrite bool_decide_true in E by done. simpl in E.
        apply negb_false_iff, bool_decide_eq_true in E. rewrite E. simpl.
        eapply wp_mono; [by eapply (handle_noidle_wp None)|]. intros b w' [Hw' Hr].
        exists (sh_clients s). rewrite with_clients_id. auto.
      * apply dispatch_wp; [intros Hh; apply Hce; by exists cmd, args| |done].
        assert (Hs : state (n_data n) = CLIENT_SOCKET_STATE_READING) by (by destruct (state (n_data n))).
        rewrite <- (w_clients_id (clear_in p w)).
        replace (w_clients (λ l, l) (clear_in p w))
          with (w_clients (list_upd p (λ d, d)) (clear_in p w)) by (apply w_clients_ext, list_upd_id).
        eapply (inv_upd_client None (Some (p, Fresh))); try done; [|by intros _; right].
        intros m. unfold clear_in. rewrite (deref_upd_clients p _ _ _ Hn). intros [= <-] Hc.
        apply client_inv_at; [by apply list_deref_Some in Hn as []|].
        destruct Hc as [Hc1 Hc2 _ _ Hc5 _ _]. simpl in *. constructor; simpl; try done.
        apply Hc5. by rewrite Hs.
Qed.
End protocol.
