(* ===== verification/InvHttp.v ===== *)
(** * HTTP requests keep the invariant of the event loop *)

From S2P Require Import Prelude CLib ParseUtil Sds Lists GpioUtil Config Kernel Timer InputNames.
From S2P Require Import Events Gpio Actions GpioEvent Protocol Http Invariant InvOps InvProtocol.

Section http.
Context `{Kernel K} `{Build} `{KL : !KernelLaws K} {PE : Endings} {CE : CallEndings K PE}.
Implicit Types (w : world K) (p : positive) (s : shape).

Lemma keeps_vcgencmd s command : keeps (inv None s) (vcgencmd command).
Proof. intros w Hw. eapply wp_mono; [by apply vcgencmd_wp|]. by intros r w' []. Qed.

Lemma keeps_rest_gpio_entries {A} s (name : A → bytes) direction l buffer i :
  keeps (inv None s) (rest_gpio_entries name direction l buffer i).
Proof.
  revert buffer i. induction l as [|n l IH]; intros buffer i; simpl; [apply keeps_ret|].
  keep_step; [unfold rest_gpio_entry; keep|apply IH].
Qed.

Lemma keeps_rest_timer_entries s l buffer i : keeps (inv None s) (rest_timer_entries l buffer i).
Proof.
  revert buffer i. induction l as [|n l IH]; intros buffer i; simpl; [apply keeps_ret|].
  keep_step; [unfold timer_get_next_expire_ts; keep|apply IH].
Qed.

Lemma keeps_vcio_go s l buffer i result rc : keeps (inv None s) (vcio_go l buffer i result rc).
Proof.
  revert buffer i result rc. induction l as [|[cmd key] l IH]; intros buffer i result rc; simpl; [apply keeps_ret|].
  keep_step; [apply keeps_vcgencmd|]. destruct a as [result' rc']. destruct (negb rc'); [apply keeps_ret|apply IH].
Qed.

Hint Resolve keeps_vcgencmd keeps_rest_gpio_entries keeps_rest_timer_entries keeps_vcio_go : keeps.

Lemma keeps_rest_gpio_get s b : keeps (inv None s) (rest_api_gpio_get b).
Proof. unfold rest_api_gpio_get. keep. Qed.

Lemma keeps_rest_gpio_gpio_get s b g : keeps (inv None s) (rest_api_gpio_gpio_get b g).
Proof. unfold rest_api_gpio_gpio_get. keep. Qed.

Lemma keeps_rest_options s b g : keeps (inv None s) (rest_api_gpio_gpio_options b g).
Proof. unfold rest_api_gpio_gpio_options, rest_options_answer. keep. Qed.

Lemma keeps_rest_blink s b g args : keeps (inv None s) (rest_api_gpio_gpio_blink b g args).
Proof. unfold rest_api_gpio_gpio_blink. keep. Qed.

Lemma keeps_rest_set s b g args : keeps (inv None s) (rest_api_gpio_gpio_set b g args).
Proof. unfold rest_api_gpio_gpio_set. keep. Qed.

Lemma keeps_rest_toggle s b g : keeps (inv None s) (rest_api_gpio_gpio_toggle b g).
Proof. unfold rest_api_gpio_gpio_toggle. keep. Qed.

Lemma keeps_rest_timerev s b : keeps (inv None s) (rest_api_timerev_list b).
Proof. unfold rest_api_timerev_list. keep. Qed.

Lemma keeps_rest_vcio s b cmd : keeps (inv None s) (rest_api_raspberry_vcio b cmd).
Proof. unfold rest_api_raspberry_vcio. keep. Qed.

Lemma keeps_rest_vcio_all s b : keeps (inv None s) (rest_api_raspberry_vcio_all b).
Proof. unfold rest_api_raspberry_vcio_all. keep. Qed.

Hint Resolve keeps_rest_gpio_get keeps_rest_gpio_gpio_get keeps_rest_options keeps_rest_blink
  keeps_rest_set keeps_rest_toggle keeps_rest_timerev keeps_rest_vcio keeps_rest_vcio_all : keeps.

Lemma keeps_rest_api_handler s url method args : keeps (inv None s) (rest_api_handler url method args).
Proof. unfold rest_api_handler, rest_dispatch, rest_route, rest_gpio_route, rest_invalid. keep. Qed.

Lemma keeps_hook_handler s url : keeps (inv None s) (hook_handler url).
Proof. unfold hook_handler. keep. Qed.

(** A connection that is suspended has its request data. *)
Lemma inv_suspend s w p :
  inv None s w → is_Some (http_requests w !! p) →
  inv None s (w <| config ::= λ c, c <| http_suspended ::= λ l, list_push l 0 p |> |>).
Proof.
  intros [] Hp. constructor; simpl; try done. unfold list_push. apply Forall_app.
  split; [done|]. by apply Forall_singleton.
Qed.

Lemma request_process_wp s p conn url method size args w :
  inv None s w → is_Some (http_requests w !! p) →
  wp (request_process p conn url method size args) (λ _, inv None s) w.
Proof.
  intros Hw [r Hr]. unfold request_process. apply wp_bind. unfold wp at 1, request_get. rewrite Hr. simpl.
  destruct (negb _); [by apply wp_ret|]. destruct (resume_buffer r); [by apply wp_ret|].
  destruct (decide _); [by apply wp_ret|].
  destruct (strprefix _ _); [by apply keeps_rest_api_handler|].
  destruct (strcmp0 _ _).
  - apply wp_bind. unfold wp at 1, sys_. apply wp_bind. unfold wp at 1, sys_. apply wp_bind, wp_modify, wp_ret.
    apply inv_suspend; [|by exists r]. eapply inv_frame; [done|]. by split_and!.
  - destruct (strprefix _ _); [by apply keeps_hook_handler|by apply wp_ret].
Qed.

Lemma inv_requests s w (f : t_config → t_config) (g : gmap positive t_request_data → gmap positive t_request_data) :
  inv None s w → (∀ c, same_core c (f c)) →
  Forall (λ n, is_Some (g (http_requests w) !! n_data n)) (http_suspended (config w)) →
  inv None s (w <| config ::= f |> <| http_requests ::= g |>).
Proof.
  intros Hw Hf Hg. destruct (Hf (config w)) as (Hc & Hi & Ho & Hd & Ht & Hh).
  destruct Hw. constructor; unfold names_ok, view in *; simpl; rewrite ?Hc, ?Hi, ?Ho, ?Hd, ?Ht, ?Hh; done.
Qed.

Lemma inv_new_request s w conn :
  inv None s w → wp (request_data_new conn) (λ _, inv None s) w.
Proof.
  intros Hw. apply inv_requests; [done|by intros c|].
  eapply Forall_impl; [exact (inv_http _ _ _ Hw)|]. intros n Hn. apply lookup_insert_is_Some.
  destruct (decide (fresh (dom (http_requests w)) = n_data n)); [by left|by right].
Qed.

Lemma inv_request_done s w p :
  inv None s w → live_connection w p → wp (http_connection_done p) (λ _, inv None s) w.
Proof.
  intros Hw [[r Hr] Hp]. unfold wp, http_connection_done. rewrite Hr.
  apply (inv_requests s w (λ c, c)); [done|by intros c|]. rewrite Forall_forall in Hp |- *.
  intros n Hn. rewrite lookup_delete_ne by (intros E; by apply (Hp n Hn)).
  pose proof (inv_http _ _ _ Hw) as Hf. rewrite Forall_forall in Hf. by apply Hf.
Qed.

Lemma http_do_wp s c w : inv None s w → mhd_allows w c → wp (http_do c) (λ _, inv None s) w.
Proof.
  intros Hw Hc. destruct c as [[p|] conn url method size args|p]; simpl in Hc.
  - destruct Hc as [Hp _]. apply wp_bind, wp_bind. eapply wp_mono; [by apply request_process_wp|].
    intros r w' Hw'. by apply wp_ret, wp_ret.
  - apply wp_bind, wp_bind. eapply wp_mono; [by apply inv_new_request|].
    intros q w' Hw'. by apply wp_ret, wp_ret.
  - by apply inv_request_done.
Qed.

Lemma http_steps_inv s w w' : inv None s w → rtc http_step w w' → inv None s w'.
Proof.
  intros Hw Hr. induction Hr as [|w w1 w' (c & Hc & E) _ IH]; [done|]. apply IH.
  pose proof (http_do_wp s c w Hw Hc) as Hwp. unfold wp in Hwp. by rewrite E in Hwp.
Qed.
End http.
