(* ===== verification/InvLoop.v ===== *)
(** * The socket server and the event loop keep the invariant *)

From S2P Require Import Prelude CLib LuaAsync ParseUtil Sds Lists GpioUtil Config Kernel Timer InputNames.
From S2P Require Import Events Gpio Actions GpioEvent Protocol Http Socket EventLoop Invariant InvOps.
From S2P Require Import InvProtocol InvHttp.

Section socket.
Context `{Kernel K} `{Build} `{BL : !BuildLaws} `{KL : !KernelLaws K} {PE : Endings}.
Implicit Types (w : world K) (s : shape) (p : positive).

(** The invariant after the set of clients may have changed. *)
Definition inv_some s w : Prop := ∃ l, inv None (with_clients l s) w.

Lemma inv_some_intro s w : inv None s w → inv_some s w.
Proof. intros Hw. exists (sh_clients s). by rewrite with_clients_id. Qed.

Lemma disconnect_some {A} s p w (a : A) :
  inv None s w → p ∈ sh_clients s →
  wp (_ ← server_client_disconnect p; mret a) (λ _, inv_some s) w.
Proof.
  intros Hw Hp. apply wp_bind. eapply wp_mono; [by eapply (disconnect_wp None)|].
  intros b w' [Hw' _]. apply wp_ret. by eexists.
Qed.

Lemma with_clients_twice l l' s : with_clients l (with_clients l' s) = with_clients l s.
Proof. done. Qed.

Lemma list_del_upd {A} p (f : A → A) (l : t_list A) :
  NoDup (ptrs l) → list_del p (list_upd p f l) = list_del p l.
Proof.
  induction l as [|n l IH]; simpl; [done|]. intros [Hn Hnd]%NoDup_cons.
  destruct (Pos.eqb_spec (n_ptr n) p) as [<- |Hne]; simpl.
  - rewrite Pos.eqb_refl. by apply list_upd_not_in.
  - rewrite (proj2 (Pos.eqb_neq _ _)) by done. by rewrite IH.
Qed.

(** Disconnecting does not depend on what is in the buffers. *)
Lemma disconnect_upd p f n w :
  NoDup (ptrs (clients (config w))) → list_deref (clients (config w)) p = Some n →
  client_fd (f (n_data n)) = client_fd (n_data n) →
  timeout_fd (f (n_data n)) = timeout_fd (n_data n) →
  server_client_disconnect p (w_clients (list_upd p f) w) = server_client_disconnect p w.
Proof.
  intros Hnd Hn Hfd Htfd. unfold server_client_disconnect.
  erewrite bind_run by done. erewrite (bind_run (gets clients) _ w) by done.
  rewrite Hn. rewrite (deref_upd_clients p f n w Hn).
  unfold server_client_connection_clear. simpl. rewrite Hfd, Htfd.
  unfold mbind, M_bind, modify. simpl. rewrite list_del_upd by done. done.
Qed.

(** ** Writing *)

Lemma write_wp s p n w :
  inv None s w → list_deref (clients (config w)) p = Some n →
  state (n_data n) = CLIENT_SOCKET_STATE_WRITING →
  wp (server_client_write p) (λ _, inv_some s) w.
Proof.
  intros Hw Hn Hst.
  assert (Hp : p ∈ sh_clients s).
  { rewrite <- (inv_clients _ _ _ Hw). by eapply list_deref_in_ptrs. }
  destruct (client_of _ _ _ _ Hw Hp) as (n' & Hn' & Hpn & Hc & Hb).
  rewrite Hn in Hn'. injection Hn' as <-. simpl in Hc.
  destruct (co_writing _ _ Hc Hst) as [Hev Hbytes].
  apply wp_bind. eapply wp_deref; [exact Hn|]. cbv zeta. apply wp_bind, wp_sys.
  intros r k Hr. assert (Hw1 : inv None s (w <| kern := k |>)) by (by eapply inv_frame; [|apply frame_kern]).
  destruct r as [m|]; [|by apply disconnect_some].
  pose proof (write_fd_nonneg _ _ _ _ _ Hr) as Hge.
  apply write_fd_length in Hr. rewrite length_drop in Hr.
  apply wp_bind. unfold wp at 1. rewrite upd_client_run.
  destruct (Z.eqb_spec m (Z.of_nat (length (buf_out (n_data n))) - bytes_out (n_data n))) as [Hm|Hm].
  - apply wp_bind. unfold wp at 1. rewrite upd_client_run. apply wp_bind.
    unfold wp at 1, set_update_pollfds. apply wp_bind. unfold wp at 1. rewrite upd_client_run.
    apply wp_ret, inv_some_intro. rewrite w_clients_upd_compose.
    change (_ <| update_pollfds := true |>) with
      (w_clients (list_upd p ((λ d, d <| state := CLIENT_SOCKET_STATE_READING |> <| events := POLLIN |>)
         ∘ λ d, d <| bytes_out ::= λ b, b + m |>))
         ((w <| kern := k |>) <| update_pollfds := true |>)).
    rewrite w_clients_upd_compose.
    eapply (inv_upd_client None None s p); try done; [by apply inv_set_update| |by intros _; left].
    simpl. rewrite Hn. intros m' [= <-] _. destruct Hc. unfold compose. by constructor.
  - apply wp_ret, inv_some_intro.
    eapply (inv_upd_client None None s p); try done.
    + simpl. rewrite Hn. intros m' [= <-] _. destruct Hc. constructor; simpl; try done.
      intros _. split; [done|]. lia.
    + intros _. right. simpl. rewrite Hn. intros m' [= <-]. by split_and!.
Qed.

(** ** Reading *)

Lemma one_line_nolf b : existsb (ch LF) b = false → one_line b.
Proof.
  unfold one_line. induction b as [|c b IH]; cbn [existsb forallb]; [done|].
  intros [Hc Hb]%orb_false_iff. rewrite IH by done. rewrite andb_true_r.
  apply negb_true_iff, ch_false. apply ch_false in Hc. congruence.
Qed.

(** What a line does after it is read: see [line_post]. *)
Lemma line_post_some line b s p w : line_post line b s p w → inv_some s w.
Proof.
  unfold line_post. destruct (split_args line) as [|cmd args].
  - intros [Hw _]. by apply inv_some_intro.
  - destruct (_ && _).
    + intros [Hw _]. by apply inv_some_intro.
    + intros (l & Hw & _). by exists l.
Qed.

(** A chunk that completes a line: the line is executed. *)
Lemma read_line_wp s p n c r k w :
  (line_acts (sdstrim (buf_in (n_data n) ++ c :: r) [" "%char; TAB; " "%char; LF]) → CallEndings K PE) →
  inv None s w → list_deref (clients (config w)) p = Some n →
  state (n_data n) ≠ CLIENT_SOCKET_STATE_WRITING →
  read_fd (client_fd (n_data n)) BUFFER_SIZE (kern w) = (Some (c :: r), k) →
  existsb (ch LF) (buf_in (n_data n) ++ c :: r) = true →
  wp (server_client_read p)
    (λ _, line_post (sdstrim (buf_in (n_data n) ++ c :: r) [" "%char; TAB; " "%char; LF])
            (is_idle (n_data n)) s p) w.
Proof.
  intros Hce Hw Hn Hst Hr Hlf.
  assert (Hw1 : inv None s (w <| kern := k |>)) by (by eapply inv_frame; [|apply frame_kern]).
  apply wp_bind. eapply wp_deref; [exact Hn|]. apply wp_bind, wp_sys. intros r' k'.
  rewrite Hr. intros [= <- <-].
  cbv zeta. set (buf := buf_in (n_data n) ++ c :: r) in *. apply wp_bind. unfold wp at 1. rewrite upd_client_run.
  set (w1 := w <| kern := k |>) in *. rewrite Hlf.
  apply wp_bind. unfold wp at 1. rewrite upd_client_run, w_clients_upd_compose.
  set (f1 := _ ∘ _). apply wp_bind. eapply wp_deref; [apply deref_upd_clients; exact Hn|].
  apply wp_bind, wp_gets, wp_bind. eapply wp_mono; [apply set_timeout_wp|].
  intros tfd w2 [Hf Hu]. apply wp_bind. unfold wp at 1. rewrite upd_client_run. apply wp_bind.
  set (f2 := λ d, d <| timeout_fd := tfd |>).
  assert (Hn2 : list_deref (clients (config w2)) p = Some (n <| n_data ::= f1 |>)).
  { rewrite (proj1 Hf). by apply deref_upd_clients. }
  eapply wp_mono.
  { apply (protocol_handler_wp s p (n <| n_data ::= f2 ∘ f1 |>)).
    - done.
    - unfold clear_in. rewrite w_clients_upd_compose.
      eapply (inv_reclient None None s p ((λ d, d <| buf_in := [] |>) ∘ f2 ∘ f1) w1); try done.
      + destruct Hf as (Hc2 & Hr2 & Hs2 & Hu2). split_and!; try done.
        simpl. rewrite Hc2. unfold w_clients, set_field. simpl. by rewrite list_upd_compose.
      + simpl. rewrite Hn. intros m [= <-] Hc. destruct Hc. unfold compose. by constructor.
      + intros Ha. destruct (Hu Ha) as [|Hu']; [by left|right].
        simpl. rewrite Hn. intros m [= <-]. by split_and!.
    - exact (deref_upd_clients p f2 _ w2 Hn2).
    - done. }
  intros b w' Hpost. by apply wp_ret.
Qed.

Context {CE : CallEndings K PE}.

Lemma read_wp s p n w :
  inv None s w → list_deref (clients (config w)) p = Some n →
  state (n_data n) ≠ CLIENT_SOCKET_STATE_WRITING →
  wp (server_client_read p) (λ _, inv_some s) w.
Proof.
  intros Hw Hn Hst.
  assert (Hp : p ∈ sh_clients s).
  { rewrite <- (inv_clients _ _ _ Hw). by eapply list_deref_in_ptrs. }
  destruct (read_fd (client_fd (n_data n)) BUFFER_SIZE (kern w)) as [r k] eqn:Hr.
  assert (Hw1 : inv None s (w <| kern := k |>)) by (by eapply inv_frame; [|apply frame_kern]).
  destruct (match r with Some (_ :: _) => existsb (ch LF) (buf_in (n_data n) ++ default [] r) | _ => false end) eqn:Hlf.
  { destruct r as [[|c r]|]; try done. eapply wp_mono; [by eapply read_line_wp|].
    intros b w' Hpost. exact (line_post_some _ _ _ _ _ Hpost). }
  apply wp_bind. eapply wp_deref; [exact Hn|]. apply wp_bind, wp_sys. intros r' k'.
  rewrite Hr. intros [= <- <-].
  destruct r as [[|c r]|].
  { by apply disconnect_some. }
  2:{ by apply disconnect_some. }
  cbv zeta. simpl in Hlf. set (buf := buf_in (n_data n) ++ c :: r) in *.
  apply wp_bind. unfold wp at 1. rewrite upd_client_run. rewrite Hlf.
  set (w1 := w <| kern := k |>) in *.
  destruct (client_of _ _ _ _ Hw Hp) as (n' & Hn' & Hpn & Hc & Hb).
  destruct (BUFFER_SIZE_INPUT_MAX <=? Z.of_nat (length buf)) eqn:Hlen; zbool.
  - unfold wp, mbind, M_bind. rewrite (disconnect_upd p _ n w1); try done.
    + by apply (disconnect_some s p w1 false).
    + rewrite (inv_clients _ _ _ Hw1). apply Hw1.
  - apply wp_ret, inv_some_intro.
    eapply (inv_upd_client None None s p); try done.
    + simpl. rewrite Hn. intros m [= <-] Hcm. destruct Hcm. constructor; simpl; try done.
      by apply one_line_nolf.
    + intros _. right. simpl. rewrite Hn. intros m [= <-]. by split_and!.
Qed.

(** ** Accepting *)

Lemma list_upd_push {A} (f : A → A) (l : t_list A) id d :
  list_upd (fresh_ptr l) f (list_push l id d) = list_push l id (f d).
Proof.
  unfold list_push, list_upd. rewrite map_app.
  change (map _ l) with (list_upd (fresh_ptr l) f l).
  rewrite list_upd_not_in by apply fresh_ptr_not_in. simpl. by rewrite Pos.eqb_refl.
Qed.

Lemma deref_push {A} (l : t_list A) id d :
  NoDup (ptrs l) →
  list_deref (list_push l id d) (fresh_ptr l) = Some (Node (fresh_ptr l) id d).
Proof.
  intros Hnd. apply (list_deref_elem _ (Node (fresh_ptr l) id d)); [by apply NoDup_push|].
  apply elem_of_app. right. by left.
Qed.

(** A client that is written its first response. *)
Lemma inv_push s id d w w' :
  inv None s w → client_ok (sh_dev s) d →
  (length (clients (config w)) < 10)%nat →
  same_core ((config w) <| clients ::= λ l, list_push l id d |>) (config w') →
  http_requests w' = http_requests w → scripts w' = scripts w → update_pollfds w' = true →
  inv_some s w'.
Proof.
  intros Hw Hd Hlen (Hc & Hi & Ho & Hdv & Ht & Hh) Hr Hsc Hu. exists (ptrs (clients (config w'))).
  assert (Hnd : NoDup (ptrs (clients (config w)))).
  { rewrite (inv_clients _ _ _ Hw). apply Hw. }
  destruct Hw. simpl in *. unfold names_ok in *.
  constructor; simpl; rewrite ?Hi, ?Ho, ?Hdv, ?Ht, ?Hh, ?Hr, ?Hsc; try done.
  - rewrite Hc. unfold ptrs, list_push. rewrite length_map, length_app. simpl.
    unfold CLIENT_CONNECTIONS_MAX. lia.
  - rewrite Hc. by apply NoDup_push.
  - rewrite Hc. apply Forall_app. split; [done|]. by constructor.
  - unfold names_ok. by rewrite ?Hi, ?Ho, ?Hdv.
  - intros _. by left.
Qed.

Lemma MSG_VERSION_lines :
  c_str MSG_VERSION ++ [LF]
  = unlines [DEFAULT_MSG_OK; bs "version:" ++ MYGPIO_VERSION; DEFAULT_MSG_END].
Proof.
  destruct (version_line) as [_ Hv].
  rewrite c_str_id.
  - unfold MSG_VERSION, unlines. simpl. rewrite <- !app_assoc. done.
  - unfold MSG_VERSION. repeat apply no_nul_app; try done; repeat constructor.
Qed.

Lemma accept_wp s fd w :
  inv None s w → wp (server_client_connection_accept fd) (λ _, inv_some s) w.
Proof.
  intros Hw. apply wp_bind, wp_sys. intros cfd k _.
  assert (Hw1 : inv None s (w <| kern := k |>)) by (by eapply inv_frame; [|apply frame_kern]).
  set (w1 := w <| kern := k |>) in *. clearbody w1. clear Hw w.
  destruct (cfd <? 0); [by apply wp_ret, inv_some_intro|].
  apply wp_bind, wp_gets. destruct (list_length _ =? CLIENT_CONNECTIONS_MAX) eqn:Hlen.
  { apply wp_bind. unfold wp at 1, sys_. apply wp_ret, inv_some_intro. by eapply inv_frame; [|split_and!]. }
  apply wp_bind, wp_sys. intros flags k1 _. apply wp_bind, wp_sys. intros rc k2 _.
  destruct (negb (rc =? 0)).
  { apply wp_bind. unfold wp at 1, sys_. apply wp_ret, inv_some_intro. by eapply inv_frame; [|split_and!]. }
  assert (Hnd : NoDup (ptrs (clients (config w1)))).
  { rewrite (inv_clients _ _ _ Hw1). apply Hw1. }
  assert (Hlt : (length (clients (config w1)) < 10)%nat).
  { pose proof (inv_limit _ _ _ Hw1) as Hl. rewrite <- (inv_clients _ _ _ Hw1) in Hl.
    unfold ptrs in Hl. rewrite length_map in Hl. zbool. unfold list_length, CLIENT_CONNECTIONS_MAX in *.
    rewrite u32_small in Hlen by (unfold is_u32, UINT_MAX; lia). lia. }
  apply wp_bind. unfold wp at 1, set_update_pollfds. apply wp_bind, wp_modify, wp_bind, wp_gets.
  set (id := client_id _). cbv zeta. apply wp_bind, wp_modify.
  set (p := fresh_ptr (clients (config w1))). set (d0 := server_client_connection_new cfd).
  set (w2 := _ <| config ::= _ |>).
  assert (Hc2 : clients (config w2) = list_push (clients (config w1)) id d0) by done.
  apply wp_bind. unfold wp at 1. rewrite send_run. set (f1 := respond _).
  assert (Hn2 : list_deref (clients (config w2)) p = Some (Node p id d0)).
  { rewrite Hc2. by apply deref_push. }
  set (w3 := _ <| update_pollfds := true |>).
  assert (Hn3 : list_deref (clients (config w3)) p = Some (Node p id (f1 d0))).
  { exact (deref_upd_clients p f1 _ w2 Hn2). }
  apply wp_bind. eapply wp_deref; [exact Hn3|]. apply wp_bind, wp_gets, wp_bind.
  eapply wp_mono; [apply set_timeout_wp|]. intros tfd w4 [(Hc4 & Hr4 & Hs4 & Hu4) _].
  apply wp_bind. unfold wp at 1. rewrite upd_client_run. apply wp_ret.
  set (f2 := λ d, d <| timeout_fd := tfd |>).
  eapply (inv_push s id (f2 (f1 d0)) w1); try done.
  - constructor; simpl; try done; by constructor.
  - unfold w_clients. split_and!; simpl; rewrite Hc4; try done. simpl.
    rewrite list_upd_compose. apply (list_upd_push (f2 ∘ f1)).
  - simpl. by rewrite Hu4.
Qed.

(** ** Events on a client *)

Lemma handle_wp s fd revents w :
  inv None s w → wp (server_client_connection_handle fd revents) (λ _, inv_some s) w.
Proof.
  intros Hw. apply wp_bind, wp_gets.
  destruct (get_node_by_clientfd _ _) as [n|] eqn:E; [|by apply wp_ret, inv_some_intro].
  apply list_find_node_Some in E as [Hn _].
  assert (Hd : list_deref (clients (config w)) (n_ptr n) = Some n).
  { apply list_deref_elem; [|done]. rewrite (inv_clients _ _ _ Hw). apply Hw. }
  assert (Hp : n_ptr n ∈ sh_clients s).
  { rewrite <- (inv_clients _ _ _ Hw). by eapply list_deref_in_ptrs. }
  destruct (negb _); [by apply disconnect_some|].
  destruct (_ || _); [by apply disconnect_some|].
  destruct (state (n_data n)) eqn:Hst.
  1,2: by eapply read_wp; rewrite ?Hst.
  by eapply write_wp.
Qed.

Lemma timeout_wp s fd w :
  inv None s w → wp (server_client_timeout fd) (λ _, inv_some s) w.
Proof.
  intros Hw. apply wp_bind, wp_gets.
  destruct (get_node_by_timeoutfd _ _) as [n|] eqn:E; [|by apply wp_ret, inv_some_intro].
  apply list_find_node_Some in E as [Hn _].
  apply disconnect_some; [done|]. rewrite <- (inv_clients _ _ _ Hw). by apply list_elem_of_fmap_2.
Qed.
End socket.

(** ** The poll table *)

Lemma foldl_map {A B C} (f : A → C → A) (g : B → C) (l : list B) a :
  foldl f a (map g l) = foldl (λ a b, f a (g b)) a l.
Proof. revert a. induction l as [|b l IH]; intros a; simpl; [done|apply IH]. Qed.

(** The table that shows a view. *)
Definition add_timer (type : pfd_types) (pf : list t_poll_fd) (fd : Z) : list t_poll_fd :=
  if 0 <? fd then (event_poll_fd_add pf fd type (Z.lor POLLIN POLLPRI)).2 else pf.

Definition add_client (pf : list t_poll_fd) (c : Z * Z * Z) : list t_poll_fd :=
  let '(fd, ev, tfd) := c in
  let pf := if 0 <? fd then (event_poll_fd_add pf fd PFD_TYPE_CLIENT ev).2 else pf in
  add_timer PFD_TYPE_CLIENT_TIMEOUT pf tfd.

Lemma refresh_of_view cfg init :
  refresh_pollfds cfg init
  = foldl add_client
      (foldl (add_timer PFD_TYPE_GPIO_OUT_TIMER)
         (foldl (add_timer PFD_TYPE_GPIO_IN_TIMER) init (pv_in (view cfg)))
         (pv_out (view cfg))) (pv_clients (view cfg)).
Proof. unfold view. simpl. by rewrite !foldl_map. Qed.

(** An entry of the table is an initial one or a GPIO timer, client or client
    timeout. *)
Definition is_dynamic (t : pfd_types) : Prop :=
  t = PFD_TYPE_GPIO_IN_TIMER ∨ t = PFD_TYPE_GPIO_OUT_TIMER ∨ t = PFD_TYPE_CLIENT ∨
  t = PFD_TYPE_CLIENT_TIMEOUT.

Lemma foldl_inv {A B} (P : A → Prop) (f : A → B → A) l a :
  P a → (∀ a b, P a → P (f a b)) → P (foldl f a l).
Proof. intros Ha Hf. revert a Ha. induction l as [|b l IH]; intros a Ha; simpl; auto. Qed.

Definition table_of (init pf : list t_poll_fd) : Prop :=
  Z.of_nat (length pf) ≤ MAX_FDS ∧
  ∃ dyn, pf = init ++ dyn ∧ Forall (λ e, is_dynamic (pfd_type e)) dyn.

Lemma table_add init pf fd t ev :
  is_dynamic t → table_of init pf → table_of init (event_poll_fd_add pf fd t ev).2.
Proof.
  intros Ht (Hlen & dyn & -> & Hd). unfold event_poll_fd_add.
  destruct (Z.eqb_spec (Z.of_nat (length (init ++ dyn))) MAX_FDS) as [E|E]; simpl.
  - split; [done|]. by exists dyn.
  - split; [rewrite length_app; simpl; lia|].
    exists (dyn ++ [PollFd fd ev t]). split; [by rewrite app_assoc|].
    apply Forall_app. auto.
Qed.

Lemma table_add_timer init pf fd t : is_dynamic t → table_of init pf → table_of init (add_timer t pf fd).
Proof. intros Ht Hp. unfold add_timer. destruct (0 <? fd); [by apply table_add|done]. Qed.

Lemma refresh_table cfg init :
  Z.of_nat (length init) ≤ MAX_FDS → table_of init (refresh_pollfds cfg init).
Proof.
  intros Hi. rewrite refresh_of_view.
  assert (H0 : table_of init init) by (split; [done|]; exists []; by rewrite app_nil_r).
  repeat (apply foldl_inv; [|intros; unfold is_dynamic]); [done|..].
  - apply table_add_timer; unfold is_dynamic; auto.
  - apply table_add_timer; unfold is_dynamic; auto.
  - destruct b as [[fd ev] tfd]. simpl. apply table_add_timer; [unfold is_dynamic; auto|].
    destruct (0 <? fd); [|done]. apply table_add; [unfold is_dynamic; auto|done].
Qed.

Section loop.
Context `{Kernel K} `{Build} `{BL : !BuildLaws} `{KL : !KernelLaws K}.
Context {PE : Endings} {CE : CallEndings K PE} {LE : ClosedEndings K PE}.
Implicit Types (w : world K) (s : shape) (st : @loop_state K).

(** The timer events that the table holds are configured. *)
Definition timers_known s (pf : list t_poll_fd) : Prop :=
  Forall (λ e, pfd_type e = PFD_TYPE_TIMER_EV →
    ∃ n, n ∈ sh_timers s ∧ td_fd (n_data n) = pfd_fd e) pf.

(** ** Requests of script threads *)

Definition with_scripts (sc : t_system) s : shape :=
  Shape (sh_clients s) (sh_in s) (sh_out s) (sh_dev s) (sh_timers s) (sh_poll s) sc.

Lemma with_scripts_id s : with_scripts (sh_scripts s) s = s.
Proof. by destruct s. Qed.

Lemma upd_scripts_wp f s w :
  inv None s w → wp (upd_scripts f) (λ _, inv None (with_scripts (f (sh_scripts s)) s)) w.
Proof. intros [] . unfold wp, upd_scripts. constructor; simpl; try done. by rewrite inv_scripts. Qed.

Lemma inv_kern s w k : inv None s w → inv None s (w <| kern := k |>).
Proof. intros Hw. eapply inv_frame; [exact Hw|apply frame_kern]. Qed.

(** The system of the threads is in a state that it can reach, with the main
    thread at the given place. *)
Definition scripts_at (pc : main_pc) (sc : t_system) : Prop :=
  reachable script_sched script_tids sc ∧ main sc = pc.

Lemma threads_run_wp pc s w :
  inv None s w → scripts_at pc (sh_scripts s) →
  wp threads_run (λ _ w', ∃ sc, scripts_at pc sc ∧ inv None (with_scripts sc s) w') w.
Proof.
  intros Hw Hsc. apply wp_bind, wp_sys. intros acts k _.
  eapply wp_mono; [by apply upd_scripts_wp, inv_kern|]. intros [] w' Hw'.
  eexists. split; [|exact Hw']. destruct Hsc as [Hr Hm]. split.
  - eapply reachable_rtc; [exact Hr|apply run_threads_rtc].
  - by rewrite run_threads_main.
Qed.

Lemma use_lua_vm_wp id req s w :
  inv None s w → scripts_at (MExec id req) (sh_scripts s) →
  wp (use_lua_vm (LuaAsync.lua_vm req)) (λ _, inv None s) w.
Proof.
  intros Hw [Hr Hm]. unfold wp, use_lua_vm. rewrite (inv_scripts _ _ _ Hw).
  destruct (decide _) as [Ho|Hn]; [done|]. apply permit_closed; [done|].
  destruct (exec_open _ _ _ _ _ script_tids_nonzero Hr Hm) as [?|(r & ? & _ & ?)]; [done|]. by exists r.
Qed.

Lemma script_queue_signal_wp s w :
  inv None s w → scripts_at MPushed (sh_scripts s) →
  wp script_queue_signal (λ _ w', ∃ sc, scripts_at MLoop sc ∧ inv None (with_scripts sc s) w') w.
Proof.
  intros Hw [Hr Hm]. unfold script_queue_signal, in_scripts. apply wp_bind. unfold wp at 1.
  apply wp_bind, wp_sys. intros t k Hk. apply wp_bind. unfold wp at 1. cbn [scripts].
  assert (Hw1 : inv None s (w <| kern := k |>)) by by apply inv_kern.
  pose proof (cond_signal_wakes (waiting (scripts w)) (kern w)) as Hwake. rewrite Hk in Hwake. simpl in Hwake.
  destruct (signal_thread_some t (scripts w)) as (sc & Hsc & Hl); [done|].
  replace (scripts (w <| kern := k |>)) with (scripts w) by done. rewrite Hsc.
  eapply wp_mono; [by apply upd_scripts_wp|]. intros [] w' Hw'. exists sc. split; [|done].
  rewrite <- (inv_scripts _ _ _ Hw) in Hr, Hm. split; [|done].
  eapply reachable_step; [exact Hr|by eapply signal_thread_step].
Qed.

(** The function of the request and the answer. *)
Lemma lua_async_handle_wp fd s w :
  inv None s w → scripts_at MLoop (sh_scripts s) →
  wp (lua_async_handle_msg fd) (λ _ w', ∃ sc, scripts_at MLoop sc ∧ inv None (with_scripts sc s) w') w.
Proof.
  intros Hw Hsc. apply wp_bind. eapply wp_mono; [by apply threads_run_wp|].
  clear w Hw Hsc. intros _ w (sc & Hsc & Hw).
  apply wp_bind, wp_bind. unfold in_scripts. unfold wp at 1. rewrite (inv_scripts _ _ _ Hw).
  apply wp_bind, wp_sys. intros rc k Hrc. apply wp_ret.
  assert (Hw1 : inv None (with_scripts sc s) (w <| kern := k |>)) by by apply inv_kern.
  destruct (Z.eqb_spec rc 0) as [-> |]; [|apply wp_ret; by exists sc].
  apply eventfd_read_count in Hrc. destruct Hsc as [Hr Hm].
  destruct (reachable_ok _ _ _ script_tids_nonzero Hr) as (_ & _ & Hev).
  destruct (handle_shift_exec sc Hev Hrc) as (id & req & He).
  apply wp_bind. eapply wp_mono; [by apply upd_scripts_wp|].
  clear w Hw Hw1. intros [] w Hw.
  change (inv None (with_scripts (handle_shift sc) s) w) in Hw. apply wp_bind. unfold wp at 1. rewrite (inv_scripts _ _ _ Hw).
  cbn [sh_scripts with_scripts]. rewrite He.
  assert (Hsc : scripts_at (MExec id req) (handle_shift sc)).
  { split; [|done]. eapply reachable_step; [exact Hr|by apply step_handle]. }
  revert Hw Hsc. generalize (handle_shift sc). clear sc Hr Hm Hev Hrc He. intros sc Hw Hsc.
  apply wp_bind. eapply wp_mono; [eapply threads_run_wp; [exact Hw|exact Hsc]|].
  clear w Hw Hsc. intros _ w (sc' & Hsc & Hw). apply wp_bind.
  eapply wp_mono; [eapply use_lua_vm_wp; [exact Hw|exact Hsc]|]. clear w Hw. intros ? w Hw. apply wp_bind, wp_ask, wp_bind.
  eapply wp_mono; [exact (keeps_lua_dispatch _ _ _ _ _ Hw)|]. clear w Hw. intros res w Hw. apply wp_bind.
  eapply wp_mono; [eapply threads_run_wp; [exact Hw|exact Hsc]|].
  clear w Hw Hsc. intros _ w (sc2 & Hsc & Hw). apply wp_bind.
  eapply wp_mono; [eapply use_lua_vm_wp; [exact Hw|exact Hsc]|]. clear w Hw. intros [] w Hw.
  apply wp_bind. unfold wp at 1, sys_. apply wp_bind, wp_sys. intros now k2 _.
  apply wp_bind. eapply wp_mono; [by apply upd_scripts_wp, inv_kern, inv_kern|].
  clear w Hw. intros [] w Hw. apply wp_bind.
  eapply wp_mono; [eapply (threads_run_wp MPushed); [exact Hw|]|].
  { destruct Hsc as [Hr Hm]. split; [|done]. eapply reachable_step; [exact Hr|by apply step_respond]. }
  clear w Hw Hsc. intros _ w (sc3 & Hsc & Hw). apply wp_bind.
  eapply wp_mono; [eapply script_queue_signal_wp; [exact Hw|exact Hsc]|].
  intros _ w' (sc4 & Hsc4 & Hw4). apply wp_ret. by exists sc4.
Qed.

(** After one descriptor the clients and the threads may have changed. *)
Definition inv_next s w : Prop :=
  ∃ sc, scripts_at MLoop sc ∧ inv_some (with_scripts sc s) w.

Lemma inv_next_intro s w : scripts_at MLoop (sh_scripts s) → inv_some s w → inv_next s w.
Proof. intros Hsc Hw. exists (sh_scripts s). by rewrite with_scripts_id. Qed.

Lemma delegate_wp s fd revents type w :
  inv None s w → scripts_at MLoop (sh_scripts s) →
  (type = PFD_TYPE_TIMER_EV → ∃ n, n ∈ sh_timers s ∧ td_fd (n_data n) = fd) →
  wp (event_delegate fd revents type) (λ _, inv_next s) w.
Proof.
  intros Hw Hsc Ht.
  assert (Hs : ∀ {A B} (m : M K A) (b : B), wp m (λ _, inv_some s) w →
            wp (_ ← m; mret b) (λ _, inv_next s) w).
  { intros A B m b Hm. apply wp_bind. eapply wp_mono; [done|].
    intros a w' Hw'. by apply wp_ret, inv_next_intro. }
  assert (Hk : ∀ {A B} (m : M K A) (b : B), keeps (inv None s) m →
            wp (_ ← m; mret b) (λ _, inv_next s) w).
  { intros A B m b Hm. apply Hs. eapply wp_mono; [by apply Hm|].
    intros a w' Hw'. by apply inv_some_intro. }
  destruct type; simpl.
  - apply Hk, keeps_gpio_handle_event.
  - apply Hk. destruct (negb _); [apply keeps_gpio_in_timer_handle_event|apply keeps_ret].
  - apply Hk. destruct (negb _); [apply keeps_gpio_out_timer_handle_event|apply keeps_ret].
  - by apply wp_ret, inv_next_intro, inv_some_intro.
  - by apply Hs, accept_wp.
  - by apply Hs, handle_wp.
  - by apply Hs, timeout_wp.
  - by apply wp_ret, inv_next_intro, inv_some_intro.
  - apply Hk, keeps_input_ev_handle_event.
  - apply Hk. by apply keeps_timer_ev_handle_event, Ht.
  - apply wp_bind. eapply wp_mono; [by apply lua_async_handle_wp|].
    intros a w' (sc & Hsc' & Hw'). apply wp_ret. exists sc. split; [done|by apply inv_some_intro].
Qed.

Lemma read_delegate_wp s ready w :
  inv None s w → scripts_at MLoop (sh_scripts s) → timers_known s (map fst ready) →
  wp (event_read_delegate ready) (λ _, inv_next s) w.
Proof.
  intros Hw Hsc. induction ready as [|[pf rev] ready IH]; simpl; intros Ht.
  - by apply wp_ret, inv_next_intro, inv_some_intro.
  - apply Forall_cons in Ht as [Ht Hr]. destruct (rev =? 0); [by apply IH|].
    by apply delegate_wp.
Qed.

(** ** The invariant of the loop *)

Definition loop_inv st : Prop :=
  ∃ s, inv None s (l_world st) ∧ scripts_at MLoop (sh_scripts s) ∧
    table_of (l_init st) (l_poll_fds st) ∧ timers_known s (l_init st) ∧
    (timers_available →
     update_pollfds (l_world st) = true ∨
     l_poll_fds st = refresh_pollfds (config (l_world st)) (l_init st)).

(** The table is now taken from the configuration. *)
Definition with_poll (v : pollview) s : shape :=
  Shape (sh_clients s) (sh_in s) (sh_out s) (sh_dev s) (sh_timers s) v (sh_scripts s).

Lemma inv_with_poll s w b :
  inv None s w → inv None (with_poll (view (config w)) s) (w <| update_pollfds := b |>).
Proof. intros []. constructor; simpl; try done. intros _. by right. Qed.

Lemma table_of_init_length init pf : table_of init pf → Z.of_nat (length init) ≤ MAX_FDS.
Proof. intros (Hl & dyn & -> & _). rewrite length_app in Hl. lia. Qed.

Lemma timers_known_table s init pf :
  timers_known s init → table_of init pf → timers_known s pf.
Proof.
  intros Hi (_ & dyn & -> & Hd). apply Forall_app. split; [done|].
  eapply Forall_impl; [exact Hd|]. intros e He Ht. unfold is_dynamic in He. rewrite Ht in He.
  by destruct He as [|[|[|]]].
Qed.

(** After the rebuild: the shape holds the current view. *)
Lemma loop_refresh_inv st :
  loop_inv st →
  ∃ s, inv None s (l_world (loop_refresh st)) ∧ scripts_at MLoop (sh_scripts s) ∧
    sh_poll s = view (config (l_world (loop_refresh st))) ∧
    table_of (l_init st) (l_poll_fds (loop_refresh st)) ∧
    timers_known s (l_init st) ∧
    (timers_available →
     l_poll_fds (loop_refresh st)
     = refresh_pollfds (config (l_world (loop_refresh st))) (l_init st)).
Proof.
  intros (s & Hw & Hsc & Htab & Htim & Hsync).
  exists (with_poll (view (config (l_world st))) s). unfold loop_refresh.
  destruct (update_pollfds (l_world st)) eqn:E; simpl.
  - split_and!; try done; [by apply inv_with_poll|].
    apply refresh_table. by eapply table_of_init_length.
  - split_and!; try done.
    + replace (l_world st) with ((l_world st) <| update_pollfds := false |>) at 2
        by (destruct (l_world st); simpl in *; by subst).
      by apply inv_with_poll.
    + intros Ha. destruct (Hsync Ha) as [Hu|]; [congruence|done].
Qed.

(** Whatever [poll] reports and MHD_run does, one iteration runs, unless it ends in
    a permitted way, and re-establishes the invariant. *)
Lemma loop_iteration st revents w :
  loop_inv st → length revents = length (l_poll_fds (loop_refresh st)) →
  rtc http_step (l_world (loop_refresh st)) w →
  (∀ c, mhd_allows w c → wp (http_do c) (λ _ _, True) w) ∧
  wp (event_read_delegate (zip (l_poll_fds (loop_refresh st)) revents))
    (λ _ w', loop_inv (Loop w' (l_init st) (l_poll_fds (loop_refresh st)))) w.
Proof.
  intros Hl Hlen Hr. destruct (loop_refresh_inv st Hl) as (s & Hw & Hsc & Hv & Htab & Htim & Hsync).
  apply (http_steps_inv s) in Hr; [|done]. split.
  { intros c Hc. eapply wp_mono; [by apply (http_do_wp s c w)|done]. }
  eapply wp_mono.
  { apply (read_delegate_wp s); [done|done|]. change (map fst ?z) with (z.*1).
    rewrite fst_zip by lia. by eapply timers_known_table. }
  intros b w' (sc & Hsc' & l & Hw'). exists (with_clients l (with_scripts sc s)). simpl. split_and!; try done.
  intros Ha. destruct (inv_sync _ _ _ Hw' Ha) as [|Hv']; [by left|right].
  rewrite (Hsync Ha), !refresh_of_view. simpl in Hv'. by rewrite Hv', Hv.
Qed.
End loop.
