(* ===== verification/Start.v ===== *)
(** * Start-up

    What mygpiod/main.c does before its loop: gpio_init with
    mygpiod/gpio/chip.c, input.c and output.c, input_device_open of
    mygpiod/input_ev/device.c, timer_ev_open of mygpiod/timer_ev/timer_ev.c,
    luavm_sync_init of mygpiod/lua/sync/luavm.c, server_socket_create of
    mygpiod/server_socket/socket.c. Each adds the descriptors it opens to the poll
    table. [undefined] stands also for an overflow of [int]. *)

From S2P Require Import Prelude CLib ParseUtil Sds Lists MsgQueue GpioUtil Config Kernel Timer InputNames.
From S2P Require Import Events Gpio Actions ConfigParse GpioEvent Protocol Http Socket EventLoop Release.

Definition MYGPIOD_NAME : bytes := bs "myGPIOd".

Definition POLL_IN : Z := Z.lor POLLIN POLLPRI.

Section start.
Context `{Kernel K} `{Build}.
Implicit Types (poll_fds : list t_poll_fd) (p : positive).

(** A loop over nodes that ends with the first failure. *)
Fixpoint all_nodes (ps : list positive) (f : positive → M K bool) : M K bool :=
  match ps with
  | [] => mret true
  | p :: ps' => ok ← f p; if ok : bool then all_nodes ps' f else mret false
  end.

(** The same with the poll table. *)
Fixpoint add_nodes (ps : list positive) (f : positive → list t_poll_fd → M K (bool * list t_poll_fd))
    poll_fds : M K (bool * list t_poll_fd) :=
  match ps with
  | [] => mret (true, poll_fds)
  | p :: ps' =>
      r ← f p poll_fds;
      let '(ok, poll_fds) := r in
      if ok : bool then add_nodes ps' f poll_fds else mret (false, poll_fds)
  end.

(** ** GPIOs (gpio/chip.c, output.c, input.c, gpio.c) *)

Definition gpio_open_chip : M K bool :=
  path ← gets chip_path;
  c ← sys (gpiod_chip_open (c_str path));
  _ ← modify (λ cfg, cfg <| chip := c |>);
  mret (bool_decide (is_Some c)).

(** The end of both request functions: the name of the line is appended. *)
Definition line_name (chip : option Z) (gpio : Z) (rc : bool) (append : bytes → M K unit) : M K bool :=
  info ← sys (gpiod_chip_get_line_info chip gpio);
  match info with
  | None => mret false
  | Some info =>
      match gpiod_line_info_get_name info with
      | Some name => _ ← append (c_str name); mret rc
      | None => mret rc
      end
  end.

(** The results of the setters are only logged. *)
Definition gpio_set_output (chip : option Z) (gpio : Z) p : M K bool :=
  data ← deref gpios_out p;
  let settings := gpiod_line_settings_new in
  let settings := (gpiod_line_settings_set_direction GPIOD_LINE_DIRECTION_OUTPUT settings).2 in
  let settings := (gpiod_line_settings_set_drive (drive data) settings).2 in
  let '(added, line_cfg) := gpiod_line_config_add_line_settings [gpio] settings gpiod_line_config_new in
  let '(valued, line_cfg') := gpiod_line_config_set_output_values [value data] line_cfg in
  rc ← (if (added =? -1) || (valued =? -1) then mret false
        else
          request ← sys (gpiod_chip_request_lines chip MYGPIOD_NAME line_cfg');
          _ ← upd_out p (λ d, d <| out_request := request |>);
          mret (bool_decide (is_Some request)));
  line_name chip gpio rc (λ name, upd_out p (λ d, d <| out_name ::= λ n, n ++ name |>)).

Definition gpio_set_outputs : M K bool :=
  outs ← gets gpios_out;
  all_nodes (ptrs outs) (λ p, c ← gets chip; gpio ← deref_id gpios_out p; gpio_set_output c gpio p).

Definition gpio_request_input (chip : option Z) (gpio : Z) p : M K bool :=
  data ← deref gpios_in p;
  let settings := gpiod_line_settings_new in
  let settings := (gpiod_line_settings_set_direction GPIOD_LINE_DIRECTION_INPUT settings).2 in
  let settings := (gpiod_line_settings_set_bias (bias data) settings).2 in
  let settings := (gpiod_line_settings_set_event_clock (event_clock data) settings).2 in
  let settings := (gpiod_line_settings_set_edge_detection (event_request data) settings).2 in
  let settings := gpiod_line_settings_set_active_low (active_low data) settings in
  let settings := gpiod_line_settings_set_debounce_period_us (debounce_period_us data) settings in
  let '(added, line_cfg) := gpiod_line_config_add_line_settings [gpio] settings gpiod_line_config_new in
  rc ← (if added =? -1 then mret false
        else
          request ← sys (gpiod_chip_request_lines chip MYGPIOD_NAME line_cfg);
          _ ← upd_in p (λ d, d <| in_request := request |>);
          match request with
          | Some _ =>
              fd ← ask (gpiod_line_request_get_fd request);
              _ ← upd_in p (λ d, d <| gpio_fd := fd |>);
              mret true
          | None => mret false
          end);
  line_name chip gpio rc (λ name, upd_in p (λ d, d <| in_name ::= λ n, n ++ name |>)).

Definition gpio_request_inputs poll_fds : M K (bool * list t_poll_fd) :=
  ins ← gets gpios_in;
  add_nodes (ptrs ins) (λ p poll_fds,
    c ← gets chip;
    gpio ← deref_id gpios_in p;
    ok ← gpio_request_input c gpio p;
    if ok : bool then
      data ← deref gpios_in p;
      mret (true, (event_poll_fd_add poll_fds (gpio_fd data) PFD_TYPE_GPIO POLL_IN).2)
    else mret (false, poll_fds)) poll_fds.

Definition gpio_init poll_fds : M K (bool * list t_poll_fd) :=
  path ← gets chip_path;
  if 0 <? Z.of_nat (length path) then
    ok ← gpio_open_chip;
    if negb ok then mret (false, poll_fds)
    else
      ok ← gpio_set_outputs;
      if negb ok then mret (false, poll_fds) else gpio_request_inputs poll_fds
  else
    _ ← gpios_config_clear;
    mret (true, poll_fds).

(** ** Input devices (input_ev/device.c) *)

(** [O_RDONLY | O_NONBLOCK | O_CLOEXEC] *)
Definition INPUT_FLAGS : Z := Z.lor O_NONBLOCK O_CLOEXEC.

Definition input_device_open poll_fds : M K (bool * list t_poll_fd) :=
  devices ← gets input_devices;
  add_nodes (ptrs devices) (λ p poll_fds,
    device ← deref input_devices p;
    fd ← sys (open (c_str (dev_name device)) INPUT_FLAGS);
    _ ← upd_device p (λ d, d <| dev_fd := fd |>);
    mret (true, if fd <? 0 then poll_fds
                else (event_poll_fd_add poll_fds fd PFD_TYPE_INPUT POLL_IN).2)) poll_fds.

(** ** Timers (timer_ev/timer_ev.c) *)

(** A product in [int]. *)
Definition int_mul (a b : Z) : M K Z :=
  if (INT_MIN <=? a * b) && (a * b <=? INT_MAX) then mret (a * b) else undefined.

Definition timer_ev_open poll_fds : M K (bool * list t_poll_fd) :=
  timers ← gets timer_definitions;
  add_nodes (ptrs timers) (λ p poll_fds,
    fd ← sys timerfd_create;
    _ ← upd_timer p (λ d, d <| td_fd := fd |>);
    if fd <? 0 then mret (false, poll_fds)
    else
      definition ← deref timer_definitions p;
      start_in ← calc_starttime (start_hour definition) (start_minute definition) (interval definition);
      timeout_ms ← int_mul start_in 1000;
      interval_ms ← int_mul (interval definition) 1000;
      ok ← timer_set fd timeout_ms interval_ms;
      if negb ok then mret (false, poll_fds)
      else mret (true, (event_poll_fd_add poll_fds fd PFD_TYPE_TIMER_EV POLL_IN).2)) poll_fds.

(** ** Lua (lua/sync/luavm.c) *)

Definition luavm_sync_init : M K bool :=
  file ← gets lua_file;
  if Z.of_nat (length file) =? 0 then mret true
  else
    vm ← sys luaL_newstate;
    _ ← modify (λ c, c <| lua_vm := vm |>);
    match vm with
    | None => mret false
    | Some vm =>
        chunk ← sys (luaL_dofile vm (c_str file));
        _ ← lua_exec true chunk;
        rc ← ask (lua_status vm);
        if negb (rc =? 0) then
          _ ← sys_ (lua_close vm);
          _ ← modify (λ c, c <| lua_vm := None |>);
          mret false
        else mret true
    end.

(** ** The server socket (server_socket/socket.c) *)

Definition server_socket_create : M K Z :=
  path ← gets socket_path;
  let sun_path := take 108 (c_str path) in
  _ ← sys_ (unlink (c_str path));
  fd ← sys socket;
  if fd =? -1 then mret (-1)
  else
    let abandon := _ ← sys_ (close fd); mret (-1) in
    flags ← sys (fcntl fd F_GETFD 0);
    rc ← sys (fcntl fd F_SETFD (Z.lor (Z.lor flags O_NONBLOCK) O_CLOEXEC));
    if negb (rc =? 0) then abandon
    else
      rc ← sys (bind fd sun_path);
      if rc =? -1 then abandon
      else
        rc ← sys (listen fd 10);
        if rc <? 0 then abandon else mret fd.

(** ** main *)

(** What fails ends the start-up, with the result [stop]. *)
Definition then_ {A} (stop : A) (m : M K (bool * list t_poll_fd)) (next : list t_poll_fd → M K A) : M K A :=
  r ← m;
  let '(ok, poll_fds) := r in
  if ok : bool then next poll_fds else mret stop.

(** The poll table goes on with one more entry, or the start-up ends. *)
Definition then_add {A} (stop : A) (r : bool * list t_poll_fd) (next : list t_poll_fd → M K A) : M K A :=
  if r.1 then next r.2 else mret stop.

(** httpd_start of server_http/httpd.c. What libmicrohttpd calls then is [http_step]
    of Http.v; it may suspend connections. The result of inet_pton is not looked
    at. *)
Definition httpd_start : M K (option Z) :=
  port ← gets http_port;
  ip ← gets http_ip;
  sys (MHD_start_daemon (port mod 65536) (c_str ip)).

(** The result of the last addition is not looked at. *)
Definition start_httpd poll_fds : M K (option (list t_poll_fd)) :=
  port ← gets http_port;
  if 0 <? port then
    daemon ← httpd_start;
    _ ← modify (λ c, c <| httpd := daemon |>);
    match daemon with
    | None => mret None
    | Some daemon =>
        epoll_fd ← ask (MHD_epoll_fd daemon);
        match epoll_fd with
        | None => mret None
        | Some fd =>
            if fd =? -1 then mret None
            else mret (Some (event_poll_fd_add poll_fds fd PFD_TYPE_HTTPD (Z.lor POLL_IN POLLOUT)).2)
        end
    end
  else mret (Some poll_fds).

Definition main_listen poll_fds : M K (option (list t_poll_fd)) :=
  server_fd ← server_socket_create;
  if server_fd =? -1 then mret None
  else then_add None (event_poll_fd_add poll_fds server_fd PFD_TYPE_CONNECT POLL_IN) start_httpd.

(** The descriptors that the table must have: signals, scripts, connections. The
    first component of the result is the global [main_queue]. *)
Definition main_serve poll_fds : M K (option t_mygpiod_queue * option (list t_poll_fd)) :=
  signal ← gets signal_fd;
  then_add (None, None) (event_poll_fd_add poll_fds signal PFD_TYPE_SIGNAL POLL_IN) (λ poll_fds,
  ok ← luavm_sync_init;
  if negb ok then mret (None, None)
  else
    event_fd ← event_eventfd_create;
    let main_queue := mygpiod_queue_create true event_fd in
    r ← then_add None (event_poll_fd_add poll_fds (q_event_fd main_queue) PFD_TYPE_LUA_ASYNC POLL_IN) main_listen;
    mret (Some main_queue, r)).

(** From the start of [main], once the configuration is read, to its loop:
    [None] is EXIT_FAILURE, otherwise the poll table. *)
Definition main_init : M K (option t_mygpiod_queue * option (list t_poll_fd)) :=
  then_ (None, None) (gpio_init []) (λ poll_fds,
  then_ (None, None) (input_device_open poll_fds) (λ poll_fds,
  then_ (None, None) (timer_ev_open poll_fds) main_serve)).

(** How [main] goes on once the start-up has ended: it has printed its usage; it
    has left with an exit code and with everything of the configuration, if there
    was one, released; or it runs its loop. *)
Inductive main_outcome :=
  | MainUsage (rc : Z) (text : bytes)
  | MainExit (rc : Z) (released : option (world K))
  | MainLoop (st : @loop_state K) (main_queue : option t_mygpiod_queue).

(** The path of the configuration file, or the usage. *)
Definition main_args (argv : list bytes) : bytes + bytes :=
  match argv with
  | [_; arg] =>
      if strcmp0 arg (bs "-h") then
        inr (bs "myGPIOD " ++ MYGPIO_VERSION ++ [LF] ++ bs "Usage: mygpiod [configuration file]" ++ [LF] ++
             bs "Default configuration file: /etc/mygpiod.conf" ++ [LF])
      else inl arg
  | _ => inl (bs "/etc/mygpiod.conf")
  end.

(** The way out after a failure. *)
Definition main_fails (main_queue : option t_mygpiod_queue) (w : world K) : outcome main_outcome :=
  match main_exit main_queue w with
  | Done (_, w) => Done (MainExit EXIT_FAILURE (Some w))
  | Stop e => Stop e
  end.

(** [main]: [buffered] is the success of the two calls of setvbuf, [signals] are
    the results of the system calls of make_signalfd, [file_of] is the content of a
    file; get_config releases a configuration that it does not return. *)
Definition main (argv : list bytes) (buffered : bool) (signals : Z * Z) (level : Z) (file_of : bytes → option bytes)
    (dir_of : bytes → option (list dirent)) (k : K) : outcome main_outcome :=
  match main_args argv with
  | inr text => Done (MainUsage 1 text)
  | inl config_file =>
      match get_config (make_signalfd signals.1 signals.2) level (file_of config_file) dir_of with
      | None => Stop InvalidPointer
      | Some None => Done (MainExit EXIT_FAILURE None)
      | Some (Some c) =>
          if negb buffered then main_fails None (world_start c k false)
          else
            match main_init (world_start c k true) with
            | Stop e => Stop e
            | Done ((main_queue, None), w) => main_fails main_queue w
            | Done ((main_queue, Some poll_fds), w) => Done (MainLoop (Loop w poll_fds poll_fds) main_queue)
            end
      end
  end.
End start.
