(* ===== verification/PollTable.v ===== *)
(** * The contents of the poll table

    [refresh_pollfds] against its specification: the initial entries, then the
    open timers of the inputs, of the outputs, and each client with its timeout,
    cut off at the size of the table. *)

From S2P Require Import Prelude CLib Lists GpioUtil Config Kernel Sim EventLoop Invariant InvLoop.

Definition timer_entry (type : pfd_types) (fd : Z) : list t_poll_fd :=
  if 0 <? fd then [PollFd fd (Z.lor POLLIN POLLPRI) type] else [].

Definition client_entries (c : Z * Z * Z) : list t_poll_fd :=
  let '(fd, ev, tfd) := c in
  (if 0 <? fd then [PollFd fd ev PFD_TYPE_CLIENT] else []) ++
  timer_entry PFD_TYPE_CLIENT_TIMEOUT tfd.

(** The entries that the configuration asks for. *)
Definition wanted (cfg : t_config) : list t_poll_fd :=
  concat (map (timer_entry PFD_TYPE_GPIO_IN_TIMER) (pv_in (view cfg))) ++
  concat (map (timer_entry PFD_TYPE_GPIO_OUT_TIMER) (pv_out (view cfg))) ++
  concat (map client_entries (pv_clients (view cfg))).

Definition fit (pf : list t_poll_fd) : list t_poll_fd := take (Z.to_nat MAX_FDS) pf.

Lemma fit_add full fd t ev :
  (event_poll_fd_add (fit full) fd t ev).2 = fit (full ++ [PollFd fd ev t]).
Proof.
  unfold event_poll_fd_add, fit. rewrite length_take.
  assert (HM : 0 ≤ MAX_FDS) by done.
  destruct (Z.eqb_spec (Z.of_nat (Z.to_nat MAX_FDS `min` length full)) MAX_FDS) as [E|E]; simpl.
  - rewrite take_app_le by lia. done.
  - rewrite (take_ge full) by lia. rewrite take_ge; [done|]. rewrite length_app. simpl. lia.
Qed.

Lemma fit_fold {B} (f : list t_poll_fd → B → list t_poll_fd) (g : B → list t_poll_fd) l full :
  (∀ full b, f (fit full) b = fit (full ++ g b)) →
  foldl f (fit full) l = fit (full ++ concat (map g l)).
Proof.
  intros Hf. revert full. induction l as [|b l IH]; intros full; simpl.
  - by rewrite app_nil_r.
  - rewrite Hf, IH. by rewrite <- app_assoc.
Qed.

Lemma fit_add_timer t full fd : add_timer t (fit full) fd = fit (full ++ timer_entry t fd).
Proof.
  unfold add_timer, timer_entry. destruct (0 <? fd); [apply fit_add|by rewrite app_nil_r].
Qed.

Lemma fit_add_client full c : add_client (fit full) c = fit (full ++ client_entries c).
Proof.
  destruct c as [[fd ev] tfd]. unfold add_client, client_entries. rewrite app_assoc.
  destruct (0 <? fd); [rewrite fit_add|rewrite app_nil_r]; apply fit_add_timer.
Qed.

(** The rebuilt poll table holds the initial descriptors, then every open
    GPIO timer, then every client (polled for the events its state asks for)
    with its timeout, in this order, cut off after [MAX_FDS] entries. *)
Theorem refresh_pollfds_wanted (cfg : t_config) (init : list t_poll_fd) :
  Z.of_nat (length init) ≤ MAX_FDS → refresh_pollfds cfg init = fit (init ++ wanted cfg).
Proof.
  intros Hi. rewrite refresh_of_view.
  replace init with (fit init) at 1 by (apply take_ge; lia).
  rewrite !(fit_fold (add_timer _) (timer_entry _)) by (intros; apply fit_add_timer).
  rewrite (fit_fold add_client client_entries) by apply fit_add_client.
  unfold wanted. by rewrite <- !app_assoc.
Qed.

(** ** The size of the table *)

(** [n] inputs whose long press timers run, [m] clients. *)
Definition busy_inputs (n : nat) : t_list t_gpio_in_data :=
  map (λ i : nat, Node (Pos.of_succ_nat i) (Z.of_nat i)
              (sim_gpio_in <| in_timer_fd := 100 + Z.of_nat i |>)) (seq 0 n).

Definition busy_clients (m : nat) : t_list t_client_data :=
  map (λ i : nat, Node (Pos.of_succ_nat i) (Z.of_nat i)
              (ClientData (200 + 2 * Z.of_nat i) CLIENT_SOCKET_STATE_READING [] [] 0 POLLIN []
                 (201 + 2 * Z.of_nat i))) (seq 0 m).

Definition busy_config : t_config :=
  sim_config <| gpios_in := busy_inputs 64 |> <| gpios_out := [] |> <| clients := busy_clients 10 |>.

(** The line descriptors of the inputs, the signal, the Lua queue, the server
    socket and the HTTP server. *)
Definition busy_init : list t_poll_fd :=
  map (λ i : nat, PollFd (20 + Z.of_nat i) (Z.lor POLLIN POLLPRI) PFD_TYPE_GPIO) (seq 0 64) ++
  [PollFd 3 3 PFD_TYPE_SIGNAL; PollFd 4 3 PFD_TYPE_LUA_ASYNC; PollFd 5 3 PFD_TYPE_CONNECT;
   PollFd 6 7 PFD_TYPE_HTTPD].

Lemma refresh_pollfds_wanted_witness :
  refresh_pollfds busy_config busy_init = fit (busy_init ++ wanted busy_config).
Proof. apply refresh_pollfds_wanted. vm_compute. discriminate. Defined.

(** [MAX_FDS] counts two descriptors per GPIO and two per client and one
    more, but four descriptors are always polled besides: with the 64 GPIOs and
    the 10 clients that the daemon admits, all GPIO timers running, the table
    overflows; the tenth client is connected, but its socket is not polled. *)
Theorem poll_table_too_small :
  Z.of_nat (length (gpios_in busy_config)) = GPIOS_MAX ∧
  Z.of_nat (length (clients busy_config)) = CLIENT_CONNECTIONS_MAX ∧
  ∃ n, n ∈ clients busy_config ∧ client_fd (n_data n) = 218 ∧
    Forall (λ e, pfd_fd e ≠ 218) (refresh_pollfds busy_config busy_init).
Proof.
  split_and!; [vm_compute; reflexivity..|].
  exists (Node 10 9 (ClientData 218 CLIENT_SOCKET_STATE_READING [] [] 0 POLLIN [] 219)).
  split_and!; [|done|].
  - apply (list_elem_of_lookup_2 _ 9). vm_compute. reflexivity.
  - apply (bool_decide_unpack _). vm_compute. exact I.
Qed.
