(* ===== verification/Daemon.v ===== *)
(** * The running daemon

    The theorems about every state the event loop can reach: it never follows an
    invalid pointer, the clients stay within their bounds, the poll table shows
    the configuration, and every command line is answered. *)

From S2P Require Import Prelude CLib LuaAsync ParseUtil Sds Lists GpioUtil Config Kernel Sim Timer.
From S2P Require Import InputNames Events Gpio Actions GpioEvent Protocol Http Socket EventLoop.
From S2P Require Import Invariant InvOps InvProtocol InvHttp InvLoop PollTable.

Section daemon.
Context `{Kernel K} `{Build} `{BL : !BuildLaws} `{KL : !KernelLaws K}.
Implicit Types (w : world K) (p : positive) (st : @loop_state K).

(** The state in which [main] enters its loop: the configuration is read and
    everything is opened, nobody is connected yet. *)
Record boot st : Prop := {
  boot_clients : clients (config (l_world st)) = [];
  boot_suspended : Forall (λ n, is_Some (http_requests (l_world st) !! n_data n))
                     (http_suspended (config (l_world st)));
  boot_in : NoDup (ptrs (gpios_in (config (l_world st))));
  boot_out : NoDup (ptrs (gpios_out (config (l_world st))));
  boot_dev : NoDup (ptrs (input_devices (config (l_world st))));
  boot_names : names_ok (config (l_world st));
  boot_timers : Forall (λ n, length (weekdays (n_data n)) = 7%nat ∧ one_line (td_name (n_data n)))
                  (timer_definitions (config (l_world st)));
  boot_fits : Z.of_nat (length (l_init st)) ≤ MAX_FDS;
  boot_table : l_poll_fds st = l_init st;
  boot_timer_fds : Forall (λ e, pfd_type e = PFD_TYPE_TIMER_EV →
      ∃ n, n ∈ timer_definitions (config (l_world st)) ∧ td_fd (n_data n) = pfd_fd e) (l_init st);
  boot_scripts : scripts (l_world st) = started script_tids;
  boot_update : timers_available → update_pollfds (l_world st) = true;
}.

Definition reachable st : Prop := ∃ st0, boot st0 ∧ rtc loop_step st0 st.

(** The loop of [main] on given [poll] results. *)
Definition run_iteration st (revents : list Z) : option loop_state :=
  if decide (length revents = length (l_poll_fds (loop_refresh st))) then
    match event_read_delegate (zip (l_poll_fds (loop_refresh st)) revents)
            (l_world (loop_refresh st)) with
    | Done (true, w') => Some (Loop w' (l_init st) (l_poll_fds (loop_refresh st)))
    | _ => None
    end
  else None.

Fixpoint run_iterations st (rs : list (list Z)) : option loop_state :=
  match rs with
  | [] => Some st
  | r :: rs' => match run_iteration st r with Some st' => run_iterations st' rs' | None => None end
  end.

Lemma run_iterations_reach st rs st' : run_iterations st rs = Some st' → rtc loop_step st st'.
Proof.
  revert st. induction rs as [|r rs IH]; intros st; simpl; [by intros [= ->]|].
  unfold run_iteration. destruct (decide _) as [Hl|]; [|done].
  destruct (event_read_delegate _ _) as [[[] w']|] eqn:E; try done.
  intros Hr. eapply rtc_l; [by econstructor; [..|exact E]|by apply IH].
Qed.

Lemma boot_inv st : boot st → loop_inv st.
Proof.
  intros [Hc Hh Hi Ho Hd Hn Ht Hf Htab Htim Hsc Hu].
  exists (Shape [] (ptrs (gpios_in (config (l_world st)))) (ptrs (gpios_out (config (l_world st))))
            (ptrs (input_devices (config (l_world st)))) (timer_definitions (config (l_world st)))
            (PollView [] [] []) (started script_tids)).
  split_and!; try done; [|split; [apply rtc_refl|done]|split; [by rewrite Htab|exists []; by rewrite app_nil_r]|by left; apply Hu].
  constructor; simpl; rewrite ?Hc; try done; [constructor..|by left; apply Hu].
Qed.

(** The ways in which scripts can end the daemon: a function of lua_file that does
    not come back, and an asynchronous script that has ended although the main
    thread still executes a function for it, after a call of lua_async_send_msg
    that came back without its answer. *)
Definition script_endings : Endings := λ e,
  match e with
  | InvalidPointer => False
  | ScriptStopped _ => ¬ calls_return K
  | LuaStateClosed sc => early_return sc
  end.

#[export] Instance script_call : CallEndings K script_endings.
Proof. by intros how Hc. Qed.
#[export] Instance script_closed : ClosedEndings K script_endings.
Proof. by intros sc _ He. Qed.

(** The first way alone, where the condition holds under which Lua is called. *)
Definition call_endings (P : Prop) : Endings := λ e,
  match e with ScriptStopped _ => P ∧ ¬ calls_return K | _ => False end.

Lemma call_endings_call (P : Prop) : P → CallEndings K (call_endings P).
Proof. by intros HP how Hc. Qed.

Definition ends_with_call {A} (m : M K A) w : Prop :=
  ∃ how, m w = Stop (ScriptStopped how) ∧ ¬ calls_return K.

Lemma wp_call (P : Prop) {A} (m : M K A) (Q : A → world K → Prop) w :
  wp (PE := call_endings P) m Q w → (∃ a w', m w = Done (a, w') ∧ Q a w') ∨ P ∧ ends_with_call m w.
Proof.
  intros [?|(e & He & Hp)]%wp_cases; [by left|right]. destruct e; try done.
  destruct Hp as [HP Hp]. split; [done|by eexists].
Qed.

Definition ends_with_script {A} (m : M K A) w : Prop :=
  ends_with_call m w ∨
  (∃ sc, m w = Stop (LuaStateClosed sc) ∧ early_return sc).

Lemma wp_script {A} (m : M K A) (Q : A → world K → Prop) w :
  wp (PE := script_endings) m Q w → (∃ a w', m w = Done (a, w') ∧ Q a w') ∨ ends_with_script m w.
Proof.
  intros [?|(e & He & Hp)]%wp_cases; [by left|right]. unfold ends_with_script.
  destruct e; [done|left|right]; by eexists.
Qed.

(** Lua does no harm: the functions that actions call come back, and there is one
    asynchronous script at a time on a platform without surprises. *)
Definition scripts_harmless : Prop :=
  calls_return K ∧ script_sched = prompt ∧ ∃ t, script_tids = [t].

Lemma harmless_endings : scripts_harmless → CallEndings K no_endings ∧ ClosedEndings K no_endings.
Proof.
  intros (Hc & Hp & t & Ht). split; [by intros how []|]. intros sc Hr He. unfold permitted, no_endings.
  pose proof script_tids_nonzero as Hz. rewrite Hp, Ht in *. eapply prompt_no_early; [|exact Hr|exact He].
  intros ->. apply Hz. by left.
Qed.

Lemma step_inv st st' : loop_inv st → loop_step st st' → loop_inv st'.
Proof.
  intros Hst Hstep. destruct Hstep as [st revents w w' Hlen Hhttp Hrun].
  destruct (loop_iteration (PE := script_endings) st revents w Hst Hlen Hhttp) as [_ Hwp]. by apply (wp_done _ _ _ _ _ Hrun) in Hwp.
Qed.

Lemma reachable_inv st : reachable st → loop_inv st.
Proof.
  intros (st0 & Hb%boot_inv & Hr). induction Hr as [|st0 st1 st2 Hstep _ IH]; [done|].
  eauto using step_inv.
Qed.


(** What holds of a connected client between two iterations. *)
Definition client_bounds (d : t_client_data) : Prop :=
  Z.of_nat (length (waiting_events d)) ≤ WAITING_EVENTS_MAX ∧
  (state d = CLIENT_SOCKET_STATE_IDLE → waiting_events d = []) ∧
  (state d = CLIENT_SOCKET_STATE_WRITING →
     events d = POLLOUT ∧ 0 ≤ bytes_out d ≤ Z.of_nat (length (buf_out d))) ∧
  (state d ≠ CLIENT_SOCKET_STATE_WRITING → events d = POLLIN) ∧
  Z.of_nat (length (buf_in d)) < BUFFER_SIZE_INPUT_MAX ∧ one_line (buf_in d).

(** C6: In every reachable state there are at most ten clients at distinct
    addresses; no client has more than ten waiting events and an idle client
    has none; the write offset of a client that is written to lies in its
    output buffer and it is polled for POLLOUT, any other client is polled
    for POLLIN; and no input buffer holds a complete line or reaches the
    limit of 4096 bytes. *)
Theorem reachable_client_bounds st :
  reachable st →
  Z.of_nat (length (clients (config (l_world st)))) ≤ CLIENT_CONNECTIONS_MAX ∧
  NoDup (ptrs (clients (config (l_world st)))) ∧
  Forall (λ n, client_bounds (n_data n)) (clients (config (l_world st))).
Proof.
  intros (s & Hw & _)%reachable_inv. split_and!.
  - pose proof (inv_limit _ _ _ Hw) as Hl. rewrite <- (inv_clients _ _ _ Hw) in Hl.
    unfold ptrs in Hl. by rewrite length_map in Hl.
  - rewrite (inv_clients _ _ _ Hw). apply Hw.
  - eapply Forall_impl; [apply Hw|]. intros n []. by split_and!.
Qed.

(** C18: As long as timer descriptors can be created, the table that is handed
    to [poll] always shows the current configuration: the descriptors of the
    start-up, every running GPIO timer and every client, polled for what its state
    asks for, with its timeout, in this order and cut off at the size of the table.
    It is rebuilt only when the flag [update_pollfds] is set: no change of a
    client, of its timeout or of a GPIO timer forgets to set the flag. *)
Theorem poll_table_in_sync st :
  reachable st → timers_available →
  l_poll_fds (loop_refresh st) = fit (l_init st ++ wanted (config (l_world (loop_refresh st)))).
Proof.
  intros Hst Ha. destruct (loop_refresh_inv st (reachable_inv st Hst)) as (s & _ & _ & _ & Htab & _ & Hs).
  rewrite (Hs Ha). apply refresh_pollfds_wanted. by eapply table_of_init_length.
Qed.

(** What a complete line does, by its first argument: nothing when it has
    none; an error for a client that is idle, unless it is "noidle"; else the
    client is gone ("close"), has a complete answer waiting to be written,
    waits for events ("idle" and nothing to tell), or, for the debug command
    of a release build, gets no answer. *)
Definition line_outcome (line : bytes) (idle : bool) p w' : Prop :=
  match split_args line with
  | [] => ∃ n, list_deref (clients (config w')) p = Some n ∧
            state (n_data n) = (if idle then CLIENT_SOCKET_STATE_IDLE else CLIENT_SOCKET_STATE_READING)
  | cmd :: _ =>
      if idle && negb (bool_decide (parse_command cmd = CMD_NOIDLE)) then replied p w'
      else
        (parse_command cmd = CMD_CLOSE ∧ list_deref (clients (config w')) p = None) ∨
        replied p w' ∨
        (parse_command cmd = CMD_IDLE ∧ idling p w') ∨
        (parse_command cmd = CMD_EVENT ∧ MYGPIOD_DEBUG = false)
  end.

Lemma line_post_outcome s line idle p w' : line_post line idle s p w' → line_outcome line idle p w'.
Proof.
  unfold line_post, line_outcome. destruct (split_args line) as [|cmd args]; [by intros []|].
  destruct (_ && _); [by intros []|]. intros (l & Hw & [[Hc Hp]|[_ Hr]]); [left|by right].
  split; [done|]. apply list_deref_None. by rewrite (inv_clients _ _ _ Hw).
Qed.

(** C5: When a chunk of input completes the line of a client that is not being
    written to, in any reachable state, the command is executed to its end and the
    client is answered as [line_outcome] says: a line without arguments is
    forgotten; a client that is idle may only send "noidle", anything else is an
    error; "close" ends the connection; "idle" with nothing to tell makes the client
    wait, without an answer; the debug command of a release build is not answered.
    In all other cases an answer is queued for writing from its first byte and
    announced to the poll table: one ERROR line, or OK, "key:value" lines and END,
    or "key:value" lines and END without OK (the form of the answer to "idle"). The
    command is not executed to its end only when it executes actions (a hook, or the
    debug command) and one of them calls a Lua function that does not come back. *)
Theorem command_line_answered st p n c r k :
  reachable st → list_deref (clients (config (l_world st))) p = Some n →
  state (n_data n) ≠ CLIENT_SOCKET_STATE_WRITING →
  read_fd (client_fd (n_data n)) BUFFER_SIZE (kern (l_world st)) = (Some (c :: r), k) →
  existsb (ch LF) (buf_in (n_data n) ++ c :: r) = true →
  let line := sdstrim (buf_in (n_data n) ++ c :: r) [" "%char; TAB; " "%char; LF] in
  (∃ rc w', server_client_read p (l_world st) = Done (rc, w') ∧
     line_outcome line (is_idle (n_data n)) p w') ∨
  (line_acts line ∧ ends_with_call (server_client_read p) (l_world st)).
Proof.
  intros (s & Hw & _)%reachable_inv Hn Hst Hr Hlf line. apply wp_call.
  eapply wp_mono; [eapply read_line_wp; [|done..]; apply call_endings_call|].
  intros b w' Hpost. exact (line_post_outcome _ _ _ _ _ Hpost).
Qed.
End daemon.

(** ** A session

    The simulated daemon with a GPIO, a timer and the server socket; a client
    connects, is written the greeting and sends its input in chunks. *)

Definition sim_init : list t_poll_fd :=
  [PollFd 5 POLLIN PFD_TYPE_GPIO; PollFd 6 POLLIN PFD_TYPE_TIMER_EV;
   PollFd 4 POLLIN PFD_TYPE_CONNECT].

Definition sim_boot (input : list bytes) : @loop_state sim :=
  Loop (sim_world <| kern ::= λ k, k <| sim_in := input |> |>) sim_init sim_init.

Definition sim_connect : list (list Z) := [0; 0; POLLIN] :: replicate 5 [0; 0; 0; POLLOUT; 0].

Definition sim_session (input : list bytes) (rs : list (list Z)) : @loop_state sim :=
  default (sim_boot input) (run_iterations (sim_boot input) (sim_connect ++ rs)).

Lemma sim_boot_ok input : boot (sim_boot input).
Proof.
  constructor; try done.
  - apply (bool_decide_unpack _); vm_compute; exact I.
  - apply (bool_decide_unpack _); vm_compute; exact I.
  - apply (bool_decide_unpack _); vm_compute; exact I.
  - split_and!; repeat constructor.
  - repeat constructor.
  - repeat constructor; intros [=]. eexists. split; [by left|done].
Qed.

Lemma sim_session_reachable input rs : reachable (sim_session input rs).
Proof.
  exists (sim_boot input). split; [apply sim_boot_ok|]. unfold sim_session.
  destruct (run_iterations _ _) as [st|] eqn:E; simpl; [by eapply run_iterations_reach|done].
Qed.

(** A browser polls for events and another one sets the GPIO, which answers the
    first. *)
Definition sim_calls : list http_call :=
  [HttpRequest None 1 (bs "/poll") (bs "GET") 0 (λ _, None);
   HttpRequest (Some 1%positive) 1 (bs "/poll") (bs "GET") 0 (λ _, None);
   HttpRequest None 2 (bs "/api/v1/gpio/4/set") (bs "PATCH") 0 (λ _, Some (bs "active"));
   HttpRequest (Some 2%positive) 2 (bs "/api/v1/gpio/4/set") (bs "PATCH") 0 (λ _, Some (bs "active"))].

Definition sim_http (calls : list http_call) (w : world sim) : world sim :=
  foldl (λ w c, sim_run (http_do c) w) w calls.

Definition sim_done (c : http_call) (w : world sim) : bool :=
  match http_do c w with Done _ => true | Stop _ => false end.

Fixpoint sim_calls_ok (calls : list http_call) (w : world sim) : Prop :=
  match calls with
  | [] => True
  | c :: calls => mhd_allows w c ∧ sim_done c w = true ∧ sim_calls_ok calls (sim_run (http_do c) w)
  end.

Lemma sim_http_steps calls w : sim_calls_ok calls w → rtc http_step w (sim_http calls w).
Proof.
  revert w. induction calls as [|c calls IH]; intros w; [done|]. intros (Ha & Hd & Hr).
  eapply rtc_l; [|by apply IH]. exists c. split; [done|]. unfold sim_done in Hd. unfold sim_run.
  by destruct (http_do c w) as [[[] w']|].
Qed.

Lemma sim_harmless : scripts_harmless (K := sim).
Proof. split; [by intros vm f args k|]. split; [done|]. by exists 7. Qed.


Lemma reachable_client_bounds_witness :
  Z.of_nat (length (clients (config (l_world (sim_session [] []))))) = 1 ∧
  Forall (λ n, client_bounds (n_data n)) (clients (config (l_world (sim_session [] [])))).
Proof.
  split; [vm_compute; reflexivity|].
  apply (reachable_client_bounds (sim_session [] [])). apply sim_session_reachable.
Defined.

Lemma poll_table_in_sync_witness :
  l_poll_fds (loop_refresh (sim_session [] []))
  = fit (sim_init ++ wanted (config (l_world (loop_refresh (sim_session [] []))))).
Proof.
  apply (poll_table_in_sync (sim_session [] [])); [apply sim_session_reachable|].
  intros k. apply sim_new_fd_pos.
Defined.

(** The second chunk completes the line. *)
Lemma command_line_answered_witness :
  let st := sim_session [bs "gpioset 4 act"; bs "ive" ++ [LF]] [[0; 0; 0; POLLIN; 0]] in
  (∃ rc w', server_client_read 2 (l_world st) = Done (rc, w') ∧
    line_outcome (bs "gpioset 4 active") false 2 w') ∨
  (line_acts (bs "gpioset 4 active") ∧ ends_with_call (server_client_read 2) (l_world st)).
Proof.
  set (st := sim_session [bs "gpioset 4 act"; bs "ive" ++ [LF]] [[0; 0; 0; POLLIN; 0]]).
  set (n := default (Node 1 0 (server_client_connection_new 0))
              (list_deref (clients (config (l_world st))) 2)).
  assert (E1 : sdstrim (buf_in (n_data n) ++ "i"%char :: bs "ve" ++ [LF])
                 [" "%char; TAB; " "%char; LF] = bs "gpioset 4 active") by (vm_compute; reflexivity).
  assert (E2 : is_idle (n_data n) = false) by (vm_compute; reflexivity).
  cbv zeta. rewrite <- E1, <- E2.
  apply (command_line_answered st 2 n _ _ ((kern (l_world st)) <| sim_in := [] |>)).
  - apply sim_session_reachable.
  - vm_compute. reflexivity.
  - vm_compute. discriminate.
  - vm_compute. reflexivity.
  - vm_compute. reflexivity.
Defined.
