(* ===== verification/ReleaseSpec.v ===== *)
(** * What is released on exit

    [freed c r F w w']: at [w'] the configuration is [c] and the connections are
    [r]; since [w] no descriptor was opened, and none of [F] is open any more. Each
    function of Release.v has such a specification; together they say that nothing
    the configuration held stays open. *)

From S2P Require Import Prelude CLib ParseUtil Sds Lists MsgQueue GpioUtil Config Kernel Sim Timer InputNames.
From S2P Require Import Events Gpio Actions GpioEvent Protocol Http Socket EventLoop Release.
From S2P Require Import Invariant InvOps InvProtocol InvHttp InvLoop Daemon.

(** The descriptors that a configuration holds; those that are not open are -1. *)
Definition held (c : t_config) : list Z :=
  flat_map (λ n, [gpio_fd (n_data n); in_timer_fd (n_data n)]) (gpios_in c) ++
  flat_map (λ n, [out_timer_fd (n_data n)]) (gpios_out c) ++
  flat_map (λ n, [client_fd (n_data n); timeout_fd (n_data n)]) (clients c) ++
  [signal_fd c] ++
  flat_map (λ n, [dev_fd (n_data n)]) (input_devices c) ++
  flat_map (λ n, [td_fd (n_data n)]) (timer_definitions c).

(** The configuration that is left. *)
Definition cleared (c : t_config) : t_config :=
  c <| gpios_in := [] |> <| gpios_out := [] |> <| clients := [] |>
    <| signal_fd := if -1 <? signal_fd c then -1 else signal_fd c |> <| lua_async_scripts := [] |>
    <| http_suspended := match httpd c with Some _ => [] | None => http_suspended c end |>
    <| input_devices := [] |> <| timer_definitions := [] |> <| hooks := [] |>.

Section release.
Context `{Kernel K} `{D : !Descriptors K} `{Build} {PE : Endings}.
Implicit Types (w : world K) (F : list Z).

Record freed (c : t_config) (r : gmap positive t_request_data) F w w' : Prop := {
  freed_config : config w' = c;
  freed_requests : http_requests w' = r;
  freed_update : update_pollfds w = true → update_pollfds w' = true;
  freed_open fd : fd ∈ open_fds (kern w') → fd ∈ open_fds (kern w);
  freed_scripts : scripts w' = scripts w;
  freed_closed fd : fd ∈ F → 0 ≤ fd → fd ∉ open_fds (kern w');
}.

(** Only the environment changes. *)
Definition shed F w : world K → Prop := freed (config w) (http_requests w) F w.

Lemma freed_seq {A B} (m1 : M K A) (m2 : A → M K B) c c' r r' F F' w :
  wp m1 (λ _, freed c r F w) w →
  (∀ a w1, config w1 = c → http_requests w1 = r → wp (m2 a) (λ _, freed c' r' F' w1) w1) →
  wp (mbind m2 m1) (λ _, freed c' r' (F ++ F') w) w.
Proof.
  intros H1 H2. apply wp_bind. eapply wp_mono; [exact H1|]. intros a w1 [Hc1 Hr1 Hu1 Ho1 Hs1 Hf1].
  eapply wp_mono; [by apply (H2 a)|]. intros b w2 [Hc2 Hr2 Hu2 Ho2 Hs2 Hf2].
  constructor; [done|done|auto|auto|by rewrite Hs2|]. intros fd [Hfd | Hfd]%elem_of_app Hpos; [|auto]. intros Ho. eapply Hf1; eauto.
Qed.

(** A first part that leaves the configuration alone. *)
Lemma shed_seq {A B} (m1 : M K A) (m2 : A → M K B) c r F F' w :
  wp m1 (λ _, shed F w) w →
  (∀ a w1, config w1 = config w → http_requests w1 = http_requests w → wp (m2 a) (λ _, freed c r F' w1) w1) →
  wp (mbind m2 m1) (λ _, freed c r (F ++ F') w) w.
Proof. apply freed_seq. Qed.

Lemma shed_refl w : shed [] w w.
Proof. constructor; try done. by intros fd ?%not_elem_of_nil. Qed.

Lemma shed_ret {A} (a : A) w : wp (mret a) (λ _, shed [] w) w.
Proof. apply wp_ret, shed_refl. Qed.

Lemma shed_sys (f : K → K) w : (∀ k, open_fds (f k) ⊆ open_fds k) → wp (sys_ f) (λ _, shed [] w) w.
Proof. intros Hf. constructor; try done; [intros fd; apply Hf|by intros fd ?%not_elem_of_nil]. Qed.

Lemma freed_modify f w : wp (modify f) (λ _, freed (f (config w)) (http_requests w) [] w) w.
Proof. constructor; try done. by intros fd ?%not_elem_of_nil. Qed.

Lemma shed_close_fd fd w : wp (close_fd fd) (λ r w', r = (if -1 <? fd then -1 else fd) ∧ shed [fd] w w') w.
Proof.
  unfold close_fd. destruct (Z.ltb_spec (-1) fd) as [Hfd|Hfd]; cbn.
  - split; [done|]. constructor; try done; cbn; intros fd'; rewrite close_open, elem_of_difference, elem_of_singleton;
      [tauto|]. intros ->%list_elem_of_singleton. tauto.
  - split; [done|]. constructor; try done. intros fd' ->%list_elem_of_singleton. lia.
Qed.

Lemma shed_close fd w : wp (close_fd fd) (λ _, shed [fd] w) w.
Proof. eapply wp_mono; [apply shed_close_fd|]. by intros r w' [_ ?]. Qed.

Lemma shed_release h free w :
  (∀ h k, open_fds (free h k) ⊆ open_fds k) → wp (release h free) (λ _, shed [] w) w.
Proof. intros Hf. destruct h; [by apply shed_sys|apply shed_ret]. Qed.

Lemma shed_update w : wp set_update_pollfds (λ _, shed [] w) w.
Proof. constructor; try done. by intros fd ?%not_elem_of_nil. Qed.

(** The configuration of the state before, in the goal about the state after. *)
Ltac shed_step := eapply (shed_seq _ _ _ _ [_]); [apply shed_close|intros ? ? <- <-].

Lemma shed_for_each {A} (F : A → list Z) (body : A → M K unit) (xs : list A) w :
  (∀ x w, wp (body x) (λ _, shed (F x) w) w) → wp (for_each xs body) (λ _, shed (flat_map F xs) w) w.
Proof.
  intros Hb. revert w. induction xs as [|x xs IH]; intros w; [apply shed_ret|].
  apply shed_seq; [apply Hb|]. intros _ w1 <- <-. apply IH.
Qed.

(** The functions that clear a node. *)
Lemma shed_gpio_in data w :
  wp (gpio_in_data_clear data) (λ _, shed [gpio_fd data; in_timer_fd data] w) w.
Proof. unfold gpio_in_data_clear. do 2 shed_step. apply shed_release, request_release_open. Qed.

Lemma shed_gpio_out data w : wp (gpio_out_data_clear data) (λ _, shed [out_timer_fd data] w) w.
Proof. unfold gpio_out_data_clear. shed_step. apply shed_release, request_release_open. Qed.

Lemma shed_client data w :
  wp (server_client_connection_clear data) (λ _, shed [client_fd data; timeout_fd data] w) w.
Proof. unfold server_client_connection_clear. do 2 shed_step. apply shed_update. Qed.

Lemma shed_input data w : wp (input_data_clear data) (λ _, shed [dev_fd data] w) w.
Proof. unfold input_data_clear. shed_step. apply shed_ret. Qed.

Lemma shed_timer definition w : wp (timer_definition_data_clear definition) (λ _, shed [td_fd definition] w) w.
Proof. unfold timer_definition_data_clear. shed_step. apply shed_ret. Qed.

Lemma freed_clear_nodes {A} (get : t_config → t_list A) (F : A → list Z) clear empty w :
  (∀ x w, wp (clear x) (λ _, shed (F x) w) w) →
  wp (clear_nodes get clear empty)
    (λ _, freed (empty (config w)) (http_requests w) (flat_map (λ n, F (n_data n)) (get (config w))) w) w.
Proof.
  intros Hb. unfold clear_nodes. apply wp_bind, wp_gets. rewrite <- (app_nil_r (flat_map _ _)).
  apply shed_seq; [by apply shed_for_each|]. intros _ w1 <- <-. apply freed_modify.
Qed.

Lemma freed_gpios_config_clear w :
  wp gpios_config_clear (λ _, freed ((config w) <| gpios_in := [] |> <| gpios_out := [] |>) (http_requests w)
    (flat_map (λ n, [gpio_fd (n_data n); in_timer_fd (n_data n)]) (gpios_in (config w)) ++
     flat_map (λ n, [out_timer_fd (n_data n)]) (gpios_out (config w))) w) w.
Proof.
  unfold gpios_config_clear. eapply freed_seq.
  - apply (freed_clear_nodes gpios_in (λ d, [gpio_fd d; in_timer_fd d])), shed_gpio_in.
  - intros _ w1 Hc <-. assert (gpios_out (config w) = gpios_out (config w1)) as -> by (by rewrite Hc).
    rewrite <- Hc. apply (freed_clear_nodes gpios_out (λ d, [out_timer_fd d])), shed_gpio_out.
Qed.

(** Every suspended connection is live, so that all of them can be resumed; then
    every connection is ended, in whatever order. *)
Definition suspended_ok (c : t_config) (requests : gmap positive t_request_data) : Prop :=
  Forall (λ n, is_Some (requests !! n_data n)) (http_suspended c).

Lemma shed_resume (ns : t_list positive) w :
  Forall (λ n, is_Some (http_requests w !! n_data n)) ns →
  wp (for_each ns (λ n, r ← request_get (n_data n); sys_ (MHD_resume_connection (connection r))))
    (λ _, shed [] w) w.
Proof.
  revert w. induction ns as [|n ns IH]; intros w Hns; [apply shed_ret|].
  apply Forall_cons in Hns as [[r Hr] Hns]. cbn [for_each]. apply (shed_seq _ _ _ _ [] []).
  - unfold request_get, wp, mbind, M_bind, option_bind. rewrite Hr. apply (shed_sys _ w), MHD_resume_open.
  - intros _ w1 <- Hr1. rewrite <- Hr1 in *. by apply IH.
Qed.

Lemma freed_done (ps : list positive) w :
  NoDup ps → Forall (λ p, is_Some (http_requests w !! p)) ps →
  wp (for_each ps http_connection_done)
    (λ _, freed (config w) (foldl (λ r p, delete p r) (http_requests w) ps) [] w) w.
Proof.
  revert w. induction ps as [|p ps IH]; intros w Hd Hps; [apply shed_ret|].
  apply NoDup_cons in Hd as [Hp Hd]. apply Forall_cons in Hps as [[r Hr] Hps]. cbn [for_each foldl].
  apply (freed_seq _ _ (config w) _ (delete p (http_requests w)) _ [] []).
  - unfold http_connection_done, wp, mbind, option_bind. rewrite Hr.
    constructor; try done. by intros fd ?%not_elem_of_nil.
  - intros _ w1 <- Hr1. rewrite <- Hr1. apply IH; [done|]. apply Forall_forall. intros q Hq.
    pose proof (proj1 (Forall_forall _ _) Hps q Hq) as Hs. cbn in *. rewrite Hr1.
    rewrite lookup_delete_ne; [done|]. by intros ->.
Qed.

Lemma foldl_delete_all {A} (ps : list positive) (r : gmap positive A) :
  (∀ p, is_Some (r !! p) → p ∈ ps) → foldl (λ r p, delete p r) r ps = ∅.
Proof.
  revert r. induction ps as [|p ps IH]; intros r Hr; simpl.
  - apply map_empty. intros p. apply eq_None_not_Some. by intros ?%Hr%not_elem_of_nil.
  - apply IH. intros q Hq. destruct (decide (p = q)) as [<- | Hne]; [rewrite lookup_delete_eq in Hq; by destruct Hq|].
    rewrite lookup_delete_ne in Hq by done. by apply Hr, elem_of_cons in Hq as [-> | ?].
Qed.

Definition http_cleared (c : t_config) : t_config :=
  c <| http_suspended := match httpd c with Some _ => [] | None => http_suspended c end |>.

Lemma freed_httpd_clear w :
  suspended_ok (config w) (http_requests w) →
  wp httpd_clear (λ _, freed (http_cleared (config w))
    (match httpd (config w) with Some _ => ∅ | None => http_requests w end) [] w) w.
Proof.
  intros Hs. unfold httpd_clear, http_cleared. apply wp_bind, wp_gets.
  destruct (httpd (config w)) as [daemon|] eqn:E.
  2:{ apply wp_ret. assert ((config w) <| http_suspended := http_suspended (config w) |> = config w) as ->
        by (by destruct w as [[]]). apply shed_refl. }
  apply wp_bind, wp_gets. apply (shed_seq _ _ _ _ [] []); [by apply shed_resume|]. intros _ w1 <- _.
  apply (shed_seq _ _ _ _ [] []); [apply shed_sys, MHD_stop_open|]. intros _ w2 <- _.
  apply wp_bind. unfold live_requests, wp at 1. set (ps := (map_to_list _).*1).
  assert (Hps : ∀ p, p ∈ ps ↔ is_Some (http_requests w2 !! p)).
  { intros p. unfold ps. rewrite list_elem_of_fmap. split.
    - intros ([q r] & -> & Hq%elem_of_map_to_list). by exists r.
    - intros [r Hr]. exists (p, r). split; [done|]. by apply elem_of_map_to_list. }
  eapply (freed_seq _ _ _ _ _ _ [] []).
  - apply freed_done; [apply NoDup_fst_map_to_list|]. apply Forall_forall. intros p. apply Hps.
  - intros _ w3 <- Hr3. rewrite foldl_delete_all in Hr3 by (intros p; apply Hps). rewrite <- Hr3. apply freed_modify.
Qed.

(** The end of [config_clear], after the connections. *)
Lemma freed_config_tail w :
  wp (_ ← clear_nodes input_devices input_data_clear (λ c, c <| input_devices := [] |>);
      _ ← clear_nodes timer_definitions timer_definition_data_clear (λ c, c <| timer_definitions := [] |>);
      modify (λ c, c <| hooks := [] |>))
    (λ _, freed ((config w) <| input_devices := [] |> <| timer_definitions := [] |> <| hooks := [] |>)
       (http_requests w)
       (flat_map (λ n, [dev_fd (n_data n)]) (input_devices (config w)) ++
        flat_map (λ n, [td_fd (n_data n)]) (timer_definitions (config w)) ++ []) w) w.
Proof.
  eapply freed_seq; [apply (freed_clear_nodes input_devices (λ d, [dev_fd d])), shed_input|]. intros _ w1 Hc1 <-.
  eapply freed_seq.
  - assert (timer_definitions (config w) = timer_definitions (config w1)) as -> by (by rewrite Hc1).
    apply (freed_clear_nodes timer_definitions (λ d, [td_fd d])), shed_timer.
  - intros _ w2 Hc2 <-. rewrite <- Hc1, <- Hc2. apply freed_modify.
Qed.

(** The handles between the lists of GPIOs and clients and the connections. *)
Lemma freed_handles {A} (m : M K A) c r F w :
  (∀ w1, config w1 = (config w) <| signal_fd := if -1 <? signal_fd (config w) then -1 else signal_fd (config w) |>
           <| lua_async_scripts := [] |> → http_requests w1 = http_requests w → wp m (λ _, freed c r F w1) w1) →
  wp (ch ← gets chip;
      _ ← release ch gpiod_chip_close;
      signal ← gets signal_fd;
      signal ← close_fd signal;
      _ ← modify (λ c, c <| signal_fd := signal |>);
      conn ← gets mpd_conn;
      _ ← release conn mpd_connection_free;
      vm ← gets lua_vm;
      _ ← release vm lua_close;
      _ ← modify (λ c, c <| lua_async_scripts := [] |>);
      m) (λ _, freed c r ([signal_fd (config w)] ++ F) w) w.
Proof.
  intros Hm. apply wp_bind, wp_gets. apply (shed_seq _ _ _ _ []); [apply shed_release, chip_close_open|].
  intros _ w1 Hc1 Hr1. apply wp_bind, wp_gets, wp_bind. rewrite <- Hc1.
  eapply wp_mono; [apply shed_close_fd|]. intros fd w2 [Hfd [Hc2 Hr2 Hu2 Ho2 Hs2 Hf2]].
  eapply (wp_mono _ (λ _, freed c r F w2)).
  2:{ intros a w3 [Hc3 Hr3 Hu3 Ho3 Hs3 Hf3]. constructor; auto; [by rewrite Hs3|]. intros fd' [-> | Hin]%elem_of_cons Hpos Hopen; [|by eapply Hf3].
      apply Hf2 in Hpos; [|by left]. auto. }
  eapply (freed_seq _ _ _ _ _ _ []); [apply freed_modify|]. intros _ w3 Hc3 Hr3. apply wp_bind, wp_gets.
  eapply (shed_seq _ _ _ _ []); [apply shed_release, mpd_free_open|]. intros _ w4 Hc4 Hr4. apply wp_bind, wp_gets.
  eapply (shed_seq _ _ _ _ []); [apply shed_release, lua_close_open|]. intros _ w5 Hc5 Hr5.
  eapply (freed_seq _ _ _ _ _ _ []); [apply freed_modify|]. intros _ w6 Hc6 Hr6.
  apply Hm; [|congruence]. rewrite Hc6, Hc5, Hc4, Hc3, Hc2, Hfd, Hc1. done.
Qed.

(** The configuration after [config_clear], and what it held. *)
Lemma freed_config_clear w :
  suspended_ok (config w) (http_requests w) →
  wp config_clear (λ _, freed (cleared (config w))
    (match httpd (config w) with Some _ => ∅ | None => http_requests w end) (held (config w)) w) w.
Proof.
  intros Hs. unfold config_clear, held. rewrite app_assoc. eapply freed_seq; [apply freed_gpios_config_clear|].
  intros _ w1 Hc1 Hr1. assert (clients (config w) = clients (config w1)) as -> by (by rewrite Hc1).
  eapply freed_seq; [apply (freed_clear_nodes clients (λ d, [client_fd d; timeout_fd d])), shed_client|].
  intros _ w2 Hc2 Hr2. rewrite Hc1 in Hc2. assert (signal_fd (config w) = signal_fd (config w2)) as -> by (by rewrite Hc2).
  apply freed_handles. intros w3 Hc3 Hr3. rewrite Hc2 in Hc3.
  eapply (freed_seq _ _ _ _ _ _ []); [apply freed_httpd_clear; rewrite Hc3, Hr3, Hr2, Hr1; exact Hs|].
  intros _ w4 Hc4 Hr4. rewrite Hc3 in Hc4.
  assert (input_devices (config w) = input_devices (config w4)) as -> by (by rewrite Hc4).
  assert (timer_definitions (config w) = timer_definitions (config w4)) as -> by (by rewrite Hc4).
  rewrite <- (app_nil_r (flat_map _ (timer_definitions _))).
  eapply wp_mono; [apply freed_config_tail|]. intros _ w5 [Hc5 Hr5 Hu5 Ho5 Hs5 Hf5].
  constructor; [|by rewrite Hr5, Hr4, Hc3, Hr3, Hr2, Hr1|done..].
  rewrite Hc5, Hc4. clear. destruct (config w). vm_compute. reflexivity.
Qed.

Definition queue_fds (main_queue : option t_mygpiod_queue) : list Z :=
  match main_queue with Some queue => [q_event_fd queue] | None => [] end.

Lemma freed_main_exit main_queue w :
  suspended_ok (config w) (http_requests w) →
  wp (main_exit main_queue) (λ _, freed (cleared (config w))
    (match httpd (config w) with Some _ => ∅ | None => http_requests w end)
    (held (config w) ++ queue_fds main_queue) w) w.
Proof.
  intros Hs. unfold main_exit. eapply freed_seq; [by apply freed_config_clear|]. intros _ w1 <- <-.
  destruct main_queue as [queue|]; [|apply shed_ret]. unfold event_fd_close.
  destruct (Z.ltb_spec (-1) (q_event_fd queue)).
  - constructor; try done; cbn; intros fd; rewrite close_open, elem_of_difference, elem_of_singleton; [tauto|].
    intros ->%list_elem_of_singleton. tauto.
  - constructor; try done. intros fd ->%list_elem_of_singleton. lia.
Qed.
End release.

(** Without a view of the descriptors. *)
Definition untracked `{Kernel K} : Descriptors K.
Proof. refine {| open_fds _ := ∅ |}; intros; set_solver. Defined.

Lemma freed_world `{Kernel K} `{!Descriptors K} c r F w w' :
  freed c r F w w' → update_pollfds w = true → w' = World c (kern w') true r (scripts w).
Proof. intros [Hc Hr Hu _ Hs _] Ht. destruct w'. cbn in *. by rewrite Hc, Hr, Hu, Hs. Qed.

Section exit.
Context `{Kernel K} `{D : !Descriptors K} `{Build} `{BL : !BuildLaws} `{KL : !KernelLaws K}.
Implicit Types (w : world K) (st : @loop_state K).

(** The invariant holds wherever the loop is left. *)
Lemma loop_exit_suspended st rc w : reachable st → loop_exit st rc w → suspended_ok (config w) (http_requests w).
Proof.
  intros Hst Hexit. pose proof (reachable_inv st Hst) as Hl.
  destruct (loop_refresh_inv st Hl) as (s & Hw & _). destruct Hexit as [|w Hr|revents w w' Hlen Hr Hrun].
  - apply Hw.
  - by apply (http_steps_inv (PE := script_endings) s) in Hr as [].
  - destruct (loop_iteration (PE := script_endings) st revents w Hl Hlen Hr) as [_ Hwp].
    apply (wp_done _ _ _ _ _ Hrun) in Hwp as (s' & Hw' & _). apply Hw'.
Qed.

(** C4: When [main] leaves its loop, for whatever reason and in whatever reachable
    state, it releases everything: no dangling pointer is followed while suspended
    connections are resumed and the lists are cleared, no client, GPIO, device,
    timer, hook or connection is left, and of the descriptors that the
    configuration and the main queue held (clients and their timeouts, line
    requests, GPIO timers, signals, devices, timers, the queue) none stays open. *)
Theorem exit_releases st rc w main_queue :
  reachable st → loop_exit st rc w →
  ∃ w', main_exit main_queue w = Done (tt, w') ∧ config w' = cleared (config w) ∧
    (is_Some (httpd (config w)) → http_requests w' = ∅) ∧
    open_fds (kern w') ⊆ open_fds (kern w) ∧
    ∀ fd, fd ∈ held (config w) ++ queue_fds main_queue → 0 ≤ fd → fd ∉ open_fds (kern w').
Proof.
  intros Hst Hexit. pose proof (freed_main_exit main_queue w (loop_exit_suspended st rc w Hst Hexit)) as Hwp.
  apply wp_run in Hwp as ([] & w' & Hrun & [Hc Hr _ Ho _ Hf]). exists w'. split_and!; [done|done| |done|done].
  intros [daemon Hd]. by rewrite Hd in Hr.
Qed.
End exit.

(** ** Witness

    A browser waits for an event, a client is connected, and the signal arrives:
    the client's descriptor was open and is closed. *)

Definition exit_world : world sim :=
  sim_http sim_calls (l_world (loop_refresh (sim_session [] []))).

Lemma exit_releases_witness :
  filter (λ fd, fd ∈ open_fds (kern exit_world)) (held (config exit_world)) = [10; 11] ∧
  ∃ w', main_exit (Some (mygpiod_queue_create true 12)) exit_world = Done (tt, w') ∧
    clients (config w') = [] ∧ 10 ∉ open_fds (kern w') ∧ 11 ∉ open_fds (kern w').
Proof.
  split; [vm_compute; reflexivity|].
  destruct (exit_releases (sim_session [] []) EXIT_FAILURE exit_world (Some (mygpiod_queue_create true 12))) as (w' & Hrun & Hc & _ & _ & Hf).
  - apply sim_session_reachable.
  - apply ExitMHD, sim_http_steps. repeat split; vm_compute; by (reflexivity || eexists || constructor).
  - exists w'. split_and!; [done|by rewrite Hc|apply Hf; [apply (bool_decide_unpack _); vm_compute; exact I|lia]..].
Defined.
