(* ===== verification/EventSpec.v ===== *)
(** * How events reach the clients

    The theorems about [event_enqueue_gpio], [event_enqueue_input] and the idle
    commands, in every state the event loop can reach. *)

From S2P Require Import Prelude CLib Sds Lists GpioUtil Config Kernel Sim Timer InputNames Events.
From S2P Require Import Gpio Actions GpioEvent Protocol Socket EventLoop Invariant InvOps.
From S2P Require Import InvProtocol InvLoop Daemon.

(** ** The last ten *)

Definition last_ten {A} (l : list A) : list A := drop (length l - Z.to_nat WAITING_EVENTS_MAX) l.

Lemma last_ten_snoc {A} (l : list A) x : last_ten (last_ten l ++ [x]) = last_ten (l ++ [x]).
Proof.
  unfold last_ten. rewrite !length_app, length_drop. simpl.
  destruct (decide (Z.to_nat WAITING_EVENTS_MAX ≤ length l)%nat) as [Hl|Hl].
  - replace (length l - (length l - Z.to_nat WAITING_EVENTS_MAX) + 1 - Z.to_nat WAITING_EVENTS_MAX)%nat
      with 1%nat by lia.
    rewrite <- (drop_app_le l [x]) by lia. rewrite drop_drop. f_equal. lia.
  - replace (length l - Z.to_nat WAITING_EVENTS_MAX)%nat with 0%nat by lia.
    rewrite drop_0. f_equal. lia.
Qed.

Lemma last_ten_map {A B} (f : A → B) l : map f (last_ten l) = last_ten (map f l).
Proof. unfold last_ten. rewrite length_map. exact (fmap_drop f _ l). Qed.

Lemma last_ten_app {A} (l l' : list A) : last_ten (last_ten l ++ l') = last_ten (l ++ l').
Proof.
  induction l' as [|y l' IH] using rev_ind.
  - rewrite !app_nil_r. unfold last_ten. rewrite drop_drop, length_drop. f_equal. lia.
  - rewrite !app_assoc, <- (last_ten_snoc (last_ten l ++ l')), IH. apply last_ten_snoc.
Qed.

(** The waiting events without the addresses of their nodes. *)
Definition waiting (d : t_client_data) : list (Z * t_event_data) :=
  map (λ n, (n_id n, n_data n)) (waiting_events d).

Section events.
Context `{Kernel K} `{Build} `{BL : !BuildLaws} `{KL : !KernelLaws K}.
Implicit Types (w : world K) (p : positive) (st : @loop_state K).

Lemma waiting_client_event devs id e d :
  state d ≠ CLIENT_SOCKET_STATE_IDLE →
  waiting (client_event devs id e d) = last_ten (waiting d ++ [(id, e)]) ∧
  state (client_event devs id e d) = state d.
Proof.
  intros Hs. unfold client_event. rewrite decide_False by done. split; [|done].
  unfold waiting. simpl. change (last_events ?q) with (last_ten q).
  rewrite last_ten_map. unfold list_push. by rewrite map_app.
Qed.

Lemma event_post_deref id e text w w' n :
  NoDup (ptrs (clients (config w))) → event_post id e text w w' → n ∈ clients (config w) →
  list_deref (clients (config w')) (n_ptr n) = Some (n <| n_data ::= client_event (devs_of w) id e |>).
Proof.
  intros Hnd (Hc & _) Hn. rewrite Hc. simpl.
  set (f := λ n : node t_client_data, n <| n_data ::= client_event (devs_of w) id e |>).
  apply (list_deref_elem _ (f n)).
  - unfold ptrs. rewrite map_map. exact Hnd.
  - by apply list_elem_of_fmap_2.
Qed.

(** C7: In every reachable state an event of a GPIO runs through all clients
    once: a client in idle state is written the event at once, for any other
    it is appended to the waiting events, of which the last ten are kept;
    every suspended HTTP request is resumed with the JSON text of the event
    and forgotten; nothing else of the configuration changes; and the flag
    for the poll table is raised when some client was idle. *)
Theorem event_fanout st gpio event_type timestamp :
  reachable st → event_type ≠ MYGPIOD_EVENT_INPUT →
  ∃ w', event_enqueue_gpio gpio event_type timestamp (l_world st) = Done (tt, w') ∧
    event_post gpio (event_data_new_gpio event_type timestamp)
      (gpio_json gpio event_type timestamp) (l_world st) w'.
Proof.
  intros (s & Hw & _)%reachable_inv Ht.
  destruct (proj1 (wp_run _ _ _) (event_enqueue_gpio_wp gpio event_type timestamp (l_world st) Ht
              (inv_enqueue_pre _ _ _ Hw))) as ([] & w' & Hrun & Hpost).
  eauto.
Qed.

(** A sequence of events: GPIO, type, timestamp. *)
Definition gpio_event : Type := Z * mygpiod_event_types * Z.

Definition enqueue_all (es : list gpio_event) : M K unit :=
  for_each es (λ e, event_enqueue_gpio e.1.1 e.1.2 e.2).

Definition gpio_event_entry (e : gpio_event) : Z * t_event_data :=
  (e.1.1, event_data_new_gpio e.1.2 e.2).

Lemma enqueue_all_wp es s w n :
  inv None s w → Forall (λ e, e.1.2 ≠ MYGPIOD_EVENT_INPUT) es →
  n ∈ clients (config w) → state (n_data n) ≠ CLIENT_SOCKET_STATE_IDLE →
  wp (enqueue_all es) (λ _ w', ∃ n', list_deref (clients (config w')) (n_ptr n) = Some n' ∧
        waiting (n_data n')
        = last_ten (waiting (n_data n) ++ map gpio_event_entry es)) w.
Proof.
  revert w n. induction es as [|[[g t] ts] es IH]; intros w n Hw Hes Hn Hs; cbn [enqueue_all for_each].
  - apply wp_ret. exists n. split.
    + apply list_deref_elem; [|done]. rewrite (inv_clients _ _ _ Hw). apply Hw.
    + simpl. rewrite app_nil_r. symmetry. unfold last_ten.
      assert (Hq : queue_short (n_data n)).
      { destruct (Forall_in _ _ _ (inv_client _ _ _ Hw) Hn). done. }
      unfold queue_short, waiting in *. rewrite length_map.
      replace (_ - _)%nat with 0%nat by (unfold WAITING_EVENTS_MAX in *; lia). done.
  - apply Forall_cons in Hes as [Ht Hes]. simpl in Ht.
    assert (Hnd : NoDup (ptrs (clients (config w)))).
    { rewrite (inv_clients _ _ _ Hw). apply Hw. }
    apply wp_bind. simpl. eapply wp_mono; [apply event_enqueue_gpio_wp; [done|by eapply inv_enqueue_pre]|].
    intros [] w' Hpost.
    assert (Hw' : inv None s w') by (eapply event_post_inv; [done| |exact Hpost]; by intros ?).
    pose proof (event_post_deref _ _ _ _ _ _ Hnd Hpost Hn) as Hn'.
    destruct (waiting_client_event (devs_of w) g (event_data_new_gpio t ts) (n_data n) Hs)
      as [Hwait Hst].
    eapply wp_mono; [apply (IH w' (n <| n_data ::= client_event (devs_of w) g (event_data_new_gpio t ts) |>)); try done|].
    + by apply list_deref_Some in Hn' as [].
    + simpl. by rewrite Hst.
    + intros _ w2 (n2 & Hn2 & Hw2). exists n2. split; [done|]. rewrite Hw2. simpl.
      rewrite Hwait, last_ten_app, <- app_assoc. done.
Qed.

(** C8: The waiting events of a client that is not idle are, after any
    sequence of GPIO events in a reachable state, the last ten of those that
    waited before followed by the new ones, in the order they happened:
    events are neither reordered nor duplicated, and only the oldest are
    dropped. *)
Theorem waiting_events_last_ten st es n :
  reachable st → Forall (λ e, e.1.2 ≠ MYGPIOD_EVENT_INPUT) es →
  n ∈ clients (config (l_world st)) → state (n_data n) ≠ CLIENT_SOCKET_STATE_IDLE →
  ∃ w' n', enqueue_all es (l_world st) = Done (tt, w') ∧
    list_deref (clients (config w')) (n_ptr n) = Some n' ∧
    waiting (n_data n') = last_ten (waiting (n_data n) ++ map gpio_event_entry es).
Proof.
  intros (s & Hw & _)%reachable_inv Hes Hn Hs.
  destruct (proj1 (wp_run _ _ _) (enqueue_all_wp es s _ n Hw Hes Hn Hs)) as ([] & w' & Hrun & n' & ?).
  eauto.
Qed.

(** ** The idle command *)

(** A client in a reachable state that has events waiting. *)
Lemma handle_idle_waiting st p n :
  reachable st → list_deref (clients (config (l_world st))) p = Some n →
  waiting_events (n_data n) ≠ [] →
  let w := l_world st in
  let answered := idle_respond (devs_of w) false in
  handle_idle p w
  = Done (true, (w_clients (list_upd p answered) w) <| update_pollfds := true |>) ∧
  list_deref (clients (config (w_clients (list_upd p answered) w))) p
  = Some (n <| n_data ::= answered |>) ∧
  (length (waiting_events (n_data n)) ≤ 10)%nat.
Proof.
  intros (s & Hw & _)%reachable_inv Hn E w answered. fold w in Hw, Hn.
  assert (Hnd : NoDup (ptrs (clients (config w)))).
  { rewrite (inv_clients _ _ _ Hw). apply Hw. }
  pose proof Hn as [Hin _]%list_deref_Some.
  destruct (Forall_in _ _ _ (inv_client _ _ _ Hw) Hin) as [Hshort Hq _ _ _ _ _].
  unfold queue_short, WAITING_EVENTS_MAX in Hshort.
  split_and!; [|by apply deref_upd_clients|lia].
  unfold handle_idle. erewrite bind_run by (apply deref_run; exact Hn).
  rewrite list_length_small by (unfold UINT_MAX; lia).
  destruct (Z.eqb_spec (Z.of_nat (length (waiting_events (n_data n)))) 0) as [E0|_].
  { by destruct (waiting_events (n_data n)). }
  apply (send_idle_events_run p false n w Hnd Hn). unfold devs_of. by rewrite (inv_dev _ _ _ Hw).
Qed.

(** The command "idle" of a client in a reachable state. With nothing to
    tell, the client becomes idle, its timeout is closed and its output is
    left alone. Otherwise it is answered with the lines of all its waiting
    events, oldest first, and END, and its queue is emptied. *)
Theorem handle_idle_delivers st p n :
  reachable st → list_deref (clients (config (l_world st))) p = Some n →
  ∃ w' n', handle_idle p (l_world st) = Done (true, w') ∧
    list_deref (clients (config w')) p = Some n' ∧ waiting_events (n_data n') = [] ∧
    (waiting_events (n_data n) = [] →
       state (n_data n') = CLIENT_SOCKET_STATE_IDLE ∧ timeout_fd (n_data n') < 0 ∧
       buf_out (n_data n') = buf_out (n_data n)) ∧
    (waiting_events (n_data n) ≠ [] →
       state (n_data n') = CLIENT_SOCKET_STATE_WRITING ∧
       buf_out (n_data n')
       = unlines (concat (map (event_lines (input_devices (config (l_world st))))
                            (waiting_events (n_data n))) ++ [DEFAULT_MSG_END])).
Proof.
  intros Hst Hn. destruct (decide (waiting_events (n_data n) = [])) as [E|E].
  - destruct (reachable_inv st Hst) as (s & Hw & _). set (w := l_world st) in *.
    pose proof (close_fd_wp (timeout_fd (n_data n)) w) as Hcl.
    apply wp_run in Hcl as (fd & w1 & Hrun & Hf & _ & Hfd).
    unfold handle_idle, server_client_connection_remove_timeout.
    erewrite bind_run by (apply deref_run; exact Hn). rewrite E.
    change (list_length [] =? 0) with true. cbv beta iota.
    erewrite bind_run.
    2:{ erewrite bind_run by (apply deref_run; exact Hn).
        erewrite bind_run by exact Hrun. apply upd_client_run. }
    erewrite bind_run by apply upd_client_run. eexists _, _.
    split; [done|]. rewrite w_clients_upd_compose.
    split; [apply deref_upd_clients; rewrite (proj1 Hf); exact Hn|]. simpl. by split_and!.
  - destruct (handle_idle_waiting st p n Hst Hn E) as (Hrun & Hn' & _).
    eexists _, _. split; [exact Hrun|]. split; [exact Hn'|]. simpl. by split_and!.
Qed.

(** C9: An idle client (one whose "idle" command found nothing to tell) is
    written the next GPIO event at once, whatever its source: four lines with
    the name of the event, its time in milliseconds and the GPIO, closed by
    END; afterwards nothing waits for it. *)
Theorem idle_client_told_at_once st n gpio event_type timestamp :
  reachable st → event_type ≠ MYGPIOD_EVENT_INPUT →
  n ∈ clients (config (l_world st)) → state (n_data n) = CLIENT_SOCKET_STATE_IDLE →
  ∃ w' n', event_enqueue_gpio gpio event_type timestamp (l_world st) = Done (tt, w') ∧
    list_deref (clients (config w')) (n_ptr n) = Some n' ∧
    state (n_data n') = CLIENT_SOCKET_STATE_WRITING ∧ waiting_events (n_data n') = [] ∧
    buf_out (n_data n')
    = unlines [bs "event:" ++ mygpiod_event_name event_type;
               bs "timestamp_ms:" ++ print_u (timestamp / 1000000);
               bs "gpio:" ++ print_u gpio; bs "END"] ∧
    update_pollfds w' = true.
Proof.
  intros (s & Hw & _)%reachable_inv Ht Hn Hs. set (w := l_world st) in *.
  assert (Hnd : NoDup (ptrs (clients (config w)))).
  { rewrite (inv_clients _ _ _ Hw). apply Hw. }
  destruct (Forall_in _ _ _ (inv_client _ _ _ Hw) Hn) as [_ _ Hidle _ _ _ _].
  specialize (Hidle Hs).
  destruct (proj1 (wp_run _ _ _) (event_enqueue_gpio_wp gpio event_type timestamp w Ht
              (inv_enqueue_pre _ _ _ Hw))) as ([] & w' & Hrun & Hpost).
  eexists w', _. split; [done|]. split; [by eapply event_post_deref|].
  unfold client_event. simpl. rewrite decide_True by done. simpl. split_and!; try done.
  - rewrite Hidle. unfold idle_text. simpl. unfold event_lines. simpl.
    by rewrite decide_False.
  - destruct Hpost as (_ & -> & _). apply orb_true_iff. left.
    apply existsb_exists. exists n. split; [by apply list_elem_of_In|].
    by apply bool_decide_eq_true.
Qed.
End events.

(** ** Witnesses

    A client of the simulated daemon after the greeting, and after "idle". *)

Definition sim_idle : @loop_state sim :=
  sim_session [bs "idle" ++ [LF]] [[0; 0; 0; POLLIN; 0]].

Definition sim_client (st : @loop_state sim) : node t_client_data :=
  default (Node 2 0 (server_client_connection_new 0))
    (list_deref (clients (config (l_world st))) 2).

Definition sim_events : list gpio_event :=
  map (λ i : nat, (17, MYGPIOD_EVENT_GPIO_RISING, Z.of_nat i * 1000000)) (seq 0 12).

Lemma event_fanout_witness :
  ∃ w', event_enqueue_gpio 17 MYGPIOD_EVENT_GPIO_RISING 5000000 (l_world sim_idle) = Done (tt, w') ∧
    event_post 17 (event_data_new_gpio MYGPIOD_EVENT_GPIO_RISING 5000000)
      (gpio_json 17 MYGPIOD_EVENT_GPIO_RISING 5000000) (l_world sim_idle) w'.
Proof.
  apply (event_fanout sim_idle 17 MYGPIOD_EVENT_GPIO_RISING 5000000);
    [apply sim_session_reachable|discriminate].
Defined.

Lemma sim_client_elem st : is_Some (list_deref (clients (config (l_world st))) 2) →
  sim_client st ∈ clients (config (l_world st)).
Proof.
  unfold sim_client. intros [n Hn]. rewrite Hn. simpl. by apply list_deref_Some in Hn as [].
Qed.

Lemma waiting_events_last_ten_witness :
  let st := sim_session [] [] in
  ∃ w' n', enqueue_all sim_events (l_world st) = Done (tt, w') ∧
    list_deref (clients (config w')) (n_ptr (sim_client st)) = Some n' ∧
    waiting (n_data n') = last_ten (waiting (n_data (sim_client st)) ++ map gpio_event_entry sim_events).
Proof.
  apply (waiting_events_last_ten (sim_session [] []) sim_events).
  - apply sim_session_reachable.
  - apply Forall_map, Forall_forall. intros i _. discriminate.
  - apply sim_client_elem. vm_compute. by eexists.
  - vm_compute. discriminate.
Defined.

Lemma handle_idle_delivers_witness :
  ∃ w' n', handle_idle 2 (l_world (sim_session [] [])) = Done (true, w') ∧
    list_deref (clients (config w')) 2 = Some n' ∧ state (n_data n') = CLIENT_SOCKET_STATE_IDLE.
Proof.
  destruct (handle_idle_delivers (sim_session [] []) 2 (sim_client (sim_session [] [])))
    as (w' & n' & Hrun & Hn & _ & Hempty & _).
  - apply sim_session_reachable.
  - vm_compute. reflexivity.
  - exists w', n'. split; [exact Hrun|]. split; [exact Hn|]. apply Hempty. vm_compute. reflexivity.
Defined.

Lemma idle_client_told_at_once_witness :
  ∃ w' n', event_enqueue_gpio 17 MYGPIOD_EVENT_GPIO_RISING 5000000 (l_world sim_idle) = Done (tt, w') ∧
    list_deref (clients (config w')) 2 = Some n' ∧
    buf_out (n_data n') = bs "event:gpio_rising" ++ [LF] ++ bs "timestamp_ms:5" ++ [LF] ++
                          bs "gpio:17" ++ [LF] ++ bs "END" ++ [LF].
Proof.
  destruct (idle_client_told_at_once sim_idle (sim_client sim_idle) 17 MYGPIOD_EVENT_GPIO_RISING 5000000)
    as (w' & n' & Hrun & Hn & _ & _ & Hbuf & _).
  - apply sim_session_reachable.
  - discriminate.
  - apply sim_client_elem. vm_compute. by eexists.
  - vm_compute. reflexivity.
  - exists w', n'. split; [exact Hrun|]. split; [exact Hn|]. rewrite Hbuf. vm_compute. reflexivity.
Defined.
