(* ===== verification/SocketSpec.v ===== *)
(** * What the socket server does

    Accepting, reading, writing and timeouts of one client, on every branch, and a
    response over all the calls of the event loop that write it. *)

From S2P Require Import Prelude CLib ParseUtil Sds Lists GpioUtil Config Kernel Sim Timer.
From S2P Require Import InputNames Events Gpio Actions GpioEvent Protocol Socket EventLoop.
From S2P Require Import Invariant InvOps InvProtocol InvLoop Daemon EventSpec.

(** What is left of the response to write. *)
Definition rest (d : t_client_data) : bytes := drop (Z.to_nat (bytes_out d)) (buf_out d).

Section socket.
Context `{Kernel K} `{Build} `{BL : !BuildLaws} `{KL : !KernelLaws K}.
Implicit Types (w : world K) (p : positive) (st : @loop_state K).

(** ** Writing *)

(** The effect of [write] taking [m] bytes. *)
Definition after_write (m : Z) (d : t_client_data) : t_client_data :=
  let d' := d <| bytes_out ::= λ b, b + m |> in
  if m =? Z.of_nat (length (buf_out d)) - bytes_out d then
    d' <| state := CLIENT_SOCKET_STATE_READING |> <| events := POLLIN |> <| buf_out := [] |>
  else d'.

Lemma write_run p n m k w :
  NoDup (ptrs (clients (config w))) → list_deref (clients (config w)) p = Some n →
  write_fd (client_fd (n_data n)) (rest (n_data n)) (kern w) = (Some m, k) →
  ∃ w', server_client_write p w = Done (true, w') ∧ kern w' = k ∧
    config w' = config (w_clients (list_upd p (after_write m)) w) ∧
    http_requests w' = http_requests w ∧ scripts w' = scripts w ∧
    (m = Z.of_nat (length (buf_out (n_data n))) - bytes_out (n_data n) → update_pollfds w' = true).
Proof.
  intros Hnd Hn Hm. unfold server_client_write. erewrite bind_run by (apply deref_run; exact Hn).
  cbv beta zeta. erewrite bind_run by (unfold sys; unfold rest in Hm; by rewrite Hm).
  cbv beta iota. erewrite bind_run by apply upd_client_run. cbv beta.
  destruct (Z.eqb_spec m (Z.of_nat (length (buf_out (n_data n))) - bytes_out (n_data n))) as [E|E].
  - eexists. split; [reflexivity|]. split_and!; try done. simpl. unfold set_field. simpl.
    rewrite !list_upd_compose. f_equal. eapply list_upd_ext; [done|exact Hn|].
    unfold after_write. by rewrite (proj2 (Z.eqb_eq _ _) E).
  - eexists. split; [reflexivity|]. split_and!; try done. simpl. unfold set_field. simpl.
    f_equal. eapply list_upd_ext; [done|exact Hn|].
    unfold after_write. by rewrite (proj2 (Z.eqb_neq _ _) E).
Qed.

(** The calls for one response: the event loop reports that the descriptor [fd] is
    ready for writing; one write takes a prefix of what is left of the response,
    and nothing else happens to the world than that it is counted. *)
Inductive writes fd : world K → bytes → world K → Prop :=
  | WritesDone w n :
      get_node_by_clientfd (clients (config w)) fd = Some n →
      state (n_data n) = CLIENT_SOCKET_STATE_READING → writes fd w [] w
  | WritesStep w n m k w' s w'' :
      get_node_by_clientfd (clients (config w)) fd = Some n →
      state (n_data n) = CLIENT_SOCKET_STATE_WRITING →
      server_client_connection_handle fd POLLOUT w = Done (true, w') →
      write_fd fd (rest (n_data n)) (kern w) = (Some m, k) → kern w' = k →
      config w' = config (w_clients (list_upd (n_ptr n) (after_write m)) w) →
      http_requests w' = http_requests w → scripts w' = scripts w →
      writes fd w' s w'' →
      writes fd w (take (Z.to_nat m) (rest (n_data n)) ++ s) w''.

(** A socket that takes something whenever it is asked to. *)
Definition accepts_writes : Prop :=
  ∀ fd s (k : K), ∃ m k', write_fd fd s k = (Some m, k') ∧ (s ≠ [] → 1 ≤ m).

(** The client of a descriptor is found again after a write. *)
Lemma find_fd_upd (l : t_list t_client_data) fd p f :
  (∀ d, client_fd (f d) = client_fd d) →
  get_node_by_clientfd (list_upd p f l) fd
  = (λ n, if Pos.eqb (n_ptr n) p then n <| n_data ::= f |> else n) <$> get_node_by_clientfd l fd.
Proof.
  intros Hf. unfold get_node_by_clientfd, list_find_node, list_upd. induction l as [|n l IH]; [done|].
  cbn [map List.find]. destruct (Pos.eqb (n_ptr n) p) eqn:E; cbn; rewrite ?Hf;
    (destruct (client_fd (n_data n) =? fd); [cbn; by rewrite E|exact IH]).
Qed.

Lemma after_write_fd m d : client_fd (after_write m d) = client_fd d.
Proof. unfold after_write. by destruct (_ =? _). Qed.

(** The call of the event loop is one write. *)
Lemma handle_write fd n m k w :
  NoDup (ptrs (clients (config w))) → get_node_by_clientfd (clients (config w)) fd = Some n →
  state (n_data n) = CLIENT_SOCKET_STATE_WRITING →
  write_fd fd (rest (n_data n)) (kern w) = (Some m, k) →
  ∃ w', server_client_connection_handle fd POLLOUT w = Done (true, w') ∧ kern w' = k ∧
    config w' = config (w_clients (list_upd (n_ptr n) (after_write m)) w) ∧
    http_requests w' = http_requests w ∧ scripts w' = scripts w.
Proof.
  intros Hnd Hn Hst Hm. pose proof Hn as [Hin Hfd%Z.eqb_eq]%list_find_node_Some.
  pose proof (list_deref_elem _ _ Hnd Hin) as Hd. rewrite <- Hfd in Hm.
  destruct (write_run (n_ptr n) n m k w Hnd Hd Hm) as (w' & Hrun & ? & ? & ? & ? & _).
  exists w'. split; [|done]. unfold server_client_connection_handle. erewrite bind_run by done. cbv beta.
  rewrite Hn. change (negb (Z.land POLLOUT POLLHUP =? 0)) with false. cbv iota.
  change (negb (Z.land POLLOUT POLLERR =? 0) || negb (Z.land POLLOUT POLLNVAL =? 0)) with false. cbv iota.
  by rewrite Hst.
Qed.

Lemma writes_all fd n w :
  accepts_writes → NoDup (ptrs (clients (config w))) →
  get_node_by_clientfd (clients (config w)) fd = Some n →
  state (n_data n) = CLIENT_SOCKET_STATE_WRITING →
  0 ≤ bytes_out (n_data n) ≤ Z.of_nat (length (buf_out (n_data n))) →
  ∃ w', writes fd w (rest (n_data n)) w'.
Proof.
  intros Ha. remember (length (rest (n_data n))) as len eqn:El.
  revert n w El. induction (lt_wf len) as [len _ IH]. intros n w El Hnd Hn Hst Hb.
  destruct (Ha fd (rest (n_data n)) (kern w)) as (m & k & Hm & Hpos).
  destruct (handle_write fd n m k w Hnd Hn Hst Hm) as (w1 & Hrun & Hk1 & Hc1 & Hr1 & Hs1).
  pose proof (write_fd_length _ _ _ _ _ Hm) as Hle. pose proof (write_fd_nonneg _ _ _ _ _ Hm) as Hge.
  assert (Hlr : Z.of_nat (length (rest (n_data n)))
                = Z.of_nat (length (buf_out (n_data n))) - bytes_out (n_data n)).
  { unfold rest. rewrite length_drop. lia. }
  assert (Hn1 : get_node_by_clientfd (clients (config w1)) fd = Some (n <| n_data ::= after_write m |>)).
  { rewrite Hc1. change (clients (config (w_clients ?g w))) with (g (clients (config w))).
    rewrite find_fd_upd by (intros; apply after_write_fd). rewrite Hn. cbn. by rewrite Pos.eqb_refl. }
  destruct (Z.eqb_spec m (Z.of_nat (length (buf_out (n_data n))) - bytes_out (n_data n))) as [E|E].
  - exists w1. replace (rest (n_data n)) with (take (Z.to_nat m) (rest (n_data n)) ++ [])
      by (rewrite app_nil_r; apply take_ge; lia).
    eapply WritesStep; try done. eapply WritesDone; [exact Hn1|].
    simpl. unfold after_write. by rewrite (proj2 (Z.eqb_eq _ _) E).
  - assert (Haw : after_write m (n_data n) = (n_data n) <| bytes_out ::= λ b, b + m |>).
    { unfold after_write. by rewrite (proj2 (Z.eqb_neq _ _) E). }
    assert (Hm1 : 1 ≤ m). { apply Hpos. intros Hnil. rewrite Hnil in Hlr, Hle. simpl in *. lia. }
    assert (Hrest : rest (after_write m (n_data n)) = drop (Z.to_nat m) (rest (n_data n))).
    { rewrite Haw. unfold rest. simpl. rewrite drop_drop. f_equal. lia. }
    destruct (IH (length (rest (after_write m (n_data n)))) ltac:(rewrite Hrest, length_drop; lia)
                (n <| n_data ::= after_write m |>) w1) as (w2 & Hw2); try done.
    + rewrite Hc1. by apply NoDup_w_clients.
    + simpl. by rewrite Haw.
    + simpl. rewrite Haw. simpl. lia.
    + exists w2. rewrite <- (take_drop (Z.to_nat m) (rest (n_data n))).
      eapply WritesStep; try done. by rewrite <- Hrest.
Qed.

(** C17: A response is written completely and in order. On a socket that takes
    at least one byte whenever it is asked to, the calls that the event loop
    makes for the descriptor of a client that is written to (each with the
    descriptor reported ready for writing) hand over exactly the bytes of the
    output buffer that were not yet written, once each: every call is one write,
    which takes a prefix of what is left and is counted, and nothing else. After
    finitely many calls the client is read from again. *)
Theorem response_written st fd n :
  reachable st → accepts_writes → get_node_by_clientfd (clients (config (l_world st))) fd = Some n →
  state (n_data n) = CLIENT_SOCKET_STATE_WRITING →
  ∃ w', writes fd (l_world st) (rest (n_data n)) w'.
Proof.
  intros (s & Hw & _)%reachable_inv Ha Hn Hst. apply writes_all; try done.
  - rewrite (inv_clients _ _ _ Hw). apply Hw.
  - apply list_find_node_Some in Hn as [Hn _].
    by destruct (Forall_in _ _ _ (inv_client _ _ _ Hw) Hn) as [_ _ _ [] _ _ _].
Qed.

(** ** Accepting *)

(** The greeting of the server. *)
Definition greeting : bytes :=
  unlines [DEFAULT_MSG_OK; bs "version:" ++ MYGPIO_VERSION; DEFAULT_MSG_END].

(** A client that was just accepted. *)
Definition welcomed (cfd : Z) (d : t_client_data) : Prop :=
  client_fd d = cfd ∧ state d = CLIENT_SOCKET_STATE_WRITING ∧ events d = POLLOUT ∧
  bytes_out d = 0 ∧ buf_out d = greeting ∧ buf_in d = [] ∧ waiting_events d = [].

Lemma accept_run s w server_fd cfd k flags k1 rc k2 :
  inv None s w → accept server_fd (kern w) = (cfd, k) →
  fcntl cfd F_GETFD 0 k = (flags, k1) →
  fcntl cfd F_SETFD (Z.lor (Z.lor flags O_NONBLOCK) O_CLOEXEC) k1 = (rc, k2) →
  let cls := clients (config w) in
  ∃ ok w', server_client_connection_accept server_fd w = Done (ok, w') ∧
    (ok = true ↔ 0 ≤ cfd ∧ Z.of_nat (length cls) < CLIENT_CONNECTIONS_MAX ∧ rc = 0) ∧
    (ok = false → config w' = config w ∧
       (0 ≤ cfd → kern w' = close cfd (if Z.of_nat (length cls) =? CLIENT_CONNECTIONS_MAX then k else k2))) ∧
    (ok = true → update_pollfds w' = true ∧
       ∃ n, clients (config w') = cls ++ [n] ∧ n_ptr n ∉ ptrs cls ∧ welcomed cfd (n_data n)).
Proof.
  intros Hw Hacc Hget Hset cls.
  pose proof (inv_limit _ _ _ Hw) as Hlim. rewrite <- (inv_clients _ _ _ Hw) in Hlim.
  unfold ptrs in Hlim. rewrite length_map in Hlim. fold cls in Hlim.
  assert (Hnd : NoDup (ptrs cls)).
  { unfold cls. rewrite (inv_clients _ _ _ Hw). apply Hw. }
  assert (Hlen : list_length cls = Z.of_nat (length cls)).
  { apply list_length_small. unfold CLIENT_CONNECTIONS_MAX, UINT_MAX in *. lia. }
  unfold server_client_connection_accept.
  erewrite bind_run by (unfold sys; by rewrite Hacc). cbv beta iota.
  destruct (Z.ltb_spec cfd 0) as [Hc|Hc].
  { eexists false, _. split; [reflexivity|]. split; [by split; [|lia]|]. split; [|done]. split; [done|lia]. }
  erewrite bind_run by done. cbv beta. change (clients (config (w <| kern := k |>))) with cls. rewrite Hlen.
  destruct (Z.eqb_spec (Z.of_nat (length cls)) CLIENT_CONNECTIONS_MAX) as [Hl|Hl].
  { eexists false, _. split; [reflexivity|]. split; [by split; [|lia]|]. by split. }
  erewrite bind_run by (unfold sys; simpl; by rewrite Hget).
  erewrite bind_run by (unfold sys; simpl; by rewrite Hset).
  destruct (Z.eqb_spec rc 0) as [Hrc|Hrc]; simpl negb; cbv iota.
  2:{ eexists false, _. split; [reflexivity|]. split; [by split; [|tauto]|]. by split. }
  apply wp_run. apply wp_bind. unfold wp at 1, set_update_pollfds. apply wp_bind, wp_modify, wp_bind, wp_gets.
  set (id := client_id _). cbv zeta. apply wp_bind, wp_modify.
  set (p := fresh_ptr cls). set (d0 := server_client_connection_new cfd).
  set (w2 := _ <| config ::= _ |>).
  assert (Hc2 : clients (config w2) = list_push cls id d0) by done.
  apply wp_bind. unfold wp at 1. rewrite send_run. set (f1 := respond _).
  assert (Hn2 : list_deref (clients (config w2)) p = Some (Node p id d0)).
  { rewrite Hc2. by apply deref_push. }
  set (w3 := _ <| update_pollfds := true |>).
  assert (Hn3 : list_deref (clients (config w3)) p = Some (Node p id (f1 d0))).
  { exact (deref_upd_clients p f1 _ w2 Hn2). }
  apply wp_bind. eapply wp_deref; [exact Hn3|]. apply wp_bind, wp_gets, wp_bind.
  eapply wp_mono; [apply set_timeout_wp|]. intros tfd w4 [(Hc4 & Hr4 & Hs4 & Hu4) _].
  apply wp_bind. unfold wp at 1. rewrite upd_client_run. apply wp_ret.
  set (f2 := λ d, d <| timeout_fd := tfd |>).
  split; [split; [intros _; split_and!; [done|lia|done]|done]|]. split; [done|]. intros _.
  split; [simpl; by rewrite Hu4|]. exists (Node p id (f2 (f1 d0))). split_and!.
  - simpl. rewrite Hc4. simpl. rewrite list_upd_compose. apply (list_upd_push (f2 ∘ f1)).
  - apply fresh_ptr_not_in.
  - unfold welcomed. simpl. split_and!; try done. apply MSG_VERSION_lines.
Qed.

(** C28: Accepting a connection in a reachable state. A failed accept, an
    eleventh client (it is closed) and a socket whose flags cannot be set (it
    is closed) leave the clients as they are; otherwise one client is added
    behind the others, which keep their data: it is at the start of writing
    the greeting with the version, with empty input and no waiting events, and
    the poll table is announced. *)
Theorem accept_spec st server_fd cfd k flags k1 rc k2 :
  reachable st → accept server_fd (kern (l_world st)) = (cfd, k) →
  fcntl cfd F_GETFD 0 k = (flags, k1) →
  fcntl cfd F_SETFD (Z.lor (Z.lor flags O_NONBLOCK) O_CLOEXEC) k1 = (rc, k2) →
  let cls := clients (config (l_world st)) in
  ∃ ok w', server_client_connection_accept server_fd (l_world st) = Done (ok, w') ∧
    (ok = true ↔ 0 ≤ cfd ∧ Z.of_nat (length cls) < CLIENT_CONNECTIONS_MAX ∧ rc = 0) ∧
    (ok = false → config w' = config (l_world st) ∧
       (0 ≤ cfd → kern w' = close cfd (if Z.of_nat (length cls) =? CLIENT_CONNECTIONS_MAX then k else k2))) ∧
    (ok = true → update_pollfds w' = true ∧
       ∃ n, clients (config w') = cls ++ [n] ∧ n_ptr n ∉ ptrs cls ∧ welcomed cfd (n_data n)).
Proof.
  intros (s & Hw & _)%reachable_inv. by apply (accept_run s).
Qed.

(** ** Reading *)

Lemma disconnect_clients s p w rc :
  inv None s w → p ∈ sh_clients s →
  ∃ w', (_ ← server_client_disconnect p; mret rc) w = Done (rc : bool, w') ∧
        clients (config w') = list_del p (clients (config w)) ∧ update_pollfds w' = true.
Proof.
  intros Hw Hp.
  destruct (proj1 (wp_run _ _ _) (disconnect_wp None s p w Hw I Hp)) as (b & w' & Hrun & _ & Hc & Hu).
  exists w'. by erewrite bind_run by exact Hrun.
Qed.

(** Input that does not complete a line, in a reachable state: the end of
    the stream or an error, and a line of 4096 bytes or more, remove the
    client and leave the others alone; anything else is appended to its input
    buffer and changes nothing else of the configuration. *)
Theorem read_incomplete st p n r k :
  reachable st → list_deref (clients (config (l_world st))) p = Some n →
  read_fd (client_fd (n_data n)) BUFFER_SIZE (kern (l_world st)) = (r, k) →
  existsb (ch LF) (default [] r) = false →
  let buf := buf_in (n_data n) ++ default [] r in
  ∃ ok w', server_client_read p (l_world st) = Done (ok, w') ∧
    (ok = false ↔ default [] r = [] ∨ BUFFER_SIZE_INPUT_MAX ≤ Z.of_nat (length buf)) ∧
    (ok = false → clients (config w') = list_del p (clients (config (l_world st))) ∧
                  update_pollfds w' = true) ∧
    (ok = true → config w' = config (w_clients (list_upd p (λ d, d <| buf_in := buf |>)) (l_world st)) ∧
                 kern w' = k).
Proof.
  intros (s & Hw & _)%reachable_inv Hn Hr Hlf buf. set (w := l_world st) in *.
  assert (Hp : p ∈ sh_clients s).
  { rewrite <- (inv_clients _ _ _ Hw). by eapply list_deref_in_ptrs. }
  assert (Hw1 : inv None s (w <| kern := k |>)) by (by eapply inv_frame; [|apply frame_kern]).
  assert (Hnd : NoDup (ptrs (clients (config (w <| kern := k |>))))).
  { rewrite (inv_clients _ _ _ Hw1). apply Hw1. }
  unfold server_client_read. erewrite bind_run by (apply deref_run; exact Hn).
  erewrite bind_run by (unfold sys; by rewrite Hr). cbv beta iota zeta.
  destruct (disconnect_clients s p _ false Hw1 Hp) as (wd & Hd & Hcd & Hud).
  assert (Hgone : default [] r = [] → ∃ ok w', (_ ← server_client_disconnect p; mret false) (w <| kern := k |>) = Done (ok, w') ∧
    (ok = false ↔ default [] r = [] ∨ BUFFER_SIZE_INPUT_MAX ≤ Z.of_nat (length buf)) ∧
    (ok = false → clients (config w') = list_del p (clients (config w)) ∧ update_pollfds w' = true) ∧
    (ok = true → config w' = config (w_clients (list_upd p (λ d, d <| buf_in := buf |>)) w) ∧ kern w' = k)).
  { intros E. exists false, wd. split; [exact Hd|]. split; [by split; [left|]|]. done. }
  destruct r as [[|c r]|]; [by apply Hgone| |by apply Hgone]. clear Hgone.
  change (default [] (Some (c :: r))) with (c :: r) in *.
  assert (Hbl : one_line (buf_in (n_data n)) ∧ existsb (ch LF) buf = false).
  { pose proof Hn as [Hin _]%list_deref_Some.
    destruct (Forall_in _ _ _ (inv_client _ _ _ Hw) Hin) as [_ _ _ _ _ Hl _]. split; [done|].
    unfold buf. rewrite existsb_app, Hlf, orb_false_r.
    apply one_line_Forall in Hl. apply not_true_is_false. intros (x & Hx & Hc)%existsb_exists.
    apply list_elem_of_In in Hx. apply (proj1 (Forall_forall _ _) Hl) in Hx.
    apply ch_true in Hc. by subst x. }
  destruct Hbl as [_ Hlb]. fold buf. erewrite bind_run by apply upd_client_run. cbv beta.
  change (buf_in (n_data n) ++ c :: r) with buf. rewrite Hlb.
  destruct (Z.leb_spec BUFFER_SIZE_INPUT_MAX (Z.of_nat (length buf))) as [Hlen|Hlen].
  - exists false, wd. split.
    + unfold mbind, M_bind in *. by rewrite (disconnect_upd p _ n).
    + split; [by split; [right|]|]. done.
  - exists true. eexists. split; [reflexivity|]. split; [|done].
    split; [done|]. intros [|]; [done|lia].
Qed.

(** The expiry of a timeout in a reachable state removes the first client
    that has it, with its waiting events, and no other. *)
Theorem timeout_disconnects st fd n :
  reachable st → get_node_by_timeoutfd (clients (config (l_world st))) fd = Some n →
  ∃ w', server_client_timeout fd (l_world st) = Done (true, w') ∧
    clients (config w') = list_del (n_ptr n) (clients (config (l_world st))) ∧
    update_pollfds w' = true.
Proof.
  intros (s & Hw & _)%reachable_inv Hn. unfold server_client_timeout.
  erewrite bind_run by done. cbv beta. rewrite Hn. apply (disconnect_clients s); [done|].
  rewrite <- (inv_clients _ _ _ Hw). apply list_find_node_Some in Hn as [Hn _].
  by apply list_elem_of_fmap_2.
Qed.
End socket.

(** ** Witnesses *)

Lemma sim_accepts_writes : @accepts_writes sim _.
Proof.
  intros fd s k. eexists _, _. split; [reflexivity|]. intros Hs.
  destruct s as [|c s]; [done|]. simpl. lia.
Qed.

(** The client whose greeting is written by halves. *)
Definition sim_greeted : @loop_state sim :=
  default (sim_boot []) (run_iterations (sim_boot []) (take 3 sim_connect)).

Lemma sim_greeted_reachable : reachable sim_greeted.
Proof.
  exists (sim_boot []). split; [apply sim_boot_ok|].
  apply (run_iterations_reach _ (take 3 sim_connect)). vm_compute. reflexivity.
Qed.

Lemma response_written_witness :
  ∃ w', writes 10 (l_world sim_greeted) (bs ":0.9.0" ++ [LF] ++ bs "END" ++ [LF]) w'.
Proof.
  assert (E : rest (n_data (sim_client sim_greeted)) = bs ":0.9.0" ++ [LF] ++ bs "END" ++ [LF])
    by (vm_compute; reflexivity).
  rewrite <- E.
  apply (response_written sim_greeted 10 (sim_client sim_greeted)).
  - apply sim_greeted_reachable.
  - apply sim_accepts_writes.
  - vm_compute. reflexivity.
  - vm_compute. reflexivity.
Defined.

Lemma accept_spec_witness :
  ∃ ok w', server_client_connection_accept 4 (l_world (sim_boot [])) = Done (ok, w') ∧ ok = true ∧
    ∃ n, clients (config w') = [n] ∧ welcomed 10 (n_data n).
Proof.
  destruct (accept_spec (sim_boot []) 4 10 (sim_new_fd (kern (l_world (sim_boot [])))).2
              0 (sim_new_fd (kern (l_world (sim_boot [])))).2
              0 (sim_new_fd (kern (l_world (sim_boot [])))).2)
    as (ok & w' & Hrun & Hok & _ & Hnew).
  - exists (sim_boot []). split; [apply sim_boot_ok|apply rtc_refl].
  - vm_compute. reflexivity.
  - reflexivity.
  - reflexivity.
  - assert (E : ok = true) by (apply Hok; split_and!; vm_compute; congruence).
    destruct (Hnew E) as (_ & n & Hn & _ & Hd). exists ok, w'. split; [exact Hrun|].
    split; [exact E|]. exists n. split; [exact Hn|exact Hd].
Defined.

Lemma read_incomplete_witness :
  ∃ ok w', server_client_read 2 (l_world (sim_session [bs "gpioset 4 act"] [])) = Done (ok, w') ∧
    ok = true.
Proof.
  destruct (read_incomplete (sim_session [bs "gpioset 4 act"] []) 2
      (sim_client (sim_session [bs "gpioset 4 act"] [])) (Some (bs "gpioset 4 act"))
      ((kern (l_world (sim_session [bs "gpioset 4 act"] []))) <| sim_in := [] |>))
    as (ok & w' & Hrun & Hok & _).
  - apply sim_session_reachable.
  - vm_compute. reflexivity.
  - vm_compute. reflexivity.
  - vm_compute. reflexivity.
  - exists ok, w'. split; [exact Hrun|]. destruct ok; [reflexivity|].
    exfalso. destruct (proj1 Hok eq_refl) as [E|E]; vm_compute in E; [discriminate|by apply E].
Defined.

Lemma timeout_disconnects_witness :
  ∃ w', server_client_timeout 11 (l_world (sim_session [] [])) = Done (true, w') ∧
    clients (config w') = [].
Proof.
  destruct (timeout_disconnects (sim_session [] []) 11 (sim_client (sim_session [] [])))
    as (w' & Hrun & Hc & _).
  - apply sim_session_reachable.
  - vm_compute. reflexivity.
  - exists w'. split; [exact Hrun|]. rewrite Hc. vm_compute. reflexivity.
Defined.

(** A client in idle state has no timeout, so that it can wait for events
    forever; but an empty line, which gets no answer and leaves it idle, starts
    the timeout again, and when that expires the idle client is disconnected. *)
Theorem idle_empty_line_disconnects :
  let idle := sim_session [bs "idle" ++ [LF]; [LF]] [[0; 0; 0; POLLIN; 0]] in
  let blank := sim_session [bs "idle" ++ [LF]; [LF]] [[0; 0; 0; POLLIN; 0]; [0; 0; 0; POLLIN]] in
  let late := sim_session [bs "idle" ++ [LF]; [LF]]
                [[0; 0; 0; POLLIN; 0]; [0; 0; 0; POLLIN]; [0; 0; 0; 0; POLLIN]] in
  (state (n_data (sim_client idle)) = CLIENT_SOCKET_STATE_IDLE ∧
   timeout_fd (n_data (sim_client idle)) = -1) ∧
  (state (n_data (sim_client blank)) = CLIENT_SOCKET_STATE_IDLE ∧
   buf_out (n_data (sim_client blank)) = [] ∧ 0 < timeout_fd (n_data (sim_client blank))) ∧
  clients (config (l_world late)) = [].
Proof. vm_compute. done. Qed.
