(* ===== verification/GpioSpec.v ===== *)
(** * What the GPIO operations do

    Setting, toggling and blinking an output on every branch, and the state
    machine of a long press on an input: its timer, its flags, the events that are
    sent and the actions that run. *)

From S2P Require Import Prelude CLib ParseUtil Sds Lists GpioUtil Config Kernel Sim Timer.
From S2P Require Import InputNames Events Gpio Actions GpioEvent Protocol Socket EventLoop.
From S2P Require Import Invariant InvOps InvProtocol InvLoop Daemon.

(** ** Operations that leave the inputs alone

    Only [upd_in] writes to the inputs; no action does. *)

Definition same_in {K A} (m : M K A) : Prop :=
  ∀ w a w', m w = Done (a, w') → gpios_in (config w') = gpios_in (config w).

Section same_in.
Context {K : Type}.

Lemma same_in_ret {A} (a : A) : same_in (K:=K) (mret a).
Proof. by intros w b w' [= _ <-]. Qed.
Lemma same_in_bind {A B} (m : M K A) (f : A → M K B) :
  same_in m → (∀ a, same_in (f a)) → same_in (mbind f m).
Proof.
  intros Hm Hf w b w'. unfold mbind, M_bind. destruct (m w) as [[a w1]|] eqn:E; [|done].
  intros Hb. rewrite (Hf _ _ _ _ Hb). by eapply Hm.
Qed.
Lemma same_in_gets {A} (f : t_config → A) : same_in (K:=K) (gets f).
Proof. by intros w b w' [= _ <-]. Qed.
Lemma same_in_ask {A} (f : K → A) : same_in (ask f).
Proof. by intros w b w' [= _ <-]. Qed.
Lemma same_in_sys {A} (f : K → A * K) : same_in (sys f).
Proof. intros w b w'. unfold sys. destruct (f (kern w)). by intros [= _ <-]. Qed.
Lemma same_in_sys_ (f : K → K) : same_in (sys_ f).
Proof. by intros w b w' [= _ <-]. Qed.
Lemma same_in_update : same_in (K:=K) set_update_pollfds.
Proof. by intros w b w' [= _ <-]. Qed.
Lemma same_in_stop {A} e : same_in (K:=K) (A:=A) (stop e).
Proof. by intros w b w'. Qed.
Lemma same_in_undefined {A} : same_in (K:=K) (A:=A) undefined.
Proof. apply same_in_stop. Qed.
Lemma same_in_modify f : (∀ c, gpios_in (f c) = gpios_in c) → same_in (K:=K) (modify f).
Proof. intros Hf w b w' [= _ <-]. apply Hf. Qed.
Lemma same_in_deref {A} (l : t_config → t_list A) p : same_in (K:=K) (deref l p).
Proof. intros w b w'. unfold deref. destruct (list_deref _ _); [|done]. by intros [= _ <-]. Qed.
Lemma same_in_for_each {A} (xs : list A) (body : A → M K unit) :
  (∀ x, same_in (body x)) → same_in (for_each xs body).
Proof.
  intros Hb. induction xs as [|x xs IH]; simpl; [apply same_in_ret|]. by apply same_in_bind.
Qed.
Lemma same_in_set_resume p b : same_in (K:=K) (set_resume_buffer p b).
Proof. intros w u w'. unfold set_resume_buffer. destruct (_ !! _); [|done]. by intros [= _ <-]. Qed.
Lemma same_in_MHD_resume `{Kernel K} p : same_in (K:=K) (MHD_resume_request p).
Proof. intros w u w'. unfold MHD_resume_request. destruct (_ !! _); [|done]. by intros [= _ <-]. Qed.
End same_in.

Create HintDb same_in discriminated.
#[export] Hint Resolve same_in_ret same_in_gets same_in_ask same_in_sys same_in_sys_ same_in_update
  same_in_undefined same_in_deref same_in_set_resume same_in_MHD_resume : same_in.

Ltac same_in_step :=
  lazymatch goal with
  | |- same_in (mbind _ _) => apply same_in_bind; [|intros ?]
  | |- same_in (modify _) => apply same_in_modify; by intros ?
  | |- same_in (for_each _ _) => apply same_in_for_each; intros ?
  | |- same_in (match ?x with _ => _ end) => destruct x
  | |- same_in (let _ := _ in _) => cbv zeta
  end.
Ltac same_in := repeat (first [solve [eauto 2 with same_in] | same_in_step]).

Section effects.
Context `{Kernel K} `{Build}.

Lemma same_in_close_fd fd : same_in (K:=K) (close_fd fd).
Proof. unfold close_fd. same_in. Qed.
Hint Resolve same_in_close_fd : same_in.

Lemma same_in_timer_set fd a b : same_in (K:=K) (timer_set fd a b).
Proof. unfold timer_set. same_in. Qed.
Hint Resolve same_in_timer_set : same_in.
Lemma same_in_timer_new a b : same_in (K:=K) (timer_new a b).
Proof. unfold timer_new. same_in. Qed.
Hint Resolve same_in_timer_new : same_in.

Lemma same_in_send_idle_events p b : same_in (K:=K) (send_idle_events p b).
Proof.
  unfold send_idle_events, send_idle_event, server_response_start, server_response_append,
    server_response_end, upd_client. same_in.
Qed.
Hint Resolve same_in_send_idle_events : same_in.

Lemma same_in_enqueue_gpio g t ts : same_in (K:=K) (event_enqueue_gpio g t ts).
Proof.
  unfold event_enqueue_gpio, event_enqueue_client, http_connection_resume_gpio, upd_client. same_in.
Qed.
Hint Resolve same_in_enqueue_gpio : same_in.

Lemma same_in_timestamp c : same_in (K:=K) (get_timestamp_ns c).
Proof. unfold get_timestamp_ns. same_in. Qed.
Hint Resolve same_in_timestamp : same_in.
Lemma same_in_get_value g : same_in (K:=K) (gpio_get_value g).
Proof. unfold gpio_get_value. same_in. Qed.
Hint Resolve same_in_get_value : same_in.
Lemma same_in_set_request r g v : same_in (K:=K) (gpio_set_value_by_line_request r g v).
Proof. unfold gpio_set_value_by_line_request. same_in. Qed.
Hint Resolve same_in_set_request : same_in.
Lemma same_in_toggle_request r g : same_in (K:=K) (gpio_toggle_value_by_line_request r g).
Proof. unfold gpio_toggle_value_by_line_request. same_in. Qed.
Hint Resolve same_in_toggle_request : same_in.
Lemma same_in_gpio_set g v : same_in (K:=K) (gpio_set_value g v).
Proof. unfold gpio_set_value, close_out_timer, upd_out. same_in. Qed.
Lemma same_in_gpio_toggle g : same_in (K:=K) (gpio_toggle_value g).
Proof. unfold gpio_toggle_value, close_out_timer, upd_out. same_in. Qed.
Lemma same_in_gpio_blink g a b : same_in (K:=K) (gpio_blink g a b).
Proof. unfold gpio_blink, upd_out. same_in. Qed.
Hint Resolve same_in_gpio_set same_in_gpio_toggle same_in_gpio_blink : same_in.

Lemma same_in_system c : same_in (K:=K) (action_system_async c).
Proof. unfold action_system_async. same_in. Qed.
Lemma same_in_http m u c d : same_in (K:=K) (action_http2_async m u c d).
Proof. unfold action_http2_async. same_in. Qed.
Hint Resolve same_in_system same_in_http : same_in.
Lemma same_in_mympd u p s : same_in (K:=K) (action_mympd2_async u p s).
Proof. apply same_in_http. Qed.
Lemma same_in_mpc a : same_in (K:=K) (action_mpc a).
Proof. unfold action_mpc, mpc_check_conn, mpc_connect, mpc_disconnect. same_in. Qed.
Hint Resolve same_in_mympd same_in_mpc : same_in.

Lemma same_in_lua_dispatch f args : same_in (K:=K) (lua_dispatch f args).
Proof.
  destruct f; simpl; unfold lua_gpio_blink, lua_gpio_get, lua_gpio_set, lua_gpio_toggle,
    lua_input_ev_get, lua_system_async, lua_mpc_sync, lua_mympd_async, lua_http_async; same_in.
Qed.
Lemma same_in_lua_exec protected r : same_in (K:=K) (lua_exec protected r).
Proof.
  induction r as [f|f args k IH|how]; simpl; [apply same_in_sys_| |].
  - apply same_in_bind; [apply same_in_lua_dispatch|done].
  - destruct (_ && _); [apply same_in_ret|apply same_in_stop].
Qed.
Hint Resolve same_in_lua_exec : same_in.

Lemma same_in_action_execute a : same_in (K:=K) (action_execute a).
Proof.
  unfold action_execute, action_gpioset, action_gpiotoggle, action_gpioblink, action_http_async,
    action_mympd_async, action_lua_sync, action_lua_async, lua_async_load_source,
    lua_async_load_bytecode, upd_script. same_in.
Qed.
Lemma same_in_actions_execute l : same_in (K:=K) (actions_execute l).
Proof. apply same_in_for_each. intros x. apply same_in_action_execute. Qed.
End effects.

#[export] Hint Resolve same_in_close_fd same_in_timer_set same_in_timer_new same_in_enqueue_gpio
  same_in_timestamp same_in_get_value same_in_actions_execute : same_in.

(** ** The long press *)

Section press.
Context `{Kernel K} `{Build} `{BL : !BuildLaws} `{KL : !KernelLaws K}.
Implicit Types (w : world K) (p : positive) (st : @loop_state K) (s : shape).
Implicit Types (n : node t_gpio_in_data).

(** The value read for the GPIO [gpio]. *)
Definition line_value (gpio : Z) (v : gpiod_line_value) : Prop :=
  ∃ r k, v = (gpiod_line_request_get_value r gpio k).1.

Lemma node_by_id_is_Some {A} (l : t_list A) (n : node A) : n ∈ l → is_Some (list_node_by_id l (n_id n)).
Proof.
  intros Hn. destruct (list_node_by_id l (n_id n)) eqn:E; [done|].
  apply (list_find_node_None _ _ E) in Hn. by rewrite Z.eqb_refl in Hn.
Qed.

Lemma get_value_run gpio w :
  is_Some (list_node_by_id (gpios_in (config w)) gpio) →
  ∃ v k, gpio_get_value gpio w = Done (v, w <| kern := k |>) ∧ line_value gpio v.
Proof.
  intros [n Hn]. unfold gpio_get_value. erewrite bind_run by done. cbv beta. rewrite Hn. unfold sys.
  destruct (gpiod_line_request_get_value (in_request (n_data n)) gpio (kern w)) as [v k] eqn:E.
  exists v, k. split; [done|]. exists (in_request (n_data n)), (kern w). by rewrite E.
Qed.

(** Timers can be created and set. *)
Definition timers_work : Prop :=
  timers_available ∧ ∀ fd its k, (timerfd_settime fd its k).1 = 0.

Lemma timer_new_run a b w :
  ∃ fd w', timer_new a b w = Done (fd, w') ∧ config w' = config w ∧ (timers_work → 0 ≤ fd).
Proof.
  apply wp_run. apply wp_bind, wp_sys. intros fd k Hk. destruct (Z.eqb_spec fd (-1)) as [-> |Hne].
  - apply wp_ret. split; [done|]. intros [Ha _]. specialize (Ha (kern w)). by rewrite Hk in Ha.
  - apply wp_bind. unfold timer_set. apply wp_bind, wp_sys. intros rc k' Hk'.
    destruct (Z.eqb_spec rc (-1)) as [-> |Hrc].
    + apply wp_bind. eapply wp_mono; [apply close_fd_wp|]. intros fd' w' ([Hf _] & _). apply wp_ret. simpl.
      apply wp_ret. split; [by rewrite Hf|]. intros [_ Hs]. specialize (Hs fd (timer_spec a b)). simpl in Hk'.
      specialize (Hs k). by rewrite Hk' in Hs.
    + apply wp_ret. simpl. apply wp_bind. unfold wp at 1, set_update_pollfds. apply wp_ret.
      split; [done|]. intros [Ha _]. specialize (Ha (kern w)). by rewrite Hk in Ha.
Qed.

(** Writing to the input at [p]. *)
Definition in_upd p f w : world K := w <| config ::= λ c, c <| gpios_in ::= list_upd p f |> |>.

Lemma deref_in_upd p f n w :
  list_deref (gpios_in (config w)) p = Some n →
  list_deref (gpios_in (config (in_upd p f w))) p = Some (n <| n_data ::= f |>).
Proof. intros Hn. simpl. rewrite list_deref_upd, Hn. simpl. by rewrite Pos.eqb_refl. Qed.

Lemma in_upd_same p f n w :
  NoDup (ptrs (gpios_in (config w))) → list_deref (gpios_in (config w)) p = Some n →
  f (n_data n) = n_data n → in_upd p f w = w.
Proof.
  intros Hnd Hn Hf. destruct w as [[] ? ? ? ?]. unfold in_upd, set_field. simpl in *. f_equal. f_equal.
  rewrite <- (list_upd_id p gpios_in) at 2. by eapply list_upd_ext; [exact Hnd|exact Hn|].
Qed.

(** The world after the timer of the input [n] is closed. *)
Definition in_timer_stopped n w : world K :=
  let fd := in_timer_fd (n_data n) in
  if -1 <? fd
  then in_upd (n_ptr n) (λ d, d <| in_timer_fd := -1 |>)
         (w <| kern ::= close fd |> <| update_pollfds := true |>)
  else w.

Lemma delay_abort_run n m w :
  NoDup (ptrs (gpios_in (config w))) → list_deref (gpios_in (config w)) (n_ptr n) = Some m →
  in_timer_fd (n_data m) = in_timer_fd (n_data n) →
  gpio_action_delay_abort (n_ptr n) w = Done (tt, in_timer_stopped n w).
Proof.
  intros Hnd Hm Hfd. unfold gpio_action_delay_abort, in_timer_stopped.
  erewrite bind_run by (by apply deref_run). rewrite Hfd. unfold close_fd.
  destruct (-1 <? in_timer_fd (n_data n)) eqn:E; [done|]. erewrite bind_run by done.
  unfold upd_in, modify. f_equal. f_equal. apply (in_upd_same _ _ _ _ Hnd Hm).
  rewrite <- Hfd. by destruct (n_data m).
Qed.

(** The edge that a long press starts with. *)
Definition armed (et : gpiod_edge_event_type) (d : t_gpio_in_data) : Prop :=
  ignore_event d = false ∧ 0 < long_press_timeout_ms d ∧
  long_press_event d = match et with
                       | GPIOD_EDGE_EVENT_FALLING_EDGE => GPIOD_LINE_EDGE_FALLING
                       | GPIOD_EDGE_EVENT_RISING_EDGE => GPIOD_LINE_EDGE_RISING
                       end.

#[export] Instance armed_dec et d : Decision (armed et d).
Proof. apply _. Defined.

(** The event and the actions of an edge: an edge that is ignored is the
    release after a long press. The actions of another edge are executed when
    the length of their list is not zero. *)
Definition edge_event_type (d : t_gpio_in_data) (et : gpiod_edge_event_type) : mygpiod_event_types :=
  if ignore_event d then MYGPIOD_EVENT_GPIO_LONG_PRESS_RELEASE
  else match et with
       | GPIOD_EDGE_EVENT_FALLING_EDGE => MYGPIOD_EVENT_GPIO_FALLING
       | GPIOD_EDGE_EVENT_RISING_EDGE => MYGPIOD_EVENT_GPIO_RISING
       end.

Definition unless_empty (l : t_list t_action) : t_list t_action :=
  if 0 <? list_length l then l else [].

Definition edge_actions (d : t_gpio_in_data) (et : gpiod_edge_event_type) : t_list t_action :=
  if ignore_event d then long_press_release_action d
  else unless_empty match et with
       | GPIOD_EDGE_EVENT_FALLING_EDGE => action_falling d
       | GPIOD_EDGE_EVENT_RISING_EDGE => action_rising d
       end.

(** A long press begins: the value of the line is read and remembered, and a
    new timer is started. *)
Definition press_started n w w' : Prop :=
  ∃ v k fd w1,
    gpio_get_value (n_id n) w = Done (v, w <| kern := k |>) ∧ line_value (n_id n) v ∧
    timer_new (long_press_timeout_ms (n_data n)) (long_press_interval_ms (n_data n))
      (in_upd (n_ptr n) (λ d, d <| long_press_value := v |>) (w <| kern := k |>)) = Done (fd, w1) ∧
    config w1 = config (in_upd (n_ptr n) (λ d, d <| long_press_value := v |>) w) ∧
    (timers_work → 0 ≤ fd) ∧
    w' = in_upd (n_ptr n) (λ d, d <| in_timer_fd := fd |>) w1.

(** The whole effect of an edge. *)
Definition edge_handled n (event : edge_event (K := K)) w w' : Prop :=
  let d := n_data n in
  let et := gpiod_edge_event_get_event_type event in
  let ts := gpiod_edge_event_get_timestamp_ns event in
  let w1 := in_upd (n_ptr n) (λ d, d <| ignore_event := false |>) (in_timer_stopped n w) in
  ∃ w2 w3,
    event_post (n_id n) (event_data_new_gpio (edge_event_type d et) ts)
      (gpio_json (n_id n) (edge_event_type d et) ts) w1 w2 ∧
    actions_execute (edge_actions d et) w2 = Done (tt, w3) ∧
    gpios_in (config w3) = gpios_in (config w1) ∧
    if bool_decide (armed et d) then press_started n w3 w' else w' = w3.

(** The whole effect of the expiry of the timer of a long press. *)
Definition delay_handled n w w' : Prop :=
  let d := n_data n in
  ∃ v k, gpio_get_value (n_id n) w = Done (v, w <| kern := k |>) ∧ line_value (n_id n) v ∧
    let w1 := w <| kern := k |> in
    if decide (v = long_press_value d) then
      ∃ ts w2 w3 w4,
        get_timestamp_ns (event_clock d) w1 = Done (ts, w2) ∧
        event_post (n_id n) (event_data_new_gpio MYGPIOD_EVENT_GPIO_LONG_PRESS ts)
          (gpio_json (n_id n) MYGPIOD_EVENT_GPIO_LONG_PRESS ts) w2 w3 ∧
        actions_execute (long_press_action d) w3 = Done (tt, w4) ∧
        gpios_in (config w4) = gpios_in (config w) ∧
        let w5 := if decide (event_request d = GPIOD_LINE_EDGE_BOTH)
                  then in_upd (n_ptr n) (λ d, d <| ignore_event := true |>) w4 else w4 in
        w' = if 0 <? long_press_interval_ms d then w5 else in_timer_stopped n w5
    else w' = in_timer_stopped n w1.

(** ** Running the handlers *)

Section run.
Context {PE : Endings} {CE : CallEndings K PE}.

Lemma wp_eq {A B} (m : M K A) (f : A → M K B) Q w a w' :
  m w = Done (a, w') → wp (f a) Q w' → wp (mbind f m) Q w.
Proof. intros Hm Hf. apply wp_bind. unfold wp at 1. by rewrite Hm. Qed.

(** A step that preserves the invariant and leaves the inputs alone. *)
Lemma wp_step {A B} s (m : M K A) (f : A → M K B) Q w :
  inv None s w → keeps (inv None s) m → same_in m →
  (∀ a w', m w = Done (a, w') → inv None s w' → gpios_in (config w') = gpios_in (config w) →
     wp (f a) Q w') →
  wp (mbind f m) Q w.
Proof.
  intros Hw Hm Hs Hf. apply wp_bind. pose proof (Hm w Hw) as Hw'. unfold wp in Hw' |- * at 1.
  destruct (m w) as [[a w']|e] eqn:E; [|done]. apply Hf; [done|done|by eapply Hs].
Qed.

Lemma wp_step_last {A} s (m : M K A) Q w :
  inv None s w → keeps (inv None s) m → same_in m →
  (∀ a w', m w = Done (a, w') → inv None s w' → gpios_in (config w') = gpios_in (config w) → Q a w') →
  wp m Q w.
Proof.
  intros Hw Hm Hs HQ. pose proof (Hm w Hw) as Hw'. unfold wp in *.
  destruct (m w) as [[a w']|e] eqn:E; [|done]. apply HQ; [done|done|by eapply Hs].
Qed.

Lemma event_wp {B} s gpio t ts (f : unit → M K B) Q w :
  inv None s w → t ≠ MYGPIOD_EVENT_INPUT →
  (∀ w', event_post gpio (event_data_new_gpio t ts) (gpio_json gpio t ts) w w' → inv None s w' →
     gpios_in (config w') = gpios_in (config w) → wp (f tt) Q w') →
  wp (mbind f (event_enqueue_gpio gpio t ts)) Q w.
Proof.
  intros Hw Ht Hf. apply wp_bind.
  eapply wp_mono; [apply event_enqueue_gpio_wp; [done|by eapply inv_enqueue_pre]|].
  intros [] w' Hpost. apply Hf; [done| |by rewrite (proj1 Hpost)].
  eapply event_post_inv; [done| |exact Hpost]. by intros ?.
Qed.

Lemma inv_in_nodup s w : inv None s w → NoDup (ptrs (gpios_in (config w))).
Proof. intros Hw. rewrite (inv_in _ _ _ Hw). apply Hw. Qed.

Lemma inv_in_upd s p f w :
  inv None s w → (∀ d, in_name (f d) = in_name d) → (∀ d, in_timer_fd (f d) = in_timer_fd d) →
  inv None s (in_upd p f w).
Proof. intros Hw Hn Ht. exact (upd_in_wp None s p f w Hw Hn (λ _, or_intror (λ n _, Ht _))). Qed.

Lemma inv_timer_stopped s n w : inv None s w → inv None s (in_timer_stopped n w).
Proof.
  intros Hw. unfold in_timer_stopped. destruct (-1 <? _); [|done].
  set (w1 := w <| kern ::= close _ |> <| update_pollfds := true |>).
  assert (Hw1 : inv None s w1) by (eapply inv_frame; [exact Hw|by split]).
  apply (upd_in_wp None s _ (λ d, d <| in_timer_fd := -1 |>) w1 Hw1); [done|by left].
Qed.

Definition with_fd n (fd : Z) : node t_gpio_in_data := n <| n_data ::= λ d, d <| in_timer_fd := fd |> |>.

Lemma deref_timer_stopped n w :
  list_deref (gpios_in (config w)) (n_ptr n) = Some n →
  ∃ fd, fd < 0 ∧ list_deref (gpios_in (config (in_timer_stopped n w))) (n_ptr n) = Some (with_fd n fd).
Proof.
  intros Hn. unfold in_timer_stopped. destruct (-1 <? in_timer_fd (n_data n)) eqn:E; zbool.
  - exists (-1). split; [done|]. by apply (deref_in_upd _ _ n).
  - exists (in_timer_fd (n_data n)). split; [lia|]. rewrite Hn. f_equal. by destruct n as [? ? []].
Qed.

(** The long press part of both edges. *)
Lemma long_press_wp n fd0 et edge w :
  list_deref (gpios_in (config w)) (n_ptr n) = Some (with_fd n fd0) → fd0 < 0 →
  ignore_event (n_data n) = false →
  edge = match et with GPIOD_EDGE_EVENT_FALLING_EDGE => GPIOD_LINE_EDGE_FALLING
         | GPIOD_EDGE_EVENT_RISING_EDGE => GPIOD_LINE_EDGE_RISING end →
  wp (gpio_action_long_press (n_id n) (n_ptr n) edge) (λ _ w',
    if bool_decide (armed et (n_data n)) then press_started n w w' else w' = w) w.
Proof.
  intros Hm Hfd Hign ->. eapply wp_eq; [by apply deref_run|]. simpl.
  assert (Hid : is_Some (list_node_by_id (gpios_in (config w)) (n_id n))).
  { apply list_deref_Some in Hm as [Hm _]. by apply (node_by_id_is_Some _ (with_fd n fd0)). }
  destruct (decide (long_press_event (n_data n) = _)) as [He|He].
  2:{ apply wp_ret. rewrite bool_decide_false; [done|]. by intros (_ & _ & ?). }
  destruct (0 <? long_press_timeout_ms (n_data n)) eqn:Ht; zbool.
  2:{ apply wp_ret. rewrite bool_decide_false; [done|]. intros (_ & ? & _). lia. }
  rewrite bool_decide_true by (by split_and!).
  destruct (get_value_run (n_id n) w Hid) as (v & k & Hget & Hv). eapply wp_eq; [exact Hget|].
  set (w1 := w <| kern := k |>). eapply (wp_eq _ _ _ _ tt (in_upd (n_ptr n) (λ d, d <| long_press_value := v |>) w1)); [done|].
  assert (Hd1 : list_deref (gpios_in (config w1)) (n_ptr n) = Some (with_fd n fd0)) by done.
  apply (deref_in_upd _ (λ d, d <| long_press_value := v |>)) in Hd1.
  eapply wp_eq; [by apply deref_run|]. simpl.
  replace (0 <? fd0) with false by (symmetry; apply Z.ltb_ge; lia).
  eapply (wp_eq _ _ _ _ false); [done|]. cbv beta iota.
  destruct (timer_new_run (long_press_timeout_ms (n_data n)) (long_press_interval_ms (n_data n))
    (in_upd (n_ptr n) (λ d, d <| long_press_value := v |>) w1)) as (fd & w2 & Hrun & Hc & Htw).
  eapply wp_eq; [exact Hrun|]. unfold wp, upd_in, modify. exists v, k, fd, w2. by split_and!.
Qed.

Lemma maybe_actions (l : t_list t_action) w :
  (if 0 <? list_length l then actions_execute l else mret tt) w = actions_execute (unless_empty l) w.
Proof. unfold unless_empty. by destruct (0 <? _). Qed.

(** An edge that is not ignored: event, actions, long press. *)
Lemma edge_actions_wp s n fd ts et (acts : t_gpio_in_data → t_list t_action) t edge w :
  inv None s w → list_deref (gpios_in (config w)) (n_ptr n) = Some (with_fd n fd) → fd < 0 →
  ignore_event (n_data n) = false → t ≠ MYGPIOD_EVENT_INPUT →
  acts (n_data (with_fd n fd)) = acts (n_data n) →
  edge = match et with GPIOD_EDGE_EVENT_FALLING_EDGE => GPIOD_LINE_EDGE_FALLING
         | GPIOD_EDGE_EVENT_RISING_EDGE => GPIOD_LINE_EDGE_RISING end →
  wp (_ ← event_enqueue_gpio (n_id n) t ts;
      data ← deref gpios_in (n_ptr n);
      _ ← (if 0 <? list_length (acts data) then actions_execute (acts data) else mret tt);
      gpio_action_long_press (n_id n) (n_ptr n) edge) (λ _ w', ∃ w2 w3,
    event_post (n_id n) (event_data_new_gpio t ts) (gpio_json (n_id n) t ts) w w2 ∧
    actions_execute (unless_empty (acts (n_data n))) w2 = Done (tt, w3) ∧
    gpios_in (config w3) = gpios_in (config w) ∧
    if bool_decide (armed et (n_data n)) then press_started n w3 w' else w' = w3) w.
Proof.
  intros Hw Hm Hfd Hign Ht Hacts Hedge. eapply event_wp; [done|done|]. intros w2 Hpost Hw2 HG2.
  eapply wp_eq; [apply deref_run; by rewrite HG2|]. rewrite Hacts.
  eapply (wp_step s); [done| | |].
  { destruct (0 <? _); [apply keeps_actions_execute|apply keeps_ret]. }
  { destruct (0 <? _); [apply same_in_actions_execute|apply same_in_ret]. }
  intros [] w3 Hrun _ HG3. rewrite maybe_actions in Hrun.
  eapply wp_mono; [eapply (long_press_wp n fd et)|]; [by rewrite HG3, HG2|done..|].
  intros ? w' Hw'. exists w2, w3. split_and!; [done|done|congruence|done].
Qed.

Lemma edge_wp s n event w :
  inv None s w → list_deref (gpios_in (config w)) (n_ptr n) = Some n →
  wp (gpio_handle_edge_event n (Some event)) (λ _, edge_handled n event w) w.
Proof.
  intros Hw Hn. simpl. set (et := gpiod_edge_event_get_event_type event).
  set (ts := gpiod_edge_event_get_timestamp_ns event).
  eapply wp_eq; [by apply (delay_abort_run n n); [eapply inv_in_nodup| |]|].
  destruct (deref_timer_stopped n w Hn) as (fd & Hfd & Hm).
  pose proof (inv_timer_stopped s n w Hw) as Hw0. set (w0 := in_timer_stopped n w) in *.
  unfold edge_handled. fold et ts w0. cbv zeta. eapply wp_eq; [by apply deref_run|].
  unfold edge_event_type, edge_actions. change (ignore_event (n_data (with_fd n fd))) with (ignore_event (n_data n)).
  destruct (ignore_event (n_data n)) eqn:Hign.
  - set (w1 := in_upd (n_ptr n) (λ d, d <| ignore_event := false |>) w0).
    assert (Hw1 : inv None s w1) by by apply inv_in_upd.
    eapply (wp_eq _ _ _ _ tt w1); [done|].
    eapply event_wp; [exact Hw1|done|]. intros w2 Hpost Hw2 HG2.
    eapply wp_eq; [apply deref_run; rewrite HG2; by apply deref_in_upd|]. simpl.
    apply (wp_step_last s); [done|apply keeps_actions_execute|apply same_in_actions_execute|].
    intros [] w3 Hrun _ HG3. exists w2, w3. split_and!; [done|done|exact (eq_trans HG3 HG2)|].
    rewrite bool_decide_false; [done|]. intros [? _]. congruence.
  - rewrite (in_upd_same _ _ (with_fd n fd) w0); [|by eapply inv_in_nodup|done|].
    2:{ rewrite <- Hign. by destruct n as [? ? []]. }
    destruct (decide (et = GPIOD_EDGE_EVENT_FALLING_EDGE)) as [Ee|Ee].
    + rewrite Ee. by apply (edge_actions_wp s n fd _ _ action_falling).
    + destruct et; [|done]. by apply (edge_actions_wp s n fd _ _ action_rising).
Qed.

Lemma delayed_wp s n w :
  inv None s w → list_deref (gpios_in (config w)) (n_ptr n) = Some n →
  wp (gpio_action_execute_delayed (n_id n) (n_ptr n)) (λ _, delay_handled n w) w.
Proof.
  intros Hw Hn. assert (Hid : is_Some (list_node_by_id (gpios_in (config w)) (n_id n))).
  { apply node_by_id_is_Some. by apply list_deref_Some in Hn as []. }
  destruct (get_value_run (n_id n) w Hid) as (v & k & Hget & Hv). eapply wp_eq; [exact Hget|].
  set (w1 := w <| kern := k |>).
  assert (Hw1 : inv None s w1) by (eapply inv_frame; [exact Hw|apply frame_kern]).
  assert (Hn1 : list_deref (gpios_in (config w1)) (n_ptr n) = Some n) by done.
  eapply wp_eq; [by apply deref_run|].
  cut (wp (keep ← (if decide (v = long_press_value (n_data n)) then
            timestamp_ns ← get_timestamp_ns (event_clock (n_data n));
            _ ← event_enqueue_gpio (n_id n) MYGPIOD_EVENT_GPIO_LONG_PRESS timestamp_ns;
            data ← deref gpios_in (n_ptr n);
            _ ← actions_execute (long_press_action data);
            data ← deref gpios_in (n_ptr n);
            _ ← (if decide (event_request data = GPIOD_LINE_EDGE_BOTH)
                 then upd_in (n_ptr n) (λ d, d <| ignore_event := true |>) else mret tt);
            mret (0 <? long_press_interval_ms data)
          else mret false);
          if (keep : bool) then mret tt else gpio_action_delay_abort (n_ptr n)) (λ _ w',
    if decide (v = long_press_value (n_data n)) then
      ∃ ts w2 w3 w4,
        get_timestamp_ns (event_clock (n_data n)) w1 = Done (ts, w2) ∧
        event_post (n_id n) (event_data_new_gpio MYGPIOD_EVENT_GPIO_LONG_PRESS ts)
          (gpio_json (n_id n) MYGPIOD_EVENT_GPIO_LONG_PRESS ts) w2 w3 ∧
        actions_execute (long_press_action (n_data n)) w3 = Done (tt, w4) ∧
        gpios_in (config w4) = gpios_in (config w) ∧
        let w5 := if decide (event_request (n_data n) = GPIOD_LINE_EDGE_BOTH)
                  then in_upd (n_ptr n) (λ d, d <| ignore_event := true |>) w4 else w4 in
        w' = if 0 <? long_press_interval_ms (n_data n) then w5 else in_timer_stopped n w5
    else w' = in_timer_stopped n w1) w1).
  { intros Hwp. eapply wp_mono; [exact Hwp|]. intros ? w' Hw'. by exists v, k. }
  destruct (decide (v = long_press_value (n_data n))) as [Hh|Hh].
  2:{ eapply (wp_eq _ _ _ _ false w1); [done|]. unfold wp. cbv iota.
      by rewrite (delay_abort_run n n) by (by eapply inv_in_nodup || done). }
  apply wp_bind. eapply (wp_step s); [exact Hw1|apply keeps_get_timestamp_ns|apply same_in_timestamp|].
  intros ts w2 Hts Hw2 HG2. eapply event_wp; [exact Hw2|done|]. intros w3 Hpost Hw3 HG3.
  eapply wp_eq; [apply deref_run; by rewrite HG3, HG2|].
  eapply (wp_step s); [exact Hw3|apply keeps_actions_execute|apply same_in_actions_execute|].
  intros [] w4 Hrun Hw4 HG4.
  assert (HG : gpios_in (config w4) = gpios_in (config w)) by (by rewrite HG4, HG3, HG2).
  eapply wp_eq; [apply deref_run; by rewrite HG|].
  set (w5 := if decide (event_request (n_data n) = GPIOD_LINE_EDGE_BOTH)
             then in_upd (n_ptr n) (λ d, d <| ignore_event := true |>) w4 else w4).
  eapply (wp_eq _ _ _ _ tt w5); [unfold w5; by destruct (decide _)|]. apply wp_ret.
  assert (Hw5 : inv None s w5 ∧ ∃ m, list_deref (gpios_in (config w5)) (n_ptr n) = Some m ∧
                  in_timer_fd (n_data m) = in_timer_fd (n_data n)).
  { rewrite <- HG in Hn. unfold w5. destruct (decide _); [|by split; eauto].
    split; [by apply inv_in_upd|]. eexists. split; [by apply deref_in_upd|done]. }
  destruct Hw5 as (Hw5 & m & Hm & Hfd).
  assert (Hgoal : wp (if 0 <? long_press_interval_ms (n_data n) then mret tt else gpio_action_delay_abort (n_ptr n))
    (λ _ w', w' = if 0 <? long_press_interval_ms (n_data n) then w5 else in_timer_stopped n w5) w5).
  { destruct (0 <? _); [done|]. unfold wp. by rewrite (delay_abort_run n m) by (by eapply inv_in_nodup || done). }
  eapply wp_mono; [exact Hgoal|]. intros ? w' Hw'. exists ts, w2, w3, w4. by split_and!.
Qed.
End run.

(** ** What a handler leaves of the inputs *)

(** The three fields that the state machine of a long press writes. *)
Definition press_fields (ign : bool) (fd : Z) (v : gpiod_line_value) (d : t_gpio_in_data)
    : t_gpio_in_data :=
  d <| ignore_event := ign |> <| in_timer_fd := fd |> <| long_press_value := v |>.

Lemma inputs_timer_stopped n w :
  NoDup (ptrs (gpios_in (config w))) → list_deref (gpios_in (config w)) (n_ptr n) = Some n →
  ∃ fd, fd < 0 ∧ gpios_in (config (in_timer_stopped n w))
                 = list_upd (n_ptr n) (λ d, d <| in_timer_fd := fd |>) (gpios_in (config w)).
Proof.
  intros Hnd Hn. unfold in_timer_stopped. destruct (-1 <? in_timer_fd (n_data n)) eqn:E; zbool.
  - by exists (-1).
  - exists (in_timer_fd (n_data n)). split; [lia|]. rewrite <- (list_upd_id (n_ptr n)) at 1.
    eapply list_upd_ext; [exact Hnd|exact Hn|]. by destruct (n_data n).
Qed.

Lemma edge_handled_inputs n event w w' :
  NoDup (ptrs (gpios_in (config w))) → list_deref (gpios_in (config w)) (n_ptr n) = Some n →
  edge_handled n event w w' →
  ∃ fd v,
    gpios_in (config w') = list_upd (n_ptr n) (press_fields false fd v) (gpios_in (config w)) ∧
    if bool_decide (armed (gpiod_edge_event_get_event_type event) (n_data n))
    then (timers_work → 0 ≤ fd) ∧ line_value (n_id n) v
    else fd < 0 ∧ v = long_press_value (n_data n).
Proof.
  intros Hnd Hn (w2 & w3 & _ & _ & HG & Hlast).
  destruct (inputs_timer_stopped n w Hnd Hn) as (fd0 & Hfd0 & HG0). simpl in HG. rewrite HG0 in HG.
  destruct (bool_decide _).
  - destruct Hlast as (v & k & fd & w1 & _ & Hv & _ & Hc & Hfd & ->). exists fd, v. split; [|done].
    simpl. rewrite Hc. simpl. rewrite HG, !list_upd_compose. apply list_upd_ext_all. by intros [].
  - subst w'. exists fd0, (long_press_value (n_data n)). split; [|done]. rewrite HG, list_upd_compose.
    eapply list_upd_ext; [exact Hnd|exact Hn|]. by destruct (n_data n).
Qed.

Lemma reachable_input st n :
  reachable st → n ∈ gpios_in (config (l_world st)) →
  ∃ s, inv None s (l_world st) ∧ NoDup (ptrs (gpios_in (config (l_world st)))) ∧
    list_deref (gpios_in (config (l_world st))) (n_ptr n) = Some n.
Proof.
  intros (s & Hw & _)%reachable_inv Hn. exists s. pose proof (inv_in_nodup s _ Hw) as Hnd.
  split_and!; [done|done|]. by apply list_deref_elem.
Qed.

(** C29: An edge on an input GPIO, in a reachable state and whatever actions
    are configured. A running long press timer of the input is stopped. If the
    input ignores its next edge (a long press came before), the next one counts
    again, the long press release event goes to all clients and suspended
    requests, and the actions for the release are executed. Otherwise the falling
    or rising event is sent and the actions of that edge are executed; then, if
    the edge starts a long press, the value of the line is read and remembered
    and a new timer is started. That is all: no other field of the input and no
    other input changes, and the timer runs exactly in this last case (if timers
    can be created). Only a Lua function that an action calls and that does not
    come back prevents this. *)
Theorem edge_press_state st n event :
  reachable st → n ∈ gpios_in (config (l_world st)) →
  (∃ w', gpio_handle_edge_event n (Some event) (l_world st) = Done (tt, w') ∧
     edge_handled n event (l_world st) w' ∧
     ∃ fd v,
       gpios_in (config w')
       = list_upd (n_ptr n) (press_fields false fd v) (gpios_in (config (l_world st))) ∧
       if bool_decide (armed (gpiod_edge_event_get_event_type event) (n_data n))
       then (timers_work → 0 ≤ fd) ∧ line_value (n_id n) v
       else fd < 0 ∧ v = long_press_value (n_data n)) ∨
  ends_with_call (gpio_handle_edge_event n (Some event)) (l_world st).
Proof.
  intros Hst Hn. destruct (reachable_input st n Hst Hn) as (s & Hw & Hnd & Hd).
  pose proof (call_endings_call (K := K) True I).
  pose proof (edge_wp (PE := call_endings True) s n event _ Hw Hd) as Hwp.
  apply wp_call in Hwp as [([] & w' & Hrun & Hh)|[_ ?]]; [left|by right].
  exists w'. split_and!; [done|done|]. by apply edge_handled_inputs.
Qed.

Lemma delay_handled_inputs n w w' :
  NoDup (ptrs (gpios_in (config w))) → list_deref (gpios_in (config w)) (n_ptr n) = Some n →
  delay_handled n w w' →
  ∃ v k, gpio_get_value (n_id n) w = Done (v, w <| kern := k |>) ∧
    let held := bool_decide (v = long_press_value (n_data n)) in
    ∃ fd, gpios_in (config w')
      = list_upd (n_ptr n)
          (press_fields (ignore_event (n_data n) ||
                         (held && bool_decide (event_request (n_data n) = GPIOD_LINE_EDGE_BOTH)))
             fd (long_press_value (n_data n))) (gpios_in (config w)) ∧
      if held && (0 <? long_press_interval_ms (n_data n))
      then fd = in_timer_fd (n_data n) else fd < 0.
Proof.
  intros Hnd Hn (v & k & Hget & _ & Hw'). exists v, k. split; [done|].
  assert (Hstop : ∀ ign (w5 : world K),
    gpios_in (config w5) = list_upd (n_ptr n) (λ d, d <| ignore_event := ign |>) (gpios_in (config w)) →
    ∃ fd, gpios_in (config (in_timer_stopped n w5))
      = list_upd (n_ptr n) (press_fields ign fd (long_press_value (n_data n))) (gpios_in (config w)) ∧ fd < 0).
  { intros ign w5 HG. unfold in_timer_stopped. destruct (-1 <? in_timer_fd (n_data n)) eqn:E; zbool.
    - exists (-1). split; [|done]. simpl. rewrite HG, list_upd_compose.
      eapply list_upd_ext; [exact Hnd|exact Hn|]. by destruct (n_data n).
    - exists (in_timer_fd (n_data n)). split; [|lia]. rewrite HG.
      eapply list_upd_ext; [exact Hnd|exact Hn|]. by destruct (n_data n). }
  assert (Hkeep : ∀ w5 : world K, gpios_in (config w5) = gpios_in (config w) →
    gpios_in (config w5) = list_upd (n_ptr n) (λ d, d <| ignore_event := ignore_event (n_data n) |>) (gpios_in (config w))).
  { intros w5 ->. rewrite <- (list_upd_id (n_ptr n)) at 1. eapply list_upd_ext; [exact Hnd|exact Hn|].
    by destruct (n_data n). }
  cbv zeta in *. destruct (decide (v = long_press_value (n_data n))) as [Hh|Hh].
  2:{ rewrite bool_decide_false, orb_false_r by done. subst w'. by apply Hstop, Hkeep. }
  rewrite bool_decide_true by done. simpl. destruct Hw' as (ts & w2 & w3 & w4 & _ & _ & _ & HG & ->).
  match goal with |- context [if 0 <? _ then ?x else in_timer_stopped n _] => set (w5 := x) end.
  set (ign := ignore_event (n_data n) || _).
  assert (H5 : gpios_in (config w5) = list_upd (n_ptr n) (λ d, d <| ignore_event := ign |>) (gpios_in (config w))).
  { unfold w5, ign. destruct (decide (event_request (n_data n) = GPIOD_LINE_EDGE_BOTH)).
    - rewrite bool_decide_true, orb_true_r by done. simpl. by rewrite HG.
    - rewrite bool_decide_false, orb_false_r by done. by apply Hkeep. }
  destruct (0 <? long_press_interval_ms (n_data n)); [|by apply Hstop].
  exists (in_timer_fd (n_data n)). split; [|done]. rewrite H5.
  eapply list_upd_ext; [exact Hnd|exact Hn|]. by destruct (n_data n).
Qed.

(** C30: The expiry of the long press timer of an input, in a reachable state
    and whatever actions are configured. The value of the line is read. If it is
    still the one that was remembered when the press began, the long press event
    goes to all clients and suspended requests, the actions of the long press are
    executed, the next edge will be ignored if both edges are requested, and the
    timer is stopped unless an interval is set; if the value changed, the timer
    is stopped and nothing else happens. No other field and no other input
    changes. Only a Lua function that an action calls and that does not come
    back prevents this. *)
Theorem delayed_press_state st n :
  reachable st → n ∈ gpios_in (config (l_world st)) →
  (∃ w', gpio_action_execute_delayed (n_id n) (n_ptr n) (l_world st) = Done (tt, w') ∧
     delay_handled n (l_world st) w' ∧
     ∃ v k, gpio_get_value (n_id n) (l_world st) = Done (v, (l_world st) <| kern := k |>) ∧
       let held := bool_decide (v = long_press_value (n_data n)) in
       ∃ fd, gpios_in (config w')
         = list_upd (n_ptr n)
             (press_fields (ignore_event (n_data n) ||
                            (held && bool_decide (event_request (n_data n) = GPIOD_LINE_EDGE_BOTH)))
                fd (long_press_value (n_data n))) (gpios_in (config (l_world st))) ∧
         if held && (0 <? long_press_interval_ms (n_data n))
         then fd = in_timer_fd (n_data n) else fd < 0) ∨
  ends_with_call (gpio_action_execute_delayed (n_id n) (n_ptr n)) (l_world st).
Proof.
  intros Hst Hn. destruct (reachable_input st n Hst Hn) as (s & Hw & Hnd & Hd).
  pose proof (call_endings_call (K := K) True I).
  pose proof (delayed_wp (PE := call_endings True) s n _ Hw Hd) as Hwp.
  apply wp_call in Hwp as [([] & w' & Hrun & Hh)|[_ ?]]; [left|by right].
  exists w'. split_and!; [done|done|]. by apply delay_handled_inputs.
Qed.
End press.

(** ** Setting an output *)

Section setting.
Context `{Kernel K} `{Build} `{BL : !BuildLaws} `{KL : !KernelLaws K}.
Implicit Types (w : world K) (p : positive) (st : @loop_state K).

(** The world after the blink timer of the output [n] is closed. *)
Definition timer_stopped (n : node t_gpio_out_data) w : world K :=
  let fd := out_timer_fd (n_data n) in
  if -1 <? fd then
    w <| kern ::= close fd |> <| update_pollfds := true |>
      <| config ::= λ c, c <| gpios_out ::= list_upd (n_ptr n) (λ d, d <| out_timer_fd := -1 |>) |> |>
  else w.

Lemma close_out_timer_run n w :
  NoDup (ptrs (gpios_out (config w))) → n ∈ gpios_out (config w) →
  close_out_timer (n_ptr n) w = Done (tt, timer_stopped n w).
Proof.
  intros Hnd Hn. unfold close_out_timer, timer_stopped.
  pose proof (list_deref_elem _ _ Hnd Hn) as Hd.
  erewrite bind_run by (apply deref_run; exact Hd). unfold close_fd.
  destruct (-1 <? out_timer_fd (n_data n)) eqn:E; [done|].
  erewrite bind_run by done. unfold upd_out, modify. f_equal. f_equal.
  destruct w as [[] ? ? ?]. unfold set_field. simpl in *. f_equal. f_equal.
  rewrite <- (list_upd_id (n_ptr n) gpios_out) at 2.
  eapply list_upd_ext; [exact Hnd|exact Hd|]. by destruct (n_data n).
Qed.

(** The event of a line that was set. *)
Definition set_event (v : gpiod_line_value) : mygpiod_event_types :=
  if decide (v = GPIOD_LINE_VALUE_ACTIVE) then MYGPIOD_EVENT_GPIO_RISING else MYGPIOD_EVENT_GPIO_FALLING.

(** What setting the line of [request] does: the line gets the value, and all
    who listen are told, with the current time; or nothing but the attempt. *)
Definition line_set (request : option Z) (gpio : Z) (v : gpiod_line_value) w (ok : bool) w' : Prop :=
  let '(rc, k) := gpiod_line_request_set_value request gpio v (kern w) in
  if rc =? 0 then
    ok = true ∧ ∃ sec nsec k', clock_gettime CLOCK_REALTIME k = (Some (sec, nsec), k') ∧
      let ts := u64 (u64 (sec * 1000000000) + u64 nsec) in
      event_post gpio (event_data_new_gpio (set_event v) ts) (gpio_json gpio (set_event v) ts)
        (w <| kern := k' |>) w'
  else ok = false ∧ w' = w <| kern := k |>.

Lemma set_request_spec request gpio v w :
  enqueue_pre w →
  ∃ ok w', gpio_set_value_by_line_request request gpio v w = Done (ok, w') ∧
    line_set request gpio v w ok w'.
Proof.
  intros Hw. apply wp_run. unfold gpio_set_value_by_line_request, line_set.
  apply wp_bind, wp_sys. intros rc k Hrc. rewrite Hrc. destruct (rc =? 0); [|by apply wp_ret].
  apply wp_bind. unfold get_timestamp_ns. apply wp_bind, wp_sys. intros ts k' Hts. simpl in Hts.
  destruct (clock_gettime_realtime k) as [[sec nsec] Hrt]. rewrite Hts in Hrt. simpl in Hrt. subst ts.
  apply wp_ret. apply wp_bind. eapply wp_mono.
  { by apply event_enqueue_gpio_wp; [by destruct (decide _)|]. }
  intros ? w' Hpost. apply wp_ret. split; [done|]. exists sec, nsec, k'. split; [done|]. exact Hpost.
Qed.

Lemma timer_stopped_pre n w : enqueue_pre w → enqueue_pre (timer_stopped n w).
Proof. unfold timer_stopped. by destruct (-1 <? _). Qed.

Lemma gpio_set_value_run gpio v n w :
  enqueue_pre w → NoDup (ptrs (gpios_out (config w))) → list_node_by_id (gpios_out (config w)) gpio = Some n →
  ∃ ok w', gpio_set_value gpio v w = Done (ok, w') ∧ line_set (out_request (n_data n)) gpio v (timer_stopped n w) ok w'.
Proof.
  intros Hpre Hnd E. pose proof E as [Hn _]%list_find_node_Some.
  destruct (set_request_spec (out_request (n_data n)) gpio v (timer_stopped n w))
    as (ok & w' & Hrun & Hset); [by apply timer_stopped_pre|].
  exists ok, w'. split; [|done]. unfold gpio_set_value. erewrite bind_run by done. cbv beta. rewrite E.
  by erewrite bind_run by (by apply close_out_timer_run).
Qed.

(** C31: Setting an output in a reachable state. A GPIO that is not a
    configured output is refused and nothing happens; otherwise its blink
    timer is stopped, the line of its request is set, and when the kernel
    accepts this, a rising (active) or falling event with the current time
    goes to all clients and suspended requests; when it refuses, nobody is
    told and the result is false. *)
Theorem gpio_set_value_spec st gpio v :
  reachable st →
  match list_node_by_id (gpios_out (config (l_world st))) gpio with
  | None => gpio_set_value gpio v (l_world st) = Done (false, l_world st)
  | Some n => ∃ ok w', gpio_set_value gpio v (l_world st) = Done (ok, w') ∧
      line_set (out_request (n_data n)) gpio v (timer_stopped n (l_world st)) ok w'
  end.
Proof.
  intros (s & Hw & _)%reachable_inv. destruct (list_node_by_id _ gpio) as [n|] eqn:E.
  - apply gpio_set_value_run; [by eapply inv_enqueue_pre| |done]. rewrite (inv_out _ _ _ Hw). apply Hw.
  - unfold gpio_set_value. erewrite bind_run by done. cbv beta. by rewrite E.
Qed.

(** The other value; a line whose value cannot be read is set inactive. *)
Definition opposite (v : gpiod_line_value) : gpiod_line_value :=
  match v with
  | GPIOD_LINE_VALUE_INACTIVE => GPIOD_LINE_VALUE_ACTIVE
  | GPIOD_LINE_VALUE_ACTIVE | GPIOD_LINE_VALUE_ERROR => GPIOD_LINE_VALUE_INACTIVE
  end.

Lemma toggle_request_spec request gpio v k w :
  enqueue_pre w → gpiod_line_request_get_value request gpio (kern w) = (v, k) →
  ∃ ok w', gpio_toggle_value_by_line_request request gpio w = Done (ok, w') ∧
    line_set request gpio (opposite v) (w <| kern := k |>) ok w'.
Proof.
  intros Hpre Hv. unfold gpio_toggle_value_by_line_request.
  erewrite bind_run by (unfold sys; by rewrite Hv). cbv beta zeta.
  replace (if decide (v = GPIOD_LINE_VALUE_INACTIVE) then GPIOD_LINE_VALUE_ACTIVE
           else GPIOD_LINE_VALUE_INACTIVE) with (opposite v) by (by destruct v).
  by apply set_request_spec.
Qed.

(** Toggling an output in a reachable state: like setting it to the
    opposite of the value read from its line, after its blink timer is
    stopped. *)
Theorem gpio_toggle_value_spec st gpio :
  reachable st →
  match list_node_by_id (gpios_out (config (l_world st))) gpio with
  | None => gpio_toggle_value gpio (l_world st) = Done (false, l_world st)
  | Some n =>
      let w1 := timer_stopped n (l_world st) in
      let '(v, k) := gpiod_line_request_get_value (out_request (n_data n)) gpio (kern w1) in
      ∃ ok w', gpio_toggle_value gpio (l_world st) = Done (ok, w') ∧
        line_set (out_request (n_data n)) gpio (opposite v) (w1 <| kern := k |>) ok w'
  end.
Proof.
  intros (s & Hw & _)%reachable_inv. unfold gpio_toggle_value.
  destruct (list_node_by_id _ gpio) as [n|] eqn:E.
  2:{ erewrite bind_run by done. cbv beta. by rewrite E. }
  pose proof E as [Hn Hid%Z.eqb_eq]%list_find_node_Some.
  assert (Hnd : NoDup (ptrs (gpios_out (config (l_world st))))).
  { rewrite (inv_out _ _ _ Hw). apply Hw. }
  cbv zeta. destruct (gpiod_line_request_get_value _ _ _) as [v k] eqn:Hv.
  destruct (toggle_request_spec (out_request (n_data n)) gpio v k (timer_stopped n (l_world st)))
    as (ok & w' & Hrun & Hset); [by eapply timer_stopped_pre, inv_enqueue_pre|done|].
  exists ok, w'. split; [|done]. erewrite bind_run by done. cbv beta. rewrite E.
  erewrite bind_run by (by apply close_out_timer_run). by rewrite Hid.
Qed.
End setting.

(** A second "gpioblink" for an output whose timer still runs overwrites
    the descriptor of the first timer without closing it: both descriptors stay
    open, and after "gpioset" stopped the blinking, the first one still is. *)
Theorem gpio_blink_leaks_timer :
  let blink2 := _ ← gpio_blink 4 100 100; gpio_blink 4 200 200 in
  let stop := _ ← blink2; gpio_set_value 4 GPIOD_LINE_VALUE_INACTIVE in
  let timers w := map (λ n, out_timer_fd (n_data n)) (gpios_out (config w)) in
  sim_result stop sim_world = Some true ∧ sim_open (kern sim_world) = [] ∧
  sim_open (kern (sim_run blink2 sim_world)) = [11; 10] ∧ timers (sim_run blink2 sim_world) = [11] ∧
  sim_open (kern (sim_run stop sim_world)) = [10] ∧ timers (sim_run stop sim_world) = [-1].
Proof. vm_compute. done. Qed.

(** ** Witnesses *)

Lemma sim_boot_reachable input : reachable (sim_boot input).
Proof. exists (sim_boot input). split; [apply sim_boot_ok|apply rtc_refl]. Qed.

Definition sim_input : node t_gpio_in_data := Node 1 17 sim_gpio_in.

Lemma sim_input_elem : sim_input ∈ gpios_in (config (l_world (sim_boot []))).
Proof. by left. Qed.

Definition sim_edge : edge_event (K:=sim) := (7, GPIOD_EDGE_EVENT_FALLING_EDGE).

Lemma sim_lua_ends {A} (m : M sim A) w : ends_with_call m w → False.
Proof. intros (how & _ & Hc). apply Hc. by intros vm f args k. Qed.

Lemma edge_press_state_witness :
  ∃ w' fd v, gpio_handle_edge_event sim_input (Some sim_edge)
               (l_world (sim_boot [])) = Done (tt, w') ∧
    edge_handled sim_input sim_edge (l_world (sim_boot [])) w' ∧
    gpios_in (config w') = [Node 1 17 (press_fields false fd v sim_gpio_in)] ∧ 0 ≤ fd.
Proof.
  destruct (edge_press_state (sim_boot []) sim_input sim_edge)
    as [(w' & Hrun & Hh & fd & v & HG & Hfd)|[]%sim_lua_ends].
  - apply sim_boot_reachable.
  - apply sim_input_elem.
  - exists w', fd, v. split; [exact Hrun|]. split; [exact Hh|]. split; [exact HG|].
    apply Hfd. split; [intros k; apply sim_new_fd_pos|done].
Defined.

(** The line still has the value the input remembers. *)
Lemma delayed_press_state_witness :
  ∃ w', gpio_action_execute_delayed 17 1 (l_world (sim_boot [])) = Done (tt, w') ∧
    delay_handled sim_input (l_world (sim_boot [])) w'.
Proof.
  destruct (delayed_press_state (sim_boot []) sim_input) as [(w' & Hrun & Hh & _)|[]%sim_lua_ends].
  - apply sim_boot_reachable.
  - apply sim_input_elem.
  - exists w'. split; [exact Hrun|exact Hh].
Defined.

Lemma gpio_set_value_spec_witness :
  ∃ ok w', gpio_set_value 4 GPIOD_LINE_VALUE_ACTIVE (l_world (sim_boot [])) = Done (ok, w') ∧
    line_set (Some 2) 4 GPIOD_LINE_VALUE_ACTIVE (l_world (sim_boot [])) ok w'.
Proof.
  exact (gpio_set_value_spec (sim_boot []) 4 GPIOD_LINE_VALUE_ACTIVE (sim_boot_reachable [])).
Defined.

Lemma gpio_toggle_value_spec_witness :
  ∃ ok w', gpio_toggle_value 4 (l_world (sim_boot [])) = Done (ok, w') ∧
    line_set (Some 2) 4 GPIOD_LINE_VALUE_ACTIVE (l_world (sim_boot [])) ok w'.
Proof.
  exact (gpio_toggle_value_spec (sim_boot []) 4 (sim_boot_reachable [])).
Defined.
