(* ===== verification/ConfigSpec.v ===== *)
(** * What reading the configuration guarantees

    The loop over the lines of a file ends and keeps invariants; a configuration
    that was read satisfies what the event loop relies on. *)

From S2P Require Import Prelude CLib ParseUtil Sds Lists GpioUtil Config Kernel Sim Timer InputNames.
From S2P Require Import Events Gpio Actions ConfigParse GpioEvent Protocol Socket EventLoop.
From S2P Require Import Invariant InvOps InvProtocol InvLoop Daemon.

(** ** Bounds of the number parsers *)

Lemma parse_finish_bounds r (strict : bool) min max result v rest :
  parse_finish r strict min max result = Some (v, rest) → min ≤ st_value r ≤ max ∧ v = result.
Proof.
  unfold parse_finish. destruct (_ && (_ <=? max)) eqn:E; [|done]. zbool.
  destruct strict; [destruct (st_end r)|]; try done; intros [= <- <-]; done.
Qed.

Lemma parse_int_bounds str (strict : bool) min max v rest :
  mygpio_parse_int str strict min max = Some (v, rest) → min ≤ v ≤ max ∧ is_i32 v.
Proof.
  unfold mygpio_parse_int, is_i32. destruct (parse_guard str) as [s|]; [|done].
  destruct (_ || _) eqn:E; [done|]. zbool. intros [? ->]%parse_finish_bounds. lia.
Qed.

Lemma parse_uint_bounds str (strict : bool) min max v rest :
  mygpio_parse_uint str strict min max = Some (v, rest) → min ≤ v ≤ max.
Proof.
  unfold mygpio_parse_uint. destruct (parse_guard str) as [s|]; [|done].
  destruct (first_is_minus s); [done|]. destruct (_ <? _); [done|].
  by intros [? ->]%parse_finish_bounds.
Qed.

Lemma parse_ulong_bounds str (strict : bool) min max v rest :
  mygpio_parse_ulong str strict min max = Some (v, rest) → is_u32 v.
Proof.
  unfold mygpio_parse_ulong. destruct (parse_guard str) as [s|]; [|done].
  destruct (first_is_minus s); [done|]. intros [_ ->]%parse_finish_bounds. apply u32_range.
Qed.

(** ** Parts of a line are lines *)

Lemma Forall_drop_while {A} (P : A → Prop) (p : A → bool) l : Forall P l → Forall P (drop_while p l).
Proof. induction 1 as [|x l Hx Hl IH]; simpl; [constructor|]. destruct (p x); auto. Qed.

Lemma Forall_take_while {A} (P : A → Prop) (p : A → bool) l : Forall P l → Forall P (take_while p l).
Proof. induction 1 as [|x l Hx Hl IH]; simpl; [constructor|]. destruct (p x); auto. Qed.

Lemma one_line_sdstrim s cset : one_line s → one_line (sdstrim s cset).
Proof.
  rewrite !one_line_Forall. intros Hs. apply Forall_reverse, Forall_drop_while, Forall_reverse.
  by apply Forall_drop_while.
Qed.

Lemma one_line_take n s : one_line s → one_line (take n s).
Proof. rewrite !one_line_Forall. apply Forall_take. Qed.
Lemma one_line_drop n s : one_line s → one_line (drop n s).
Proof. rewrite !one_line_Forall. apply Forall_drop. Qed.

Lemma one_line_splitfirst s sep t : one_line s → t ∈ sds_splitfirst s sep → one_line t.
Proof.
  intros Hs. unfold sds_splitfirst. destruct (drop_while _ s) as [|c r] eqn:E.
  - intros ->%list_elem_of_singleton. by apply one_line_sdstrim.
  - assert (Hr : one_line (c :: r)).
    { rewrite <- E. rewrite one_line_Forall in *. by apply Forall_drop_while. }
    intros [->|Ht]%elem_of_cons.
    + apply one_line_sdstrim, one_line_take_while, Hs.
    + apply list_elem_of_singleton in Ht as ->. apply one_line_sdstrim.
      unfold one_line in *. simpl in Hr. by apply andb_true_iff in Hr as [_ Hr].
Qed.

Lemma one_line_field s v s' : one_line s → field s = (v, s') →
  one_line s' ∧ (∀ x, v = Some x → one_line x).
Proof.
  intros Hs. unfold field, sds_getvalue. destruct (_ =? 0); [intros [= <- <-]; done|].
  intros [= <- <-]. split.
  - destruct (0 <? _)%nat; [|done]. unfold sdsrange, sdssubstr.
    repeat (destruct (_ =? _) || destruct (_ <? _) || destruct (_ <=? _)); try done;
      apply one_line_take, one_line_drop; done.
  - intros x [= <-]. destruct (0 <? _)%nat; [by apply one_line_take|done].
Qed.

Lemma getline_go_one_line i acc fp a eof fp' :
  getline_go i acc fp = (a, eof, fp') → one_line acc → one_line a.
Proof.
  revert acc fp. induction i as [|i IH]; intros acc fp; simpl; [by intros [= <- _ _]|].
  destruct fp as [|c fp]; [by intros [= <- _ _]|].
  destruct (ch c LF) eqn:E; [by intros [= <- _ _]|]. intros Hg Hacc. eapply IH; [exact Hg|].
  apply one_line_app; [done|]. unfold one_line. simpl. by rewrite E.
Qed.

Lemma getline_go_consumes i acc fp a fp' :
  getline_go i acc fp = (a, false, fp') → (0 < i)%nat → (length fp' < length fp)%nat.
Proof.
  revert acc fp. induction i as [|i IH]; intros acc fp; simpl; [lia|].
  destruct fp as [|c fp]; [done|]. destruct (ch c LF); [intros [= _ <-] _; simpl; lia|].
  intros Hg _. destruct (decide (i = 0)%nat) as [-> |Hi].
  - simpl in Hg. injection Hg as _ <-. simpl. lia.
  - apply IH in Hg; [simpl|]; lia.
Qed.

Lemma sds_getline_consumes fp line nread fp' :
  sds_getline fp LINE_LENGTH_MAX = (line, nread, fp') → 0 ≤ nread →
  (length fp' < length fp)%nat ∧ one_line line.
Proof.
  unfold sds_getline. destruct (getline_go LINE_LENGTH_MAX [] fp) as [[a eof] fp1] eqn:E.
  intros [= <- <- <-] Hn. destruct eof; [done|]. split.
  - eapply getline_go_consumes; [exact E|]. unfold LINE_LENGTH_MAX. lia.
  - apply one_line_sdstrim. by eapply getline_go_one_line.
Qed.

(** ** The loop over the lines

    [U] is what holds when the body follows a NULL pointer: [False] shows that
    this never happens and that the fuel is enough, [True] allows it. *)
Lemma config_loop_spec {S} (P : S → Prop) (U : Prop) (body : bytes → bytes → S → option (bool * S)) :
  (∀ key value s, P s → one_line key → one_line value →
     match body key value s with Some (_, s') => P s' | None => U end) →
  ∀ fuel fp s, P s → (length fp < fuel)%nat →
    match config_loop fuel body fp s with Some (_, s') => P s' | None => U end.
Proof.
  intros Hb. induction fuel as [|fuel IH]; intros fp s Hs Hf; [lia|].
  cbn [config_loop]. destruct (sds_getline fp LINE_LENGTH_MAX) as [[line nread] fp'] eqn:E.
  destruct (nread <? 0) eqn:Hn; [done|]. zbool.
  destruct (sds_getline_consumes _ _ _ _ E Hn) as [Hlen Hline].
  assert (Hgo : match config_loop fuel body fp' s with Some (_, s') => P s' | None => U end)
    by (apply IH; [done|lia]).
  destruct line as [|c line]; [done|]. destruct (ch c "#"); [done|].
  destruct (sds_splitfirst (c :: line) "=") as [|key [|value [|? ?]]] eqn:Es; try done.
  assert (Hkv : one_line key ∧ one_line value).
  { split; apply (one_line_splitfirst (c :: line) "="); try done; rewrite Es; [by left|by right; left]. }
  specialize (Hb key value s Hs (proj1 Hkv) (proj2 Hkv)).
  destruct (body key value s) as [[ok s']|]; [|done]. simpl. destruct ok; [|done].
  apply IH; [done|lia].
Qed.

(** ** A configuration that was read *)

Definition timer_ok (d : t_timer_definition) : Prop :=
  0 ≤ start_hour d ≤ 23 ∧ 0 ≤ start_minute d ≤ 59 ∧ 1 ≤ interval d ≤ INT_MAX ∧
  length (weekdays d) = 7%nat ∧ one_line (td_name d) ∧ td_fd d = -1 ∧
  action (td_action d) ≠ MYGPIOD_ACTION_UNKNOWN.

Definition gpio_in_ok (d : t_gpio_in_data) : Prop :=
  0 ≤ long_press_timeout_ms d ≤ TIMEOUT_MS_MAX ∧ 0 ≤ long_press_interval_ms d ≤ TIMEOUT_MS_MAX ∧
  is_u32 (debounce_period_us d) ∧ ignore_event d = false ∧ in_timer_fd d = -1 ∧ gpio_fd d = -1 ∧
  in_request d = None ∧ in_name d = [].

Definition gpio_out_ok (d : t_gpio_out_data) : Prop :=
  out_timer_fd d = -1 ∧ out_request d = None ∧ out_name d = [].

(** A list of nodes at distinct addresses. *)
Definition nodes_ok {A} (P : node A → Prop) (l : t_list A) : Prop := NoDup (ptrs l) ∧ Forall P l.

Definition file_gpio {A} (P : A → Prop) (n : node A) : Prop := 0 ≤ n_id n ≤ 99 ∧ P (n_data n).

Record config_ok (c : t_config) : Prop := {
  ok_clients : clients c = [];
  ok_suspended : http_suspended c = [];
  ok_in : nodes_ok (file_gpio gpio_in_ok) (gpios_in c);
  ok_out : nodes_ok (file_gpio gpio_out_ok) (gpios_out c);
  ok_dev : nodes_ok (λ n, one_line (dev_name (n_data n)) ∧ dev_fd (n_data n) = -1) (input_devices c);
  ok_timers : nodes_ok (λ n, timer_ok (n_data n)) (timer_definitions c);
  ok_hooks : nodes_ok (λ n, action (hook_action (n_data n)) ≠ MYGPIOD_ACTION_UNKNOWN) (hooks c);
  ok_timeout : 10 ≤ socket_timeout_s c ≤ 120;
  ok_port : 1025 ≤ http_port c ≤ 65535;
  ok_socket : Z.of_nat (length (socket_path c)) < 108;
}.

Lemma nodes_ok_push {A} (P : node A → Prop) l id d :
  nodes_ok P l → P (Node (fresh_ptr l) id d) → nodes_ok P (list_push l id d).
Proof.
  intros [Hnd Hl] Hp. split; [by apply NoDup_push|]. apply Forall_app. split; [done|]. by constructor.
Qed.

Lemma action_from_action a v : action (action_from a v) = a.
Proof. unfold action_from. by destruct (decide _). Qed.

Lemma parse_interval_bounds s v : parse_interval s = Some v → 1 ≤ v ≤ INT_MAX.
Proof.
  unfold parse_interval. destruct (mygpio_parse_int _ _ _ _) as [[n unit]|] eqn:E; [|done].
  apply parse_int_bounds in E as [Hn _].
  destruct (interval_unit unit) as [q|] eqn:Eq; [|done]. destruct (_ <? _) eqn:Ed; [done|]. zbool.
  intros [= <-]. assert (Hq : 1 ≤ q).
  { unfold interval_unit in Eq. destruct unit as [|c unit]; [done|].
    repeat (destruct (ch c _); [injection Eq as <-; lia|]). done. }
  pose proof (Z.mul_div_le INT_MAX q ltac:(lia)). nia.
Qed.

Lemma parse_weekday_length c w w' : parse_weekday c w = Some w' → length w' = length w.
Proof.
  unfold parse_weekday.
  repeat (destruct (_ =? _); [intros [= <-]; by rewrite length_insert|]).
  destruct (_ || _); [by intros [= <-]|done].
Qed.

Lemma parse_weekdays_length s w : parse_weekdays s = Some w → length w = 7%nat.
Proof.
  assert (Hgo : ∀ s w w', parse_weekdays_go s w = Some w' → length w' = length w).
  { clear. induction s as [|c s IH]; intros w w'; simpl; [by intros [= <-]|].
    destruct (parse_weekday c w) as [w1|] eqn:E; [|done]. intros Hs.
    rewrite (IH _ _ Hs). by eapply parse_weekday_length. }
  unfold parse_weekdays. destruct s as [|c s]; [by intros [= <-]|].
  destruct (ch c "*"); [by intros [= <-]|]. apply Hgo.
Qed.

Lemma parse_timer_ev_ok l v :
  nodes_ok (λ n, timer_ok (n_data n)) l → one_line v →
  match parse_timer_ev l v with
  | Some (_, l') => nodes_ok (λ n, timer_ok (n_data n)) l'
  | None => True
  end.
Proof.
  intros Hl Hv. unfold parse_timer_ev.
  destruct (field v) as [name v1] eqn:E1. destruct (one_line_field _ _ _ Hv E1) as [_ Hname].
  destruct (field v1) as [hour v2]. destruct (field v2) as [minute v3].
  destruct (field v3) as [intv v4]. destruct (field v4) as [days v5].
  destruct (field v5) as [act v6]. destruct days as [days|]; [|done].
  destruct act as [act|]; [|done]. simpl.
  destruct (mygpio_parse_int hour _ _ _) as [[h ?]|] eqn:Eh; [|done].
  destruct (mygpio_parse_int minute _ _ _) as [[m ?]|] eqn:Em; [|done].
  destruct (parse_interval intv) as [i|] eqn:Ei; [|done].
  destruct (parse_weekdays days) as [w|] eqn:Ew; [|done].
  destruct name as [name|]; [|done].
  destruct (decide _) as [Ha|Ha]; [done|]. apply nodes_ok_push; [done|].
  apply parse_int_bounds in Eh as [Eh _]. apply parse_int_bounds in Em as [Em _].
  apply parse_interval_bounds in Ei. apply parse_weekdays_length in Ew.
  unfold timer_ok. simpl. rewrite action_from_action. specialize (Hname _ eq_refl). tauto.
Qed.

Lemma parse_hook_ok l v :
  nodes_ok (λ n, action (hook_action (n_data n)) ≠ MYGPIOD_ACTION_UNKNOWN) l →
  match parse_hook l v with
  | Some (_, l') => nodes_ok (λ n, action (hook_action (n_data n)) ≠ MYGPIOD_ACTION_UNKNOWN) l'
  | None => True
  end.
Proof.
  intros Hl. unfold parse_hook. destruct (field v) as [name v1]. destruct (field v1) as [act v2].
  destruct act as [act|]; [|done]. simpl. destruct (decide _); [done|].
  apply nodes_ok_push; [done|]. simpl. by rewrite action_from_action.
Qed.

Lemma parse_input_ev_ok `{Build} l v :
  nodes_ok (λ n, one_line (dev_name (n_data n)) ∧ dev_fd (n_data n) = -1) l → one_line v →
  match parse_input_ev l v with
  | Some (_, l') => nodes_ok (λ n, one_line (dev_name (n_data n)) ∧ dev_fd (n_data n) = -1) l'
  | None => True
  end.
Proof.
  intros Hl Hv. unfold parse_input_ev.
  destruct (field v) as [dev v1] eqn:E1. destruct (one_line_field _ _ _ Hv E1) as [_ Hdev].
  destruct (field v1) as [type v2]. destruct (field v2) as [cd v3].
  destruct (field v3) as [val v4]. destruct (field v4) as [act v5].
  destruct type as [type|]; [|done]. simpl. destruct cd as [cd|]; [|done]. simpl.
  destruct (if strcmp0 cd _ then _ else _) as [c cm].
  destruct val as [val|]; [|done]. simpl. destruct (if strcmp0 val _ then _ else _) as [x xm].
  destruct act as [act|]; [|done]. simpl. destruct dev as [dev|]; [|done]. simpl.
  assert (Hl1 : nodes_ok (λ n, one_line (dev_name (n_data n)) ∧ dev_fd (n_data n) = -1)
                  (list_push l 0 (new_device dev))).
  { apply nodes_ok_push; [done|]. split; [by apply Hdev|done]. }
  destruct (input_device_get_by_name l dev) as [n|]; destruct x as [x|]; try done;
    destruct (_ || _); try done.
  all: match goal with H : nodes_ok _ ?l |- nodes_ok _ (list_upd _ _ ?l) =>
    destruct H as [Hnd Hall]; split; [by rewrite ptrs_upd|by apply Forall_upd] end.
Qed.

(** The next comparison with the name of a setting. *)
Ltac key_case :=
  match goal with |- context [if strcmp0 ?key ?k then _ else _] => destruct (strcmp0 key k) end.

Lemma parse_config_file_kv_ok `{Build} key value c :
  config_ok c → one_line value →
  match parse_config_file_kv key value c with
  | Some (_, c') => config_ok c'
  | None => True
  end.
Proof.
  intros Hc Hv. unfold parse_config_file_kv.
  repeat key_case.
  all: try (destruct Hc; by constructor).
  - destruct (mygpio_parse_bool value). destruct Hc; by constructor.
  - destruct (_ <=? _) eqn:E; [done|]. zbool. destruct Hc; by constructor.
  - destruct (mygpio_parse_int _ _ _ _) as [[x ?]|] eqn:E; [|done].
    apply parse_int_bounds in E as [E _]. destruct Hc; by constructor.
  - destruct (mygpio_parse_uint _ _ _ _) as [[x ?]|] eqn:E; [|done].
    apply parse_uint_bounds in E. destruct Hc; by constructor.
  - pose proof (parse_input_ev_ok _ _ (ok_dev _ Hc) Hv) as Hp.
    destruct (parse_input_ev _ _) as [[ok l]|]; simpl; [|done]. destruct Hc; by constructor.
  - pose proof (parse_timer_ev_ok _ _ (ok_timers _ Hc) Hv) as Hp.
    destruct (parse_timer_ev _ _) as [[ok l]|]; simpl; [|done]. destruct Hc; by constructor.
  - pose proof (parse_hook_ok _ value (ok_hooks _ Hc)) as Hp.
    destruct (parse_hook _ _) as [[ok l]|]; simpl; [|done]. destruct Hc; by constructor.
Qed.

(** ** GPIO files *)

Lemma in_kv_ok key value d : gpio_in_ok d → gpio_in_ok (parse_gpio_config_file_in_kv key value d).2.
Proof.
  intros Hd. pose proof Hd as (Ht & Hi & Hdb & Hr). unfold parse_gpio_config_file_in_kv.
  repeat key_case; try done.
  all: try (destruct (action_node_data_from_value value); done).
  - by destruct (mygpio_parse_bool value).
  - by destruct (parse_bias value).
  - by destruct (parse_event_request value).
  - destruct (mygpio_parse_ulong _ _ _ _) as [[x ?]|] eqn:E; [|done].
    apply parse_ulong_bounds in E. unfold gpio_in_ok. simpl. tauto.
  - by destruct (parse_event_clock value).
  - destruct (mygpio_parse_int _ _ _ _) as [[x ?]|] eqn:E; [|done].
    apply parse_int_bounds in E as [E _]. unfold gpio_in_ok. simpl. tauto.
  - destruct (mygpio_parse_int _ _ _ _) as [[x ?]|] eqn:E; [|done].
    apply parse_int_bounds in E as [E _]. unfold gpio_in_ok. simpl. tauto.
  - by destruct (parse_event_request value).
Qed.

Lemma out_kv_ok key value d : gpio_out_ok d → gpio_out_ok (parse_gpio_config_file_out_kv key value d).2.
Proof.
  intros Hd. unfold parse_gpio_config_file_out_kv. destruct (strcmp0 _ _).
  - by destruct (parse_drive value).
  - destruct (strcmp0 _ _); [|done]. by destruct (parse_gpio_value value).
Qed.

(** A GPIO file is always read to its end. *)
Lemma gpio_file_ok {D} (P : D → Prop) kv d file :
  (∀ key value d, P d → P (kv key value d).2) → P d →
  ∃ rc d', parse_gpio_config_file kv d file = Some (rc, d') ∧ P d'.
Proof.
  intros Hkv Hd. destruct file as [fp|]; [|by exists false, d]. unfold parse_gpio_config_file.
  pose proof (config_loop_spec P False (λ key value d, Some (true, (kv key value d).2))
    (λ key value d Hd _ _, Hkv key value d Hd) (S (length fp)) fp d Hd ltac:(lia)) as Hl.
  destruct (config_loop _ _ _ _) as [[rc d']|]; [eauto|done].
Qed.

Lemma gpio_read_go_ok dir i gins gouts :
  nodes_ok (file_gpio gpio_in_ok) gins → nodes_ok (file_gpio gpio_out_ok) gouts →
  ∃ gins' gouts', gpio_read_go dir i gins gouts = Some (gins', gouts') ∧
    nodes_ok (file_gpio gpio_in_ok) gins' ∧ nodes_ok (file_gpio gpio_out_ok) gouts'.
Proof.
  revert i gins gouts. induction dir as [|e dir IH]; intros i gins gouts Hi Ho; cbn [gpio_read_go]; [eauto 6|].
  assert (Hskip : ∃ gins' gouts', (if i =? GPIOS_MAX then Some (gins, gouts)
      else gpio_read_go dir i gins gouts) = Some (gins', gouts') ∧
    nodes_ok (file_gpio gpio_in_ok) gins' ∧ nodes_ok (file_gpio gpio_out_ok) gouts').
  { destruct (i =? GPIOS_MAX); [eauto 6|by apply IH]. }
  destruct (negb (d_reg e)); [by apply IH|].
  destruct (mygpio_parse_uint _ _ _ _) as [[gpio [|c rest]]|] eqn:Eg; [exact Hskip| |exact Hskip].
  apply parse_uint_bounds in Eg. destruct (negb (ch c ".")); [exact Hskip|].
  destruct (strcmp0 rest dir_in).
  - destruct (gpio_file_ok gpio_in_ok parse_gpio_config_file_in_kv gpio_in_data_new (d_file e) in_kv_ok)
      as (rc & d & -> & Hd); [done|].
    simpl. destruct rc; [|exact Hskip]. apply IH; [|done]. by apply nodes_ok_push.
  - destruct (strcmp0 rest dir_out); [|exact Hskip].
    destruct (gpio_file_ok gpio_out_ok parse_gpio_config_file_out_kv gpio_out_data_new (d_file e) out_kv_ok)
      as (rc & d & -> & Hd); [done|].
    simpl. destruct rc; [|exact Hskip]. apply IH; [done|]. by apply nodes_ok_push.
Qed.

Lemma nodes_ok_nil {A} (P : node A → Prop) : nodes_ok P [].
Proof. split; constructor. Qed.

(** Reading the GPIO directory always comes to an end, whatever its files
    contain: it fails only when the directory cannot be opened. The GPIOs it
    adds are at distinct addresses, are numbered 0 to 99, have long press times
    of at most 9999 ms and a 32-bit debounce period, and hold no request, timer
    or descriptor yet. *)
Theorem gpio_read_dir_total dir :
  ∃ gins gouts, gpio_read_dir [] [] dir = Some (bool_decide (is_Some dir), (gins, gouts)) ∧
    nodes_ok (file_gpio gpio_in_ok) gins ∧ nodes_ok (file_gpio gpio_out_ok) gouts.
Proof.
  destruct dir as [dir|]; simpl.
  - destruct (gpio_read_go_ok dir 0 [] [] (nodes_ok_nil _) (nodes_ok_nil _)) as (gi & go & -> & Hi & Ho).
    by exists gi, go.
  - exists [], []. split; [done|]. split; apply nodes_ok_nil.
Qed.

Lemma config_new_ok fd level c : config_new fd level = Some c → config_ok c.
Proof.
  unfold config_new. destruct (fd =? -1); [done|]. intros [= <-].
  constructor; simpl; try done; try apply nodes_ok_nil.
Qed.

Lemma config_read_ok `{Build} c file dir_of ok c' :
  config_ok c → config_read c file dir_of = Some (ok, c') → config_ok c'.
Proof.
  intros Hc. unfold config_read. destruct file as [fp|]; [|by intros [= _ <-]].
  pose proof (config_loop_spec config_ok True parse_config_file_kv
    (λ key value c0 H0 _ Hv, parse_config_file_kv_ok key value c0 H0 Hv)
    (S (length fp)) fp c Hc ltac:(lia)) as Hl.
  destruct (config_loop _ _ _ _) as [[rc c1]|]; [|done]. simpl. destruct rc; [|by intros [= _ <-]].
  simpl. pose proof Hl as [_ _ Hin Hout _ _ _ _ _ _].
  destruct (dir_of (dir_gpio c1)) as [dir|]; simpl.
  2:{ intros [= _ <-]. destruct Hl; by constructor. }
  destruct (gpio_read_go_ok dir 0 _ _ Hin Hout) as (gi & go & -> & Hi & Ho). simpl.
  destruct (lua_async_read_scripts _ _) as [ok1 l]. intros [= _ <-]. destruct Hl; by constructor.
Qed.

Lemma get_config_reads `{Build} signalfd level file dir_of c :
  get_config signalfd level file dir_of = Some (Some c) → config_ok c.
Proof.
  unfold get_config. destruct (config_new signalfd level) as [c0|] eqn:E; [|done].
  destruct (config_read c0 file dir_of) as [[ok c1]|] eqn:Er; [|done]. simpl.
  destruct ok; [|done]. intros [= <-]. eapply config_read_ok; [by eapply config_new_ok|exact Er].
Qed.

(** C35: A configuration that [get_config] returns, whatever the files contain,
    has lists with nodes at distinct addresses and no clients yet; names that
    fit on a line; timers with an hour, a minute, an interval of 1 to 2^31-1
    seconds, seven weekday flags and a known action; hooks with known actions;
    a client timeout of 10 to 120 seconds, an HTTP port of 1025 to 65535 and a
    socket path that fits into sun_path. *)
Theorem get_config_ok `{Build} signalfd level file dir_of c :
  get_config signalfd level file dir_of = Some (Some c) → config_ok c.
Proof. exact (get_config_reads signalfd level file dir_of c). Qed.

Lemma get_config_ok_witness :
  ∃ c, get_config 3 6 (Some (bs "timeout = 30" ++ [LF] ++ bs "# a comment" ++ [LF] ++
                             bs "timer_ev = wake:6:30:1d:*:gpiotoggle:4" ++ [LF]))
         (λ _, Some []) = Some (Some c) ∧ socket_timeout_s c = 30 ∧
       length (timer_definitions c) = 1%nat ∧ config_ok c.
Proof.
  eexists. split; [vm_compute; reflexivity|]. split; [reflexivity|]. split; [reflexivity|].
  apply (get_config_ok 3 6 (Some (bs "timeout = 30" ++ [LF] ++ bs "# a comment" ++ [LF] ++
                             bs "timer_ev = wake:6:30:1d:*:gpiotoggle:4" ++ [LF])) (λ _, Some [])).
  vm_compute. reflexivity.
Defined.

(** ** Intervals *)

Lemma interval_unit_cases unit quantifier :
  interval_unit [unit] = Some quantifier →
  In (unit, quantifier) [("s"%char, 1); ("m"%char, 60); ("h"%char, 3600); ("d"%char, 86400);
                         ("w"%char, 604800)].
Proof.
  unfold interval_unit.
  destruct (ch unit "s") eqn:E1; [apply ch_true in E1 as ->; intros [= <-]; simpl; tauto|].
  destruct (ch unit "m") eqn:E2; [apply ch_true in E2 as ->; intros [= <-]; simpl; tauto|].
  destruct (ch unit "h") eqn:E3; [apply ch_true in E3 as ->; intros [= <-]; simpl; tauto|].
  destruct (ch unit "d") eqn:E4; [apply ch_true in E4 as ->; intros [= <-]; simpl; tauto|].
  destruct (ch unit "w") eqn:E5; [apply ch_true in E5 as ->; intros [= <-]; simpl; tauto|done].
Qed.

(** [strtol] saturates. *)
Lemma strtol_digits_big ds rest :
  Forall (λ c, isdigit c = true) ds → ds ≠ [] → no_nul rest →
  stops_digits rest → LONG_MAX < digits_val ds → st_value (strtol (ds ++ rest)) = LONG_MAX.
Proof.
  intros Hds Hne Hnn Hrest Hmax. unfold strtol.
  rewrite c_str_id by (apply no_nul_app; auto with gpio).
  rewrite strto_scan_digits by done. destruct ds; [done|].
  by rewrite (proj2 (Z.ltb_lt _ _)) by lia.
Qed.

Lemma parse_int_over n rest min max (strict : bool) :
  max < n → 0 ≤ n → max ≤ INT_MAX → no_nul rest → stops_digits rest →
  mygpio_parse_int (Some (print_u n ++ rest)) strict min max = None.
Proof.
  intros Hm Hn Hmax Hnn Hs. unfold mygpio_parse_int.
  rewrite parse_guard_digits by auto with gpio.
  destruct (decide (n ≤ LONG_MAX)) as [Hl|Hl].
  - rewrite strtol_digits; auto with gpio; rewrite ?print_u_value by lia; [|lia].
    cbn [st_value]. destruct (_ || _); [done|]. unfold parse_finish. cbn.
    rewrite (proj2 (Z.leb_gt n max)) by lia. by rewrite andb_false_r.
  - rewrite (strtol_digits_big (print_u n)); auto with gpio. rewrite print_u_value; lia.
Qed.

Lemma parse_int_under n rest min max (strict : bool) :
  0 ≤ n < min → n ≤ INT_MAX → no_nul rest → stops_digits rest →
  mygpio_parse_int (Some (print_u n ++ rest)) strict min max = None.
Proof.
  intros Hm Hmax Hnn Hs. unfold mygpio_parse_int.
  rewrite parse_guard_digits by auto with gpio.
  rewrite strtol_digits; auto with gpio; rewrite ?print_u_value by lia; [|unfold LONG_MAX, INT_MAX in *; lia].
  cbn [st_value]. destruct (_ || _); [done|]. unfold parse_finish. cbn.
  by rewrite (proj2 (Z.leb_gt min n)) by lia.
Qed.

(** C36: The value of an interval is a number of 1 to 604800 with a unit (s, m, h,
    d or w; what follows the unit is ignored): it is read as that many seconds,
    unless the product exceeds the range of [int], and then it is refused; no
    product overflows. *)
Theorem parse_interval_spec n unit rest quantifier :
  0 ≤ n → no_nul rest → interval_unit [unit] = Some quantifier →
  parse_interval (Some (print_u n ++ unit :: rest))
  = if decide (1 ≤ n ≤ 604800 ∧ n * quantifier ≤ INT_MAX) then Some (n * quantifier) else None.
Proof.
  intros Hn Hr Hq.
  assert (Hu : no_nul (unit :: rest) ∧ stops_digits (unit :: rest) ∧ 1 ≤ quantifier).
  { pose proof (interval_unit_cases _ _ Hq) as Hc. simpl in Hc.
    destruct Hc as [[= <- <-]|[[= <- <-]|[[= <- <-]|[[= <- <-]|[[= <- <-]|[]]]]]];
      (split; [by constructor|split; [done|lia]]). }
  destruct Hu as (Hnn & Hs & Hq1). unfold parse_interval.
  destruct (decide (n < 1)) as [Hlow|Hlow].
  { rewrite parse_int_under by (unfold INT_MAX; auto; lia). by rewrite decide_False by lia. }
  destruct (decide (604800 < n)) as [Hbig|Hbig].
  { rewrite parse_int_over by (unfold INT_MAX; auto; lia). by rewrite decide_False by lia. }
  rewrite parse_int_print; [|unfold INT_MAX; lia|lia|done|done|done].
  change (interval_unit (unit :: rest)) with (interval_unit [unit]). rewrite Hq.
  destruct (Z.ltb_spec (INT_MAX / quantifier) n) as [Hlt|Hge].
  - rewrite decide_False; [done|]. intros [_ Hle].
    assert (n ≤ INT_MAX / quantifier) by (apply Z.div_le_lower_bound; lia). lia.
  - rewrite decide_True; [done|]. split; [lia|].
    pose proof (Z.mul_div_le INT_MAX quantifier ltac:(lia)). nia.
Qed.

Lemma parse_interval_spec_witness :
  parse_interval (Some (bs "2d")) = Some 172800 ∧ parse_interval (Some (bs "4000w")) = None.
Proof.
  split.
  - apply (parse_interval_spec 2 "d" [] 86400); [lia|constructor|reflexivity].
  - apply (parse_interval_spec 4000 "w" [] 604800); [lia|constructor|reflexivity].
Defined.

(** ** What the parsers get wrong *)

Lemma parse_weekday_digit c w : isdigit c = true → parse_weekday c w = None.
Proof.
  intros Hd. unfold isdigit in Hd. unfold parse_weekday. zbool.
  repeat (rewrite (proj2 (Z.eqb_neq _ _)) by lia).
  rewrite !(proj2 (ch_false _ _)); [done| |]; intros ->;
    match goal with H : 48 <= _ |- _ => vm_compute in H; by apply H end.
Qed.

(** Weekdays are documented as a list of numbers, but the parser compares
    characters with the numbers 0 to 7 and not with the digits: a value that
    does not begin with a star and has any digit is refused, so a timer can
    only be configured for every day. *)
Theorem parse_weekdays_rejects_digits s1 c s2 :
  isdigit c = true → (∀ r, s1 ++ c :: s2 ≠ "*"%char :: r) → parse_weekdays (s1 ++ c :: s2) = None.
Proof.
  intros Hc Hstar.
  assert (Hgo : ∀ w, parse_weekdays_go (s1 ++ c :: s2) w = None).
  { clear Hstar. induction s1 as [|x s1 IH]; intros w; simpl.
    - by rewrite parse_weekday_digit.
    - destruct (parse_weekday x w); [apply IH|done]. }
  unfold parse_weekdays. destruct (s1 ++ c :: s2) as [|x r] eqn:E; [by destruct s1|].
  destruct (ch x "*") eqn:Ex; [|apply Hgo]. apply ch_true in Ex as ->. by destruct (Hstar r).
Qed.

Lemma parse_weekdays_rejects_digits_witness : parse_weekdays (bs "1,2,3") = None.
Proof. by apply (parse_weekdays_rejects_digits [] "1" (bs ",2,3")). Defined.

(** A hook or timer value that ends before the action makes the parser
    compare a NULL pointer with the action names: the line "hook = door" of a
    configuration file does not give an error message. *)
Theorem incomplete_hook_undefined :
  parse_hook [] (bs "door") = None ∧ parse_timer_ev [] (bs "wake:6:30") = None ∧
  get_config (H:=sim_build) 3 6 (Some (bs "hook = door" ++ [LF])) (λ _, Some []) = None.
Proof. vm_compute. done. Qed.

(** The directory entry of an input without settings. *)
Definition input_entry (i : nat) : dirent :=
  Dirent true (print_u (Z.of_nat i) ++ bs ".in") (Some []).

(** The limit of 64 GPIOs is only looked at after a file that is skipped: a
    directory with the 80 valid files 0.in to 79.in gives 80 inputs, numbered
    up to 79, of which no command can name those over 64. *)
Theorem gpio_limit_not_enforced :
  match gpio_read_dir [] [] (Some (map input_entry (seq 0 80))) with
  | Some (ok, (gins, _)) =>
      ok = true ∧ map n_id gins = map Z.of_nat (seq 0 80) ∧ Z.of_nat (length gins) > GPIOS_MAX
  | None => False
  end ∧
  mygpio_parse_uint (Some (print_u 65)) true 0 GPIOS_MAX = None.
Proof. vm_compute. done. Qed.

(** An unknown log level is accepted; the comment promises the default INFO,
    the code returns [CFG_SYSLOG], which is the level EMERG. The name of that
    level, in turn, cannot be looked up. *)
Theorem unknown_loglevel_is_emerg :
  parse_loglevel (bs "verbose") = 0 ∧ parse_loglevel (bs "EMERG") = 0 ∧ lookup_loglevel 0 = [] ∧
  (∀ l, 1 ≤ l < 8 → parse_loglevel (lookup_loglevel l) = l).
Proof.
  split_and!; try reflexivity. intros l Hl.
  assert (l = 1 ∨ l = 2 ∨ l = 3 ∨ l = 4 ∨ l = 5 ∨ l = 6 ∨ l = 7) as Hc by lia.
  by repeat (destruct Hc as [-> | Hc]; [done|]); subst.
Qed.
