(* ===== verification/StartSpec.v ===== *)
(** * What the start-up establishes

    The start times of timers, the lines that gpio_init requests, and the main
    theorem: with any configuration file, main either exits or enters its loop in
    a state from which everything proved of reachable states holds, unless the file
    of the Lua functions does not come back when it is loaded. *)

From S2P Require Import Prelude CLib ParseUtil Sds Lists LuaAsync MsgQueue GpioUtil Config Kernel Sim Timer InputNames.
From S2P Require Import Events Gpio Actions ConfigParse GpioEvent Protocol Http Socket EventLoop Release Start.
From S2P Require Import Invariant InvOps InvProtocol InvHttp InvLoop Daemon ReleaseSpec ConfigSpec.

(** ** Start times *)

Lemma start_down_spec fuel start now interval :
  1 ≤ interval → (Z.to_nat (start - now) < fuel)%nat →
  ∃ s, start_down fuel start now interval = Some s ∧ s ≤ now ∧ (interval | s - start).
Proof.
  intros Hi. revert start. induction fuel as [|fuel IH]; intros start Hf; simpl; [lia|].
  destruct (Z.ltb_spec now start).
  - destruct (IH (start - interval)) as (s & -> & Hs & Hd); [lia|]. exists s. split_and!; [done..|].
    replace (s - start) with (s - (start - interval) + -1 * interval) by lia.
    apply Z.divide_add_r; [done|apply Z.divide_factor_r].
  - exists start. rewrite Z.sub_diag. split_and!; [done|lia|apply Z.divide_0_r].
Qed.

Lemma start_up_spec fuel start now interval :
  1 ≤ interval → start < now + interval → (Z.to_nat (now - start) < fuel)%nat →
  ∃ s, start_up fuel start now interval = Some s ∧ now ≤ s < now + interval ∧ (interval | s - start).
Proof.
  intros Hi. revert start. induction fuel as [|fuel IH]; intros start Hb Hf; simpl; [lia|].
  destruct (Z.ltb_spec start now).
  - destruct (IH (start + interval)) as (s & -> & Hs & Hd); [lia..|]. exists s. split_and!; [done|lia..|].
    replace (s - start) with (s - (start + interval) + interval) by lia.
    apply Z.divide_add_r; [done|apply Z.divide_refl].
  - exists start. rewrite Z.sub_diag. split_and!; [done|lia..|apply Z.divide_0_r].
Qed.

Lemma starttime_loops_spec start now interval :
  1 ≤ interval →
  ∃ s, starttime_loops start now interval = Some s ∧ now ≤ s < now + interval ∧ (interval | s - start).
Proof.
  intros Hi. unfold starttime_loops, start_fuel.
  destruct (start_down_spec (S (S (Z.to_nat (Z.abs (start - now))))) start now interval)
    as (s0 & -> & Hs0 & Hd0); [lia..|]. cbn [mbind option_bind].
  destruct (start_up_spec (S (S (Z.to_nat (Z.abs (s0 - now))))) s0 now interval)
    as (s & -> & Hs & Hd); [lia..|].
  exists s. split_and!; [done|lia..|].
  replace (s - start) with (s - s0 + (s0 - start)) by lia. by apply Z.divide_add_r.
Qed.

(** ** Changes to one list of the configuration *)

Class ListField {A} (get : t_config → t_list A) := {
  put : t_list A → t_config → t_config;
  get_put l c : get (put l c) = l;
  put_put l l' c : put l (put l' c) = put l c;
  put_get c : put (get c) c = c;
}.

#[export] Program Instance field_in : ListField gpios_in := {| put l c := c <| gpios_in := l |> |}.
Solve All Obligations with by intros; destruct c.
#[export] Program Instance field_out : ListField gpios_out := {| put l c := c <| gpios_out := l |> |}.
Solve All Obligations with by intros; destruct c.
#[export] Program Instance field_dev : ListField input_devices := {| put l c := c <| input_devices := l |> |}.
Solve All Obligations with by intros; destruct c.
#[export] Program Instance field_timers : ListField timer_definitions :=
  {| put l c := c <| timer_definitions := l |> |}.
Solve All Obligations with by intros; destruct c.

(** The poll table with more entries, as long as there is room. *)
Definition add_entry (poll_fds : list t_poll_fd) (e : t_poll_fd) : list t_poll_fd :=
  (event_poll_fd_add poll_fds (pfd_fd e) (pfd_type e) (pfd_events e)).2.

Definition add_entries : list t_poll_fd → list t_poll_fd → list t_poll_fd := foldl add_entry.

Section field.
Context `{Kernel K} {A} (get : t_config → t_list A) `{!ListField get}.
Implicit Types (w : world K) (k : K) (l : t_list A) (n : node A).

Definition w_field k l w : world K := w <| kern := k |> <| config ::= put l |>.

Lemma w_field_get k l w : get (config (w_field k l w)) = l.
Proof. apply get_put. Qed.

Lemma w_field_put k k' l l' w : w_field k l (w_field k' l' w) = w_field k l w.
Proof. destruct w. unfold w_field. cbn. by rewrite put_put. Qed.

Lemma w_field_id w : w_field (kern w) (get (config w)) w = w.
Proof. destruct w. unfold w_field. cbn. by rewrite put_get. Qed.

Lemma wp_sys_field {B} (g : K → B * K) (Q : B → world K → Prop) k l w :
  (∀ b k', g k = (b, k') → Q b (w_field k' l w)) → wp (sys g) Q (w_field k l w).
Proof. intros HQ. apply wp_sys. intros b k' Hg. destruct w. exact (HQ b k' Hg). Qed.

Lemma wp_deref_mid l1 n l2 k w (Q : A → world K → Prop) :
  NoDup (ptrs (l1 ++ n :: l2)) → Q (n_data n) (w_field k (l1 ++ n :: l2) w) →
  wp (deref get (n_ptr n)) Q (w_field k (l1 ++ n :: l2) w).
Proof. intros Hd. apply wp_deref. rewrite w_field_get. by apply list_deref_mid. Qed.

Lemma wp_deref_id_mid l1 n l2 k w (Q : Z → world K → Prop) :
  NoDup (ptrs (l1 ++ n :: l2)) → Q (n_id n) (w_field k (l1 ++ n :: l2) w) →
  wp (deref_id get (n_ptr n)) Q (w_field k (l1 ++ n :: l2) w).
Proof. intros Hd. apply wp_deref_id. rewrite w_field_get. by apply list_deref_mid. Qed.

(** A write through the pointer of the node in the middle. *)
Lemma wp_upd_mid (m : M K unit) (f : A → A) l1 n l2 k w (Q : unit → world K → Prop) :
  (∀ w, m w = Done (tt, w <| config ::= λ c, put (list_upd (n_ptr n) f (get c)) c |>)) →
  NoDup (ptrs (l1 ++ n :: l2)) → Q tt (w_field k (l1 ++ (n <| n_data ::= f |>) :: l2) w) →
  wp m Q (w_field k (l1 ++ n :: l2) w).
Proof.
  intros Hm Hd HQ. unfold wp. rewrite Hm. rewrite <- (list_upd_mid f l1 n l2 Hd) in HQ.
  destruct w. unfold w_field in *. cbn in *. by rewrite get_put, put_put.
Qed.

(** The loops of the start-up: each node is replaced, and may give an entry. *)
Lemma add_nodes_wp (P : node A → Prop) (R : node A → node A → Prop) (entry : node A → option t_poll_fd) body :
  (∀ n n', R n n' → n_ptr n' = n_ptr n) →
  (∀ l1 n l2 k w pf, NoDup (ptrs (l1 ++ n :: l2)) → P n →
     wp (body (n_ptr n) pf) (λ r w', r.1 = true → ∃ n' k', R n n' ∧ w' = w_field k' (l1 ++ n' :: l2) w ∧
       r.2 = match entry n' with Some e => add_entry pf e | None => pf end) (w_field k (l1 ++ n :: l2) w)) →
  ∀ l2 l1 k w pf, NoDup (ptrs (l1 ++ l2)) → Forall P l2 →
    wp (add_nodes (ptrs l2) body pf) (λ r w', r.1 = true → ∃ l2' k', Forall2 R l2 l2' ∧
      w' = w_field k' (l1 ++ l2') w ∧ r.2 = add_entries pf (omap entry l2')) (w_field k (l1 ++ l2) w).
Proof.
  intros Hptr Hbody. induction l2 as [|n l2 IH]; intros l1 k w pf Hd HP.
  { apply wp_ret. intros _. exists [], k. by split_and!. }
  apply Forall_cons in HP as [Hn HP]. cbn [ptrs map add_nodes]. apply wp_bind.
  eapply wp_mono; [by apply Hbody|]. intros [ok pf1] w1 Hok. destruct ok; [|by apply wp_ret].
  destruct (Hok eq_refl) as (n' & k1 & HR & -> & Hpf). simpl in Hpf.
  rewrite (cons_middle n' l1 l2). rewrite app_assoc. eapply wp_mono; [apply (IH (l1 ++ [n'])); [|done]|].
  - revert Hd. unfold ptrs. rewrite !map_app. cbn [map]. by rewrite (Hptr _ _ HR), <- app_assoc.
  - intros r w' Hr Hok'. destruct (Hr Hok') as (l2' & k' & Hl & -> & Hpf'). exists (n' :: l2'), k'.
    split; [by constructor|]. rewrite <- app_assoc. split; [done|]. rewrite Hpf', Hpf. simpl.
    by destruct (entry n').
Qed.

Lemma add_nodes_all (P : node A → Prop) (R : node A → node A → Prop) (entry : node A → option t_poll_fd) body w pf :
  (∀ n n', R n n' → n_ptr n' = n_ptr n) → NoDup (ptrs (get (config w))) → Forall P (get (config w)) →
  (∀ l1 n l2 k w pf, NoDup (ptrs (l1 ++ n :: l2)) → P n →
     wp (body (n_ptr n) pf) (λ r w', r.1 = true → ∃ n' k', R n n' ∧ w' = w_field k' (l1 ++ n' :: l2) w ∧
       r.2 = match entry n' with Some e => add_entry pf e | None => pf end) (w_field k (l1 ++ n :: l2) w)) →
  wp (add_nodes (ptrs (get (config w))) body pf) (λ r w', r.1 = true → ∃ l k,
    Forall2 R (get (config w)) l ∧ w' = w_field k l w ∧ r.2 = add_entries pf (omap entry l)) w.
Proof.
  intros Hptr Hd HP Hbody.
  pose proof (add_nodes_wp P R entry body Hptr Hbody (get (config w)) [] (kern w) w pf Hd HP) as Hwp.
  cbn [app] in Hwp. by rewrite w_field_id in Hwp.
Qed.
End field.

(** Without a table. *)
Lemma all_nodes_add `{Kernel K} (ps : list positive) (f : positive → M K bool) w :
  all_nodes ps f w =
  (r ← add_nodes ps (λ p pf, ok ← f p; mret (ok, pf)) []; mret r.1) w.
Proof.
  revert w. induction ps as [|p ps IH]; intros w; [done|]. cbn [all_nodes add_nodes].
  unfold mbind, M_bind in *. destruct (f p w) as [[[] w']|]; cbn; [apply IH|done..].
Qed.

Section start.
Context `{Kernel K} `{Build} `{BL : !BuildLaws} `{KL : !KernelLaws K}.
Implicit Types (w : world K) (p : positive) (k : K).

(** Only the environment differs. *)
Definition w_kern k w : world K := w <| kern := k |>.

(** C33: The start time of a timer: the loops of [calc_starttime] end for every
    clock, and its result is the number of seconds, less than the interval, from
    now to a time that is a whole number of intervals away from today's start
    hour and minute. *)
Theorem calc_starttime_spec hour minute interval w :
  1 ≤ interval ≤ INT_MAX →
  ∃ r k now tms, calc_starttime hour minute interval w = Done (r, w_kern k w) ∧
    time (kern w) = (now, k) ∧ localtime_r now k = Some tms ∧ 0 ≤ r < interval ∧
    (interval | now + r - mktime (tms <| tm_hour := hour |> <| tm_min := minute |> <| tm_sec := 0 |>) k).
Proof.
  intros Hi. pose proof (localtime_r_time (kern w)) as [tms Htms].
  destruct (time (kern w)) as [now k] eqn:Et. simpl in Htms.
  destruct (starttime_loops_spec (mktime (tms <| tm_hour := hour |> <| tm_min := minute |> <| tm_sec := 0 |>) k)
              now interval) as (s & Hloop & Hs & Hd); [lia|].
  assert (Hrun : calc_starttime hour minute interval w = Done (i32 (s - now), w_kern k w)).
  { unfold calc_starttime, sys, ask, mbind, M_bind, mret, M_ret. rewrite Et. cbn beta iota.
    change (kern (w <| kern := k |>)) with k. rewrite Htms. cbn beta iota.
    change (kern (w <| kern := k |>)) with k. by rewrite Hloop. }
  exists (s - now), k, now, tms. rewrite Hrun.
  assert (i32 (s - now) = s - now) as ->.
  { unfold i32. rewrite Z.mod_small by (unfold INT_MAX in *; lia).
    destruct (Z.ltb_spec (s - now) 2147483648); [done|unfold INT_MAX in *; lia]. }
  split_and!; try done; try lia. by replace (now + (s - now)) with s by lia.
Qed.
End start.

(** ** What is requested and opened *)

Section nodes.
Context `{Kernel K} `{Build} `{BL : !BuildLaws} `{KL : !KernelLaws K}.
Implicit Types (w : world K) (k : K).

Lemma line_name_wp {A} (get : t_config → t_list A) `{!ListField get} chip gpio rc append (add : bytes → A → A)
    l1 n l2 k w (Q : bool → world K → Prop) :
  (∀ name w, append name w = Done (tt, w <| config ::= λ c, put (list_upd (n_ptr n) (add name) (get c)) c |>)) →
  NoDup (ptrs (l1 ++ n :: l2)) →
  (∀ k', Q false (w_field get k' (l1 ++ n :: l2) w)) →
  (∀ k', Q rc (w_field get k' (l1 ++ n :: l2) w)) →
  (∀ k' name, one_line name → Q rc (w_field get k' (l1 ++ (n <| n_data ::= add name |>) :: l2) w)) →
  wp (line_name chip gpio rc append) Q (w_field get k (l1 ++ n :: l2) w).
Proof.
  intros Ha Hd Hfalse Hnone Hname. unfold line_name. apply wp_bind, wp_sys_field. intros info k' _.
  destruct info as [info|]; [|by apply wp_ret].
  destruct (gpiod_line_info_get_name info) as [name|] eqn:E; [|by apply wp_ret].
  apply wp_bind. eapply (wp_upd_mid get); [apply Ha|done|]. apply wp_ret, Hname. by eapply line_name_line.
Qed.

(** An input whose line was requested: the request, its descriptor, and the
    name of the line. *)
Definition in_requested (n n' : node t_gpio_in_data) : Prop :=
  n_ptr n' = n_ptr n ∧ n_id n' = n_id n ∧ ∃ req k name, one_line name ∧
    n_data n' = (n_data n) <| in_request := Some req |> <| gpio_fd := gpiod_line_request_get_fd (Some req) k |>
                         <| in_name ::= λ s, s ++ name |>.

Definition out_requested (n n' : node t_gpio_out_data) : Prop :=
  n_ptr n' = n_ptr n ∧ n_id n' = n_id n ∧ ∃ req name, one_line name ∧
    n_data n' = (n_data n) <| out_request := Some req |> <| out_name ::= λ s, s ++ name |>.

Definition in_entry (n : node t_gpio_in_data) : option t_poll_fd :=
  Some (PollFd (gpio_fd (n_data n)) POLL_IN PFD_TYPE_GPIO).

Lemma NoDup_mid {A} (l1 : t_list A) n n' l2 :
  NoDup (ptrs (l1 ++ n :: l2)) → n_ptr n' = n_ptr n → NoDup (ptrs (l1 ++ n' :: l2)).
Proof. unfold ptrs. rewrite !map_app. cbn [map]. by intros ? ->. Qed.

(** What is left to do at the end of a request. *)
Ltac finish_line Hd :=
  first [by intros | done | by eapply NoDup_mid; [exact Hd|]].

Lemma gpio_request_input_wp chip l1 n l2 k w :
  NoDup (ptrs (l1 ++ n :: l2)) →
  wp (gpio_request_input chip (n_id n) (n_ptr n))
    (λ ok w', ok = true → ∃ n' k', in_requested n n' ∧ w' = w_field gpios_in k' (l1 ++ n' :: l2) w)
    (w_field gpios_in k (l1 ++ n :: l2) w).
Proof.
  intros Hd. unfold gpio_request_input. apply wp_bind, wp_deref_mid; [done|]. cbv zeta.
  destruct (gpiod_line_config_add_line_settings _ _ _) as [added line_cfg].
  apply wp_bind. destruct (added =? -1).
  { apply wp_ret. eapply (line_name_wp gpios_in); finish_line Hd. }
  apply wp_bind, wp_sys_field. intros request k1 _. apply wp_bind.
  eapply (wp_upd_mid gpios_in); [by intros|done|].
  set (n1 := n <| n_data ::= _ |>). destruct request as [req|].
  2:{ apply wp_ret. eapply (line_name_wp gpios_in _ _ _ _ _ l1 n1); finish_line Hd. }
  apply wp_bind, wp_ask. change (kern (w_field gpios_in k1 ?l w)) with k1.
  apply wp_bind. eapply (wp_upd_mid gpios_in _ _ l1 n1); [by intros|finish_line Hd|].
  apply wp_ret. set (n2 := n1 <| n_data ::= _ |>).
  eapply (line_name_wp gpios_in _ _ _ _ _ l1 n2); try finish_line Hd.
  - intros k' _. exists n2, k'. split; [|done]. split_and!; [done..|]. exists req, k1, []. split; [done|].
    destruct n as [? ? []]. cbn. by rewrite app_nil_r.
  - intros k' name Hname _. eexists _, k'. split; [|done]. split_and!; [done..|]. by exists req, k1, name.
Qed.

Lemma gpio_set_output_wp chip l1 n l2 k w :
  NoDup (ptrs (l1 ++ n :: l2)) →
  wp (gpio_set_output chip (n_id n) (n_ptr n))
    (λ ok w', ok = true → ∃ n' k', out_requested n n' ∧ w' = w_field gpios_out k' (l1 ++ n' :: l2) w)
    (w_field gpios_out k (l1 ++ n :: l2) w).
Proof.
  intros Hd. unfold gpio_set_output. apply wp_bind, wp_deref_mid; [done|]. cbv zeta.
  destruct (gpiod_line_config_add_line_settings _ _ _) as [added line_cfg].
  destruct (gpiod_line_config_set_output_values _ _) as [valued line_cfg'].
  apply wp_bind. destruct (_ || _).
  { apply wp_ret. eapply (line_name_wp gpios_out); finish_line Hd. }
  apply wp_bind, wp_sys_field. intros request k1 _. apply wp_bind.
  eapply (wp_upd_mid gpios_out); [by intros|done|]. apply wp_ret.
  set (n1 := n <| n_data ::= _ |>). destruct request as [req|].
  2:{ eapply (line_name_wp gpios_out _ _ _ _ _ l1 n1); finish_line Hd. }
  eapply (line_name_wp gpios_out _ _ _ _ _ l1 n1); try finish_line Hd.
  - intros k' _. exists n1, k'. split; [|done]. split_and!; [done..|]. exists req, []. split; [done|].
    destruct n as [? ? []]. cbn. by rewrite app_nil_r.
  - intros k' name Hname _. eexists _, k'. split; [|done]. split_and!; [done..|]. by exists req, name.
Qed.

(** The lists as they are after the loops of the start-up. *)
Lemma gpio_set_outputs_wp w :
  NoDup (ptrs (gpios_out (config w))) →
  wp gpio_set_outputs (λ ok w', ok = true → ∃ l k, Forall2 out_requested (gpios_out (config w)) l ∧
    w' = w_field gpios_out k l w) w.
Proof.
  intros Hd. unfold gpio_set_outputs. apply wp_bind, wp_gets. unfold wp. rewrite all_nodes_add.
  change (wp (r ← add_nodes (ptrs (gpios_out (config w))) (λ p pf,
            ok ← (c ← gets chip; gpio ← deref_id gpios_out p; gpio_set_output c gpio p); mret (ok, pf)) [];
          mret r.1) (λ ok w', ok = true → ∃ l k, Forall2 out_requested (gpios_out (config w)) l ∧
    w' = w_field gpios_out k l w) w).
  apply wp_bind. eapply wp_mono.
  - apply (add_nodes_all gpios_out (λ _, True) out_requested (λ _, None)); [by intros ?? []|done|by apply Forall_true|].
    intros l1 n l2 k w' pf Hn _. apply wp_bind, wp_bind, wp_gets, wp_bind, wp_deref_id_mid; [done|].
    eapply wp_mono; [by apply gpio_set_output_wp|]. intros ok w1 Hok. apply wp_ret. intros Ht. simpl in Ht. subst ok.
    destruct (Hok eq_refl) as (n' & k' & Hr & ->). by exists n', k'.
  - intros [ok pf] w' Hok. apply wp_ret. intros Ht. destruct (Hok Ht) as (l & k & Hl & -> & _). by exists l, k.
Qed.

Lemma gpio_request_inputs_wp w pf :
  NoDup (ptrs (gpios_in (config w))) →
  wp (gpio_request_inputs pf) (λ r w', r.1 = true → ∃ l k, Forall2 in_requested (gpios_in (config w)) l ∧
    w' = w_field gpios_in k l w ∧ r.2 = add_entries pf (omap in_entry l)) w.
Proof.
  intros Hd. unfold gpio_request_inputs. apply wp_bind, wp_gets.
  apply (add_nodes_all gpios_in (λ _, True)); [by intros ?? []|done|by apply Forall_true|].
  intros l1 n l2 k w' pf' Hn _. apply wp_bind, wp_gets, wp_bind, wp_deref_id_mid; [done|]. apply wp_bind.
  eapply wp_mono; [by apply gpio_request_input_wp|]. intros ok w1 Hok. destruct ok; [|by apply wp_ret].
  destruct (Hok eq_refl) as (n' & k' & Hr & ->). pose proof Hr as (Hp & _). apply wp_bind.
  rewrite <- Hp. eapply wp_deref_mid; [by eapply NoDup_mid|]. apply wp_ret. intros _. by exists n', k'.
Qed.

(** A device is opened, or is left out of the table. *)
Definition dev_opened (n n' : node t_input_device) : Prop :=
  n_ptr n' = n_ptr n ∧ n_id n' = n_id n ∧ ∃ fd, n_data n' = (n_data n) <| dev_fd := fd |>.

Definition dev_entry (n : node t_input_device) : option t_poll_fd :=
  if dev_fd (n_data n) <? 0 then None else Some (PollFd (dev_fd (n_data n)) POLL_IN PFD_TYPE_INPUT).

Lemma input_device_open_wp w pf :
  NoDup (ptrs (input_devices (config w))) →
  wp (input_device_open pf) (λ r w', r.1 = true → ∃ l k, Forall2 dev_opened (input_devices (config w)) l ∧
    w' = w_field input_devices k l w ∧ r.2 = add_entries pf (omap dev_entry l)) w.
Proof.
  intros Hd. unfold input_device_open. apply wp_bind, wp_gets.
  apply (add_nodes_all input_devices (λ _, True)); [by intros ?? []|done|by apply Forall_true|].
  intros l1 n l2 k w' pf' Hn _. apply wp_bind, wp_deref_mid; [done|]. apply wp_bind, wp_sys_field.
  intros fd k' _. apply wp_bind. eapply (wp_upd_mid input_devices); [by intros|done|].
  apply wp_ret. intros _. eexists _, k'. split; [|split; [done|]].
  - split_and!; [done..|]. by exists fd.
  - unfold dev_entry. cbn. by destruct (fd <? 0).
Qed.

(** A timer is armed; its interval must fit into an [int] as milliseconds. *)
Definition timer_opened (n n' : node t_timer_definition) : Prop :=
  n_ptr n' = n_ptr n ∧ n_id n' = n_id n ∧ ∃ fd, n_data n' = (n_data n) <| td_fd := fd |>.

Definition timer_entry (n : node t_timer_definition) : option t_poll_fd :=
  Some (PollFd (td_fd (n_data n)) POLL_IN PFD_TYPE_TIMER_EV).

Definition short_interval (n : node t_timer_definition) : Prop :=
  1 ≤ interval (n_data n) ∧ interval (n_data n) * 1000 ≤ INT_MAX.

Lemma int_mul_wp a b (Q : Z → world K → Prop) w :
  INT_MIN ≤ a * b ≤ INT_MAX → Q (a * b) w → wp (int_mul a b) Q w.
Proof.
  intros Hab. unfold int_mul. rewrite (proj2 (Z.leb_le _ _)) by apply Hab.
  rewrite (proj2 (Z.leb_le _ _)) by apply Hab. done.
Qed.

Lemma timer_set_kern fd timeout_ms interval_ms w :
  wp (timer_set fd timeout_ms interval_ms) (λ ok w', ok = true → ∃ k, w' = w_kern k w) w.
Proof.
  unfold timer_set. apply wp_bind, wp_sys. intros rc k _. destruct (rc =? -1).
  - apply wp_bind. unfold close_fd. by destruct (-1 <? fd).
  - apply wp_ret. intros _. by exists k.
Qed.

Lemma timer_ev_open_wp w pf :
  NoDup (ptrs (timer_definitions (config w))) → Forall short_interval (timer_definitions (config w)) →
  wp (timer_ev_open pf) (λ r w', r.1 = true → ∃ l k, Forall2 timer_opened (timer_definitions (config w)) l ∧
    w' = w_field timer_definitions k l w ∧ r.2 = add_entries pf (omap timer_entry l)) w.
Proof.
  intros Hd Hs. unfold timer_ev_open. apply wp_bind, wp_gets.
  apply (add_nodes_all timer_definitions short_interval); [by intros ?? []|done|done|].
  intros l1 n l2 k w' pf' Hn [Hi Hm]. apply wp_bind, wp_sys_field. intros fd k' _. apply wp_bind.
  eapply (wp_upd_mid timer_definitions); [by intros|done|]. destruct (fd <? 0); [by apply wp_ret|].
  set (n1 := n <| n_data ::= _ |>). apply wp_bind.
  eapply (wp_deref_mid _ l1 n1); [by eapply NoDup_mid|].
  apply wp_bind. unfold INT_MAX in Hm.
  destruct (calc_starttime_spec (start_hour (n_data n1)) (start_minute (n_data n1)) (interval (n_data n1))
              (w_field timer_definitions k' (l1 ++ n1 :: l2) w')) as (r & k2 & _ & _ & Hrun & _ & _ & Hr & _).
  { cbn. unfold INT_MAX. lia. }
  unfold wp at 1. rewrite Hrun. cbn [interval n_data n1] in Hr.
  apply wp_bind, int_mul_wp; [unfold INT_MIN, INT_MAX; cbn in Hr; lia|].
  apply wp_bind, int_mul_wp; [unfold INT_MIN, INT_MAX; cbn; lia|].
  apply wp_bind. eapply wp_mono; [apply timer_set_kern|]. intros ok w2 Hok.
  destruct ok; [|by apply wp_ret]. destruct (Hok eq_refl) as [k3 ->]. apply wp_ret. intros _.
  exists n1, k3. split; [|by destruct w']. split_and!; [done..|]. by exists fd.
Qed.

(** ** The GPIOs *)

(** C32: gpio_init before the loop, with a chip configured: when it succeeds every GPIO keeps its
    number, every input has a line request and its descriptor, in the order of
    the list, is in the poll table as long as there is room; every output has a
    line request; nothing else of the configuration but the chip has changed.
    Without a chip no GPIO is left. It never follows an invalid pointer. *)
Theorem gpio_init_spec w :
  update_pollfds w = true →
  NoDup (ptrs (gpios_in (config w))) → NoDup (ptrs (gpios_out (config w))) →
  ∃ ok pf w', gpio_init [] w = Done ((ok, pf), w') ∧
    (ok = true → ∃ ins outs c k,
      w' = w <| kern := k |> <| config ::= λ cfg, cfg <| gpios_in := ins |> <| gpios_out := outs |> <| chip := c |> |> ∧
      (chip_path (config w) ≠ [] ∧ is_Some c ∧ Forall2 in_requested (gpios_in (config w)) ins ∧
       Forall2 out_requested (gpios_out (config w)) outs ∧ pf = add_entries [] (omap in_entry ins) ∨
       chip_path (config w) = [] ∧ ins = [] ∧ outs = [] ∧ pf = [])).
Proof.
  intros Hup Hi Ho.
  assert (Hwp : wp (gpio_init []) (λ r w', r.1 = true → ∃ ins outs c k,
      w' = w <| kern := k |> <| config ::= λ cfg, cfg <| gpios_in := ins |> <| gpios_out := outs |> <| chip := c |> |> ∧
      (chip_path (config w) ≠ [] ∧ is_Some c ∧ Forall2 in_requested (gpios_in (config w)) ins ∧
       Forall2 out_requested (gpios_out (config w)) outs ∧ r.2 = add_entries [] (omap in_entry ins) ∨
       chip_path (config w) = [] ∧ ins = [] ∧ outs = [] ∧ r.2 = [])) w).
  2:{ apply wp_run in Hwp as ([ok pf] & w' & Hrun & Hp). by exists ok, pf, w'. }
  unfold gpio_init. apply wp_bind, wp_gets. destruct (chip_path (config w)) as [|c0 path] eqn:Ep.
  { cbn. apply wp_bind. eapply wp_mono; [apply (freed_gpios_config_clear (D:=untracked))|]. intros _ w1 Hf%freed_world; [|done].
    apply wp_ret. intros _. exists [], [], (chip (config w)), (kern w1). rewrite Hf. split; [|by right].
    destruct w as [[] ? u ?]. cbn in Hup. by subst u. }
  rewrite (proj2 (Z.ltb_lt _ _)) by (cbn; lia). apply wp_bind. unfold gpio_open_chip.
  apply wp_bind, wp_gets, wp_bind, wp_sys. intros c k _. apply wp_bind, wp_modify, wp_ret.
  destruct c as [c|]; [|by apply wp_ret]. rewrite bool_decide_eq_true_2 by done. cbn [negb].
  set (w1 := (w <| kern := k |>) <| config ::= _ |>). apply wp_bind.
  eapply wp_mono; [by apply gpio_set_outputs_wp|]. intros ok w2 Hok. destruct ok; [|by apply wp_ret].
  destruct (Hok eq_refl) as (outs & k2 & Houts & ->). cbn [negb].
  eapply wp_mono; [by apply gpio_request_inputs_wp|]. intros r w3 Hr Ht.
  destruct (Hr Ht) as (ins & k3 & Hins & -> & Hpf). exists ins, outs, (Some c), k3.
  split; [by destruct w as [[]]|]. left. by split_and!.
Qed.
End nodes.

(** ** What the start-up leaves alone, also when it fails *)

Section quiet.
Context `{Kernel K} `{Build}.
Implicit Types (w : world K).

Definition same_http w w' : Prop :=
  http_suspended (config w') = http_suspended (config w) ∧ http_requests w' = http_requests w.

Definition quiet {A} (m : M K A) : Prop := ∀ w a w', m w = Done (a, w') → same_http w w'.

Lemma quiet_ret {A} (a : A) : quiet (mret a).
Proof. by intros w b w' [= <- <-]. Qed.

Lemma quiet_bind {A B} (m : M K A) (f : A → M K B) : quiet m → (∀ a, quiet (f a)) → quiet (mbind f m).
Proof.
  intros Hm Hf w b w'. unfold mbind, M_bind. destruct (m w) as [[a w1]|] eqn:E; [|done].
  intros E'. apply Hm in E as [? ?]. apply Hf in E' as [? ?]. split; congruence.
Qed.

Lemma quiet_gets {A} (f : t_config → A) : quiet (gets f).
Proof. by intros w b w' [= <- <-]. Qed.

Lemma quiet_sys {A} (f : K → A * K) : quiet (sys f).
Proof. intros w b w'. unfold sys. destruct (f (kern w)). by intros [= <- <-]. Qed.

Lemma quiet_sys_ f : quiet (sys_ f).
Proof. by intros w b w' [= <- <-]. Qed.

Lemma quiet_ask {A} (f : K → A) : quiet (ask f).
Proof. by intros w b w' [= <- <-]. Qed.

Lemma quiet_undefined {A} : quiet (undefined (A:=A)).
Proof. done. Qed.

Lemma quiet_modify f : (∀ c, http_suspended (f c) = http_suspended c) → quiet (modify f).
Proof. intros Hf w b w' [= <- <-]. split; [apply Hf|done]. Qed.

Lemma quiet_update : quiet set_update_pollfds.
Proof. by intros w b w' [= <- <-]. Qed.

Lemma quiet_deref {A} (l : t_config → t_list A) p : quiet (deref l p).
Proof. intros w b w'. unfold deref. destruct (list_deref _ _); [|done]. by intros [= <- <-]. Qed.

Lemma quiet_deref_id {A} (l : t_config → t_list A) p : quiet (deref_id l p).
Proof. intros w b w'. unfold deref_id. destruct (list_deref _ _); [|done]. by intros [= <- <-]. Qed.

Lemma quiet_add_nodes ps (f : positive → list t_poll_fd → M K (bool * list t_poll_fd)) pf :
  (∀ p pf, quiet (f p pf)) → quiet (add_nodes ps f pf).
Proof.
  intros Hf. revert pf. induction ps as [|p ps IH]; intros pf; [apply quiet_ret|].
  apply quiet_bind; [done|]. intros [[] pf']; [done|apply quiet_ret].
Qed.

Lemma quiet_all_nodes ps (f : positive → M K bool) : (∀ p, quiet (f p)) → quiet (all_nodes ps f).
Proof.
  intros Hf. induction ps as [|p ps IH]; [apply quiet_ret|].
  apply quiet_bind; [done|]. intros []; [done|apply quiet_ret].
Qed.

Lemma quiet_for_each {A} (xs : list A) (f : A → M K unit) : (∀ x, quiet (f x)) → quiet (for_each xs f).
Proof.
  intros Hf. induction xs as [|x xs IH]; [apply quiet_ret|]. by apply quiet_bind.
Qed.

Lemma wp_quiet {PE : Endings} {A} (m : M K A) (Q : A → world K → Prop) w :
  quiet m → wp m Q w → wp m (λ a w', Q a w' ∧ same_http w w') w.
Proof. intros Hq. unfold wp. destruct (m w) as [[a w']|] eqn:E; [|done]. by apply Hq in E. Qed.
End quiet.

Create HintDb quiet.
#[local] Hint Resolve quiet_ret quiet_gets quiet_sys quiet_sys_ quiet_ask quiet_undefined quiet_update
  quiet_deref quiet_deref_id : quiet.
#[local] Hint Extern 1 (quiet (modify _)) => by apply quiet_modify : quiet.

(** Follows the structure of the computation. *)
Ltac quiet :=
  repeat match goal with
  | |- ∀ _, _ => intros ?
  | |- quiet _ => solve [auto with quiet nocore]
  | |- quiet (mbind _ _) => apply quiet_bind
  | |- quiet (add_nodes _ _ _) => apply quiet_add_nodes
  | |- quiet (all_nodes _ _) => apply quiet_all_nodes
  | |- quiet (for_each _ _) => apply quiet_for_each
  | |- quiet (let _ := _ in _) => cbv zeta
  | |- quiet (match ?x with _ => _ end) => destruct x
  end.

Section quiet_start.
Context `{Kernel K} `{Build}.

Lemma quiet_close_fd fd : quiet (K:=K) (close_fd fd).
Proof. unfold close_fd. quiet. Qed.
#[local] Hint Resolve quiet_close_fd : quiet.

Lemma quiet_line_name chip gpio rc append : (∀ n, quiet (append n)) → quiet (K:=K) (line_name chip gpio rc append).
Proof. unfold line_name. quiet. Qed.
#[local] Hint Extern 2 (quiet (line_name _ _ _ _)) => apply quiet_line_name; intros; by apply quiet_modify : quiet.

Lemma quiet_gpio_init pf : quiet (K:=K) (gpio_init pf).
Proof.
  unfold gpio_init, gpio_open_chip, gpio_set_outputs, gpio_set_output, gpio_request_inputs, gpio_request_input,
    gpios_config_clear, clear_nodes, gpio_in_data_clear, gpio_out_data_clear, release, upd_in, upd_out. quiet.
Qed.

Lemma quiet_input_device_open pf : quiet (K:=K) (input_device_open pf).
Proof. unfold input_device_open, upd_device. quiet. Qed.

Lemma quiet_timer_ev_open pf : quiet (K:=K) (timer_ev_open pf).
Proof. unfold timer_ev_open, calc_starttime, int_mul, timer_set, upd_timer. quiet. Qed.
End quiet_start.

(** ** From the configuration to the loop *)

Section main.
Context `{Kernel K} `{Build} `{BL : !BuildLaws} `{KL : !KernelLaws K}.
Implicit Types (w : world K) (k : K).

(** The table fits, and its timers are those of the configuration. *)
Definition table_ok (timers : t_list t_timer_definition) (poll_fds : list t_poll_fd) : Prop :=
  Z.of_nat (length poll_fds) ≤ MAX_FDS ∧
  Forall (λ e, pfd_type e = PFD_TYPE_TIMER_EV → ∃ n, n ∈ timers ∧ td_fd (n_data n) = pfd_fd e) poll_fds.

Lemma add_entry_cases pf e : add_entry pf e = pf ∨ add_entry pf e = pf ++ [e] ∧ Z.of_nat (length pf) ≠ MAX_FDS.
Proof.
  unfold add_entry, event_poll_fd_add. destruct (Z.eqb_spec (Z.of_nat (length pf)) MAX_FDS); [by left|].
  right. by destruct e.
Qed.

Lemma table_ok_add timers pf e :
  table_ok timers pf →
  (pfd_type e = PFD_TYPE_TIMER_EV → ∃ n, n ∈ timers ∧ td_fd (n_data n) = pfd_fd e) →
  table_ok timers (add_entry pf e).
Proof.
  intros [Hl Hf] He. destruct (add_entry_cases pf e) as [-> | [-> Hn]]; [done|]. split.
  - rewrite length_app. simpl. lia.
  - apply Forall_app. split; [done|]. by constructor.
Qed.

Lemma table_ok_adds timers pf es :
  table_ok timers pf →
  Forall (λ e, pfd_type e = PFD_TYPE_TIMER_EV → ∃ n, n ∈ timers ∧ td_fd (n_data n) = pfd_fd e) es →
  table_ok timers (add_entries pf es).
Proof.
  intros Hpf Hes. revert pf Hpf. induction Hes as [|e es He _ IH]; intros pf Hpf; [done|].
  apply IH. by apply table_ok_add.
Qed.

(** Entries are never taken out. *)
Lemma add_entry_elem pf e e0 : e0 ∈ pf → e0 ∈ add_entry pf e.
Proof. destruct (add_entry_cases pf e) as [-> | [-> _]]; [done|]. intros ?. apply elem_of_app. by left. Qed.

Lemma then_wp {PE : Endings} {A} (stop : A) (m : M K (bool * list t_poll_fd)) (next : list t_poll_fd → M K A) (Q : A → world K → Prop) w :
  wp m (λ r w', if r.1 then wp (next r.2) Q w' else Q stop w') w → wp (then_ stop m next) Q w.
Proof.
  intros Hm. unfold then_. apply wp_bind. eapply wp_mono; [exact Hm|].
  by intros [[] pf] w' Hw'; [|apply wp_ret].
Qed.

Lemma then_add_wp {PE : Endings} {A} (stop : A) pf fd type ev (next : list t_poll_fd → M K A) (Q : A → world K → Prop) w :
  Q stop w →
  (add_entry pf (PollFd fd ev type) = pf ++ [PollFd fd ev type] →
   wp (next (add_entry pf (PollFd fd ev type))) Q w) →
  wp (then_add stop (event_poll_fd_add pf fd type ev) next) Q w.
Proof.
  intros Hn Hm. unfold then_add. unfold add_entry in Hm. cbn [pfd_fd pfd_type pfd_events] in Hm.
  unfold event_poll_fd_add in *. destruct (_ =? _); cbn [fst snd] in *; [by apply wp_ret|by apply Hm].
Qed.

(** The shape of the state before a client has connected; no poll table is up to
    date with it. *)
Definition start_shape (ins outs devs : list positive) (timers : t_list t_timer_definition) : shape :=
  Shape [] ins outs devs timers (PollView [] [] [(0, 0, 0)]) (started script_tids).

Lemma keeps_luavm_sync_init {PE : Endings} {FE : FileEndings K PE} q s : keeps (inv q s) luavm_sync_init.
Proof.
  unfold luavm_sync_init. keep_step; [keep|]. destruct (_ =? 0); [keep|]. keep_step; [keep|]. keep_step; [keep|].
  destruct a0 as [vm|]; [|keep].
  apply (keeps_lua_run _ _ _ _ _ (file_returns K)); [by intros Hc k|apply permit_file|intros ?; keep].
Qed.

Lemma keeps_server_socket_create {PE : Endings} q s : keeps (inv q s) server_socket_create.
Proof. unfold server_socket_create. keep. Qed.

(** Signals come from one descriptor only. *)
Definition signal_entries (sfd : Z) (poll_fds : list t_poll_fd) : Prop :=
  Forall (λ e, pfd_type e = PFD_TYPE_SIGNAL → pfd_fd e = sfd) poll_fds.

Lemma signal_entries_other sfd es : Forall (λ e, pfd_type e ≠ PFD_TYPE_SIGNAL) es → signal_entries sfd es.
Proof. intros Hes. eapply Forall_impl; [exact Hes|]. by intros e Hn ?. Qed.

Lemma signal_entries_add sfd pf e :
  signal_entries sfd pf → (pfd_type e = PFD_TYPE_SIGNAL → pfd_fd e = sfd) → signal_entries sfd (add_entry pf e).
Proof.
  intros Hpf He. destruct (add_entry_cases pf e) as [-> | [-> _]]; [done|].
  apply Forall_app. split; [done|]. by constructor.
Qed.

Lemma signal_entries_adds sfd pf es :
  signal_entries sfd pf → signal_entries sfd es → signal_entries sfd (add_entries pf es).
Proof.
  intros Hpf Hes. revert pf Hpf. induction Hes as [|e es He _ IH]; intros pf Hpf; [done|].
  apply IH. by apply signal_entries_add.
Qed.

(** The invariant, and a table with an entry of each of the given types. *)
Record opened sfd sh (types : list pfd_types) (poll_fds : list t_poll_fd) w : Prop := {
  op_inv : inv None sh w;
  op_table : table_ok (sh_timers sh) poll_fds;
  op_signal : signal_entries sfd poll_fds;
  op_watched t : t ∈ types → ∃ e, e ∈ poll_fds ∧ pfd_type e = t;
}.

Lemma opened_frame sfd sh types pf w w' : opened sfd sh types pf w → inv None sh w' → opened sfd sh types pf w'.
Proof. intros [_ ? ? ?] ?. by constructor. Qed.

Lemma opened_add sfd sh types pf e w :
  opened sfd sh types pf w → pfd_type e ≠ PFD_TYPE_TIMER_EV → (pfd_type e = PFD_TYPE_SIGNAL → pfd_fd e = sfd) →
  opened sfd sh types (add_entry pf e) w.
Proof.
  intros [Hw Ht Hs He] Hn Hsig. constructor; [done|by apply table_ok_add|by apply signal_entries_add|]. intros t (e0 & ? & ?)%He.
  exists e0. split; [by apply add_entry_elem|done].
Qed.

Lemma then_add_opened {PE : Endings} {A} (stop : A) sfd sh types pf fd type ev (next : list t_poll_fd → M K A) (Q : A → world K → Prop) w :
  opened sfd sh types pf w → type ≠ PFD_TYPE_TIMER_EV → (type = PFD_TYPE_SIGNAL → fd = sfd) → Q stop w →
  (∀ pf', opened sfd sh (type :: types) pf' w → wp (next pf') Q w) →
  wp (then_add stop (event_poll_fd_add pf fd type ev) next) Q w.
Proof.
  intros Hw Ht Hsig Hs Hn. apply then_add_wp; [done|]. intros E. apply Hn.
  destruct (opened_add sfd sh types pf (PollFd fd ev type) w Hw Ht Hsig) as [Hi Htab Hse He]. constructor; [done..|].
  intros t [-> | ?]%elem_of_cons; [|auto]. exists (PollFd fd ev type). split; [|done]. rewrite E.
  apply elem_of_app. right. by left.
Qed.

(** The result of the start-up from its [poll_fds] on. *)
Definition serving sfd sh types (r : option (list t_poll_fd)) w : Prop :=
  match r with
  | None => suspended_ok (config w) (http_requests w)
  | Some pf => opened sfd sh types pf w
  end.

Lemma stopped sfd sh types w : inv None sh w → serving sfd sh types None w.
Proof. by intros []. Qed.

Lemma start_httpd_wp {PE : Endings} sfd sh types pf w :
  opened sfd sh types pf w → wp (start_httpd pf) (serving sfd sh types) w.
Proof.
  intros Hw. unfold start_httpd. apply wp_bind, wp_gets. destruct (0 <? _); [|by apply wp_ret].
  apply wp_bind. unfold httpd_start. do 2 (apply wp_bind, wp_gets). apply wp_sys. intros daemon k _.
  apply wp_bind, wp_modify. set (w1 := _ <| config ::= _ |>).
  assert (Hw1 : opened sfd sh types pf w1) by (eapply opened_frame; [exact Hw|]; destruct Hw; by eapply inv_same_core).
  assert (Hs : serving sfd sh types None w1) by (by destruct Hw1; eapply stopped).
  destruct daemon as [daemon|]; [|by apply wp_ret]. apply wp_bind, wp_ask.
  destruct (MHD_epoll_fd _ _) as [fd|]; [|by apply wp_ret]. destruct (fd =? -1); [by apply wp_ret|].
  apply wp_ret. by apply (opened_add _ _ _ _ (PollFd fd _ PFD_TYPE_HTTPD)).
Qed.

Lemma main_listen_wp {PE : Endings} sfd sh types pf w :
  opened sfd sh types pf w → wp (main_listen pf) (serving sfd sh (PFD_TYPE_CONNECT :: types)) w.
Proof.
  intros Hw. unfold main_listen. apply wp_bind.
  eapply wp_mono; [apply (keeps_server_socket_create None sh); apply Hw|]. intros fd w1 Hw1.
  destruct (fd =? -1); [by apply wp_ret, (stopped sfd sh)|].
  eapply then_add_opened; [by eapply opened_frame|done|done|by eapply stopped|]. intros pf' Hpf'. by apply start_httpd_wp.
Qed.

(** The daemon watches for signals, messages of scripts and connections. *)
Definition watch_types : list pfd_types := [PFD_TYPE_CONNECT; PFD_TYPE_LUA_ASYNC; PFD_TYPE_SIGNAL].

Definition watched (poll_fds : list t_poll_fd) : Prop :=
  ∀ t, t ∈ watch_types → ∃ e, e ∈ poll_fds ∧ pfd_type e = t.

Lemma main_serve_wp {PE : Endings} {FE : FileEndings K PE} sfd sh pf w :
  opened sfd sh [] pf w → signal_fd (config w) = sfd → wp (main_serve pf) (λ r, serving sfd sh watch_types r.2) w.
Proof.
  intros Hw Hsig. unfold main_serve. apply wp_bind, wp_gets.
  eapply then_add_opened; [exact Hw|done|by intros _|by destruct Hw; eapply stopped|]. intros pf1 Hw1. apply wp_bind.
  eapply wp_mono; [apply (keeps_luavm_sync_init None sh); apply Hw1|]. intros ok w2 Hw2.
  destruct ok; [|by apply wp_ret, (stopped sfd sh)]. cbn [negb]. apply wp_bind, wp_sys. intros efd k _. cbv zeta.
  set (w3 := w2 <| kern := k |>). assert (Hw3 : opened sfd sh [PFD_TYPE_SIGNAL] pf1 w3).
  { eapply opened_frame; [exact Hw1|]. by eapply inv_same_core. }
  apply wp_bind. eapply wp_mono with (Q := serving sfd sh watch_types); [|by intros r w4 Hr; apply wp_ret].
  eapply then_add_opened; [exact Hw3|done|done|by destruct Hw3; eapply stopped|]. intros pf2 Hw4. by apply main_listen_wp.
Qed.

(** A loop of the start-up keeps the addresses, and what it keeps of each node. *)
Lemma Forall2_ptrs {A} (R : node A → node A → Prop) l l' :
  (∀ n n', R n n' → n_ptr n' = n_ptr n) → Forall2 R l l' → ptrs l' = ptrs l.
Proof. intros HR Hl. induction Hl as [|n n' l l' Hn _ IH]; [done|]. unfold ptrs in *. simpl. by rewrite (HR _ _ Hn), IH. Qed.

Lemma Forall2_nodes_ok {A} (R : node A → node A → Prop) (P Q : node A → Prop) l l' :
  (∀ n n', R n n' → n_ptr n' = n_ptr n) → (∀ n n', R n n' → P n → Q n') →
  Forall2 R l l' → nodes_ok P l → NoDup (ptrs l') ∧ Forall Q l'.
Proof.
  intros HR HQ Hl [Hd HP]. rewrite (Forall2_ptrs R l l' HR Hl). split; [done|]. clear Hd.
  induction Hl as [|n n' l l' Hn _ IH]; [done|]. apply Forall_cons in HP as [Hp HP]. constructor; eauto.
Qed.

Lemma Forall2_elem_l {A} (R : node A → node A → Prop) l l' n' : Forall2 R l l' → n' ∈ l' → ∃ n, n ∈ l ∧ R n n'.
Proof.
  intros Hl. induction Hl as [|m m' l l' Hm _ IH]; [by intros ?%not_elem_of_nil|].
  intros [-> | Hn]%elem_of_cons; [by exists m; split; [left|]|].
  destruct (IH Hn) as (n & ? & ?). exists n. split; [by right|done].
Qed.

Definition line_name_ok {A} (name : A → bytes) (n : node A) : Prop := one_line (name (n_data n)).

(** After the timers are open, before any script has run. *)
Lemma opened_inv c w ins outs devs timers :
  config_ok c → clients (config w) = [] → http_suspended (config w) = [] → update_pollfds w = true →
  gpios_in (config w) = ins → gpios_out (config w) = outs →
  input_devices (config w) = devs → timer_definitions (config w) = timers →
  scripts w = started script_tids →
  NoDup (ptrs ins) ∧ Forall (line_name_ok in_name) ins → NoDup (ptrs outs) ∧ Forall (line_name_ok out_name) outs →
  Forall2 dev_opened (input_devices c) devs → Forall2 timer_opened (timer_definitions c) timers →
  inv None (start_shape (ptrs ins) (ptrs outs) (ptrs devs) timers) w.
Proof.
  intros Hc Hcl Hsu Hup Ei Eo Ed Et Hsc [Hni Hi] [Hno Ho] Hdev Htim.
  destruct (Forall2_nodes_ok dev_opened (λ n, one_line (dev_name (n_data n)) ∧ dev_fd (n_data n) = -1) (line_name_ok dev_name) _ _ ltac:(by intros ?? (? & _))
              ltac:(intros n n' (_ & _ & fd & E) [? _]; unfold line_name_ok; by rewrite E) Hdev (ok_dev _ Hc))
    as [Hnd Hd].
  destruct (Forall2_nodes_ok timer_opened (λ n, timer_ok (n_data n)) (λ n, length (weekdays (n_data n)) = 7%nat ∧ one_line (td_name (n_data n)))
              _ _ ltac:(by intros ?? (? & _))
              ltac:(intros n n' (_ & _ & fd & E) (_ & _ & _ & ? & ? & _); by rewrite E) Htim (ok_timers _ Hc))
    as [_ Ht].
  constructor; unfold names_ok; rewrite ?Hcl, ?Hsu, ?Ei, ?Eo, ?Ed, ?Et; cbn; try done; try constructor; try done.
Qed.

Lemma entry_types {A} (entry : node A → option t_poll_fd) (t : pfd_types) l :
  (∀ n e, entry n = Some e → pfd_type e = t) → Forall (λ e, pfd_type e = t) (omap entry l).
Proof.
  intros He. induction l as [|n l IH]; simpl; [constructor|].
  destruct (entry n) as [e|] eqn:E; [|done]. constructor; eauto.
Qed.

Lemma table_ok_start pf ins devs timers l :
  pf = add_entries [] (omap in_entry ins) ∨ pf = [] → Forall2 timer_opened timers l →
  table_ok l (add_entries (add_entries pf (omap dev_entry devs)) (omap timer_entry l)).
Proof.
  intros Hpf Hl. assert (Hok : table_ok l pf).
  { assert (table_ok l []) by (split; [done|constructor]). destruct Hpf as [-> | ->]; [|done].
    apply table_ok_adds; [done|]. eapply Forall_impl; [by apply (entry_types _ PFD_TYPE_GPIO); intros n e [= <-]|].
    intros e ->. done. }
  apply table_ok_adds; [apply table_ok_adds; [done|]|].
  - eapply Forall_impl; [apply (entry_types _ PFD_TYPE_INPUT)|by intros e ->].
    intros n e. unfold dev_entry. destruct (_ <? 0); [done|]. by intros [= <-].
  - assert (Hin : Forall (λ n, n ∈ l) l) by (by apply Forall_forall).
    revert Hin. generalize l at 2 4. intros l'. induction l' as [|n l' IH]; [constructor|].
    intros [Hn Hl']%Forall_cons. cbn. constructor; [|by apply IH]. intros _. by exists n.
Qed.

Lemma signal_start sfd pf ins devs l :
  pf = add_entries [] (omap in_entry ins) ∨ pf = [] →
  signal_entries sfd (add_entries (add_entries pf (omap dev_entry devs)) (omap timer_entry l)).
Proof.
  assert (Hall : ∀ es t, Forall (λ e, pfd_type e = t) es → t ≠ PFD_TYPE_SIGNAL → signal_entries sfd es).
  { intros es t Hes Ht. apply signal_entries_other. eapply Forall_impl; [exact Hes|]. by intros e ->. }
  intros Hpf. apply signal_entries_adds; [apply signal_entries_adds|].
  - destruct Hpf as [-> | ->]; [|constructor]. apply signal_entries_adds; [constructor|].
    apply (Hall _ PFD_TYPE_GPIO); [|done]. apply entry_types. by intros n e [= <-].
  - apply (Hall _ PFD_TYPE_INPUT); [|done]. apply entry_types. intros n e. unfold dev_entry.
    destruct (_ <? 0); [done|]. by intros [= <-].
  - apply (Hall _ PFD_TYPE_TIMER_EV); [|done]. apply entry_types. by intros n e [= <-].
Qed.

(** The result of [main_init]. *)
Definition init_done sfd (r : option t_mygpiod_queue * option (list t_poll_fd)) w : Prop :=
  ∃ ins outs devs timers, serving sfd (start_shape ins outs devs timers) watch_types r.2 w.

Lemma main_serve_init {PE : Endings} {FE : FileEndings K PE} sfd ins outs devs timers pf w :
  opened sfd (start_shape ins outs devs timers) [] pf w → signal_fd (config w) = sfd →
  wp (main_serve pf) (init_done sfd) w.
Proof.
  intros Hw Hs. eapply wp_mono; [by eapply main_serve_wp|]. intros r w' Hr. by exists ins, outs, devs, timers.
Qed.

(** A step of the start-up that reports its success, and leaves connections alone. *)
Lemma then_quiet {PE : Endings} sfd (m : M K (bool * list t_poll_fd))
    (next : list t_poll_fd → M K (option t_mygpiod_queue * option (list t_poll_fd)))
    (P : list t_poll_fd → world K → Prop) w :
  http_suspended (config w) = [] → quiet m → wp (PE := no_endings) m (λ r w', r.1 = true → P r.2 w') w →
  (∀ pf w', P pf w' → http_suspended (config w') = [] → wp (next pf) (init_done sfd) w') →
  wp (then_ (None, None) m next) (init_done sfd) w.
Proof.
  intros Hs Hq Hm%wp_permit Hn. apply then_wp. eapply wp_mono; [by apply wp_quiet|].
  intros [[] pf] w' [HP [Hh _]]; [by apply Hn; [apply HP|rewrite Hh]|].
  exists [], [], [], []. cbn. unfold suspended_ok. rewrite Hh, Hs. constructor.
Qed.

(** What gpio_init leaves of the lists and of the table. *)
Definition gpio_ready c (pf : list t_poll_fd) w : Prop :=
  ∃ ins outs ch k,
    w = world_start (c <| gpios_in := ins |> <| gpios_out := outs |> <| chip := ch |>) k true ∧
    (NoDup (ptrs ins) ∧ Forall (line_name_ok in_name) ins) ∧ (NoDup (ptrs outs) ∧ Forall (line_name_ok out_name) outs) ∧
    (pf = add_entries [] (omap in_entry ins) ∨ pf = []).

Lemma gpio_init_wp c k :
  config_ok c → wp (gpio_init []) (λ r w', r.1 = true → gpio_ready c r.2 w') (world_start c k true).
Proof.
  intros Hc. destruct (gpio_init_spec (world_start c k true)) as (ok & pf & w1 & Hrun & Hok);
    [done|apply (ok_in _ Hc)|apply (ok_out _ Hc)|].
  unfold wp. rewrite Hrun. intros Ht. destruct (Hok Ht) as (ins & outs & ch & k1 & E1 & Hgpio). clear Hrun Hok.
  exists ins, outs, ch, k1. split; [done|].
  destruct Hgpio as [(_ & _ & Hin & Hout & ->) | (_ & -> & -> & ->)]; [|by split_and!; [apply NoDup_nil_2|constructor|apply NoDup_nil_2|constructor|right]].
  split; [|split; [|by left]].
  - eapply (Forall2_nodes_ok in_requested); [by intros ?? []| |exact Hin|exact (ok_in _ Hc)].
    intros n n' (_ & _ & req & k' & name & Hn & E) (_ & _ & _ & _ & _ & _ & _ & _ & Hname).
    unfold line_name_ok. rewrite E. cbn. by rewrite Hname.
  - eapply (Forall2_nodes_ok out_requested); [by intros ?? []| |exact Hout|exact (ok_out _ Hc)].
    intros n n' (_ & _ & req & name & Hn & E) (_ & _ & _ & Hname). unfold line_name_ok. rewrite E. cbn.
    by rewrite Hname.
Qed.

Lemma main_init_wp {PE : Endings} {FE : FileEndings K PE} c k :
  config_ok c → Forall short_interval (timer_definitions c) → wp main_init (init_done (signal_fd c)) (world_start c k true).
Proof.
  intros Hc Hs. unfold main_init.
  apply (then_quiet _ _ _ (gpio_ready c)); [apply (ok_suspended _ Hc)|apply quiet_gpio_init|by apply gpio_init_wp|].
  intros pf w1 (ins & outs & ch & k1 & E1 & Hins & Houts & Hpf) Hs1.
  assert (Ed : input_devices (config w1) = input_devices c) by (by rewrite E1).
  apply (then_quiet _ _ _ (λ pf2 w2, ∃ l k, Forall2 dev_opened (input_devices (config w1)) l ∧
    w2 = w_field input_devices k l w1 ∧ pf2 = add_entries pf (omap dev_entry l))); [done|apply quiet_input_device_open|
    apply input_device_open_wp; rewrite Ed; apply (ok_dev _ Hc)|].
  intros pf2 w2 (devs & k2 & Hdev & E2 & ->) Hs2. rewrite Ed in Hdev.
  assert (Et : timer_definitions (config w2) = timer_definitions c) by (by rewrite E2, E1).
  apply (then_quiet _ _ _ (λ pf3 w3, ∃ l k, Forall2 timer_opened (timer_definitions (config w2)) l ∧
    w3 = w_field timer_definitions k l w2 ∧ pf3 = add_entries (add_entries pf (omap dev_entry devs)) (omap timer_entry l))); [done|apply quiet_timer_ev_open|
    apply timer_ev_open_wp; rewrite Et; [apply (ok_timers _ Hc)|done]|].
  intros pf3 w3 (timers & k3 & Htim & E3 & ->) Hs3. rewrite Et in Htim.
  assert (Ew : config w3 = c <| gpios_in := ins |> <| gpios_out := outs |> <| chip := ch |>
             <| input_devices := devs |> <| timer_definitions := timers |>) by (by rewrite E3, E2, E1).
  eapply main_serve_init; [constructor|by rewrite Ew].
  - eapply (opened_inv c); rewrite ?Ew; try done; [apply Hc|apply Hc|by rewrite E3, E2, E1..].
  - by eapply table_ok_start.
  - by eapply signal_start.
  - by intros t ?%not_elem_of_nil.
Qed.

(** What was held when the start-up failed, and is released. *)
Definition released_ok `{!Descriptors K} (q : option t_mygpiod_queue) (w0 : world K) (released : option (world K)) : Prop :=
  ∃ w, released = Some w ∧ config w = cleared (config w0) ∧
    ∀ fd, fd ∈ held (config w0) ++ queue_fds q → 0 ≤ fd → fd ∉ open_fds (kern w).

(** What [main] has done when its start-up has ended. *)
Definition outcome_ok `{!Descriptors K} (c : t_config) (buffered : bool) k (r : main_outcome) : Prop :=
  match r with
  | MainUsage _ _ => False
  | MainExit rc released => rc = EXIT_FAILURE ∧
      if buffered then ∃ q w0, main_init (world_start c k true) = Done ((q, None), w0) ∧ released_ok q w0 released
      else released_ok None (world_start c k false) released
  | MainLoop st _ => buffered = true ∧ boot st ∧ watched (l_init st) ∧ signal_entries (signal_fd c) (l_init st)
  end.

Lemma opened_boot sfd ins outs devs timers pf w :
  opened sfd (start_shape ins outs devs timers) watch_types pf w →
  boot (Loop w pf pf) ∧ watched pf ∧ signal_entries sfd pf.
Proof.
  intros [Hw [Hl Ht] Hs He]. split; [|by split]. destruct Hw. cbn in *.
  assert (Hcl : clients (config w) = []) by (by apply (map_eq_nil n_ptr)).
  constructor; cbn; rewrite ?inv_in, ?inv_out, ?inv_dev, ?inv_timers; try done.
  intros Ha. destruct (inv_sync Ha) as [|Hv]; [done|]. exfalso. unfold view in Hv. by rewrite Hcl in Hv.
Qed.

Lemma intervals_short c :
  config_ok c → Forall (λ n, interval (n_data n) * 1000 ≤ INT_MAX) (timer_definitions c) →
  Forall short_interval (timer_definitions c).
Proof.
  intros Hc Hs. apply Forall_forall. intros n Hn. split.
  - apply (proj1 (Forall_forall _ _) (proj2 (ok_timers _ Hc)) n Hn).
  - apply (proj1 (Forall_forall _ _) Hs n Hn).
Qed.

Lemma main_fails_released `{!Descriptors K} q w :
  suspended_ok (config w) (http_requests w) →
  ∃ released, main_fails q w = Done (MainExit EXIT_FAILURE released) ∧ released_ok q w released.
Proof.
  intros Hs. pose proof (freed_main_exit q w Hs) as Hex. apply wp_run in Hex as ([] & w' & Hexit & [Hcl _ _ _ Hf]).
  unfold main_fails. rewrite Hexit. eexists. split; [done|]. by exists w'.
Qed.

(** The start-up may end in lua_file alone. *)
Definition file_endings : Endings := λ e,
  match e with ScriptStopped _ => ¬ file_returns K | _ => False end.

#[export] Instance file_endings_file : FileEndings K file_endings.
Proof. by intros how Hf. Qed.

(** C2: From the command line to the loop: when [get_config] accepts the files of
    the configuration and no timer has an interval of 2147484 seconds or more,
    [main] follows no invalid pointer, every loop of the start-up ends and nothing
    overflows. It gives up with EXIT_FAILURE, as it does when setvbuf fails, and
    then nothing that it had opened for the configuration stays open; or it enters
    its loop in a state in which all that is proved of reachable states holds,
    with a table of at most 149 descriptors in which signals, script messages and
    connections are waited for, signals on the descriptor of the configuration
    alone. Only a lua_file that does not come back (it exits, or does not end)
    prevents this: an error of it is caught. *)
Theorem main_enters_loop `{!Descriptors K} argv path buffered signals level file_of dir_of c k :
  main_args argv = inl path →
  get_config (make_signalfd signals.1 signals.2) level (file_of path) dir_of = Some (Some c) →
  Forall (λ n, interval (n_data n) * 1000 ≤ INT_MAX) (timer_definitions c) →
  (∃ r, main argv buffered signals level file_of dir_of k = Done r ∧ outcome_ok c buffered k r) ∨
  (∃ how, main argv buffered signals level file_of dir_of k = Stop (ScriptStopped how) ∧ ¬ file_returns K).
Proof.
  intros Hargs Hget Hs. pose proof (get_config_reads _ _ _ _ _ Hget) as Hc.
  pose proof (intervals_short c Hc Hs) as Hi.
  unfold main. rewrite Hargs, Hget. destruct buffered; cbn [negb].
  - pose proof (main_init_wp (PE := file_endings) c k Hc Hi) as Hwp.
    apply wp_cases in Hwp as [([q r] & w & Hrun & ins & outs & devs & timers & Hent)|([] & Hrun & He)]; try done; rewrite Hrun.
    2:{ right. by eexists. }
    left. destruct r as [pf|].
    + eexists. split; [done|]. split; [done|]. exact (opened_boot _ _ _ _ _ _ _ Hent).
    + destruct (main_fails_released q w Hent) as (rel & -> & Hrel). eexists. split; [done|]. split; [done|]. by exists q, w.
  - left. destruct (main_fails_released None (world_start c k false)) as (rel & -> & Hrel).
    { unfold suspended_ok. cbn. rewrite (ok_suspended _ Hc). constructor. }
    by eexists.
Qed.
End main.

(** ** Witnesses *)

Lemma calc_starttime_spec_witness :
  ∃ r k now tms, calc_starttime 7 30 86400 sim_world = Done (r, w_kern k sim_world) ∧
    time (kern sim_world) = (now, k) ∧ localtime_r now k = Some tms ∧ 0 ≤ r < 86400 ∧
    (86400 | now + r - mktime (tms <| tm_hour := 7 |> <| tm_min := 30 |> <| tm_sec := 0 |>) k).
Proof. apply (calc_starttime_spec 7 30 86400 sim_world). unfold INT_MAX. lia. Defined.

Lemma gpio_init_spec_witness :
  ∃ ok pf w', gpio_init [] sim_world = Done ((ok, pf), w') ∧ ok = true ∧ pf = [PollFd 11 3 PFD_TYPE_GPIO].
Proof.
  destruct (gpio_init_spec sim_world) as (ok & pf & w' & Hrun & _); [reflexivity| | |].
  - repeat constructor. intros []%not_elem_of_nil.
  - repeat constructor. intros []%not_elem_of_nil.
  - exists ok, pf, w'. split; [exact Hrun|]. revert Hrun. vm_compute. by intros [= <- <- _].
Defined.

(** A configuration file, an input and an output, and a timer. *)
Definition start_file (interval : string) : bytes :=
  bs "chip = /dev/gpiochip0" ++ [LF] ++ bs "timer_ev = wake:6:30:" ++ bs interval ++ bs ":*:gpiotoggle:4" ++ [LF].

(** The file at the default path. *)
Definition start_files (interval : string) (path : bytes) : option bytes :=
  if strcmp0 path (bs "/etc/mygpiod.conf") then Some (start_file interval) else None.

Definition start_dir (name : bytes) : option (list dirent) :=
  if strcmp0 name CFG_GPIO_DIR then Some [Dirent true (bs "17.in") (Some []); Dirent true (bs "4.out") (Some [])]
  else Some [].

Definition start_config (interval : string) : option (option t_config) :=
  get_config 3 6 (Some (start_file interval)) start_dir.

Definition timer_intervals (c : option (option t_config)) : option (list Z) :=
  match c with
  | Some (Some c) => Some (map (λ n, interval (n_data n)) (timer_definitions c))
  | _ => None
  end.

(** The descriptors that the daemon of this file waits for. *)
Definition start_types (r : outcome (@main_outcome sim)) : option (list pfd_types) :=
  match r with
  | Done (MainLoop st _) => Some (map pfd_type (l_init st))
  | _ => None
  end.

Definition start_loaded : t_config :=
  match start_config "1d" with Some (Some c) => c | _ => sim_config end.

Lemma sim_file_returns : file_returns sim.
Proof. by intros vm f k. Qed.

Lemma main_enters_loop_witness :
  start_types (main [bs "mygpiod"] true (0, 3) 6 (start_files "1d") start_dir sim_start) =
    Some [PFD_TYPE_GPIO; PFD_TYPE_TIMER_EV; PFD_TYPE_SIGNAL; PFD_TYPE_LUA_ASYNC; PFD_TYPE_CONNECT; PFD_TYPE_HTTPD] ∧
  (∃ r, main [bs "mygpiod"] true (0, 3) 6 (start_files "1d") start_dir sim_start = Done r ∧
     outcome_ok start_loaded true sim_start r) ∧
  ∃ r, main [bs "mygpiod"; bs "my.conf"] false (0, 3) 6 (λ _, Some (start_file "1d")) start_dir sim_start = Done r ∧
    outcome_ok start_loaded false sim_start r.
Proof.
  split; [vm_compute; reflexivity|split].
  - destruct (main_enters_loop [bs "mygpiod"] (bs "/etc/mygpiod.conf") true (0, 3) 6 (start_files "1d") start_dir start_loaded sim_start)
      as [Hr|(how & _ & [])]; [reflexivity|vm_compute; reflexivity| |exact Hr|apply sim_file_returns].
    apply (bool_decide_unpack _). vm_compute. exact I.
  - destruct (main_enters_loop [bs "mygpiod"; bs "my.conf"] (bs "my.conf") false (0, 3) 6 (λ _, Some (start_file "1d")) start_dir
             start_loaded sim_start) as [Hr|(how & _ & [])]; [reflexivity|vm_compute; reflexivity| |exact Hr|apply sim_file_returns].
    apply (bool_decide_unpack _). vm_compute. exact I.
Defined.

(** An interval of five weeks, which the configuration accepts, overflows when it
    is turned into milliseconds. *)
Lemma timer_interval_overflows :
  timer_intervals (start_config "5w") = Some [3024000] ∧
  main [bs "mygpiod"] true (0, 3) 6 (start_files "5w") start_dir sim_start = Stop InvalidPointer.
Proof. split; vm_compute; reflexivity. Qed.
