(* ===== verification/Lifetime.v ===== *)
(** * The life of the daemon

    From the command line through any number of iterations of the loop to the
    exit code: the start-up, the loop and the release put together, and what scripts
    can do to it. *)

From S2P Require Import Prelude CLib Lists MsgQueue Config Kernel Sim Http EventLoop Release Invariant InvLoop.
From S2P Require Import ConfigParse ConfigSpec Start Daemon ReleaseSpec StartSpec.

Section lifetime.
Context `{Kernel K} `{D : !Descriptors K} `{Build} `{BL : !BuildLaws} `{KL : !KernelLaws K}.
Implicit Types (w : world K) (st : @loop_state K).

(** The only descriptor that an iteration looks after: the first that is ready. *)
Definition first_ready (poll_fds : list t_poll_fd) (revents : list Z) (e : t_poll_fd) : Prop :=
  ∃ i r, poll_fds !! i = Some e ∧ revents !! i = Some r ∧ r ≠ 0 ∧ ∀ j, (j < i)%nat → revents !! j = Some 0.

Lemma first_ready_skip e0 poll_fds revents e : first_ready (e0 :: poll_fds) (0 :: revents) e ↔ first_ready poll_fds revents e.
Proof.
  split; intros (i & r & He & Hr & Hn & Hb).
  - destruct i as [|i]; [by injection Hr as <-|]. exists i, r. split_and!; try done.
    intros j Hj. apply (Hb (S j)). lia.
  - exists (S i), r. split_and!; try done. intros [|j] Hj; [done|]. apply Hb. lia.
Qed.

Lemma first_ready_head e0 r poll_fds revents e : r ≠ 0 → first_ready (e0 :: poll_fds) (r :: revents) e ↔ e = e0.
Proof.
  intros Hr. split.
  - intros ([|i] & r' & He & _ & _ & Hb); [by injection He|].
    by injection (Hb 0%nat ltac:(lia)).
  - intros ->. exists 0%nat, r. split_and!; try done. intros j Hj. lia.
Qed.

(** Whatever a handler returns, only a signal ends the loop. *)
Lemma delegate_go fd revents type w go w' :
  event_delegate fd revents type w = Done (go, w') → (go = false ↔ type = PFD_TYPE_SIGNAL).
Proof.
  assert (Ht : ∀ A (m : M K A), (_ ← m; mret true) w = Done (go, w') → go = true).
  { intros A m. unfold mbind, M_bind. destruct (m w) as [[a w1]|]; [|done]. by intros [= <- _]. }
  unfold event_delegate. destruct type; try (by intros [= <- _]); by intros ->%Ht.
Qed.

Lemma read_delegate_go poll_fds revents w go w' :
  length revents = length poll_fds →
  event_read_delegate (zip poll_fds revents) w = Done (go, w') →
  (go = false ↔ ∃ e, first_ready poll_fds revents e ∧ pfd_type e = PFD_TYPE_SIGNAL).
Proof.
  revert revents. induction poll_fds as [|e0 poll_fds IH]; intros [|r revents]; try done; cbn [zip event_read_delegate zip_with].
  - intros _ [= <- <-]. split; [done|]. by intros (e & (i & r & He & _) & _).
  - intros [= Hlen]. destruct (Z.eqb_spec r 0) as [->|Hr]; intros Hrun.
    + rewrite (IH revents Hlen Hrun). by setoid_rewrite first_ready_skip.
    + rewrite (delegate_go _ _ _ _ _ _ Hrun). setoid_rewrite first_ready_head; [|done]. split; [by eexists|].
      by intros (e & -> & ?).
Qed.

Lemma loop_init_constant st0 st : rtc loop_step st0 st → l_init st = l_init st0.
Proof. induction 1 as [|st0 st1 st [] _ IH]; [done|]. by rewrite IH. Qed.

(** The descriptors that the loop adds are none for signals. *)
Lemma signal_entries_table sfd init pf : table_of init pf → signal_entries sfd init → signal_entries sfd pf.
Proof.
  intros (_ & dyn & -> & Hd) Hi. apply Forall_app. split; [done|]. apply signal_entries_other.
  eapply Forall_impl; [exact Hd|]. intros e He Ht. unfold is_dynamic in He. rewrite Ht in He. by destruct He as [|[|[|]]].
Qed.

(** An iteration, in the words of [event_loop_never_stuck]. *)
Lemma event_loop_runs st revents w :
  loop_inv st → length revents = length (l_poll_fds (loop_refresh st)) →
  rtc http_step (l_world (loop_refresh st)) w →
  let iteration := event_read_delegate (zip (l_poll_fds (loop_refresh st)) revents) in
  ((∃ go w', iteration w = Done (go, w')) ∨ ends_with_script iteration w) ∧
  (scripts_harmless → ∃ go w', iteration w = Done (go, w')).
Proof.
  intros Hst Hlen Hhttp iteration. split.
  - destruct (loop_iteration (PE := script_endings) st revents w Hst Hlen Hhttp) as [_ Hwp].
    apply wp_script in Hwp as [(go & w' & ? & _)|?]; eauto.
  - intros [CE LE]%harmless_endings.
    destruct (loop_iteration (PE := no_endings) st revents w Hst Hlen Hhttp) as [_ Hwp].
    apply wp_run in Hwp as (go & w' & ? & _). eauto.
Qed.

(** The loop that [main] enters. *)
Lemma main_loop argv path signals level file_of dir_of c k st0 q :
  main_args argv = inl path →
  get_config (make_signalfd signals.1 signals.2) level (file_of path) dir_of = Some (Some c) →
  Forall (λ n, interval (n_data n) * 1000 ≤ INT_MAX) (timer_definitions c) →
  main argv true signals level file_of dir_of k = Done (MainLoop st0 q) →
  boot st0 ∧ signal_entries (signal_fd c) (l_init st0).
Proof.
  intros Hargs Hget Hs. pose proof (get_config_reads _ _ _ _ _ Hget) as Hc.
  pose proof (main_init_wp (PE := file_endings) c k Hc (intervals_short c Hc Hs)) as Hwp.
  unfold main. rewrite Hargs, Hget. cbn [negb].
  apply wp_cases in Hwp as [([q' r] & w & Hrun & ins & outs & devs & timers & Hent)|(e & -> & _)]; [|done].
  rewrite Hrun. destruct r as [pf|].
  - intros [= <- <-]. destruct (opened_boot _ _ _ _ _ _ _ Hent) as (Hb & _ & Hsig). by split.
  - unfold main_fails. by destruct (main_exit _ _) as [[[] ?]|].
Qed.

End lifetime.

(** ** Witness

    The daemon of the witnesses of StartSpec.v: a client connects, and then the
    signal arrives, together with something for the server socket. *)

Definition life_boot : @loop_state sim * option t_mygpiod_queue :=
  match main [bs "mygpiod"] true (0, 3) 6 (start_files "1d") start_dir sim_start with
  | Done (MainLoop st q) => (st, q)
  | _ => (sim_boot [], None)
  end.

Definition life_connected : @loop_state sim :=
  default life_boot.1 (run_iterations life_boot.1 [[0; 0; 0; 0; POLLIN; 0]]).

