(* ===== verification/ConfigFile.v ===== *)
(** * Writing and reading GPIO files

    The loop over the lines of a configuration file on files in normal form,
    and the round trip for the settings of a GPIO. *)

From S2P Require Import Prelude CLib ParseUtil Sds Lists GpioUtil Config Kernel Timer InputNames.
From S2P Require Import Events Gpio Actions ConfigParse.

(** A character of a key or of a simple value. *)
Definition word_char (c : ascii) : bool := plain_char c && negb (ch c "=") && negb (ch c "#").

Definition word (w : bytes) : Prop := w ≠ [] ∧ Forall (λ c, word_char c = true) w.

(** [key=value] *)
Definition setting (kv : bytes * bytes) : bytes := kv.1 ++ "="%char :: kv.2.

Definition render (kvs : list (bytes * bytes)) : bytes := unlines (map setting kvs).

Lemma word_char_inv c :
  word_char c = true → ch c LF = false ∧ ch c "=" = false ∧ ch c "#" = false ∧
    in_cset blank c = false ∧ in_cset blank_cr c = false.
Proof.
  unfold word_char, plain_char. rewrite !andb_true_iff, !negb_true_iff.
  intros [[[[[Hs _] _] Hn] He] Hh].
  assert (Hw : ∀ x, isspace x = true → ch c x = false).
  { intros x Hx. apply ch_false. intros ->. congruence. }
  unfold in_cset, blank, blank_cr. simpl. rewrite Hn. simpl.
  split_and!; try done; [by apply Hw|by rewrite !Hw by done..].
Qed.

(** [word_solve H] closes a goal about the character of [H]. *)
Ltac word_solve H := apply word_char_inv in H; tauto.

Lemma word_trim cset w :
  (∀ c, word_char c = true → in_cset cset c = false) → Forall (λ c, word_char c = true) w →
  sdstrim w cset = w.
Proof.
  intros Hc Hw. apply sdstrim_ends; intros c r ->.
  - apply Forall_cons in Hw as [Hw _]. auto.
  - apply Forall_app in Hw as [_ Hw]. apply Forall_cons in Hw as [Hw _]. auto.
Qed.

Lemma setting_no_lf kv : word kv.1 → word kv.2 → Forall (λ c, ch c LF = false) (setting kv).
Proof.
  intros [_ Hk] [_ Hv]. apply Forall_app. split; [|constructor; [done|]].
  - eapply Forall_impl; [exact Hk|]. intros c Hc. word_solve Hc.
  - eapply Forall_impl; [exact Hv|]. intros c Hc. word_solve Hc.
Qed.

(** The line is read back as it was written, and split at the sign. *)
Lemma setting_line kv fp :
  word kv.1 → word kv.2 → (length (setting kv) < LINE_LENGTH_MAX)%nat →
  sds_getline (setting kv ++ LF :: fp) LINE_LENGTH_MAX
    = (setting kv, Z.of_nat (length (setting kv)), fp) ∧
  sds_splitfirst (setting kv) "=" = [kv.1; kv.2].
Proof.
  intros Hk Hv Hlen. pose proof (setting_no_lf kv Hk Hv) as Hlf.
  destruct kv as [k v]. destruct Hk as [Hk0 Hk], Hv as [Hv0 Hv]. simpl in *. split.
  - unfold sds_getline. rewrite getline_go_line by done. simpl.
    replace (sdstrim (setting (k, v)) blank_cr) with (setting (k, v)); [done|].
    symmetry. apply sdstrim_ends; unfold setting; simpl; intros c r Hs.
    + destruct k as [|c' k]; [done|]. injection Hs as -> _. apply Forall_cons in Hk as [Hk _].
      word_solve Hk.
    + destruct v as [|c' v _] using rev_ind; [done|].
      rewrite app_comm_cons, app_assoc in Hs. apply app_inj_tail in Hs as [_ ->].
      apply Forall_app in Hv as [_ Hv]. apply Forall_cons in Hv as [Hv _]. word_solve Hv.
  - unfold sds_splitfirst, setting. simpl.
    destruct (take_while_sep k "=" v) as [Ht Hd].
    { eapply Forall_impl; [exact Hk|]. intros c Hc. word_solve Hc. }
    rewrite Hd, Ht. rewrite !word_trim; try done; intros c' Hc; word_solve Hc.
Qed.

(** The loop runs the body on every setting, in order. *)
Lemma config_loop_render {S} (step : bytes → bytes → S → S) kvs s fuel :
  Forall (λ kv, word kv.1 ∧ word kv.2 ∧ (length (setting kv) < LINE_LENGTH_MAX)%nat) kvs →
  (length kvs < fuel)%nat →
  config_loop fuel (λ k v s, Some (true, step k v s)) (render kvs) s
  = Some (true, foldl (λ s kv, step kv.1 kv.2 s) s kvs).
Proof.
  intros Hkvs. revert s fuel. induction Hkvs as [|kv kvs (Hk & Hv & Hlen) _ IH]; intros s fuel Hf.
  - destruct fuel; [simpl in Hf; lia|]. done.
  - destruct fuel as [|fuel]; [simpl in Hf; lia|]. cbn [config_loop].
    unfold render. cbn [map]. unfold unlines. cbn [map concat]. rewrite <- app_assoc. cbn [app].
    change (concat _) with (render kvs).
    destruct (setting_line kv (render kvs) Hk Hv Hlen) as [-> Hs].
    rewrite (proj2 (Z.ltb_ge _ _)) by lia. rewrite Hs.
    destruct (setting kv) as [|c r] eqn:E.
    { unfold setting in E. by destruct kv as [[] ?]. }
    assert (Hc : ch c "#" = false).
    { destruct Hk as [Hk0 Hk]. destruct kv as [[|c' k] v]; [done|]. injection E as <- _.
      apply Forall_cons in Hk as [Hk _]. word_solve Hk. }
    rewrite Hc. simpl. apply IH. simpl in Hf. lia.
Qed.

(** ** The settings of a GPIO *)

Definition in_settings (d : t_gpio_in_data) : list (bytes * bytes) := [
  (bs "active_low", mygpio_bool_to_str (active_low d));
  (bs "bias", lookup_bias (bias d));
  (bs "event_request", lookup_event_request (event_request d));
  (bs "debounce", print_u (debounce_period_us d));
  (bs "event_clock", lookup_event_clock (event_clock d));
  (bs "long_press_timeout", print_u (long_press_timeout_ms d));
  (bs "long_press_interval", print_u (long_press_interval_ms d));
  (bs "long_press_event", lookup_event_request (long_press_event d))].

Definition out_settings (d : t_gpio_out_data) : list (bytes * bytes) := [
  (bs "drive", lookup_drive (drive d));
  (bs "value", lookup_gpio_value (value d))].

(** An input as it is after reading a file with settings only. *)
Definition in_configured (d : t_gpio_in_data) : t_gpio_in_data :=
  gpio_in_data_new <| active_low := active_low d |> <| bias := bias d |>
    <| event_request := event_request d |> <| debounce_period_us := debounce_period_us d |>
    <| event_clock := event_clock d |> <| long_press_timeout_ms := long_press_timeout_ms d |>
    <| long_press_interval_ms := long_press_interval_ms d |>
    <| long_press_event := long_press_event d |>.

Lemma word_digits ds : Forall (λ c, isdigit c = true) ds → ds ≠ [] → word ds.
Proof.
  intros Hds Hne. split; [done|]. eapply Forall_impl; [exact Hds|]. intros c Hc. cbn in *.
  unfold word_char, plain_char.
  by rewrite isdigit_not_space, !(isdigit_not_char c) by done.
Qed.

Lemma word_dec w : bool_decide (w ≠ []) && forallb word_char w = true → word w.
Proof.
  intros [Hn%bool_decide_eq_true Hf]%andb_true_iff. split; [done|].
  apply Forall_forall. intros c Hc%list_elem_of_In. by eapply forallb_forall.
Qed.

Lemma setting_length k v n : (length k ≤ 40)%nat → (length v ≤ n)%nat → (n ≤ 900)%nat →
  (length (setting (k, v)) < LINE_LENGTH_MAX)%nat.
Proof.
  intros. unfold setting, LINE_LENGTH_MAX. simpl. rewrite length_app. simpl. lia.
Qed.

Definition fits (kv : bytes * bytes) : Prop :=
  word kv.1 ∧ word kv.2 ∧ (length (setting kv) < LINE_LENGTH_MAX)%nat.

Lemma fits_name k v :
  bool_decide (k ≠ []) && forallb word_char k && (length k <=? 40)%nat = true →
  bool_decide (v ≠ []) && forallb word_char v && (length v <=? 40)%nat = true → fits (k, v).
Proof.
  intros [Hk Hkl]%andb_true_iff [Hv Hvl]%andb_true_iff.
  apply Nat.leb_le in Hkl, Hvl. split_and!; [by apply word_dec..|]. by apply (setting_length _ _ 40); [| |lia].
Qed.

Lemma fits_number k n :
  bool_decide (k ≠ []) && forallb word_char k && (length k <=? 40)%nat = true →
  0 ≤ n ≤ UINT_MAX → fits (k, print_u n).
Proof.
  intros [Hk Hkl]%andb_true_iff Hn. apply Nat.leb_le in Hkl.
  split; [by apply word_dec|split; [apply word_digits; simpl; auto with gpio|]].
  apply (setting_length _ _ 33); [done| |lia]. apply (print_u_length n 32). unfold UINT_MAX in *. lia.
Qed.

(** ** Reading one setting *)

Lemma parse_int_setting n : 0 ≤ n ≤ TIMEOUT_MS_MAX →
  mygpio_parse_int (Some (print_u n)) true 0 TIMEOUT_MS_MAX = Some (n, []).
Proof.
  intros Hn. rewrite <- (app_nil_r (print_u n)).
  apply parse_int_print; auto with gpio; unfold TIMEOUT_MS_MAX, INT_MAX in *; lia.
Qed.

Lemma parse_ulong_setting n : is_u32 n →
  mygpio_parse_ulong (Some (print_u n)) true 0 UINT_MAX = Some (n, []).
Proof.
  unfold is_u32. intros Hn. unfold mygpio_parse_ulong. rewrite <- (app_nil_r (print_u n)).
  rewrite parse_guard_digits, digits_not_minus by auto with gpio.
  rewrite strtoul_digits by (rewrite ?print_u_value by lia; auto with gpio; unfold ULONG_MAX, UINT_MAX in *; lia).
  rewrite print_u_value by lia. cbn [st_value].
  rewrite (u32_small n) by done. by apply parse_finish_ok.
Qed.

(** What each name that the daemon prints sets in the data of an input. *)
Lemma in_kv :
  let kv k v (d : t_gpio_in_data) := (parse_gpio_config_file_in_kv (bs k) v d).2 in
  (∀ d b, kv "active_low" (mygpio_bool_to_str b) d = d <| active_low := b |>) ∧
  (∀ d b, kv "bias" (lookup_bias b) d = d <| bias := b |>) ∧
  (∀ d e, kv "event_request" (lookup_event_request e) d = d <| event_request := e |>) ∧
  (∀ d c, kv "event_clock" (lookup_event_clock c) d = d <| event_clock := c |>) ∧
  (∀ d e, kv "long_press_event" (lookup_event_request e) d = d <| long_press_event := e |>) ∧
  (∀ d n, is_u32 n → kv "debounce" (print_u n) d = d <| debounce_period_us := n |>) ∧
  (∀ d n, 0 ≤ n ≤ TIMEOUT_MS_MAX → kv "long_press_timeout" (print_u n) d
     = d <| long_press_timeout_ms := n |>) ∧
  (∀ d n, 0 ≤ n ≤ TIMEOUT_MS_MAX → kv "long_press_interval" (print_u n) d
     = d <| long_press_interval_ms := n |>).
Proof.
  intros kv. split_and!; try (intros d []; reflexivity);
    intros d n Hn; unfold kv, parse_gpio_config_file_in_kv.
  - by rewrite (parse_ulong_setting _ Hn).
  - by rewrite (parse_int_setting _ Hn).
  - by rewrite (parse_int_setting _ Hn).
Qed.

(** C34: The settings of an input and of an output, written as lines
    [key=value] with the names that the daemon prints, are read back from the
    file: the parser returns the default data with exactly these settings, for
    every value of the enumerations, every 32-bit debounce period and all long
    press times up to 9999 ms. *)
Theorem gpio_file_roundtrip (d : t_gpio_in_data) (o : t_gpio_out_data) :
  is_u32 (debounce_period_us d) → 0 ≤ long_press_timeout_ms d ≤ TIMEOUT_MS_MAX →
  0 ≤ long_press_interval_ms d ≤ TIMEOUT_MS_MAX →
  parse_gpio_config_file parse_gpio_config_file_in_kv gpio_in_data_new
    (Some (render (in_settings d))) = Some (true, in_configured d) ∧
  parse_gpio_config_file parse_gpio_config_file_out_kv gpio_out_data_new
    (Some (render (out_settings o)))
  = Some (true, gpio_out_data_new <| drive := drive o |> <| value := value o |>).
Proof.
  intros Hdb Ht Hi. unfold parse_gpio_config_file.
  assert (Hfuel : ∀ kvs, (length kvs < S (length (render kvs)))%nat).
  { induction kvs as [|kv kvs IH]; [simpl; lia|]. unfold render, unlines in *. simpl.
    rewrite !length_app. simpl. lia. }
  split.
  - rewrite (config_loop_render (λ k v d, (parse_gpio_config_file_in_kv k v d).2)); [|  |apply Hfuel].
    + unfold in_settings. cbn [foldl fst snd].
      destruct in_kv as (-> & -> & -> & H4 & H5 & H6 & H7 & H8).
      by rewrite H6, H4, H7, H8, H5 by done.
    + change (Forall fits (in_settings d)). unfold in_settings, is_u32, TIMEOUT_MS_MAX in *.
      repeat apply Forall_cons_2; try apply Forall_nil_2; lazymatch goal with
        | |- fits (_, print_u _) => apply fits_number; [reflexivity|unfold UINT_MAX in *; lia]
        | |- _ => apply fits_name; [reflexivity|first [by destruct (active_low d) | by destruct (bias d)
            | by destruct (event_request d) | by destruct (event_clock d) | by destruct (long_press_event d)]]
        end.
  - rewrite (config_loop_render (λ k v d, (parse_gpio_config_file_out_kv k v d).2)); [| |apply Hfuel].
    + by destruct o as [[] [] ? ? ?].
    + repeat apply Forall_cons_2; try apply Forall_nil_2;
        (apply fits_name; [reflexivity|by destruct o as [[] [] ? ? ?]]).
Qed.

Lemma gpio_file_roundtrip_witness :
  let d := gpio_in_data_new <| active_low := true |> <| bias := GPIOD_LINE_BIAS_PULL_UP |>
    <| debounce_period_us := 4294967295 |> <| long_press_timeout_ms := 500 |> in
  parse_gpio_config_file parse_gpio_config_file_in_kv gpio_in_data_new
    (Some (render (in_settings d))) = Some (true, d) ∧
  take 31 (render (in_settings d)) = bs "active_low=true" ++ LF :: bs "bias=pull-up" ++ [LF] ++ bs "e" ++ bs "v".
Proof.
  intros d. split; [|reflexivity].
  apply (proj1 (gpio_file_roundtrip d gpio_out_data_new
    ltac:(vm_compute; split; congruence) ltac:(vm_compute; split; congruence)
    ltac:(vm_compute; split; congruence))).
Defined.
