(* ===== verification/Requests.v ===== *)
(** * Requests of clients, to the text of the answer

    How a command line reaches its handler, whatever chunks it arrives in, and
    what the handlers of "gpioget", "gpiolist" and "gpioinfo" answer. *)

From S2P Require Import Prelude CLib ParseUtil Sds Lists GpioUtil Config Kernel Timer InputNames.
From S2P Require Import Events Gpio Actions GpioEvent Protocol Socket EventLoop.
From S2P Require Import Invariant InvOps InvProtocol InvLoop Daemon GpioSpec.

(** The characters that the daemon trims off a line. *)
Definition line_end : bytes := [" "%char; TAB; " "%char; LF].

(** A command line as a client sends it. *)
Definition request (ws : list bytes) : bytes := sdsjoinsds ws (bs " ").

Lemma plain_not_line_end c : plain_char c = true → in_cset line_end c = false.
Proof.
  intros (_ & _ & _ & Hn & Hc)%plain_char_inv. rewrite !orb_false_iff in Hc.
  destruct Hc as [[[Hb Hl] Hcr] Ht]. unfold in_cset, line_end. cbn [existsb].
  by rewrite Hn, Hb, Ht, Hl.
Qed.

Lemma request_last ws : Forall plain_word ws → ∀ c r, request ws = r ++ [c] → in_cset line_end c = false.
Proof.
  intros Hws. induction Hws as [|w ws Hw Hws IH]; intros c r; [by destruct r|].
  destruct ws as [|w' ws].
  - change (request [w]) with w. destruct Hw as [_ Hw]. intros ->.
    apply Forall_app in Hw as [_ Hw]. apply Forall_cons in Hw as [Hw _].
    by apply plain_not_line_end.
  - change (request (w :: w' :: ws)) with (w ++ bs " " ++ request (w' :: ws)).
    intros E. destruct (request (w' :: ws)) as [|x y _] eqn:Er using rev_ind.
    + exfalso. apply Forall_cons in Hws as [[Hne _] _]. destruct w' as [|c' w']; [done|].
      by destruct ws.
    + rewrite !app_assoc in E. apply app_inj_tail in E as [_ ->]. by eapply IH.
Qed.

Lemma trim_request ws :
  Forall plain_word ws → ws ≠ [] → sdstrim (request ws ++ [LF]) line_end = request ws.
Proof.
  intros Hws Hne. unfold sdstrim.
  assert (Hhead : ∃ c r, request ws = c :: r ∧ in_cset line_end c = false).
  { destruct ws as [|w ws]; [done|]. apply Forall_cons in Hws as [[Hw0 Hw] _].
    destruct w as [|c w]; [done|]. apply Forall_cons in Hw as [Hc _].
    exists c. destruct ws; (eexists; split; [reflexivity|by apply plain_not_line_end]). }
  destruct Hhead as (c & r & E & Hc). pose proof (request_last ws Hws) as Hlast.
  rewrite E in *. cbn [app drop_while]. rewrite Hc.
  change (c :: r ++ [LF]) with ((c :: r) ++ [LF]). rewrite reverse_snoc. cbn [drop_while].
  change (in_cset line_end LF) with true. cbv iota.
  destruct (c :: r) as [|x y _] eqn:Er using rev_ind; [done|].
  rewrite reverse_snoc. cbn [drop_while]. rewrite (Hlast x y) by done.
  by rewrite reverse_cons, reverse_involutive.
Qed.

Lemma request_lf ws : existsb (ch LF) (request ws ++ [LF]) = true.
Proof. rewrite existsb_app. by apply orb_true_intro; right. Qed.

Section requests.
Context `{Kernel K} `{Build}.
Implicit Types (w : world K) (p : positive).

(** [w'] differs from [w] in the clients, the environment and the flag. *)
Definition but_clients w w' : Prop :=
  ∃ f k u, w' = (w_clients f w) <| kern := k |> <| update_pollfds := u |>.

Lemma but_clients_config {A} (f : t_config → A) w w' :
  but_clients w w' → (∀ c g, f (c <| clients ::= g |>) = f c) → f (config w') = f (config w).
Proof. intros (g & k & u & ->) Hf. destruct w as [c ? ? ?]. apply (Hf c g). Qed.

(** The line of [p] is taken from its buffer; its timeout may be new. *)
Definition line_taken p w w' : Prop :=
  ∃ f k u, w' = (w_clients (list_upd p f) w) <| kern := k |> <| update_pollfds := u |> ∧
    ∀ d, waiting_events (f d) = waiting_events d ∧ state (f d) = state d.

Lemma line_taken_but p w w' : line_taken p w w' → but_clients w w'.
Proof. intros (f & k & u & -> & _). by exists (list_upd p f), k, u. Qed.

Lemma line_taken_pre p w w' : line_taken p w w' → enqueue_pre w → enqueue_pre w'.
Proof.
  intros (f & k & u & -> & Hf) (Hnd & Hc & Hh).
  change (enqueue_pre _) with (NoDup (ptrs (list_upd p f (clients (config w)))) ∧
    Forall (client_pre (ptrs (devs_of w))) (list_upd p f (clients (config w))) ∧
    Forall (λ n, is_Some (http_requests w !! n_data n)) (http_suspended (config w))).
  rewrite ptrs_upd. split_and!; [done| |done]. apply Forall_upd; [done|]. intros n Hn _.
  destruct Hn as [Hs Hq]. split; unfold queue_short in *; cbn.
  - by rewrite (proj1 (Hf _)).
  - by rewrite (proj1 (Hf _)), (proj2 (Hf _)).
Qed.

(** The lines of an answer, appended in order. *)
Lemma answer_run p ls w :
  (_ ← server_response_start p;
   _ ← for_each ls (server_response_append p);
   server_response_end p) w
  = Done (tt, (w_clients (list_upd p (respond (unlines ls))) w) <| update_pollfds := true |>).
Proof.
  erewrite bind_run by apply start_run.
  assert (Hl : ∀ w, for_each ls (server_response_append p) w
    = Done (tt, w_clients (list_upd p (λ d, d <| buf_out ::= λ b, b ++ unlines ls |>)) w)).
  { clear w. induction ls as [|l ls IH]; intros w; cbn [for_each].
    - by rewrite append_nothing.
    - erewrite bind_run by apply append_run. rewrite IH. by rewrite appends_fuse. }
  erewrite bind_run by apply Hl. rewrite end_run, !w_clients_upd_compose. done.
Qed.

(** ** How a line reaches its handler *)

Lemma read_dispatch p n r k ws (Q : bool → world K → Prop) w :
  list_deref (clients (config w)) p = Some n → state (n_data n) = CLIENT_SOCKET_STATE_READING →
  read_fd (client_fd (n_data n)) BUFFER_SIZE (kern w) = (Some r, k) → r ≠ [] →
  buf_in (n_data n) ++ r = request ws ++ [LF] → Forall plain_word ws → ws ≠ [] →
  (∀ w1 n1, list_deref (clients (config w1)) p = Some n1 → line_taken p w w1 →
     wp (dispatch_command (parse_command (default [] (head ws))) ws p) (λ _, Q true) w1) →
  wp (server_client_read p) Q w.
Proof.
  intros Hn Hst Hr Hne Hbuf Hws Hws0 Hd.
  apply wp_bind. eapply wp_deref; [exact Hn|]. apply wp_bind, wp_sys. intros r' k'.
  rewrite Hr. intros [= <- <-]. destruct r as [|c r]; [done|].
  cbv zeta. rewrite Hbuf. apply wp_bind. unfold wp at 1. rewrite upd_client_run, request_lf.
  apply wp_bind. unfold wp at 1. rewrite upd_client_run, w_clients_upd_compose.
  set (f1 := _ ∘ _). apply wp_bind. eapply wp_deref; [apply deref_upd_clients; exact Hn|].
  apply wp_bind, wp_gets, wp_bind. eapply wp_mono; [apply set_timeout_wp|].
  intros tfd w2 [(Hc2 & Hr2 & Hs2 & _) _]. apply wp_bind. unfold wp at 1. rewrite upd_client_run. apply wp_bind.
  set (f2 := λ d, d <| timeout_fd := tfd |>).
  assert (Hn1 : list_deref (clients (config w2)) p = Some (n <| n_data ::= f1 |>)).
  { rewrite Hc2. by apply deref_upd_clients. }
  pose proof (deref_upd_clients p f2 _ w2 Hn1 :
    list_deref (clients (config (w_clients (list_upd p f2) w2))) p
    = Some (n <| n_data ::= f2 ∘ f1 |>)) as Hn2.
  eapply wp_mono; [|intros ? w' HQ; apply wp_ret; exact HQ].
  unfold server_protocol_handler. apply wp_bind. eapply wp_deref; [exact Hn2|].
  assert (Hline : split_args (buf_in (n_data (n <| n_data ::= f2 ∘ f1 |>))) = ws).
  { change (split_args (sdstrim (request ws ++ [LF]) line_end) = ws).
    rewrite trim_request by done. by apply split_args_words. }
  rewrite Hline. apply wp_bind. unfold wp at 1. rewrite upd_client_run, w_clients_upd_compose.
  destruct ws as [|cmd ws]; [done|]. cbv zeta.
  change (state (n_data (n <| n_data ::= f2 ∘ f1 |>))) with (state (n_data n)). rewrite Hst.
  change (_ && _) with false. cbv iota.
  eapply (Hd _ (n <| n_data ::= (λ d, d <| buf_in := [] |>) ∘ (f2 ∘ f1) |>)).
  - exact (deref_upd_clients p ((λ d, d <| buf_in := [] |>) ∘ f2) _ w2 Hn1).
  - exists ((λ d, d <| buf_in := [] |>) ∘ (f2 ∘ f1)), (kern w2), (update_pollfds w2). split; [|done].
    destruct w2 as [c2 k2 u2 h2 s2]. simpl in *. subst c2 h2 s2. destruct w as [[] ? ? ? ?].
    unfold w_clients. simpl. rewrite list_upd_compose. done.
Qed.

(** ** Answers of the GPIO commands *)

(** [GPIO] is an input or an output of the configuration. *)
Definition configured (c : t_config) (gpio : Z) : Prop :=
  is_Some (list_node_by_id (gpios_in c) gpio) ∨ is_Some (list_node_by_id (gpios_out c) gpio).

Lemma gpio_get_value_run gpio w :
  ∃ v k, gpio_get_value gpio w = Done (v, w <| kern := k |>) ∧
    (configured (config w) gpio → line_value gpio v).
Proof.
  unfold gpio_get_value, configured. erewrite bind_run by done.
  destruct (list_node_by_id (gpios_in (config w)) gpio) as [n|].
  - unfold sys. destruct (gpiod_line_request_get_value _ _ _) as [v k] eqn:E. exists v, k.
    split; [done|]. intros _. eexists _, _. by rewrite E.
  - erewrite bind_run by done. destruct (list_node_by_id (gpios_out (config w)) gpio) as [n|].
    + unfold sys. destruct (gpiod_line_request_get_value _ _ _) as [v k] eqn:E. exists v, k.
      split; [done|]. intros _. eexists _, _. by rewrite E.
    + exists GPIOD_LINE_VALUE_ERROR, (kern w). split; [by destruct w|]. by intros [[] |[]].
Qed.

(** The lines [ls] are appended to the output buffer of [p]. *)
Definition appended p (ls : list bytes) (k : K) w : world K :=
  (w_clients (list_upd p (λ d, d <| buf_out ::= λ b, b ++ unlines ls |>)) w) <| kern := k |>.

Lemma appended_append p ls l k w :
  server_response_append p l (appended p ls k w) = Done (tt, appended p (ls ++ [l]) k w).
Proof.
  rewrite append_run. unfold appended. do 2 f_equal.
  rewrite <- (appends_fuse p ls [l]). by destruct w as [[]].
Qed.

Lemma appended_kern p ls k k' w : (appended p ls k w) <| kern := k' |> = appended p ls k' w.
Proof. by destruct w. Qed.

Lemma appended_config {A} (f : t_config → A) p ls k w :
  (∀ c g, f (c <| clients ::= g |>) = f c) → f (config (appended p ls k w)) = f (config w).
Proof. intros Hf. destruct w as [c ? ? ?]. apply (Hf c). Qed.

(** An answer is begun. *)
Definition started p w : world K := w_clients (list_upd p (λ d, d <| buf_out := [] |>)) w.

Lemma started_append p l w :
  server_response_append p l (started p w) = Done (tt, appended p [l] (kern w) (started p w)).
Proof. rewrite append_run. unfold appended, started. by destruct w. Qed.

(** What an answer of lines [ls] leaves. *)
Lemma appended_end p ls k w :
  server_response_end p (appended p ls k (started p w))
  = Done (tt, (w_clients (list_upd p (respond (unlines ls))) w) <| kern := k |> <| update_pollfds := true |>).
Proof.
  rewrite end_run. unfold appended, started. do 3 f_equal.
  transitivity ((w_clients (list_upd p (λ d, respond (buf_out d) d))
    (w_clients (list_upd p (λ d, d <| buf_out ::= λ b, b ++ unlines ls |>))
      (w_clients (list_upd p (λ d, d <| buf_out := [] |>)) w))) <| kern := k |>); [by destruct w as [[]]|].
  by rewrite !w_clients_upd_compose.
Qed.

(** A GPIO as "gpiolist" shows it: direction, name, number. *)
Definition listed : Type := bytes * bytes * Z.

Definition listed_gpios (c : t_config) : list listed :=
  map (λ n, (bs "in", c_str (in_name (n_data n)), n_id n)) (gpios_in c) ++
  map (λ n, (bs "out", c_str (out_name (n_data n)), n_id n)) (gpios_out c).

Definition listed_lines (e : listed * gpiod_line_value) : list bytes :=
  [bs "gpio:" ++ print_u e.1.2; bs "direction:" ++ e.1.1.1;
   bs "value:" ++ lookup_gpio_value e.2; bs "name:" ++ e.1.1.2].

Lemma gpiolist_entry_run p dir name id ls k w :
  configured (config w) id →
  ∃ v k', gpiolist_entry p dir name id (appended p ls k w)
    = Done (tt, appended p (ls ++ listed_lines (dir, c_str name, id, v)) k' w) ∧ line_value id v.
Proof.
  intros Hc. unfold gpiolist_entry.
  erewrite bind_run by apply appended_append. erewrite bind_run by apply appended_append.
  edestruct (gpio_get_value_run id) as (v & k' & Hv & Hl). erewrite bind_run by exact Hv.
  rewrite appended_kern. erewrite bind_run by apply appended_append. rewrite appended_append.
  exists v, k'. split; [by rewrite <- !app_assoc|]. apply Hl. unfold configured in *.
  by rewrite !(appended_config (λ c, list_node_by_id (_ c) id)) by done.
Qed.

Lemma gpiolist_entries_run {D} (dir : bytes) (nm : D → bytes) p (ns : t_list D) ls k w :
  Forall (λ n, configured (config w) (n_id n)) ns →
  ∃ vs k', for_each ns (λ n, gpiolist_entry p dir (nm (n_data n)) (n_id n)) (appended p ls k w)
    = Done (tt, appended p (ls ++ concat (map listed_lines
        (zip (map (λ n, (dir, c_str (nm (n_data n)), n_id n)) ns) vs))) k' w) ∧
    Forall2 line_value (map n_id ns) vs.
Proof.
  revert ls k. induction ns as [|n ns IH]; intros ls k Hns; cbn [for_each].
  - exists [], k. cbn. rewrite app_nil_r. done.
  - apply Forall_cons in Hns as [Hn Hns].
    destruct (gpiolist_entry_run p dir (nm (n_data n)) (n_id n) ls k w Hn) as (v & k1 & E1 & Hv).
    erewrite bind_run by exact E1.
    edestruct (IH (ls ++ listed_lines (dir, c_str (nm (n_data n)), n_id n, v)) k1 Hns) as (vs & k2 & E2 & Hvs).
    exists (v :: vs), k2. split; [|by constructor]. rewrite E2. cbn [map zip zip_with concat].
    by rewrite <- app_assoc.
Qed.

Definition gpiolist_text (c : t_config) (vs : list gpiod_line_value) : bytes :=
  unlines (bs "OK" :: concat (map listed_lines (zip (listed_gpios c) vs)) ++ [bs "END"]).

Lemma configured_all w :
  Forall (λ n, configured (config w) (n_id n)) (gpios_in (config w)) ∧
  Forall (λ n, configured (config w) (n_id n)) (gpios_out (config w)).
Proof.
  split; apply Forall_forall; intros n Hn; [left|right]; by apply node_by_id_is_Some.
Qed.

Lemma handle_gpiolist_run p w :
  ∃ vs k, handle_gpiolist p w
    = Done (true, (w_clients (list_upd p (respond (gpiolist_text (config w) vs))) w)
                    <| kern := k |> <| update_pollfds := true |>) ∧
    Forall2 line_value (map snd (listed_gpios (config w))) vs.
Proof.
  destruct (configured_all w) as [Hi Ho]. unfold handle_gpiolist.
  erewrite bind_run by apply start_run. fold (started p w).
  erewrite bind_run by apply started_append. set (w0 := started p w).
  assert (Hg : ∀ ls k, gpios_in (config (appended p ls k w0)) = gpios_in (config w) ∧
                       gpios_out (config (appended p ls k w0)) = gpios_out (config w)) by done.
  erewrite bind_run by done. rewrite (proj1 (Hg _ _)).
  destruct (gpiolist_entries_run (bs "in") in_name p (gpios_in (config w)) [bs "OK"] (kern w) w0 Hi)
    as (vs1 & k1 & E1 & Hv1).
  erewrite bind_run by exact E1. erewrite bind_run by done. rewrite (proj2 (Hg _ _)).
  set (ls1 := [bs "OK"] ++ _).
  destruct (gpiolist_entries_run (bs "out") out_name p (gpios_out (config w)) ls1 k1 w0 Ho)
    as (vs2 & k2 & E2 & Hv2).
  erewrite bind_run by exact E2. erewrite bind_run by apply appended_append.
  unfold w0. erewrite bind_run by apply appended_end. exists (vs1 ++ vs2), k2. split.
  - unfold mret, M_ret. do 6 f_equal. unfold gpiolist_text, listed_gpios.
    rewrite zip_with_app by (apply Forall2_length in Hv1; rewrite !length_map in *; done).
    rewrite map_app, concat_app. cbn [app]. by rewrite <- !app_assoc.
  - unfold listed_gpios. rewrite map_app, !map_map. by apply Forall2_app.
Qed.

Definition gpioget_text (v : gpiod_line_value) : bytes :=
  if decide (v = GPIOD_LINE_VALUE_ERROR) then bs "ERROR:Getting GPIO value failed" ++ [LF]
  else unlines [bs "OK"; bs "value:" ++ lookup_gpio_value v; bs "END"].

Lemma parse_gpio_number gpio :
  0 ≤ gpio ≤ GPIOS_MAX → mygpio_parse_uint (Some (print_u gpio)) true 0 GPIOS_MAX = Some (gpio, []).
Proof.
  intros Hg. rewrite <- (app_nil_r (print_u gpio)).
  apply parse_uint_print; auto with gpio; unfold GPIOS_MAX, UINT_MAX in *; lia.
Qed.

Lemma handle_gpioget_run cmd gpio p w :
  0 ≤ gpio ≤ GPIOS_MAX → configured (config w) gpio →
  ∃ v k b, handle_gpioget [cmd; print_u gpio] p w
    = Done (b, (w_clients (list_upd p (respond (gpioget_text v))) w)
                 <| kern := k |> <| update_pollfds := true |>) ∧ line_value gpio v.
Proof.
  intros Hg Hc. destruct (gpio_get_value_run gpio w) as (v & k & E & Hv).
  exists v, k. unfold handle_gpioget. cbn [args_len length arg lookup list_lookup negb].
  change (negb _) with false. cbv iota. cbn [lookup list_lookup].
  rewrite parse_gpio_number by done. erewrite bind_run by exact E. unfold gpioget_text.
  destruct (decide (v = GPIOD_LINE_VALUE_ERROR)).
  - exists false. split; [|auto]. unfold send_error. erewrite bind_run by apply send_run.
    by destruct w as [[]].
  - exists true. split; [|auto].
    erewrite bind_run by apply start_run. fold (started p (w <| kern := k |>)).
    erewrite bind_run by apply started_append. erewrite bind_run by apply appended_append.
    erewrite bind_run by apply appended_append. erewrite bind_run by apply appended_end.
    by destruct w as [[]].
Qed.
End requests.
