(* ===== verification/HttpSpec.v ===== *)
(** * What the HTTP server answers

    The GPIO list of the REST API, the type of every reply, the URLs the GPIO
    routes accept, and long polling from the request to the event. *)

From S2P Require Import Prelude CLib ParseUtil Sds SdsMem SdsFmt SdsJson Json Lists GpioUtil Config Kernel Sim Timer InputNames.
From S2P Require Import Events Gpio Actions GpioEvent Protocol Http Socket EventLoop.
From S2P Require Import Invariant InvOps InvProtocol InvHttp InvLoop Daemon GpioSpec EventSpec Requests.

Lemma plain_key_eq (s : string) :
  forallb (λ c, negb (ch c DQUOTE || ch c BACKSLASH || json_control c)) (bs s) = true → plain_key (bs s).
Proof.
  intros Hs. apply Forall_forall. intros c Hc. rewrite forallb_forall in Hs.
  apply list_elem_of_In, Hs in Hc. by apply negb_true_iff in Hc.
Qed.

(** A literal between quotation marks. *)
Definition quoted (s : bytes) : bytes := [DQUOTE] ++ s ++ [DQUOTE].

Lemma reads_quoted s : plain_key s → reads (quoted s) (JString s).
Proof.
  intros Hs fuel rest Hf _. destruct fuel as [|fuel]; [lia|]. unfold quoted. rewrite <- !app_assoc.
  cbn [app read_value]. change (skip_blank (DQUOTE :: ?r)) with (DQUOTE :: r). cbn iota.
  change (ch DQUOTE DQUOTE) with true. cbv iota. by rewrite read_string_key.
Qed.

Lemma reads_blank s v : reads s v → reads (bs " " ++ s) v.
Proof.
  intros Hs fuel rest Hf Hr. destruct fuel as [|fuel]; [lia|]. rewrite length_app in Hf.
  change (length (bs " ")) with 1%nat in Hf. rewrite <- (Hs (S fuel) rest ltac:(lia) Hr). done.
Qed.

(** ** GET /api/v1/gpio *)

Definition rest_entry_text (e : listed) (v : gpiod_line_value) : bytes :=
  bs "{" ++ (json_member (bs "gpio") (print_u e.2) ++ bs "," ++
             json_member (bs "name") (sds_catjson [] e.1.2) ++ bs "," ++
             json_member (bs "direction") (quoted e.1.1) ++ bs "," ++
             json_member (bs "value") (sds_catjson [] (lookup_gpio_value v))) ++ bs "}".

(** The JSON value that describes a GPIO. *)
Definition rest_entry_json (e : listed) (v : gpiod_line_value) : json :=
  JObject [(bs "gpio", JNumber e.2); (bs "name", json_string e.1.2);
           (bs "direction", JString e.1.1); (bs "value", JString (lookup_gpio_value v))].

Definition listed_ok (e : listed) : Prop := 0 ≤ e.2 ∧ json_safe (c_str e.1.2) ∧ plain_key e.1.1.

Lemma json_safe_value v : json_safe (c_str (lookup_gpio_value v)).
Proof. destruct v; repeat constructor; done. Qed.

Lemma reads_rest_entry e v : listed_ok e → reads (rest_entry_text e v) (rest_entry_json e v).
Proof.
  intros (Hid & Hn & Hd). apply reads_object; [by eexists|].
  apply reads_members_cons; [by apply plain_key_eq|by apply reads_number|].
  apply reads_members_cons; [by apply plain_key_eq|by apply reads_string|].
  apply reads_members_cons; [by apply plain_key_eq|by apply reads_quoted|].
  apply reads_members_one; [by apply plain_key_eq|].
  replace (JString (lookup_gpio_value v)) with (json_string (lookup_gpio_value v)) by (by destruct v).
  apply reads_string, json_safe_value.
Qed.

Section rest.
Context `{Kernel K} `{Build}.
Implicit Types (w : world K) (p : positive).

Lemma rest_gpio_entry_run buffer i id name dir w :
  configured (config w) id →
  ∃ v k, rest_gpio_entry buffer i id name dir w
    = Done ((if i =? 0 then buffer else buffer ++ bs ",") ++ rest_entry_text (dir, name, id) v,
            w <| kern := k |>) ∧ line_value id v.
Proof.
  intros Hc. unfold rest_gpio_entry. destruct (gpio_get_value_run id w) as (v & k & E & Hv).
  erewrite bind_run by exact E. exists v, k. split; [|by apply Hv]. unfold mret, M_ret. do 2 f_equal.
  rewrite !(sds_catjson_app (_ ++ _)). unfold rest_entry_text, json_member, quoted.
  rewrite <- !app_assoc. by destruct (i =? 0).
Qed.

Lemma rest_gpio_entries_run {D} (nm : D → bytes) dir (ns : t_list D) b ss w :
  Forall (λ n, configured (config w) (n_id n)) ns →
  Z.of_nat (length ss + length ns) ≤ UINT_MAX →
  ∃ vs k,
    rest_gpio_entries nm dir ns (b ++ json_join ss) (Z.of_nat (length ss)) w =
      Done (b ++ json_join (ss ++ zip_with rest_entry_text (map (λ n, (dir, nm (n_data n), n_id n)) ns) vs),
            Z.of_nat (length ss + length ns), w <| kern := k |>) ∧
    Forall2 line_value (map n_id ns) vs.
Proof.
  revert ss w. induction ns as [|n ns IH]; intros ss w Hns Hlen; cbn [rest_gpio_entries].
  - exists [], (kern w). simpl. rewrite app_nil_r, Nat.add_0_r. split; [by destruct w|done].
  - apply Forall_cons in Hns as [Hn Hns]. cbn [length] in Hlen.
    destruct (rest_gpio_entry_run (b ++ json_join ss) (Z.of_nat (length ss)) (n_id n) (nm (n_data n)) dir w Hn)
      as (v & k & E & Hv).
    erewrite bind_run by exact E. set (e := rest_entry_text _ v).
    assert (Hb : (if Z.of_nat (length ss) =? 0 then b ++ json_join ss else (b ++ json_join ss) ++ bs ",") ++ e
                 = b ++ json_join (ss ++ [e])).
    { rewrite json_join_snoc. destruct ss as [|s0 ss]; [cbn; by rewrite app_nil_r|].
      change (Z.of_nat (length (s0 :: ss)) =? 0) with false. cbv iota. by rewrite <- !app_assoc. }
    rewrite Hb, u32_small by (unfold is_u32; lia).
    replace (Z.of_nat (length ss) + 1) with (Z.of_nat (length (ss ++ [e]))) by (rewrite length_app; simpl; lia).
    destruct (IH (ss ++ [e]) (w <| kern := k |>)) as (vs & k' & E' & Hvs); [done|rewrite length_app; simpl; lia|].
    exists (v :: vs), k'. rewrite E'. split; [|by constructor]. rewrite <- app_assoc, length_app. cbn [length].
    rewrite <- Nat.add_assoc. by destruct w.
Qed.

(** The GPIOs with their names as they are configured. *)
Definition rest_listed (c : t_config) : list listed :=
  map (λ n, (bs "in", in_name (n_data n), n_id n)) (gpios_in c) ++
  map (λ n, (bs "out", out_name (n_data n), n_id n)) (gpios_out c).

(** Text that a JSON string can hold, with at most ten characters to escape: so
    much is always written inside the buffer ([sds_catjson_len_refines]). *)
Definition json_ok (p : bytes) : Prop := json_safe (c_str p) ∧ escaped (c_str p) ≤ 10.

(** What a usual configuration has: numbers that are not negative, names without
    control characters (but those with an escape) and with at most ten characters
    to escape, fewer than 2^32 entries. *)
Record rest_ready (c : t_config) : Prop := {
  rr_in : Forall (λ n, 0 ≤ n_id n ∧ json_ok (in_name (n_data n))) (gpios_in c);
  rr_out : Forall (λ n, 0 ≤ n_id n ∧ json_ok (out_name (n_data n))) (gpios_out c);
  rr_timers : Forall (λ n, json_ok (td_name (n_data n))) (timer_definitions c);
  rr_gpios : Z.of_nat (length (gpios_in c) + length (gpios_out c)) ≤ UINT_MAX;
  rr_timer_count : Z.of_nat (length (timer_definitions c)) ≤ UINT_MAX;
}.

Lemma rest_listed_ok c : rest_ready c → Forall listed_ok (rest_listed c).
Proof.
  intros [Hi Ho _ _ _]. apply Forall_app; split; apply Forall_map.
  - eapply Forall_impl; [exact Hi|]. intros n [? [? _]]. split; [done|]. split; [done|by apply plain_key_eq].
  - eapply Forall_impl; [exact Ho|]. intros n [? [? _]]. split; [done|]. split; [done|by apply plain_key_eq].
Qed.

Definition rest_gpios_text (entries : list bytes) : bytes :=
  bs "{" ++ (json_member (bs "data") (bs "[" ++ json_join entries ++ bs "]") ++ bs "," ++
             json_member (bs "entries") (print_u (Z.of_nat (length entries)))) ++ bs "}".

Lemma reads_rest_gpios es vs :
  Forall listed_ok es → length es = length vs →
  reads (rest_gpios_text (zip_with rest_entry_text es vs))
    (JObject [(bs "data", JArray (zip_with rest_entry_json es vs)); (bs "entries", JNumber (Z.of_nat (length es)))]).
Proof.
  intros He Hl. apply reads_object; [by eexists|].
  apply reads_members_cons; [by apply plain_key_eq| |].
  - apply reads_array.
    + revert vs Hl. induction He as [|e es He _ IH]; intros [|v vs] Hl; try done. simpl in *.
      constructor; [by apply reads_rest_entry|]. apply IH. lia.
    + clear. revert vs. induction es as [|e es IH]; intros [|v vs]; constructor; [by eexists|apply IH].
  - rewrite length_zip_with_l_eq by done. apply reads_members_one; [by apply plain_key_eq|].
    apply reads_number. lia.
Qed.

Lemma rest_api_gpio_get_run w :
  rest_ready (config w) →
  ∃ vs k, rest_api_gpio_get [] w =
      Done (rest_gpios_text (zip_with rest_entry_text (rest_listed (config w)) vs), true, w <| kern := k |>) ∧
    Forall2 line_value (map snd (rest_listed (config w))) vs.
Proof.
  intros [_ _ _ Hlen _]. destruct (configured_all w) as [Hi Ho]. unfold rest_api_gpio_get.
  erewrite bind_run by done. set (b := [] ++ dq "{'data':[").
  destruct (rest_gpio_entries_run in_name (bs "in") (gpios_in (config w)) b [] w Hi ltac:(simpl; lia))
    as (vs1 & k1 & E1 & Hv1).
  cbn [json_join] in E1. rewrite app_nil_r in E1. erewrite bind_run by exact E1. cbn [app] in *.
  erewrite bind_run by done. set (ss := zip_with rest_entry_text _ vs1).
  assert (Hss : length ss = length (gpios_in (config w))).
  { apply Forall2_length in Hv1. rewrite length_map in Hv1. unfold ss.
    rewrite length_zip_with_l_eq; by rewrite length_map. }
  change (0 + length (gpios_in (config w)))%nat with (length (gpios_in (config w))). rewrite <- Hss.
  destruct (rest_gpio_entries_run out_name (bs "out") (gpios_out (config (w <| kern := k1 |>))) b ss
    (w <| kern := k1 |>)) as (vs2 & k2 & E2 & Hv2); [by destruct w|rewrite Hss; by destruct w|].
  erewrite bind_run by exact E2. exists (vs1 ++ vs2), k2.
  assert (Hl : length (zip_with rest_entry_text (rest_listed (config w)) (vs1 ++ vs2))
    = (length ss + length (gpios_out (config w)))%nat).
  { apply Forall2_length in Hv1, Hv2. rewrite length_map in Hv1, Hv2. destruct w as [c ? ? ?]. simpl in *.
    rewrite length_zip_with_l_eq; unfold rest_listed; rewrite ?length_app, !length_map; lia. }
  split.
  - unfold mret, M_ret, rest_gpios_text. rewrite Hl. unfold rest_listed.
    rewrite zip_with_app by (apply Forall2_length in Hv1; rewrite !length_map in *; done).
    fold ss. unfold b, json_member. destruct w as [c ? ? ?]. simpl config. rewrite <- !app_assoc. done.
  - unfold rest_listed. rewrite map_app, !map_map. destruct w. by apply Forall2_app.
Qed.

(** C21: GET /api/v1/gpio answers 200 with a JSON object that lists every configured
    GPIO, the inputs before the outputs and each in the order of the
    configuration, with its number, its name (quotation marks, backslashes and
    line ends escaped), its direction and the value libgpiod reads from its
    line, and with the number of entries; the request changes nothing of the
    daemon's state. This is for fewer than 2^32 GPIOs and timers, whose names
    contain no control character but those with a short escape and at most ten
    characters that are escaped (more may be written behind the buffer). *)
Theorem rest_gpio_list url args w :
  strcmp0 url (bs "/api/v1/gpio") = true → rest_ready (config w) →
  ∃ body vs k,
    rest_api_handler url HTTP_GET args w = Done (Reply 200 APPLICATION_JSON body, w <| kern := k |>) ∧
    json_text body = Some (JObject
      [(bs "data", JArray (zip_with rest_entry_json (rest_listed (config w)) vs));
       (bs "entries", JNumber (Z.of_nat (length (rest_listed (config w)))))]) ∧
    Forall2 line_value (map snd (rest_listed (config w))) vs.
Proof.
  intros Hu Hr. destruct (rest_api_gpio_get_run w Hr) as (vs & k & E & Hvs).
  eexists _, vs, k. split; [|split; [|exact Hvs]].
  - unfold rest_api_handler, rest_dispatch, rest_route at 1. cbv zeta. rewrite Hu.
    erewrite bind_run by exact E. reflexivity.
  - apply reads_text, reads_rest_gpios; [by apply rest_listed_ok|].
    apply Forall2_length in Hvs. by rewrite length_map in Hvs.
Qed.

(** ** Every reply is JSON *)

(** The two texts in which the code forgot to escape the quotation marks. *)
Definition unescaped_texts : list bytes :=
  [dq "{'error':'Parameter 'timeout' or 'interval' not found or invalid'}";
   dq "{'error':'Parameter 'value' not found'}"].

Definition json_object (s : bytes) : Prop := ∃ m, json_text s = Some (JObject m).

Definition reply_text_ok (s : bytes) : Prop := json_object s ∨ s ∈ unescaped_texts.

Lemma json_object_intro s m : reads s (JObject m) → json_object s.
Proof. intros Hs. exists m. by apply reads_text. Qed.

(** A literal object is read by evaluation. *)
Lemma json_object_lit s m : json_text s = Some (JObject m) → reply_text_ok s.
Proof. intros E. left. by exists m. Qed.

(** An object with one string member. *)
Lemma reads_one_string (k : string) (t : bytes) :
  plain_key (bs k) → json_safe (c_str t) →
  json_object (bs "{" ++ json_member (bs k) (sds_catjson [] t) ++ bs "}").
Proof.
  intros Hk Hp. eapply json_object_intro, reads_object; [by eexists|].
  apply reads_members_one; [done|]. by apply reads_string.
Qed.

Definition post_reply (r : bytes * bool) : Prop := reply_text_ok r.1.

Lemma post_result rc error w :
  reply_text_ok (dq "{'error':'" ++ error ++ dq "'}") → wp (mret (rest_result [] rc error) : M K _) (λ r _, post_reply r) w.
Proof.
  intros He. apply wp_ret. unfold post_reply, rest_result. cbn [fst app].
  destruct rc; [by eapply json_object_lit|done].
Qed.

(** Whatever the first part does, as long as it keeps the invariant. *)
Lemma wp_keeps {A B} s (m : M K A) (f : A → M K B) (Q : B → world K → Prop) w :
  inv None s w → keeps (inv None s) m → (∀ a w', inv None s w' → wp (f a) Q w') → wp (m ≫= f) Q w.
Proof. intros Hw Hm Hf. apply wp_bind. eapply wp_mono; [by apply Hm|]. intros a w' Hw'. by apply Hf. Qed.

Lemma post_toggle s gpio w :
  inv None s w → wp (rest_api_gpio_gpio_toggle [] gpio) (λ r _, post_reply r) w.
Proof.
  intros Hw. apply (wp_keeps s); [done|apply keeps_gpio_toggle_value|]. intros rc w' _.
  apply post_result. by eapply json_object_lit.
Qed.

Lemma post_set s gpio args w :
  inv None s w → wp (rest_api_gpio_gpio_set [] gpio args) (λ r _, post_reply r) w.
Proof.
  intros Hw. unfold rest_api_gpio_gpio_set. destruct (args _) as [v|].
  - destruct (parse_gpio_value v) as [lv []]; [apply wp_ret; by eapply json_object_lit|].
    apply (wp_keeps s); [done|apply keeps_gpio_set_value|]. intros rc w' _.
    apply post_result. by eapply json_object_lit.
  - apply wp_ret. right. by right; left.
Qed.

Lemma post_blink s gpio args w :
  inv None s w → wp (rest_api_gpio_gpio_blink [] gpio args) (λ r _, post_reply r) w.
Proof.
  intros Hw. unfold rest_api_gpio_gpio_blink. cbv zeta.
  assert (Hinv : wp (mret ([] ++ dq "{'error':'Parameter 'timeout' or 'interval' not found or invalid'}", false) : M K _)
            (λ r _, post_reply r) w) by (apply wp_ret; right; by left).
  destruct (args _) as [t|]; [|done]. destruct (args _) as [i|]; [|done].
  destruct (mygpio_parse_int (Some t) _ _ _) as [[ti ?]|]; [|done].
  destruct (mygpio_parse_int (Some i) _ _ _) as [[ii ?]|]; [|done].
  apply (wp_keeps s); [done|apply keeps_gpio_blink|]. intros rc w' _.
  apply post_result. by eapply json_object_lit.
Qed.

Lemma post_gpio_get s gpio w :
  0 ≤ gpio → inv None s w → wp (rest_api_gpio_gpio_get [] gpio) (λ r _, post_reply r) w.
Proof.
  intros Hg Hw. apply (wp_keeps s); [done|apply keeps_gpio_get_value|]. intros v w' _.
  destruct (decide _); [apply wp_ret; by eapply json_object_lit|]. apply wp_ret. left.
  eapply json_object_intro. cbn [fst].
  replace (_ ++ _) with (bs "{" ++ (json_member (bs "gpio") (bs " " ++ print_u gpio) ++ bs "," ++
    json_member (bs "value") (quoted (lookup_gpio_value v))) ++ bs "}")
    by (unfold json_member, quoted; rewrite <- !app_assoc; by destruct v).
  apply reads_object; [by eexists|].
  apply reads_members_cons; [by apply plain_key_eq|by apply reads_blank, reads_number|].
  apply reads_members_one; [by apply plain_key_eq|]. apply reads_quoted. by destruct v; apply plain_key_eq.
Qed.

Lemma json_safe_eq (t : bytes) : forallb (λ c, negb (json_control c)) t = true → json_safe t.
Proof.
  intros Ht. apply Forall_forall. intros c Hc E. rewrite forallb_forall in Ht.
  apply list_elem_of_In, Ht in Hc. by rewrite E in Hc.
Qed.

Lemma reads_options_in name info v gpio :
  0 ≤ gpio → json_safe (c_str (in_name name)) →
  json_object (rest_options_in (dq "{'data':" ++ bs "{" ++ dq "'gpio':" ++ print_u gpio ++ bs "," ++
    dq "'value':" ++ sds_catjson [] (lookup_gpio_value v) ++ bs ",") name info ++ bs "}}").
Proof.
  intros Hg Hn. unfold rest_options_in. cbv zeta. rewrite !(sds_catjson_app (_ ++ _)).
  eapply json_object_intro.
  match goal with |- reads ?t _ => set (text := t) end.
  assert (text = bs "{" ++ json_member (bs "data") (bs "{" ++
    (json_member (bs "gpio") (print_u gpio) ++ bs "," ++
     json_member (bs "value") (sds_catjson [] (lookup_gpio_value v)) ++ bs "," ++
     json_member (bs "name") (sds_catjson [] (in_name name)) ++ bs "," ++
     json_member (bs "direction") (quoted (bs "in")) ++ bs "," ++
     json_member (bs "active_low") (bool_to_str (gpiod_line_info_is_active_low info)) ++ bs "," ++
     json_member (bs "bias") (sds_catjson [] (lookup_bias (gpiod_line_info_get_bias info))) ++ bs "," ++
     json_member (bs "event_request") (sds_catjson [] (lookup_event_request (gpiod_line_info_get_edge_detection info))) ++ bs "," ++
     json_member (bs "is_debounced") (bool_to_str (gpiod_line_info_is_debounced info)) ++ bs "," ++
     json_member (bs "debounce_period_us") (print_d (gpiod_line_info_get_debounce_period_us info)) ++ bs "," ++
     json_member (bs "event_clock") (sds_catjson [] (lookup_event_clock (gpiod_line_info_get_event_clock info)))) ++ bs "}") ++ bs "}") as ->.
  { subst text. unfold json_member, quoted. by rewrite <- !app_assoc. }
  apply reads_object; [by eexists|]. apply reads_members_one; [by apply plain_key_eq|].
  apply reads_object; [by eexists|].
  repeat (apply reads_members_cons || apply reads_members_one; [by apply plain_key_eq|..]).
  all: try apply reads_bool; try apply reads_int; try (by apply reads_number); try (by apply reads_quoted, plain_key_eq).
  all: apply reads_string; try done; apply json_safe_eq.
  all: (by destruct v) || (by destruct (gpiod_line_info_get_bias info)) ||
    (by destruct (gpiod_line_info_get_edge_detection info)) || (by destruct (gpiod_line_info_get_event_clock info)).
Qed.

Lemma reads_options_out name info v gpio :
  0 ≤ gpio → json_safe (c_str (out_name name)) →
  json_object (rest_options_out (dq "{'data':" ++ bs "{" ++ dq "'gpio':" ++ print_u gpio ++ bs "," ++
    dq "'value':" ++ sds_catjson [] (lookup_gpio_value v) ++ bs ",") name info ++ bs "}}").
Proof.
  intros Hg Hn. unfold rest_options_out. cbv zeta. rewrite !(sds_catjson_app (_ ++ _)).
  eapply json_object_intro.
  match goal with |- reads ?t _ => set (text := t) end.
  assert (text = bs "{" ++ json_member (bs "data") (bs "{" ++
    (json_member (bs "gpio") (print_u gpio) ++ bs "," ++
     json_member (bs "value") (sds_catjson [] (lookup_gpio_value v)) ++ bs "," ++
     json_member (bs "name") (sds_catjson [] (out_name name)) ++ bs "," ++
     json_member (bs "direction") (quoted (bs "out")) ++ bs "," ++
     json_member (bs "drive") (sds_catjson [] (lookup_drive (gpiod_line_info_get_drive info)))) ++ bs "}") ++ bs "}") as ->.
  { subst text. unfold json_member, quoted. by rewrite <- !app_assoc. }
  apply reads_object; [by eexists|]. apply reads_members_one; [by apply plain_key_eq|].
  apply reads_object; [by eexists|].
  repeat (apply reads_members_cons || apply reads_members_one; [by apply plain_key_eq|..]).
  all: try (by apply reads_number); try (by apply reads_quoted, plain_key_eq).
  all: apply reads_string; try done; apply json_safe_eq.
  all: (by destruct v) || (by destruct (gpiod_line_info_get_drive info)).
Qed.

Lemma post_options_answer s gpio id settings w :
  inv None s w →
  (∀ info v, json_object (settings (dq "{'data':" ++ bs "{" ++ dq "'gpio':" ++ print_u gpio ++ bs "," ++
    dq "'value':" ++ sds_catjson [] (lookup_gpio_value v) ++ bs ",") info ++ bs "}}")) →
  wp (rest_options_answer [] gpio id settings) (λ r _, post_reply r) w.
Proof.
  intros Hw Hs. apply wp_bind, wp_gets. apply (wp_keeps s); [done|apply keeps_sys|].
  intros [info|] w1 Hw1; [|apply wp_ret; by eapply json_object_lit].
  cbv zeta. apply (wp_keeps s); [done|apply keeps_gpio_get_value|]. intros v w2 _. apply wp_ret. left.
  cbn [fst]. rewrite (sds_catjson_app (_ ++ _)). rewrite <- !app_assoc. cbn [app]. apply Hs.
Qed.

Lemma post_options s gpio w :
  0 ≤ gpio → rest_ready (config w) → inv None s w →
  wp (rest_api_gpio_gpio_options [] gpio) (λ r _, post_reply r) w.
Proof.
  intros Hg [Hi Ho _ _ _] Hw. unfold rest_api_gpio_gpio_options. apply wp_bind, wp_gets.
  destruct (list_node_by_id (gpios_in (config w)) gpio) as [n|] eqn:E.
  { apply (post_options_answer s); [done|]. intros info v. apply reads_options_in; [done|].
    apply list_find_node_Some in E as [Hn _]. rewrite Forall_forall in Hi. by apply Hi. }
  apply wp_bind, wp_gets. destruct (list_node_by_id (gpios_out (config w)) gpio) as [n|] eqn:E'.
  { apply (post_options_answer s); [done|]. intros info v. apply reads_options_out; [done|].
    apply list_find_node_Some in E' as [Hn _]. rewrite Forall_forall in Ho. by apply Ho. }
  apply wp_ret. by eapply json_object_lit.
Qed.

(** ** Timers *)

Definition timer_text (name : bytes) (next : Z) : bytes :=
  bs "{" ++ (json_member (bs "name") (sds_catjson [] name) ++ bs "," ++
             json_member (bs "next") (print_d next)) ++ bs "}".

Definition timer_json (name : bytes) (next : Z) : json :=
  JObject [(bs "name", json_string name); (bs "next", JNumber next)].

Lemma timer_next_run fd w : ∃ next k, timer_get_next_expire_ts fd w = Done (next, w <| kern := k |>).
Proof.
  unfold timer_get_next_expire_ts, sys, mbind, M_bind.
  destruct (timerfd_gettime fd (kern w)) as [[its|] k1]; [|by eexists _, k1].
  simpl. destruct (time k1) as [now k2]. eexists _, k2. by destruct w.
Qed.

Lemma rest_timer_entries_run ns b ss w :
  Z.of_nat (length ss + length ns) ≤ UINT_MAX →
  ∃ nexts k,
    rest_timer_entries ns (b ++ json_join ss) (Z.of_nat (length ss)) w =
      Done (b ++ json_join (ss ++ zip_with timer_text (map (λ n, td_name (n_data n)) ns) nexts),
            Z.of_nat (length ss + length ns), w <| kern := k |>) ∧
    length nexts = length ns.
Proof.
  revert ss w. induction ns as [|n ns IH]; intros ss w Hlen; cbn [rest_timer_entries].
  - exists [], (kern w). simpl. rewrite app_nil_r, Nat.add_0_r. split; [by destruct w|done].
  - cbn [length] in Hlen. cbv zeta.
    assert (∃ next k, timer_get_next_expire_ts (td_fd (n_data n)) w = Done (next, w <| kern := k |>))
      as (next & k & E).
    { apply timer_next_run. }
    erewrite bind_run by exact E. rewrite (sds_catjson_app (_ ++ _)).
    set (e := timer_text (td_name (n_data n)) next).
    rewrite u32_small by (unfold is_u32; lia).
    replace (Z.of_nat (length ss) + 1) with (Z.of_nat (length (ss ++ [e]))) by (rewrite length_app; simpl; lia).
    match goal with |- context [rest_timer_entries ns ?t _] => replace t with (b ++ json_join (ss ++ [e])) end.
    + destruct (IH (ss ++ [e]) (w <| kern := k |>)) as (nexts & k' & E' & Hl); [rewrite length_app; simpl; lia|].
      exists (next :: nexts), k'. rewrite E'. split; [|by simpl; rewrite Hl]. rewrite <- app_assoc, length_app. cbn [length].
      rewrite <- Nat.add_assoc. by destruct w.
    + rewrite json_join_snoc. unfold e, timer_text, json_member. destruct ss as [|s0 ss].
      * cbn [length json_join]. change (Z.of_nat 0 =? 0) with true. cbv iota. rewrite app_nil_r.
        by rewrite <- !app_assoc.
      * change (Z.of_nat (length (s0 :: ss)) =? 0) with false. cbv iota. by rewrite <- !app_assoc.
Qed.

Lemma reads_timers names nexts :
  Forall (λ n, json_safe (c_str n)) names → length names = length nexts →
  reads (bs "{" ++ (json_member (bs "timers") (bs "[" ++ json_join (zip_with timer_text names nexts) ++ bs "]") ++ bs "," ++
             json_member (bs "entries") (print_u (Z.of_nat (length names)))) ++ bs "}")
    (JObject [(bs "timers", JArray (zip_with timer_json names nexts)); (bs "entries", JNumber (Z.of_nat (length names)))]).
Proof.
  intros Hn Hl. apply reads_object; [by eexists|].
  apply reads_members_cons; [by apply plain_key_eq| |].
  - apply reads_array.
    + revert nexts Hl. induction Hn as [|n names Hn _ IH]; intros [|x nexts] Hl; try done. simpl in *.
      constructor; [|apply IH; lia]. apply reads_object; [by eexists|].
      apply reads_members_cons; [by apply plain_key_eq|by apply reads_string|].
      apply reads_members_one; [by apply plain_key_eq|apply reads_int].
    + clear. revert nexts. induction names as [|e es IH]; intros [|v vs]; constructor; [by eexists|apply IH].
  - apply reads_members_one; [by apply plain_key_eq|]. apply reads_number. lia.
Qed.

Lemma post_timerev w :
  rest_ready (config w) → wp (rest_api_timerev_list []) (λ r _, post_reply r) w.
Proof.
  intros [_ _ Ht _ Hl]. apply wp_bind, wp_gets, wp_bind.
  destruct (rest_timer_entries_run (timer_definitions (config w)) ([] ++ dq "{'timers':[") [] w ltac:(simpl; lia))
    as (nexts & k & E & Hn).
  cbn [json_join length] in E. rewrite app_nil_r in E. change (Z.of_nat 0) with 0 in E. unfold wp at 1. rewrite E. apply wp_ret.
  left. eapply json_object_intro. cbn [fst].
  pose proof (reads_timers (map (λ n, td_name (n_data n)) (timer_definitions (config w))) nexts) as Hr.
  rewrite length_map in Hr.
  match goal with |- reads ?t _ => match type of Hr with _ → _ → reads ?u _ => replace t with u end end.
  - apply Hr; [|done]. apply Forall_map. eapply Forall_impl; [exact Ht|]. by intros n [? _].
  - unfold json_member. rewrite <- !app_assoc. done.
Qed.

(** ** The firmware *)

(** The firmware answers with characters a JSON string may contain, at most ten of
    which have to be escaped. *)
Definition vcio_safe : Prop :=
  ∀ cmd w r w', vcgencmd cmd w = Done (r, w') → json_ok r.1.

Lemma vcgencmd_safe_wp `{!KernelLaws K} s cmd w :
  vcio_safe → inv None s w → wp (vcgencmd cmd) (λ r w', json_safe (c_str r.1) ∧ inv None s w') w.
Proof.
  intros Hv Hw. pose proof (vcgencmd_wp None s cmd w Hw) as H1. apply wp_run in H1 as (r & w' & E & Hw' & _).
  unfold wp. rewrite E. split; [by eapply (Hv cmd w)|done].
Qed.

Lemma post_vcio `{!KernelLaws K} s cmd w :
  vcio_safe → inv None s w → wp (rest_api_raspberry_vcio [] cmd) (λ r _, post_reply r) w.
Proof.
  intros Hv Hw. apply wp_bind. eapply wp_mono; [by apply (vcgencmd_safe_wp s)|].
  intros [result rc] w' [Hs _]. apply wp_ret. left. cbn [fst app] in *. rewrite (sds_catjson_app (if rc then _ else _)).
  destruct rc; [exact (reads_one_string "value" result (plain_key_eq "value" eq_refl) Hs)|].
  exact (reads_one_string "error" result (plain_key_eq "error" eq_refl) Hs).
Qed.

(** The members written so far are complete, and the error text is readable. *)
Lemma vcio_go_wp `{!KernelLaws K} s commands b ms result rc w :
  vcio_safe → inv None s w → Forall (λ c, plain_key c.2) commands →
  Z.of_nat (length ms + length commands) ≤ UINT_MAX →
  Forall (λ m, plain_key m.1 ∧ json_safe (c_str m.2)) ms → json_safe (c_str result) →
  let text ms := json_join (map (λ m, json_member m.1 (sds_catjson [] m.2)) ms) in
  wp (vcio_go commands (b ++ text ms) (Z.of_nat (length ms)) result rc)
    (λ r _, json_safe (c_str r.1.2) ∧
       (r.2 = true → ∃ ms', r.1.1 = b ++ text ms' ∧ (length ms + length commands ≤ length ms')%nat ∧
          Forall (λ m, plain_key m.1 ∧ json_safe (c_str m.2)) ms')) w.
Proof.
  intros Hv Hw Hk Hl Hms Hres text. revert ms result rc w Hw Hl Hms Hres.
  induction Hk as [|[cmd key] commands Hkey _ IH]; intros ms result rc w Hw Hl Hms Hres; cbn [vcio_go].
  { apply wp_ret. split; [done|]. intros _. exists ms. split; [done|]. split; [simpl; lia|done]. }
  apply wp_bind. eapply wp_mono; [by apply (vcgencmd_safe_wp s)|]. intros [res rc'] w' [Hs Hw'].
  cbn [fst length] in *. destruct rc'; cbn [negb]; [|by apply wp_ret]. cbv zeta.
  rewrite u32_small by (unfold is_u32; lia).
  set (ms' := ms ++ [(key, res)]).
  replace (Z.of_nat (length ms) + 1) with (Z.of_nat (length ms')) by (unfold ms'; rewrite length_app; simpl; lia).
  match goal with |- wp (vcio_go commands ?t _ _ _) _ _ => replace t with (b ++ text ms') end.
  - eapply wp_mono; [apply IH; [done|unfold ms'; rewrite length_app; simpl; lia| |done]|].
    + unfold ms'. apply Forall_app. split; [done|]. by apply Forall_singleton.
    + intros r w2 [Hr1 Hr2]. split; [done|]. intros E. destruct (Hr2 E) as (ms2 & -> & Hl2 & Hf).
      exists ms2. split; [done|]. split; [|done]. unfold ms' in Hl2. rewrite length_app in Hl2. simpl in Hl2. simpl. lia.
  - unfold ms', text. rewrite map_app. cbn [map]. rewrite json_join_snoc, (sds_catjson_app (_ ++ _)).
    unfold json_member. destruct ms as [|m ms].
    + cbn [length map json_join]. change (Z.of_nat 0 =? 0) with true. cbv iota. rewrite app_nil_r.
      cbn [fst snd]. by rewrite <- !app_assoc.
    + cbn [map]. change (Z.of_nat (length (m :: ms)) =? 0) with false. cbv iota.
      cbn [fst snd]. by rewrite <- !app_assoc.
Qed.

Lemma post_vcio_all `{!KernelLaws K} s w :
  vcio_safe → inv None s w → wp (rest_api_raspberry_vcio_all []) (λ r _, post_reply r) w.
Proof.
  intros Hv Hw. apply wp_bind. eapply wp_mono.
  { pose proof (vcio_go_wp s vcio_commands ([] ++ dq "{'values':{") [] [] false w Hv Hw) as Hg.
    cbn [map json_join length] in Hg. rewrite app_nil_r in Hg. change (Z.of_nat 0) with 0 in Hg.
    apply Hg; [|by vm_compute|constructor|constructor].
    repeat constructor; by apply plain_key_eq. }
  intros [[buffer result] rc] w' [Hs Hms]. cbn [fst snd] in *. apply wp_ret. left. cbn [fst].
  destruct rc.
  - destruct (Hms eq_refl) as (ms & -> & Hlen & Hf). 
    apply (json_object_intro _ [(bs "values", JObject (map (λ m, (m.1, json_string m.2)) ms))]).
    rewrite <- !app_assoc. cbn [app].
    replace (_ ++ _) with (bs "{" ++ json_member (bs "values") (bs "{" ++
      json_join (map (λ m, json_member m.1 (sds_catjson [] m.2)) ms) ++ bs "}") ++ bs "}")
      by (unfold json_member; rewrite <- !app_assoc; done).
    apply reads_object; [by eexists|]. apply reads_members_one; [by apply plain_key_eq|].
    apply reads_object.
    { destruct ms as [|m [|]]; [simpl in Hlen; lia|by eexists|by eexists]. }
    destruct ms as [|m ms]; [simpl in Hlen; lia|]. clear Hlen Hms.
    revert m Hf. induction ms as [|m' ms IH]; intros m Hf; apply Forall_cons in Hf as [[H1 H2] Hf].
    + cbn. apply reads_members_one; [done|by apply reads_string].
    + cbn [map] in *. change (json_join (?a :: ?b :: ?c)) with (a ++ bs "," ++ json_join (b :: c)).
      apply reads_members_cons; [done|by apply reads_string|by apply IH].
  - rewrite (sds_catjson_app (dq _)). exact (reads_one_string "error" result (plain_key_eq "error" eq_refl) Hs).
Qed.

(** ** URLs *)

Lemma match_prefix_spec pattern url r t :
  match_prefix pattern url = Some (r, t) → ∃ a, pattern = a ++ r ∧ url = a ++ t ∧ Forall (λ c, ch c "*" = false) a ∧
    (r = [] ∨ ∃ r', r = "*"%char :: r').
Proof.
  revert url. induction pattern as [|c pattern IH]; intros url; cbn [match_prefix].
  { intros [= <- <-]. exists []. by repeat split; [..|left]. }
  destruct (ch c "*") eqn:E.
  { intros [= <- <-]. apply ch_true in E as ->. exists []. repeat split; [done|]. right. by eexists. }
  destruct url as [|d url]; [done|]. destruct (ch c d) eqn:Ed; [|done]. apply ch_true in Ed as <-.
  intros (a & -> & -> & Ha & Hr)%IH. exists (c :: a). repeat split; [by constructor|done].
Qed.

Lemma match_suffix_spec pattern url : match_suffix pattern url = true ↔ ∃ rest, url = pattern ++ rest.
Proof.
  revert url. induction pattern as [|c pattern IH]; intros url; cbn [match_suffix].
  { split; [by exists url|done]. }
  destruct url as [|d url]; [split; [done|by intros [? [=]]]|]. rewrite andb_true_iff, IH, ch_true. split.
  - intros [-> [rest ->]]. by exists rest.
  - intros [rest [= -> ->]]. split; [done|by eexists].
Qed.

(** A matched URL, whatever the route. *)
Lemma match_url_number url a b gpio :
  Forall (λ c, ch c "*" = false) a →
  match_url_gpio url (a ++ "*"%char :: b) = Some gpio →
  ∃ number rest, c_str url = a ++ number ++ b ++ rest ∧ Forall (λ c, ch c "/" = false) number ∧
    (b ++ rest = [] ∨ head (b ++ rest) = Some "/"%char) ∧
    mygpio_parse_uint (Some number) true 1 GPIOS_MAX = Some (gpio, []) ∧ 1 ≤ gpio ≤ GPIOS_MAX.
Proof.
  intros Ha. unfold match_url_gpio. destruct (match_prefix _ _) as [[r t]|] eqn:E; [|done]. cbn [mbind option_bind].
  assert (r = "*"%char :: b ∧ c_str url = a ++ t) as [-> Hu].
  { clear -E Ha. revert E. generalize (c_str url). induction Ha as [|c a Hc Ha IH]; intros u.
    - cbn. by intros [= <- <-].
    - cbn [app match_prefix]. rewrite Hc. destruct u as [|d u]; [done|].
      destruct (ch c d) eqn:Ed; [|done]. apply ch_true in Ed as <-. intros [-> ->]%IH. done. }
  set (number := take_while _ t).
  destruct (mygpio_parse_uint (Some number) true 1 GPIOS_MAX) as [[g e]|] eqn:Ep; [|done]. cbn [mbind option_bind]. change (drop 1 ("*"%char :: b)) with b.
  destruct (match_suffix b (@drop ascii (length number) t)) eqn:Es; [|done]. intros [= <-]. apply match_suffix_spec in Es as [rest Es].
  exists number, rest.
  assert (Hr : 1 ≤ g ≤ GPIOS_MAX ∧ e = []).
  { unfold mygpio_parse_uint in Ep. destruct (parse_guard (Some number)) as [q|]; [|done].
    destruct (first_is_minus q); [done|]. cbv zeta in Ep. destruct (UINT_MAX <? st_value (strtoul q)); [done|].
    apply parse_finish_inv in Ep as (_ & _ & Hm & [= -> ->] & He). split; [done|by apply He]. }
  destruct Hr as [Hr ->].
  pose proof (take_drop_while (λ c, negb (ch c "/")) t) as Et. fold number in Et.
  assert (Ed : drop_while (λ c, negb (ch c "/")) t = b ++ rest).
  { rewrite <- Es. transitivity (drop (length number) (number ++ drop_while (λ c, negb (ch c "/")) t)).
    - symmetry. apply drop_app_length.
    - by rewrite Et. }
  rewrite Ed in Et. split; [by rewrite Hu, <- Et|]. split; [|split; [|by split]].
  2:{ destruct (b ++ rest) as [|c r]; [by left|right]. apply drop_while_head, negb_false_iff, ch_true in Ed.
      simpl. by f_equal. }
  - eapply Forall_impl; [apply take_while_Forall|]. intros c Hc. by apply negb_true_iff in Hc.
Qed.

Lemma gpio_pattern url (a b : string) gpio :
  forallb (λ c, negb (ch c "*")) (bs a) = true → match_url_gpio url (bs a ++ "*"%char :: bs b) = Some gpio →
  1 ≤ gpio ≤ GPIOS_MAX.
Proof.
  intros Ha Hm. apply match_url_number in Hm as (? & ? & _ & _ & _ & _ & ?); [done|].
  apply Forall_forall. intros c Hc. rewrite forallb_forall in Ha.
  apply list_elem_of_In, Ha in Hc. by apply negb_true_iff in Hc.
Qed.

Lemma post_gpio_route url (pattern a b : string) handler next w :
  bs pattern = bs a ++ "*"%char :: bs b → forallb (λ c, negb (ch c "*")) (bs a) = true →
  (∀ gpio, 0 ≤ gpio → wp (handler gpio) (λ r _, post_reply r) w) →
  wp next (λ r _, post_reply r) w →
  wp (rest_gpio_route url pattern handler next : M K _) (λ r _, post_reply r) w.
Proof.
  intros E Ha Hh Hn. unfold rest_gpio_route. rewrite E.
  destruct (match_url_gpio _ _) as [g|] eqn:Em; [|done]. apply Hh.
  apply gpio_pattern in Em; [lia|done].
Qed.

Lemma post_route url path handler next w :
  wp handler (λ r _, post_reply r) w → wp next (λ r _, post_reply r) w →
  wp (rest_route url path handler next : M K _) (λ r _, post_reply r) w.
Proof. intros Hh Hn. unfold rest_route. by destruct (strcmp0 _ _). Qed.

Lemma post_invalid w : wp (rest_invalid [] : M K _) (λ r _, post_reply r) w.
Proof. apply wp_ret. by eapply json_object_lit. Qed.

Lemma post_gpio_list w : rest_ready (config w) → wp (rest_api_gpio_get []) (λ r _, post_reply r) w.
Proof.
  intros Hr. destruct (rest_api_gpio_get_run w Hr) as (vs & k & E & Hvs). unfold wp. rewrite E. left.
  eapply json_object_intro, reads_rest_gpios; [by apply rest_listed_ok|].
  apply Forall2_length in Hvs. by rewrite length_map in Hvs.
Qed.

Lemma post_dispatch `{!KernelLaws K} s url method args w :
  vcio_safe → rest_ready (config w) → inv None s w →
  wp (rest_dispatch url method args) (λ r _, post_reply r) w.
Proof.
  intros Hv Hr Hw. unfold rest_dispatch. destruct method; cbv zeta; [apply post_invalid|..].
  - apply post_route; [by apply post_gpio_list|].
    apply (post_gpio_route _ _ "/api/v1/gpio/" ""); [done|done|intros g Hg; by apply (post_gpio_get s)|].
    repeat (apply post_route; [by (apply (post_vcio_all s) || apply (post_vcio s) || apply post_timerev)|]).
    apply post_invalid.
  - apply (post_gpio_route _ _ "/api/v1/gpio/" ""); [done|done|intros g Hg; by apply (post_options s)|apply post_invalid].
  - apply (post_gpio_route _ _ "/api/v1/gpio/" "/blink"); [done|done|intros g Hg; by apply (post_blink s)|].
    apply (post_gpio_route _ _ "/api/v1/gpio/" "/set"); [done|done|intros g Hg; by apply (post_set s)|].
    apply (post_gpio_route _ _ "/api/v1/gpio/" "/toggle"); [done|done|intros g Hg; by apply (post_toggle s)|apply post_invalid].
Qed.

(** C20: Every reply of the REST API, for any URL, method and arguments in any
    reachable state, has the status 200 or 500, the content type
    application/json and, as its body, the text of one JSON object - except for
    the two error texts of the set and the blink route, in which the quotation
    marks around the parameter names are not escaped. This is for a configuration
    with fewer than 2^32 entries whose names of GPIOs and timers, and for a firmware
    whose answers, contain no control character but those with a short escape (a
    timer with another one in its name makes the reply unreadable), and at most ten
    characters that are escaped, so that what is written stays inside the buffer. *)
Theorem rest_replies_json `{BL : !BuildLaws} `{KL : !KernelLaws K} st url method args :
  reachable st → vcio_safe → rest_ready (config (l_world st)) →
  ∃ body status w', rest_api_handler url method args (l_world st) = Done (Reply status APPLICATION_JSON body, w') ∧
    (status = 200 ∨ status = 500) ∧ ((∃ m, json_text body = Some (JObject m)) ∨ body ∈ unescaped_texts).
Proof.
  intros (s & Hw & _)%reachable_inv Hv Hr.
  pose proof (post_dispatch s url method args (l_world st) Hv Hr Hw) as Hp.
  apply wp_run in Hp as ([body rc] & w' & E & Hb). exists body, (rest_status rc), w'.
  split; [|split; [by destruct rc; [left|right]|exact Hb]].
  unfold rest_api_handler. by erewrite bind_run by exact E.
Qed.

(** A GPIO route of the REST API matches exactly the URLs that consist of the
    path before the number, a decimal number from 1 to 64 as mygpio_parse_uint
    reads it, and the path after it - followed by anything: the end of the URL is
    not looked at, and GPIO 0, which the socket protocol serves, has no URL. *)
Theorem rest_gpio_urls url (b : bytes) gpio :
  match_url_gpio url (bs "/api/v1/gpio/" ++ "*"%char :: b) = Some gpio ↔
  ∃ number rest, c_str url = bs "/api/v1/gpio/" ++ number ++ b ++ rest ∧
    Forall (λ c, ch c "/" = false) number ∧ (b ++ rest = [] ∨ head (b ++ rest) = Some "/"%char) ∧
    mygpio_parse_uint (Some number) true 1 GPIOS_MAX = Some (gpio, []).
Proof.
  split.
  - intros Hm. assert (Ha : Forall (λ c, ch c "*" = false) (bs "/api/v1/gpio/")) by by repeat constructor.
    destruct (match_url_number url _ b gpio Ha Hm) as (number & rest & Hu & Hn & Hr & Hp & _).
    by exists number, rest.
  - intros (number & rest & Hu & Hn & Hr & Hp). unfold match_url_gpio. rewrite Hu.
    change (match_prefix (?a ++ ?c) (?a ++ ?u)) with (Some ("*"%char :: b, u)).
    cbn [mbind option_bind]. rewrite take_while_all by (eapply Forall_impl; [exact Hn|]; intros c Hc; by rewrite Hc).
    replace (take_while _ (b ++ rest)) with ([] : bytes).
    + rewrite app_nil_r, Hp. cbn [mbind option_bind]. change (drop 1 ("*"%char :: b)) with b.
      rewrite drop_app_length. by rewrite (proj2 (match_suffix_spec b (b ++ rest))) by eauto.
    + destruct (b ++ rest) as [|c r]; [done|]. destruct Hr as [|[= ->]]; done.
Qed.

(** ** Long polling *)

Definition poll_call p (connection : Z) (args : bytes → option bytes) : M K http_reply :=
  request_process p connection (bs "/poll") (bs "GET") 0 args.

Lemma poll_suspends p connection args r w :
  http_requests w !! p = Some r → resume_buffer r = None →
  ∃ k, poll_call p connection args w =
    Done (NoReply, w <| config ::= λ c, c <| http_suspended ::= λ l, list_push l 0 p |> |> <| kern := k |>).
Proof.
  intros Hr Hb. eexists. unfold poll_call, request_process.
  erewrite bind_run by (unfold request_get; rewrite Hr; reflexivity). rewrite Hb. by destruct w.
Qed.

Lemma reads_gpio_json gpio et ts :
  0 ≤ gpio → 0 ≤ ts →
  reads (gpio_json gpio et ts)
    (JObject [(bs "event", JString (mygpiod_event_name et)); (bs "gpio", JNumber gpio);
              (bs "timestamp_ms", JNumber (ts / 1000000))]).
Proof.
  intros Hg Ht. unfold gpio_json.
  replace (bs "{" ++ _) with (bs "{" ++ (json_member (bs "event") (quoted (mygpiod_event_name et)) ++ bs "," ++
    json_member (bs "gpio") (print_u gpio) ++ bs "," ++ json_member (bs "timestamp_ms") (print_u (ts / 1000000))) ++ bs "}")
    by (unfold json_member, quoted, json_str, json_num; by rewrite <- !app_assoc).
  apply reads_object; [by eexists|].
  apply reads_members_cons; [by apply plain_key_eq|apply reads_quoted; by destruct et; apply plain_key_eq|].
  apply reads_members_cons; [by apply plain_key_eq|by apply reads_number|].
  apply reads_members_one; [by apply plain_key_eq|]. apply reads_number. apply Z.div_pos; lia.
Qed.

(** C19: Long polling, from the request to the event: in a reachable state a GET of
    /poll on a live connection gets no reply and is suspended; the next GPIO
    event, whatever it is, resumes it, and when libmicrohttpd calls the handler
    again the reply is 200 with a JSON object that has the name, the GPIO and the
    time in milliseconds of that event. Nothing is left suspended. The name is the
    one of the socket protocol, for example gpio_rising; the documented reply of
    /poll (docs/mygpiod-http-api.rst) shows rising, which is never sent. *)
Theorem http_poll_event `{BL : !BuildLaws} `{KL : !KernelLaws K} st p r connection args gpio et ts :
  reachable st → http_requests (l_world st) !! p = Some r → resume_buffer r = None →
  et ≠ MYGPIOD_EVENT_INPUT → 0 ≤ gpio → 0 ≤ ts →
  ∃ w1 w2 body,
    poll_call p connection args (l_world st) = Done (NoReply, w1) ∧
    event_enqueue_gpio gpio et ts w1 = Done (tt, w2) ∧ http_suspended (config w2) = [] ∧
    poll_call p connection args w2 = Done (Reply 200 APPLICATION_JSON body, w2) ∧
    json_text body = Some (JObject [(bs "event", JString (mygpiod_event_name et)); (bs "gpio", JNumber gpio);
                                    (bs "timestamp_ms", JNumber (ts / 1000000))]).
Proof.
  intros (s & Hw & _)%reachable_inv Hr Hb Het Hg Ht.
  destruct (poll_suspends p connection args r (l_world st) Hr Hb) as [k Hp].
  match type of Hp with _ = Done (_, ?w) => set (w1 := w) in Hp end. exists w1.
  assert (Hw1 : inv None s w1).
  { eapply inv_frame; [apply (inv_suspend s (l_world st) p); [done|by eexists]|by split_and!]. }
  destruct (proj1 (wp_run _ _ _) (event_enqueue_gpio_wp gpio et ts w1 Het (inv_enqueue_pre _ _ _ Hw1)))
    as ([] & w2 & E & Hc & _ & _ & _ & Hres).
  exists w2, (gpio_json gpio et ts). split; [done|]. split; [done|]. split; [by rewrite Hc|].
  split; [|by apply reads_text, reads_gpio_json].
  specialize (Hres (Node (fresh_ptr (http_suspended (config (l_world st)))) 0 p)).
  unfold resumed in Hres. cbn [n_data] in Hres.
  assert (Hin : Node (fresh_ptr (http_suspended (config (l_world st)))) 0 p ∈ http_suspended (config w1)).
  { simpl. unfold list_push. apply elem_of_app. right. by left. }
  specialize (Hres Hin). apply fmap_Some in Hres as (r2 & Hr2 & Hb2).
  unfold poll_call, request_process.
  erewrite bind_run by (unfold request_get; rewrite Hr2; reflexivity). by rewrite <- Hb2.
Qed.

(** ** Replies that mislead *)

(** The reply to a hook is 500, found or not. *)
Lemma hook_handler_status url w rep w' :
  hook_handler url w = Done (rep, w') → ∃ body, rep = Reply 500 APPLICATION_JSON body.
Proof.
  unfold hook_handler, mbind, M_bind. cbv zeta. destruct (hook_action_handler _ w) as [[found w1]|]; [|done].
  intros [= <- _]. by eexists.
Qed.

(** The error texts that are not JSON. *)
Lemma unescaped_texts_unreadable : Forall (λ s, json_text s = None) unescaped_texts.
Proof. repeat constructor. Qed.
End rest.

(** ** Witnesses: the simulated daemon *)

Lemma sim_rest_ready : rest_ready (config (l_world (sim_session [] []))).
Proof.
  constructor; vm_compute; try discriminate.
  all: repeat first [apply Forall_nil_2 | apply Forall_cons_2 | split]; try discriminate.
  all: intros [=].
Qed.

Lemma sim_vcio_safe : @vcio_safe sim _.
Proof.
  intros cmd w r w'. unfold vcgencmd, mbox_open, gencmd, sys, sys_, mbind, M_bind, mret, M_ret.
  destruct (open DEVICE_FILE_NAME 0 (kern w)) as [fd k] eqn:Eo. apply (f_equal fst) in Eo. simpl in Eo.
  assert (fd <? 0 = false) as -> by (apply Z.ltb_ge; lia).
  assert (fd =? -1 = false) as -> by (apply Z.eqb_neq; lia).
  intros [= <- _]. split; [apply json_safe_eq|]; vm_compute; by try reflexivity.
Qed.

Lemma rest_gpio_list_witness :
  ∃ body vs k,
    rest_api_handler (bs "/api/v1/gpio") HTTP_GET (λ _, None) sim_world =
      Done (Reply 200 APPLICATION_JSON body, sim_world <| kern := k |>) ∧
    json_text body = Some (JObject
      [(bs "data", JArray (zip_with rest_entry_json (rest_listed (config sim_world)) vs)); (bs "entries", JNumber 2)]) ∧
    Forall2 line_value [17; 4] vs.
Proof.
  apply (rest_gpio_list (bs "/api/v1/gpio") (λ _, None) sim_world); [reflexivity|].
  constructor; vm_compute; try discriminate;
    repeat first [apply Forall_nil_2 | apply Forall_cons_2 | split]; first [discriminate | intros [=]].
Defined.

Lemma rest_replies_json_witness :
  ∃ body status w',
    rest_api_handler (bs "/api/v1/gpio/4/set") HTTP_PATCH (λ _, None) (l_world (sim_session [] [])) =
      Done (Reply status APPLICATION_JSON body, w') ∧
    (status = 200 ∨ status = 500) ∧ ((∃ m, json_text body = Some (JObject m)) ∨ body ∈ unescaped_texts).
Proof.
  apply (rest_replies_json (sim_session [] []) (bs "/api/v1/gpio/4/set") HTTP_PATCH (λ _, None)).
  - apply sim_session_reachable.
  - exact sim_vcio_safe.
  - exact sim_rest_ready.
Defined.

(** The daemon after the first call for a connection, and after the loop's iteration. *)
Definition sim_polling_http : world sim :=
  sim_http [HttpRequest None 1 (bs "/poll") (bs "GET") 0 (λ _, None)] (l_world (loop_refresh (sim_session [] []))).

Definition sim_polling : @loop_state sim :=
  Loop (sim_run (event_read_delegate (zip (l_poll_fds (loop_refresh (sim_session [] []))) [0; 0; 0; 0; 0]))
          sim_polling_http)
    (l_init (sim_session [] [])) (l_poll_fds (loop_refresh (sim_session [] []))).

Lemma sim_polling_step : loop_step (sim_session [] []) sim_polling.
Proof.
  unfold sim_polling. apply (LoopStep (sim_session [] []) [0; 0; 0; 0; 0] sim_polling_http).
  - vm_compute. reflexivity.
  - apply sim_http_steps. repeat split; vm_compute; by (reflexivity || eexists || constructor).
  - vm_compute. reflexivity.
Qed.

Lemma sim_polling_reachable : reachable sim_polling.
Proof.
  destruct (sim_session_reachable [] []) as (st0 & Hb & Hr). exists st0. split; [done|].
  eapply rtc_r; [exact Hr | exact sim_polling_step].
Qed.

Lemma http_poll_event_witness :
  ∃ w1 w2 body,
    poll_call 1 1 (λ _, None) (l_world sim_polling) = Done (NoReply, w1) ∧
    event_enqueue_gpio 17 MYGPIOD_EVENT_GPIO_RISING 5000000 w1 = Done (tt, w2) ∧
    http_suspended (config w2) = [] ∧
    poll_call 1 1 (λ _, None) w2 = Done (Reply 200 APPLICATION_JSON body, w2) ∧
    json_text body = Some (JObject [(bs "event", JString (bs "gpio_rising")); (bs "gpio", JNumber 17);
                                    (bs "timestamp_ms", JNumber 5)]).
Proof.
  apply (http_poll_event sim_polling 1 (RequestData None 1 1) 1 (λ _, None) 17 MYGPIOD_EVENT_GPIO_RISING 5000000).
  - exact sim_polling_reachable.
  - vm_compute. reflexivity.
  - reflexivity.
  - discriminate.
  - lia.
  - lia.
Defined.
