(* ===== verification/ClientIo.v ===== *)
(** * The connection of the client library

    libmygpio/src: buffer.c, socket.c, connection.c, protocol.c and pair.c. The
    socket of the client is a parameter; an operation threads the connection
    and the state of the socket, and is [None] only when the fuel of the one
    unbounded loop, mygpio_response_end, is used up. *)

From S2P Require Import Prelude CLib ParseUtil Config.

(** The calls of socket.c into the kernel. [recv] receives one byte, without
    blocking if its flag is set: [None] is a result of 0 or -1. [poll_in] is
    [poll] for POLLIN on one descriptor. *)
Class Socket (S : Type) := {
  socket : S → Z * S;
  cl_fcntl : Z → Z → Z → S → Z * S;
  connect : Z → bytes → S → Z * S;
  cl_close : Z → S → S;
  poll_in : Z → Z → S → Z * S;
  recv : Z → bool → S → option ascii * S;
  cl_write : Z → bytes → S → Z * S;
}.

(** ** Data *)

Definition BUFFER_SIZE_MAX : nat := 1025.

(** [buffer] holds the bytes that were written since the last initialisation. *)
Record t_buf := Buf { buffer : bytes; len : Z }.

Definition libmygpio_buf_init : t_buf := Buf [NUL] 0.

Inductive mygpio_conn_state := MYGPIO_STATE_OK | MYGPIO_STATE_ERROR | MYGPIO_STATE_FATAL.

#[export] Instance mygpio_conn_state_eq_dec : EqDecision mygpio_conn_state.
Proof. solve_decision. Defined.

(** [wrote_below] is not a field of the C struct: it records that a NUL was
    written to the byte before [buf_in.buffer]. *)
Record t_mygpio_connection := Connection {
  fd : Z;
  buf_in : t_buf;
  buf_out : t_buf;
  version : Z * Z * Z;
  timeout_ms : Z;
  state : mygpio_conn_state;
  error : option bytes;
  wrote_below : bool;
}.

#[export] Instance eta_connection : Eta t_mygpio_connection := λ r,
  Connection (fd r) (buf_in r) (buf_out r) (version r) (timeout_ms r) (state r) (error r)
    (wrote_below r).

(** ** The monad *)

Definition C (S A : Type) : Type :=
  t_mygpio_connection * S → option (A * (t_mygpio_connection * S)).

#[export] Instance C_ret {S} : MRet (C S) := λ A a w, Some (a, w).
#[export] Instance C_bind {S} : MBind (C S) := λ A B f m w,
  match m w with Some (a, w') => f a w' | None => None end.

Section client.
Context {Sk : Type} `{Socket Sk}.

Definition conn {A} (f : t_mygpio_connection → A) : C Sk A := λ w, Some (f w.1, w).
Definition upd_conn (f : t_mygpio_connection → t_mygpio_connection) : C Sk unit := λ w,
  Some (tt, (f w.1, w.2)).
Definition call {A} (f : Sk → A * Sk) : C Sk A := λ w,
  let '(a, s) := f w.2 in Some (a, (w.1, s)).

(** A function that returns NULL early: [x ←? m; k] is NULL if [m] is. *)
Definition bind_some {A B} (m : C Sk (option A)) (k : A → C Sk (option B)) : C Sk (option B) :=
  r ← m; match r with Some a => k a | None => mret None end.

(** [m && k] *)
Definition bind_true (m k : C Sk bool) : C Sk bool :=
  r ← m; if r : bool then k else mret false.

(** ** Sockets (socket.c) *)

Definition CL_F_GETFD : Z := 1.
Definition CL_F_SETFD : Z := 2.
Definition CL_O_CLOEXEC : Z := 524288.

(** [strncpy] into [sun_path] copies at most 108 bytes. *)
Definition libmygpio_socket_connect (socket_path : bytes) (s : Sk) : Z * Sk :=
  let '(fd, s) := socket s in
  if fd =? -1 then (-1, s)
  else
    let '(flags, s) := cl_fcntl fd CL_F_GETFD 0 s in
    let '(rc, s) := cl_fcntl fd CL_F_SETFD (Z.lor flags CL_O_CLOEXEC) s in
    if negb (rc =? 0) then (-1, cl_close fd s)
    else
      let '(rc, s) := connect fd (take 108 (c_str socket_path)) s in
      if rc =? -1 then (-1, cl_close fd s) else (fd, s).

(** The [while] loop: [n] bytes of the buffer are left, [buf] are its bytes.
    The result is whether a line ended. *)
Fixpoint recv_go (fd : Z) (flag : bool) (n : nat) (buf : bytes) (s : Sk) : bool * bytes * Sk :=
  match n with
  | O => (false, buf, s)
  | S n' =>
      match recv fd flag s with
      | (None, s) => (false, buf, s)
      | (Some c, s) => if ch c LF then (true, buf, s) else recv_go fd flag n' (buf ++ [c]) s
      end
  end.

Definition libmygpio_socket_recv_line (timeout : Z) : C Sk bool := λ '(c, s),
  let c := c <| buf_in := libmygpio_buf_init |> in
  let '(ready, s) :=
    if 0 <? timeout then let '(rc, s) := poll_in (fd c) timeout s in (negb (rc <=? 0), s)
    else (true, s) in
  if negb ready then Some (false, (c, s))
  else
    let '(ok, buf, s) := recv_go (fd c) (timeout =? 0) BUFFER_SIZE_MAX [] s in
    if ok : bool then
      Some (true, (c <| buf_in := Buf (buf ++ [NUL]) (Z.of_nat (length buf)) |>, s))
    else
      match buf with
      | [] => Some (false, (c <| wrote_below := true |>, s))
      | _ :: _ =>
          Some (false, (c <| buf_in := Buf (take (length buf - 1) buf ++ [NUL])
                                           (Z.of_nat (length buf)) |>, s))
      end.

(** [rest] is what is left to be written; at most one call per byte. *)
Fixpoint send_go (fuel : nat) (fd : Z) (rest : bytes) (s : Sk) : bool * Sk :=
  match fuel with
  | O => (false, s)
  | S fuel' =>
      let '(nwrite, s) := cl_write fd rest s in
      if nwrite <=? 0 then (false, s)
      else
        match drop (Z.to_nat nwrite) rest with
        | [] => let '(n, s) := cl_write fd [LF] s in (n =? 1, s)
        | rest' => send_go fuel' fd rest' s
        end
  end.

Definition libmygpio_socket_send_line : C Sk bool := λ '(c, s),
  let '(ok, s) := send_go (length (buffer (buf_out c))) (fd c) (buffer (buf_out c)) s in
  Some (ok, (c <| buf_out := libmygpio_buf_init |>, s)).

(** ** Connections (connection.c) *)

Definition mygpio_connection_check : C Sk bool :=
  conn (λ c, bool_decide (state c = MYGPIO_STATE_OK) && (-1 <? fd c)).

Definition libmygpio_connection_set_state (st : mygpio_conn_state) (message : option bytes)
    : C Sk unit := upd_conn (λ c, c <| state := st |> <| error := message |>).

Definition mygpio_connection_clear_error : C Sk bool :=
  st ← conn state;
  if decide (st = MYGPIO_STATE_FATAL) then mret false
  else _ ← libmygpio_connection_set_state MYGPIO_STATE_OK None; mret true.

(** ** Lines of the protocol (protocol.c) *)

(** [line] is what [vsnprintf] makes of the format and the arguments; it is not
    changed if it has to be truncated, because it is then an error. *)
Definition libmygpio_send_line (line : bytes) : C Sk bool :=
  ok ← mygpio_connection_check;
  if negb ok then mret false
  else
    let written := Z.of_nat (length (c_str line)) in
    if (written <=? 0) || (Z.of_nat BUFFER_SIZE_MAX <=? written) then
      _ ← upd_conn (λ c, c <| buf_out := libmygpio_buf_init |>);
      _ ← libmygpio_connection_set_state MYGPIO_STATE_FATAL (Some (bs "Buffer write error"));
      mret false
    else
      _ ← upd_conn (λ c, c <| buf_out := Buf (c_str line) written |>);
      rc ← libmygpio_socket_send_line;
      _ ← (if rc : bool then mret tt
           else libmygpio_connection_set_state MYGPIO_STATE_FATAL (Some (bs "Socket write error")));
      mret rc.

Definition line_in : C Sk bytes := conn (λ c, c_str (buffer (buf_in c))).

Definition libmygpio_recv_response_status : C Sk bool :=
  ok ← mygpio_connection_check;
  timeout ← conn timeout_ms;
  got ← (if ok : bool then libmygpio_socket_recv_line timeout else mret false);
  if negb got then
    _ ← libmygpio_connection_set_state MYGPIO_STATE_FATAL (Some (bs "Error receiving line"));
    mret false
  else
    l ← line_in;
    if strcmp0 l (bs "OK") then mret true
    else
      _ ← upd_conn (λ c, c <| error := None |>);
      _ ← (if strprefix (bs "ERROR:") l then
             libmygpio_connection_set_state MYGPIO_STATE_ERROR (drop 1 <$> strchr l ":")
           else
             libmygpio_connection_set_state MYGPIO_STATE_ERROR
               (Some (bs "Malformed server response")));
      mret false.

(** [fuel] bounds the lines that are skipped. *)
Fixpoint response_end_go (fuel : nat) : C Sk bool :=
  match fuel with
  | O => λ _, None
  | S fuel' =>
      got ← libmygpio_socket_recv_line 0;
      if negb got then
        _ ← upd_conn (λ c, c <| buf_in := libmygpio_buf_init |>);
        mret false
      else
        l ← line_in;
        if strcmp0 l (bs "END") then
          _ ← upd_conn (λ c, c <| buf_in := libmygpio_buf_init |>);
          mret true
        else response_end_go fuel'
  end.

Definition mygpio_response_end (fuel : nat) : C Sk bool :=
  ok ← mygpio_connection_check;
  if negb ok then mret false else response_end_go fuel.

(** ** Pairs (pair.c)

    [name] and [value] are the C strings at the two pointers into the input
    buffer, in which the colon is overwritten with NUL. *)

Record t_mygpio_pair := Pair { name : bytes; value : bytes }.

Definition libmygpio_parse_pair (line : bytes) : option t_mygpio_pair :=
  match strchr line ":" with
  | Some (_ :: v) => Some (Pair (take_while (λ c, negb (ch c ":")) (c_str line)) v)
  | _ => None
  end.

Definition mygpio_recv_pair : C Sk (option t_mygpio_pair) :=
  ok ← mygpio_connection_check;
  if negb ok then mret None
  else
    _ ← libmygpio_socket_recv_line 0;
    n ← conn (λ c, len (buf_in c));
    if n =? 0 then mret None
    else
      l ← line_in;
      if strcmp0 l (bs "END") then mret None
      else mret (libmygpio_parse_pair l).

Definition mygpio_recv_pair_name (nm : bytes) : C Sk (option bytes) :=
  r ← mygpio_recv_pair;
  match r with
  | None => mret None
  | Some p => mret (if strcmp0 (name p) nm then Some (value p) else None)
  end.

(** ** The handshake *)

(** A number up to 99 and the rest of the string. *)
Definition version_part (str : bytes) : option (Z * bytes) := mygpio_parse_uint (Some str) false 0 99.

(** The numbers that were read before an error are stored. *)
Definition libmygpio_parse_version (str : bytes) (v : Z * Z * Z) : bool * (Z * Z * Z) :=
  let '(v0, v1, v2) := v in
  match version_part str with
  | None => (false, (v0, v1, v2))
  | Some (v0, []) => (false, (v0, v1, v2))
  | Some (v0, c :: rest) =>
      if negb (ch c ".") then (false, (v0, v1, v2))
      else
        match version_part rest with
        | None => (false, (v0, v1, v2))
        | Some (v1, []) => (false, (v0, v1, v2))
        | Some (v1, c :: rest) =>
            if negb (ch c ".") then (false, (v0, v1, v2))
            else
              match version_part rest with
              | None => (false, (v0, v1, v2))
              | Some (v2, rest) => (match rest with [] => true | _ :: _ => false end, (v0, v1, v2))
              end
        end
  end.

Definition libmygpio_recv_version : C Sk bool :=
  r ← mygpio_recv_pair;
  match r with
  | None => mret false
  | Some p =>
      if negb (strcmp0 (name p) (bs "version")) then mret false
      else
        v ← conn version;
        let '(ok, v) := libmygpio_parse_version (value p) v in
        _ ← upd_conn (λ c, c <| version := v |>);
        mret ok
  end.

(** The result is the connection; [malloc] succeeds. *)
Definition mygpio_connection_new (fuel : nat) (socket_path : bytes) (timeout : Z) (s : Sk)
    : option (t_mygpio_connection * Sk) :=
  let '(fd, s) := libmygpio_socket_connect socket_path s in
  let c := Connection fd libmygpio_buf_init libmygpio_buf_init (0, 0, 0) timeout
             MYGPIO_STATE_OK None false in
  let go : C Sk unit :=
    if fd =? -1 then
      libmygpio_connection_set_state MYGPIO_STATE_FATAL (Some (bs "Connection failed"))
    else
      ok ← bind_true libmygpio_recv_response_status
             (bind_true libmygpio_recv_version (mygpio_response_end fuel));
      if ok : bool then mret tt
      else libmygpio_connection_set_state MYGPIO_STATE_FATAL (Some (bs "Handshake failed")) in
  snd <$> go (c, s).
End client.
