(* ===== verification/Client.v ===== *)
(** * The commands of the client library

    libmygpio/src: parser.c, idle.c, gpiolist.c, gpioinfo.c, gpio.c, hook.c and
    raspberry_vcio.c. *)

From S2P Require Import Prelude CLib ParseUtil Config ClientIo.

(** ** Data *)

Inductive mygpio_gpio_direction :=
  | MYGPIO_GPIO_DIRECTION_UNKNOWN | MYGPIO_GPIO_DIRECTION_IN | MYGPIO_GPIO_DIRECTION_OUT.

Inductive mygpio_gpio_value :=
  | MYGPIO_GPIO_VALUE_UNKNOWN | MYGPIO_GPIO_VALUE_INACTIVE | MYGPIO_GPIO_VALUE_ACTIVE.

Inductive mygpio_gpio_bias :=
  | MYGPIO_BIAS_UNKNOWN | MYGPIO_BIAS_AS_IS | MYGPIO_BIAS_DISABLED | MYGPIO_BIAS_PULL_DOWN
  | MYGPIO_BIAS_PULL_UP.

Inductive mygpio_event_request :=
  | MYGPIO_EVENT_REQUEST_UNKNOWN | MYGPIO_EVENT_REQUEST_FALLING | MYGPIO_EVENT_REQUEST_RISING
  | MYGPIO_EVENT_REQUEST_BOTH.

Inductive mygpio_event_clock :=
  | MYGPIO_EVENT_CLOCK_UNKNOWN | MYGPIO_EVENT_CLOCK_MONOTONIC | MYGPIO_EVENT_CLOCK_REALTIME
  | MYGPIO_EVENT_CLOCK_HTE.

Inductive mygpio_drive :=
  | MYGPIO_DRIVE_UNKNOWN | MYGPIO_DRIVE_PUSH_PULL | MYGPIO_DRIVE_OPEN_DRAIN
  | MYGPIO_DRIVE_OPEN_SOURCE.

Inductive mygpio_event :=
  | MYGPIO_EVENT_UNKNOWN | MYGPIO_EVENT_GPIO_FALLING | MYGPIO_EVENT_GPIO_RISING
  | MYGPIO_EVENT_GPIO_LONG_PRESS | MYGPIO_EVENT_GPIO_LONG_PRESS_RELEASE | MYGPIO_EVENT_INPUT.

#[export] Instance mygpio_gpio_direction_eq_dec : EqDecision mygpio_gpio_direction.
Proof. solve_decision. Defined.
#[export] Instance mygpio_gpio_value_eq_dec : EqDecision mygpio_gpio_value.
Proof. solve_decision. Defined.
#[export] Instance mygpio_gpio_bias_eq_dec : EqDecision mygpio_gpio_bias.
Proof. solve_decision. Defined.
#[export] Instance mygpio_event_request_eq_dec : EqDecision mygpio_event_request.
Proof. solve_decision. Defined.
#[export] Instance mygpio_event_clock_eq_dec : EqDecision mygpio_event_clock.
Proof. solve_decision. Defined.
#[export] Instance mygpio_drive_eq_dec : EqDecision mygpio_drive.
Proof. solve_decision. Defined.
#[export] Instance mygpio_event_eq_dec : EqDecision mygpio_event.
Proof. solve_decision. Defined.

(** Members that a function leaves uninitialised are [None]. *)
Record t_mygpio_idle_event := IdleEvent {
  event : mygpio_event;
  ev_timestamp_ms : Z;
  ev_gpio : option Z;
  input_event_device : option bytes;
  input_event_type : option bytes;
  input_event_code : option bytes;
  input_event_value : option Z;
}.

Record t_mygpio_in := MygpioIn {
  active_low : bool;
  bias : mygpio_gpio_bias;
  event_request : mygpio_event_request;
  is_debounced : bool;
  debounce_period_us : Z;
  event_clock : mygpio_event_clock;
}.

Record t_mygpio_out := MygpioOut { drive : mygpio_drive }.

Record t_mygpio_gpio := MygpioGpio {
  gpio : Z;
  direction : mygpio_gpio_direction;
  gpio_value : mygpio_gpio_value;
  inp : option t_mygpio_in;
  outp : option t_mygpio_out;
  gpio_name : bytes;
}.

(** ** Names (parser.c, idle.c) *)

Definition mygpio_gpio_lookup_direction (d : mygpio_gpio_direction) : bytes :=
  match d with
  | MYGPIO_GPIO_DIRECTION_IN => bs "in"
  | MYGPIO_GPIO_DIRECTION_OUT => bs "out"
  | MYGPIO_GPIO_DIRECTION_UNKNOWN => bs "unknown"
  end.

Definition mygpio_gpio_parse_direction (str : bytes) : mygpio_gpio_direction :=
  if strcmp0 str (bs "in") then MYGPIO_GPIO_DIRECTION_IN
  else if strcmp0 str (bs "out") then MYGPIO_GPIO_DIRECTION_OUT
  else MYGPIO_GPIO_DIRECTION_UNKNOWN.

Definition mygpio_gpio_lookup_value (v : mygpio_gpio_value) : bytes :=
  match v with
  | MYGPIO_GPIO_VALUE_ACTIVE => bs "active"
  | MYGPIO_GPIO_VALUE_INACTIVE => bs "inactive"
  | MYGPIO_GPIO_VALUE_UNKNOWN => bs "unknown"
  end.

Definition mygpio_gpio_parse_value (str : bytes) : mygpio_gpio_value :=
  if strcasecmp0 str (bs "active") then MYGPIO_GPIO_VALUE_ACTIVE
  else if strcasecmp0 str (bs "inactive") then MYGPIO_GPIO_VALUE_INACTIVE
  else MYGPIO_GPIO_VALUE_UNKNOWN.

Definition mygpio_gpio_lookup_bias (b : mygpio_gpio_bias) : bytes :=
  match b with
  | MYGPIO_BIAS_AS_IS => bs "as-is"
  | MYGPIO_BIAS_DISABLED => bs "disable"
  | MYGPIO_BIAS_PULL_DOWN => bs "pull-down"
  | MYGPIO_BIAS_PULL_UP => bs "pull-up"
  | MYGPIO_BIAS_UNKNOWN => bs "unknown"
  end.

Definition mygpio_gpio_parse_bias (str : bytes) : mygpio_gpio_bias :=
  if strcasecmp0 str (bs "as-is") then MYGPIO_BIAS_AS_IS
  else if strcasecmp0 str (bs "disable") then MYGPIO_BIAS_DISABLED
  else if strcasecmp0 str (bs "pull-down") then MYGPIO_BIAS_PULL_DOWN
  else if strcasecmp0 str (bs "pull-up") then MYGPIO_BIAS_PULL_UP
  else MYGPIO_BIAS_UNKNOWN.

Definition mygpio_gpio_lookup_event_request (e : mygpio_event_request) : bytes :=
  match e with
  | MYGPIO_EVENT_REQUEST_FALLING => bs "falling"
  | MYGPIO_EVENT_REQUEST_RISING => bs "rising"
  | MYGPIO_EVENT_REQUEST_BOTH => bs "both"
  | MYGPIO_EVENT_REQUEST_UNKNOWN => bs "unknown"
  end.

Definition mygpio_gpio_parse_event_request (str : bytes) : mygpio_event_request :=
  if strcasecmp0 str (bs "falling") then MYGPIO_EVENT_REQUEST_FALLING
  else if strcasecmp0 str (bs "rising") then MYGPIO_EVENT_REQUEST_RISING
  else if strcasecmp0 str (bs "both") then MYGPIO_EVENT_REQUEST_BOTH
  else MYGPIO_EVENT_REQUEST_UNKNOWN.

Definition mygpio_gpio_lookup_event_clock (c : mygpio_event_clock) : bytes :=
  match c with
  | MYGPIO_EVENT_CLOCK_MONOTONIC => bs "monotonic"
  | MYGPIO_EVENT_CLOCK_REALTIME => bs "realtime"
  | MYGPIO_EVENT_CLOCK_HTE => bs "hte"
  | MYGPIO_EVENT_CLOCK_UNKNOWN => bs "unknown"
  end.

Definition mygpio_gpio_parse_event_clock (str : bytes) : mygpio_event_clock :=
  if strcasecmp0 str (bs "monotonic") then MYGPIO_EVENT_CLOCK_MONOTONIC
  else if strcasecmp0 str (bs "realtime") then MYGPIO_EVENT_CLOCK_REALTIME
  else if strcasecmp0 str (bs "hte") then MYGPIO_EVENT_CLOCK_HTE
  else MYGPIO_EVENT_CLOCK_UNKNOWN.

Definition mygpio_gpio_lookup_drive (d : mygpio_drive) : bytes :=
  match d with
  | MYGPIO_DRIVE_PUSH_PULL => bs "push-pull"
  | MYGPIO_DRIVE_OPEN_DRAIN => bs "open-drain"
  | MYGPIO_DRIVE_OPEN_SOURCE => bs "open-source"
  | MYGPIO_DRIVE_UNKNOWN => bs "unknown"
  end.

Definition mygpio_gpio_parse_drive (str : bytes) : mygpio_drive :=
  if strcasecmp0 str (bs "push-pull") then MYGPIO_DRIVE_PUSH_PULL
  else if strcasecmp0 str (bs "open-drain") then MYGPIO_DRIVE_OPEN_DRAIN
  else if strcasecmp0 str (bs "open-source") then MYGPIO_DRIVE_OPEN_SOURCE
  else MYGPIO_DRIVE_UNKNOWN.

Definition mygpio_parse_event (str : bytes) : mygpio_event :=
  if strcmp0 str (bs "gpio_falling") then MYGPIO_EVENT_GPIO_FALLING
  else if strcmp0 str (bs "gpio_rising") then MYGPIO_EVENT_GPIO_RISING
  else if strcmp0 str (bs "gpio_long_press") then MYGPIO_EVENT_GPIO_LONG_PRESS
  else if strcmp0 str (bs "gpio_long_press_release") then MYGPIO_EVENT_GPIO_LONG_PRESS_RELEASE
  else if strcmp0 str (bs "gpio_input") then MYGPIO_EVENT_INPUT
  else MYGPIO_EVENT_UNKNOWN.

Definition mygpio_lookup_event (e : mygpio_event) : bytes :=
  match e with
  | MYGPIO_EVENT_GPIO_FALLING => bs "gpio_falling"
  | MYGPIO_EVENT_GPIO_RISING => bs "gpio_rising"
  | MYGPIO_EVENT_GPIO_LONG_PRESS => bs "gpio_long_press"
  | MYGPIO_EVENT_GPIO_LONG_PRESS_RELEASE => bs "gpio_long_press_release"
  | MYGPIO_EVENT_INPUT => bs "input"
  | MYGPIO_EVENT_UNKNOWN => bs "unknown"
  end.

Section client.
Context {Sk : Type} `{Socket Sk}.

(** NULL unless [b]. *)
Definition check_that (b : bool) : C Sk (option unit) := mret (if b then Some tt else None).
Definition check_some {A} (o : option A) : C Sk (option A) := mret o.

Notation "x ←? m ; k" := (bind_some m (λ x, k))
  (at level 20, m at level 100, k at level 200, right associativity).

(** ** Idle mode (idle.c) *)

Definition mygpio_send_idle : C Sk bool := libmygpio_send_line (bs "idle").

Definition mygpio_send_noidle : C Sk bool :=
  bind_true (libmygpio_send_line (bs "noidle")) libmygpio_recv_response_status.

Definition mygpio_wait_idle (timeout : Z) : C Sk bool :=
  fd ← conn fd;
  events ← call (poll_in fd timeout);
  mret (0 <? events).

Definition mygpio_recv_idle_event : C Sk (option t_mygpio_idle_event) :=
  v ←? mygpio_recv_pair_name (bs "event");
  let ev := mygpio_parse_event v in
  _ ←? check_that (negb (bool_decide (ev = MYGPIO_EVENT_UNKNOWN)));
  v ←? mygpio_recv_pair_name (bs "timestamp_ms");
  r ←? check_some (mygpio_parse_uint64 (Some v) true 0 ULONG_MAX);
  let timestamp := r.1 in
  if decide (ev = MYGPIO_EVENT_INPUT) then
    dev ←? mygpio_recv_pair_name (bs "device");
    type ←? mygpio_recv_pair_name (bs "type");
    code ←? mygpio_recv_pair_name (bs "code");
    v ←? mygpio_recv_pair_name (bs "value");
    r ←? check_some (mygpio_parse_uint (Some v) true 0 UINT_MAX);
    mret (Some (IdleEvent ev timestamp None (Some dev) (Some type) (Some code) (Some r.1)))
  else
    v ←? mygpio_recv_pair_name (bs "gpio");
    r ←? check_some (mygpio_parse_uint (Some v) true 0 GPIOS_MAX);
    mret (Some (IdleEvent ev timestamp (Some r.1) None None None None)).

(** ** Lists and information (gpiolist.c, gpioinfo.c) *)

Definition mygpio_gpiolist : C Sk bool :=
  bind_true (libmygpio_send_line (bs "gpiolist")) libmygpio_recv_response_status.

(** The number, the direction and the value, which both functions begin with. *)
Definition recv_gpio_head : C Sk (option (Z * mygpio_gpio_direction * mygpio_gpio_value)) :=
  v ←? mygpio_recv_pair_name (bs "gpio");
  r ←? check_some (mygpio_parse_uint (Some v) true 0 GPIOS_MAX);
  v ←? mygpio_recv_pair_name (bs "direction");
  let dir := mygpio_gpio_parse_direction v in
  _ ←? check_that (negb (bool_decide (dir = MYGPIO_GPIO_DIRECTION_UNKNOWN)));
  v ←? mygpio_recv_pair_name (bs "value");
  let val := mygpio_gpio_parse_value v in
  _ ←? check_that (negb (bool_decide (val = MYGPIO_GPIO_VALUE_UNKNOWN)));
  mret (Some (r.1, dir, val)).

Definition mygpio_recv_gpio_list : C Sk (option t_mygpio_gpio) :=
  h ←? recv_gpio_head;
  nm ←? mygpio_recv_pair_name (bs "name");
  let '(nr, dir, val) := h in
  mret (Some (MygpioGpio nr dir val None None nm)).

Definition mygpio_gpioinfo (gpio : Z) : C Sk bool :=
  bind_true (libmygpio_send_line (bs "gpioinfo " ++ print_u gpio)) libmygpio_recv_response_status.

Definition recv_gpio_in : C Sk (option t_mygpio_in) :=
  v ←? mygpio_recv_pair_name (bs "active_low");
  let low := (mygpio_parse_bool v).1 in
  v ←? mygpio_recv_pair_name (bs "bias");
  let b := mygpio_gpio_parse_bias v in
  _ ←? check_that (negb (bool_decide (b = MYGPIO_BIAS_UNKNOWN)));
  v ←? mygpio_recv_pair_name (bs "event_request");
  let req := mygpio_gpio_parse_event_request v in
  _ ←? check_that (negb (bool_decide (req = MYGPIO_EVENT_REQUEST_UNKNOWN)));
  v ←? mygpio_recv_pair_name (bs "is_debounced");
  let deb := (mygpio_parse_bool v).1 in
  v ←? mygpio_recv_pair_name (bs "debounce_period_us");
  period ←? check_some (mygpio_parse_int (Some v) true 0 INT_MAX);
  v ←? mygpio_recv_pair_name (bs "event_clock");
  let clk := mygpio_gpio_parse_event_clock v in
  _ ←? check_that (negb (bool_decide (clk = MYGPIO_EVENT_CLOCK_UNKNOWN)));
  mret (Some (MygpioIn low b req deb period.1 clk)).

Definition recv_gpio_out : C Sk (option t_mygpio_out) :=
  v ←? mygpio_recv_pair_name (bs "drive");
  let d := mygpio_gpio_parse_drive v in
  _ ←? check_that (negb (bool_decide (d = MYGPIO_DRIVE_UNKNOWN)));
  mret (Some (MygpioOut d)).

Definition mygpio_recv_gpio_info : C Sk (option t_mygpio_gpio) :=
  h ←? recv_gpio_head;
  let '(nr, dir, val) := h in
  if decide (dir = MYGPIO_GPIO_DIRECTION_IN) then
    i ←? recv_gpio_in;
    nm ←? mygpio_recv_pair_name (bs "name");
    mret (Some (MygpioGpio nr dir val (Some i) None nm))
  else
    o ←? recv_gpio_out;
    nm ←? mygpio_recv_pair_name (bs "name");
    mret (Some (MygpioGpio nr dir val None (Some o) nm)).

(** ** Commands (gpio.c, hook.c, raspberry_vcio.c) *)

Definition mygpio_gpioget (gpio : Z) : C Sk mygpio_gpio_value :=
  if GPIOS_MAX <? gpio then mret MYGPIO_GPIO_VALUE_UNKNOWN
  else
    ok ← bind_true (libmygpio_send_line (bs "gpioget " ++ print_u gpio))
           libmygpio_recv_response_status;
    if negb ok then mret MYGPIO_GPIO_VALUE_UNKNOWN
    else
      r ← mygpio_recv_pair;
      match r with
      | None => mret MYGPIO_GPIO_VALUE_UNKNOWN
      | Some p =>
          if negb (strcmp0 (name p) (bs "value")) then mret MYGPIO_GPIO_VALUE_UNKNOWN
          else mret (mygpio_gpio_parse_value (value p))
      end.

(** A command that is answered with OK and END. *)
Definition command_ok_end (fuel : nat) (line : bytes) : C Sk bool :=
  bind_true (libmygpio_send_line line)
    (bind_true libmygpio_recv_response_status (mygpio_response_end fuel)).

Definition mygpio_gpioset (fuel : nat) (gpio : Z) (v : mygpio_gpio_value) : C Sk bool :=
  command_ok_end fuel (bs "gpioset " ++ print_u gpio ++ bs " " ++ mygpio_gpio_lookup_value v).

Definition mygpio_gpiotoggle (fuel : nat) (gpio : Z) : C Sk bool :=
  command_ok_end fuel (bs "gpiotoggle " ++ print_u gpio).

Definition mygpio_gpioblink (fuel : nat) (gpio timeout_ms interval_ms : Z) : C Sk bool :=
  command_ok_end fuel
    (bs "gpioblink " ++ print_u gpio ++ bs " " ++ print_d timeout_ms ++ bs " " ++ print_d interval_ms).

Definition mygpio_hook (fuel : nat) (nm : bytes) : C Sk bool :=
  command_ok_end fuel (bs "hook " ++ c_str nm).

(** [command] is passed as the format string; the callers pass four literals
    without a per cent sign. *)
Definition mygpio_vcio (command : bytes) : C Sk (option t_mygpio_pair) :=
  ok ← bind_true (libmygpio_send_line command) libmygpio_recv_response_status;
  if negb ok then mret None
  else
    r ← mygpio_recv_pair;
    match r with
    | None => mret None
    | Some p => mret (if strcmp0 (name p) (bs "value") then Some p else None)
    end.

(** ** The loops of the command line client (mygpioc/idle.c, mygpioc/gpio.c)

    [fuel] bounds the events and the GPIOs that are read. *)

Fixpoint recv_idle_events (fuel : nat) : C Sk (list t_mygpio_idle_event) :=
  match fuel with
  | O => λ _, None
  | S fuel' =>
      e ← mygpio_recv_idle_event;
      match e with
      | None => mret []
      | Some e => es ← recv_idle_events fuel'; mret (e :: es)
      end
  end.

Fixpoint recv_gpio_lists (fuel : nat) : C Sk (list t_mygpio_gpio) :=
  match fuel with
  | O => λ _, None
  | S fuel' =>
      g ← mygpio_recv_gpio_list;
      match g with
      | None => mret []
      | Some g => gs ← recv_gpio_lists fuel'; mret (g :: gs)
      end
  end.
End client.
