(* ===== verification/Cli.v ===== *)
(** * The command line client

    The accessors of libmygpio/src/gpio_struct.c and idle.c, whose asserts end the
    program ([None]), and mygpioc: options.c, main.c, gpio.c, hook.c, idle.c and
    raspberry_vcio.c and util.c, with what they print. *)

From S2P Require Import Prelude CLib ParseUtil Config Kernel ClientIo Client.

(** ** Accessors (gpio_struct.c, idle.c, connection.c) *)

Definition mygpio_gpio_get_gpio (g : t_mygpio_gpio) : Z := gpio g.
Definition mygpio_gpio_get_direction (g : t_mygpio_gpio) : mygpio_gpio_direction := direction g.
Definition mygpio_gpio_get_value (g : t_mygpio_gpio) : mygpio_gpio_value := gpio_value g.
Definition mygpio_gpio_get_name (g : t_mygpio_gpio) : bytes := gpio_name g.
Definition mygpio_idle_event_get_event (e : t_mygpio_idle_event) : mygpio_event := event e.
Definition mygpio_idle_event_get_timestamp_ms (e : t_mygpio_idle_event) : Z := ev_timestamp_ms e.
Definition mygpio_connection_get_state (c : t_mygpio_connection) : mygpio_conn_state := state c.
Definition mygpio_connection_get_error (c : t_mygpio_connection) : option bytes := error c.
Definition mygpio_connection_get_version (c : t_mygpio_connection) : Z * Z * Z := version c.
Definition mygpio_connection_get_fd (c : t_mygpio_connection) : Z := fd c.

(** [assert(o != NULL); return o->f] *)
Definition asserted {A B} (o : option A) (f : A → B) : option B := f <$> o.

Definition mygpio_gpio_in_get_active_low (g : t_mygpio_gpio) : option bool := asserted (inp g) active_low.
Definition mygpio_gpio_in_get_bias (g : t_mygpio_gpio) : option mygpio_gpio_bias := asserted (inp g) bias.
Definition mygpio_gpio_in_get_event_request (g : t_mygpio_gpio) : option mygpio_event_request :=
  asserted (inp g) event_request.
Definition mygpio_gpio_in_get_is_debounced (g : t_mygpio_gpio) : option bool := asserted (inp g) is_debounced.
Definition mygpio_gpio_in_get_debounce_period_us (g : t_mygpio_gpio) : option Z :=
  asserted (inp g) debounce_period_us.
Definition mygpio_gpio_in_get_event_clock (g : t_mygpio_gpio) : option mygpio_event_clock :=
  asserted (inp g) event_clock.
Definition mygpio_gpio_out_get_drive (g : t_mygpio_gpio) : option mygpio_drive := asserted (outp g) drive.

Definition is_input (e : t_mygpio_idle_event) : bool := bool_decide (event e = MYGPIO_EVENT_INPUT).

(** A member of one of the two kinds of events. *)
Definition member {A} (b : bool) (m : option A) : option A := if b then m else None.

Definition mygpio_idle_event_get_gpio (e : t_mygpio_idle_event) : option Z := member (negb (is_input e)) (ev_gpio e).
Definition mygpio_idle_event_get_event_name (e : t_mygpio_idle_event) : bytes := mygpio_lookup_event (event e).
Definition mygpio_idle_event_get_input_device (e : t_mygpio_idle_event) : option bytes :=
  member (is_input e) (input_event_device e).
Definition mygpio_idle_event_get_input_type (e : t_mygpio_idle_event) : option bytes :=
  member (is_input e) (input_event_type e).
Definition mygpio_idle_event_get_input_code (e : t_mygpio_idle_event) : option bytes :=
  member (is_input e) (input_event_code e).
Definition mygpio_idle_event_get_input_value (e : t_mygpio_idle_event) : option Z :=
  member (is_input e) (input_event_value e).

(** ** What is printed *)

(** [print_listed], [print_info] and [print_event] are the calls of printf; the
    texts have no format characters but those written out here. *)
Definition print_listed (g : t_mygpio_gpio) : bytes :=
  bs "GPIO " ++ print_u (mygpio_gpio_get_gpio g) ++ bs ", name " ++ [DQUOTE] ++ mygpio_gpio_get_name g ++ [DQUOTE]
    ++ bs ", direction " ++ mygpio_gpio_lookup_direction (mygpio_gpio_get_direction g)
    ++ bs ", value " ++ mygpio_gpio_lookup_value (mygpio_gpio_get_value g) ++ [LF].

Definition print_info_in (g : t_mygpio_gpio) : option bytes :=
  low ← mygpio_gpio_in_get_active_low g;
  b ← mygpio_gpio_in_get_bias g;
  req ← mygpio_gpio_in_get_event_request g;
  deb ← mygpio_gpio_in_get_is_debounced g;
  period ← mygpio_gpio_in_get_debounce_period_us g;
  clk ← mygpio_gpio_in_get_event_clock g;
  Some (bs "Active low: " ++ mygpio_bool_to_str low ++ [LF]
    ++ bs "Bias: " ++ mygpio_gpio_lookup_bias b ++ [LF]
    ++ bs "Event request: " ++ mygpio_gpio_lookup_event_request req ++ [LF]
    ++ bs "Is debounced: " ++ mygpio_bool_to_str deb ++ [LF]
    ++ bs "Debounce period: " ++ print_d period ++ bs " us" ++ [LF]
    ++ bs "Event clock: " ++ mygpio_gpio_lookup_event_clock clk ++ [LF]).

Definition print_info (g : t_mygpio_gpio) : option bytes :=
  let head := bs "GPIO: " ++ print_u (mygpio_gpio_get_gpio g) ++ [LF]
    ++ bs "Name: " ++ mygpio_gpio_get_name g ++ [LF]
    ++ bs "Direction: " ++ mygpio_gpio_lookup_direction (mygpio_gpio_get_direction g) ++ [LF]
    ++ bs "Value: " ++ mygpio_gpio_lookup_value (mygpio_gpio_get_value g) ++ [LF] in
  match mygpio_gpio_get_direction g with
  | MYGPIO_GPIO_DIRECTION_IN => t ← print_info_in g; Some (head ++ t)
  | MYGPIO_GPIO_DIRECTION_OUT =>
      d ← mygpio_gpio_out_get_drive g;
      Some (head ++ bs "Drive: " ++ mygpio_gpio_lookup_drive d ++ [LF])
  | MYGPIO_GPIO_DIRECTION_UNKNOWN => Some head
  end.

Definition print_event (e : t_mygpio_idle_event) : option bytes :=
  if decide (mygpio_idle_event_get_event e = MYGPIO_EVENT_INPUT) then
    dev ← mygpio_idle_event_get_input_device e;
    type ← mygpio_idle_event_get_input_type e;
    code ← mygpio_idle_event_get_input_code e;
    Some (bs "Device " ++ dev ++ bs ", type " ++ type ++ bs ", code " ++ code
      ++ bs ", timestamp " ++ print_u (mygpio_idle_event_get_timestamp_ms e) ++ bs " ms" ++ [LF])
  else
    nr ← mygpio_idle_event_get_gpio e;
    Some (bs "GPIO " ++ print_u nr ++ bs ", event " ++ mygpio_idle_event_get_event_name e
      ++ bs ", timestamp " ++ print_u (mygpio_idle_event_get_timestamp_ms e) ++ bs " ms" ++ [LF]).

(** The exit code, standard output and standard error of a command. *)
Record cli_result := Result { rc : Z; stdout : bytes; stderr : bytes }.

#[export] Instance eta_cli_result : Eta cli_result := λ r, Result (rc r) (stdout r) (stderr r).

(** [verbose_printf] of util.c: what it prints when the global [verbose] is set. *)
Definition verbose_printf (verbose : bool) (text : bytes) : bytes := if verbose then c_str text ++ [LF] else [].

(** A message before, and one behind, the output of a command. *)
Definition said (verbose : bool) (text : bytes) (r : cli_result) : cli_result :=
  r <| stdout ::= λ out, verbose_printf verbose text ++ out |>.
Definition said_last (verbose : bool) (text : bytes) (r : cli_result) : cli_result :=
  r <| stdout ::= λ out, out ++ verbose_printf verbose text |>.

Definition success (out : bytes) : cli_result := Result EXIT_SUCCESS out [].
Definition failure (err : bytes) : cli_result := Result EXIT_FAILURE [] err.

Section cli.
Context {Sk : Type} `{Socket Sk}.

(** A message, and then the rest of the command. *)
Definition says (verbose : bool) (text : bytes) (m : C Sk cli_result) : C Sk cli_result :=
  r ← m; mret (said verbose text r).

(** The global variable. *)
Context (verbose : bool).

(** An assert that fails ends the program. *)
Definition aborting {A} (o : option A) : C Sk A := λ w, match o with Some a => Some (a, w) | None => None end.

(** "Error: %s" with the connection's message; glibc prints "(null)" when it is NULL. *)
Definition error_text : C Sk bytes :=
  e ← conn mygpio_connection_get_error;
  mret (bs "Error: " ++ default (bs "(null)") e ++ [LF]).

(** The common end of a command that has failed. *)
Definition failed (fuel : nat) : C Sk cli_result :=
  t ← error_text;
  _ ← mygpio_response_end fuel;
  mret (failure t).

Definition succeeded (fuel : nat) (out : bytes) : C Sk cli_result :=
  _ ← mygpio_response_end fuel;
  mret (success out).

(** [argv[option_index]] and the arguments behind it; main has checked their
    number. *)
Definition argument (args : list bytes) (i : nat) : option bytes := args !! i.

(** A GPIO number as every command reads it. *)
Definition with_gpio (args : list bytes) (k : Z → C Sk cli_result) : C Sk cli_result :=
  match mygpio_parse_uint (argument args 0) true 0 GPIOS_MAX with
  | None => mret (failure (bs "Invalid gpio number" ++ [LF]))
  | Some (gpio, _) => k gpio
  end.

(** ** Commands (gpio.c, hook.c, raspberry_vcio.c, idle.c) *)

Definition cli_gpiolist (fuel : nat) (args : list bytes) : C Sk cli_result :=
  says verbose (bs "Sending gpiolist") (
  ok ← mygpio_gpiolist;
  if ok : bool then
    says verbose (bs "Retrieving configured gpios") (
    gs ← recv_gpio_lists fuel;
    succeeded fuel (concat (map print_listed gs)))
  else failed fuel).

(** No data is printed when the answer is not understood. *)
Definition cli_gpioinfo (fuel : nat) (args : list bytes) : C Sk cli_result :=
  with_gpio args (λ gpio_nr,
  says verbose (bs "Sending gpioinfo") (
  ok ← mygpio_gpioinfo gpio_nr;
  if ok : bool then
    says verbose (bs "Retrieving gpio info") (
    g ← mygpio_recv_gpio_info;
    match g with
    | None => mret (failure [])
    | Some g =>
        out ← aborting (print_info g);
        succeeded fuel out
    end)
  else failed fuel)).

Definition cli_gpioget (fuel : nat) (args : list bytes) : C Sk cli_result :=
  with_gpio args (λ gpio,
  says verbose (bs "Sending gpioget") (
  v ← mygpio_gpioget gpio;
  if decide (v = MYGPIO_GPIO_VALUE_UNKNOWN) then failed fuel
  else succeeded fuel (bs "Value: " ++ mygpio_gpio_lookup_value v ++ [LF]))).

(** The end of the commands that return no data. *)
Definition ok_or_failed (fuel : nat) (m : C Sk bool) : C Sk cli_result :=
  ok ← m;
  if ok : bool then succeeded fuel [] else failed fuel.

Definition cli_gpioset (fuel : nat) (args : list bytes) : C Sk cli_result :=
  with_gpio args (λ gpio,
  match argument args 1 with
  | None => λ _, None
  | Some a =>
      let v := mygpio_gpio_parse_value a in
      if decide (v = MYGPIO_GPIO_VALUE_UNKNOWN) then mret (failure (bs "Invalid gpio value" ++ [LF]))
      else says verbose (bs "Sending gpioset") (ok_or_failed fuel (mygpio_gpioset fuel gpio v))
  end).

Definition cli_gpiotoggle (fuel : nat) (args : list bytes) : C Sk cli_result :=
  with_gpio args (λ gpio,
  says verbose (bs "Sending gpiotoggle") (ok_or_failed fuel (mygpio_gpiotoggle fuel gpio))).

Definition cli_gpioblink (fuel : nat) (args : list bytes) : C Sk cli_result :=
  with_gpio args (λ gpio,
  match mygpio_parse_int (argument args 1) true 0 9999 with
  | None => mret (failure (bs "Invalid timeout" ++ [LF]))
  | Some (timeout, _) =>
      match mygpio_parse_int (argument args 2) true 0 9999 with
      | None => mret (failure (bs "Invalid interval" ++ [LF]))
      | Some (interval, _) =>
          says verbose (bs "Sending gpioblink") (ok_or_failed fuel (mygpio_gpioblink fuel gpio timeout interval))
      end
  end).

Definition cli_hook (fuel : nat) (args : list bytes) : C Sk cli_result :=
  match argument args 0 with
  | None => λ _, None
  | Some a => says verbose (bs "Sending gpioset") (ok_or_failed fuel (mygpio_hook fuel a))
  end.

Definition send_vcio (fuel : nat) (command : bytes) : C Sk cli_result :=
  says verbose (bs "Sending " ++ command) (
  r ← mygpio_vcio command;
  match r with
  | None => failed fuel
  | Some p => succeeded fuel (bs "Value: " ++ value p ++ [LF])
  end).

Definition cli_vciotemp (fuel : nat) (args : list bytes) : C Sk cli_result := send_vcio fuel (bs "vciotemp").
Definition cli_vciovolts (fuel : nat) (args : list bytes) : C Sk cli_result := send_vcio fuel (bs "vciovolts").
Definition cli_vcioclock (fuel : nat) (args : list bytes) : C Sk cli_result := send_vcio fuel (bs "vcioclock").
Definition cli_vciothrottled (fuel : nat) (args : list bytes) : C Sk cli_result :=
  send_vcio fuel (bs "vciothrottled").

(** The events are printed as they are read. *)
Definition cli_idle (fuel : nat) (args : list bytes) : C Sk cli_result :=
  match (if bool_decide (length args = 1%nat) then fst <$> mygpio_parse_int (argument args 0) true (-1) INT_MAX
         else Some (-1)) with
  | None => mret (failure (bs "Invalid timeout" ++ [LF]))
  | Some timeout =>
      says verbose (bs "Sending idle") (
      sent ← mygpio_send_idle;
      (if sent : bool then says verbose (bs "In idle mode") else id) (
      says verbose (bs "Waiting for idle events") (
      ready ← mygpio_wait_idle timeout;
      if ready : bool then
        says verbose (bs "Events waiting") (
        es ← recv_idle_events fuel;
        out ← aborting (mapM print_event es);
        succeeded fuel (concat out))
      else
        says verbose (bs "No events waiting") (
        _ ← mygpio_response_end fuel;
        mret (failure [])))))
  end.

(** ** Main *)

Record t_commands := Command {
  command : bytes;
  handler : nat → list bytes → C Sk cli_result;
  min_options : Z;
  max_options : Z;
}.

(** The table, without its terminating entry. *)
Definition commands : list t_commands :=
  [Command (bs "idle") cli_idle 0 1; Command (bs "gpioinfo") cli_gpioinfo 1 1;
   Command (bs "gpiolist") cli_gpiolist 0 0; Command (bs "gpioget") cli_gpioget 1 1;
   Command (bs "gpioset") cli_gpioset 2 2; Command (bs "gpiotoggle") cli_gpiotoggle 1 1;
   Command (bs "gpioblink") cli_gpioblink 3 3; Command (bs "vciotemp") cli_vciotemp 0 0;
   Command (bs "vciovolts") cli_vciovolts 0 0; Command (bs "vcioclock") cli_vcioclock 0 0;
   Command (bs "vciothrottled") cli_vciothrottled 0 0; Command (bs "hook") cli_hook 1 1].

End cli.

Section main.
Context {Sk : Type} `{Socket Sk} `{Build}.

(** What [print_usage] writes to standard error, line by line. *)
Definition usage_lines : list bytes :=
  [[];
   bs "Usage: mygpioc [options] <command> [<arguments>]";
   [];
   bs "myGPIOc " ++ MYGPIO_VERSION;
   bs "(c) 2020-2026 Juergen Mang <mail@jcgames.de>";
   bs "https://github.com/jcorporation/myGPIOd";
   [];
   bs "Options:";
   bs "  -h, --help                               Displays this help";
   bs "  -s, --socket                             Path to myGPIOd socket";
   bs "  -t, --timeout                            Connection timeout in milliseconds";
   bs "  -v, --verbose                            Verbose output";
   [];
   bs "Commands:";
   bs "  gpioget <number>                         Gets the current value of a gpio";
   bs "  gpioblink <number> <timeout> <interval>  Toggles the value of an output gpio in the given timeout and interval";
   bs "  gpioinfo <number>                        Gets the settings of a gpio";
   bs "  gpiolist                                 Lists all configured gpios with its mode and value";
   bs "  gpioset <number> <active|inactive>       Sets the value of an output gpio";
   bs "  hook <name>                              Trigger a hook";
   bs "  gpiotoggle <number>                      Toggles the value of an output gpio";
   bs "  idle [<timeout>]                         Waits for idle events, timeout is in milliseconds";
   bs "  vciotemp                                 Gets the temperature from /dev/vcio";
   bs "  vciovolts                                Gets the core voltage from /dev/vcio";
   bs "  vcioclock                                Gets the core clock from /dev/vcio";
   bs "  vciothrottled                            Gets the throttled mask from /dev/vcio";
   []].

Definition print_usage : bytes := concat (map (λ l, l ++ [LF]) usage_lines).

(** The result, and what is printed to standard error when there is none: main
    does not tell the terminating entry from NULL. [given] is the number of
    arguments behind the command. *)
Definition get_command (verbose : bool) (command_string : bytes) (given : Z) : t_commands + bytes :=
  match find (λ p, strcasecmp0 command_string (command p)) (commands verbose) with
  | None => inr []
  | Some p =>
      if (given <? min_options p) || (max_options p <? given)
      then inr (bs "Invalid number of arguments" ++ [LF])
      else inl p
  end.

(** With the global [verbose], which the options set. *)
Record t_options := Options { opt_socket : bytes; opt_timeout_ms : Z; opt_verbose : bool }.

#[local] Instance eta_options : Eta t_options := λ r, Options (opt_socket r) (opt_timeout_ms r) (opt_verbose r).

Definition init_options : t_options := Options CFG_SOCKET_PATH 10000 false.

(** What getopt_long returns, in turn, with its [optarg]. Its own messages are
    those of the C library. *)
Inductive t_getopt := OptHelp | OptSocket (optarg : bytes) | OptTimeout (optarg : bytes) | OptVerbose | OptInvalid.

(** [inr] is the exit of the program. *)
Fixpoint handle_options (opts : list t_getopt) (options : t_options) : t_options + cli_result :=
  match opts with
  | [] => inl options
  | OptHelp :: _ => inr (Result EXIT_SUCCESS [] print_usage)
  | OptSocket optarg :: opts => handle_options opts (options <| opt_socket := optarg |>)
  | OptTimeout optarg :: opts =>
      match mygpio_parse_int (Some optarg) true 1 1000000 with
      | None => inr (failure (bs "Invalid timeout" ++ [LF] ++ print_usage))
      | Some (t, _) => handle_options opts (options <| opt_timeout_ms := t |>)
      end
  | OptVerbose :: opts => handle_options opts (options <| opt_verbose := true |>)
  | OptInvalid :: _ => inr (failure print_usage)
  end.

(** The descriptor 0 is not closed. *)
Definition libmygpio_socket_close (fd : Z) (s : Sk) : Sk := if 0 <? fd then cl_close fd s else s.

Definition mygpio_connection_free (c : t_mygpio_connection) (s : Sk) : Sk := libmygpio_socket_close (fd c) s.

Definition connecting_text (options : t_options) : bytes := bs "Connecting to myGPIOd: " ++ opt_socket options.

Definition connected_text (version : Z * Z * Z) : bytes :=
  let '(v0, v1, v2) := version in
  bs "Connected, server version " ++ print_u v0 ++ bs "." ++ print_u v1 ++ bs "." ++ print_u v2.

(** [opts]: the options; [args]: [argv] from [optind] on, which getopt_long has
    put behind the options. The result is that of the program and the socket. *)
Definition main (fuel : nat) (opts : list t_getopt) (args : list bytes) (s : Sk) : option (cli_result * Sk) :=
  match handle_options opts init_options with
  | inr r => Some (r, s)
  | inl options =>
      let verbose := opt_verbose options in
      match args with
      | [] => Some (failure print_usage, s)
      | command_string :: args =>
          match get_command verbose command_string (Z.of_nat (length args)) with
          | inr err => Some (failure (err ++ print_usage), s)
          | inl p =>
              '(c, s) ← mygpio_connection_new fuel (opt_socket options) (opt_timeout_ms options) s;
              if decide (mygpio_connection_get_state c = MYGPIO_STATE_OK) then
                '(r, (c', s)) ← handler p fuel args (c, s);
                Some (said verbose (connecting_text options)
                        (said verbose (connected_text (mygpio_connection_get_version c)) (said_last verbose (bs "Closing connection") r)),
                      mygpio_connection_free c' s)
              else
                Some (said verbose (connecting_text options)
                        (failure (bs "Error: " ++ default (bs "(null)") (mygpio_connection_get_error c) ++ [LF])),
                      mygpio_connection_free c s)
          end
      end
  end.
End main.
