(* ===== verification/ClientSpec.v ===== *)
(** * The client library reads what the daemon writes

    The functions of libmygpio that receive, on the bytes of the daemon's
    answers: [holds r] is a connection in order whose socket has received [r]. *)

From S2P Require Import Prelude CLib ParseUtil Lists GpioUtil Config Kernel Sim Timer InputNames.
From S2P Require Import Events Gpio Actions GpioEvent Protocol Socket EventLoop.
From S2P Require Import Invariant InvOps InvProtocol InvLoop Daemon EventSpec ClientIo Client.

(** A stream socket: [incoming] are the bytes that have arrived and were not
    yet received. They are received in order, [poll] reports them, and a call
    that does not block finds nothing when there is none. *)
Class StreamSocket (Sk : Type) `{Socket Sk} := {
  incoming : Sk → bytes;
  recv_incoming fd flag s c r : incoming s = c :: r →
    ∃ s', recv fd flag s = (Some c, s') ∧ incoming s' = r;
  recv_nothing fd s : incoming s = [] →
    ∃ s', recv fd true s = (None, s') ∧ incoming s' = [];
  poll_incoming fd t s : incoming s ≠ [] →
    ∃ n s', poll_in fd t s = (n, s') ∧ 0 < n ∧ incoming s' = incoming s;
}.

#[local] Opaque BUFFER_SIZE_MAX.

Section stream.
Context `{StreamSocket Sk}.
Implicit Types (cs : t_mygpio_connection * Sk) (l r : bytes).

(** [b]: a byte before the input buffer was overwritten. *)
Definition holds (b : bool) r cs : Prop :=
  ClientIo.state cs.1 = MYGPIO_STATE_OK ∧ -1 < ClientIo.fd cs.1 ∧ wrote_below cs.1 = b ∧
  incoming cs.2 = r.

Lemma check_ok b r cs : holds b r cs → mygpio_connection_check cs = Some (true, cs).
Proof.
  intros (Hs & Hf & _). unfold mygpio_connection_check, conn. rewrite Hs.
  rewrite bool_decide_true, (proj2 (Z.ltb_lt _ _)) by done. done.
Qed.

Lemma C_bind_run {A B} (m : C Sk A) (f : A → C Sk B) cs a cs' :
  m cs = Some (a, cs') → mbind f m cs = f a cs'.
Proof. unfold mbind, C_bind. by intros ->. Qed.

Lemma recv_go_line fd flag n acc l r s :
  incoming s = l ++ LF :: r → Forall (λ c, ch c LF = false) l → (length l < n)%nat →
  ∃ s', recv_go fd flag n acc s = (true, acc ++ l, s') ∧ incoming s' = r.
Proof.
  revert n acc s. induction l as [|c l IH]; intros [|n] acc s Hs Hl Hn; simpl in *; try lia.
  - destruct (recv_incoming fd flag s _ _ Hs) as (s' & -> & Hr). rewrite ch_refl, app_nil_r. eauto.
  - apply Forall_cons in Hl as [Hc Hl].
    destruct (recv_incoming fd flag s _ _ Hs) as (s1 & -> & Hr). rewrite Hc.
    destruct (IH n (acc ++ [c]) s1 Hr Hl ltac:(lia)) as (s' & -> & Hr').
    exists s'. by rewrite <- app_assoc.
Qed.

(** A line of the protocol that fits into the buffer. *)
Definition plain_line l : Prop :=
  Forall (λ c, ch c LF = false) l ∧ no_nul l ∧ (length l < BUFFER_SIZE_MAX)%nat.

(** A connection whose input buffer holds a line. *)
Definition has_line b l r cs : Prop :=
  holds b r cs ∧ c_str (buffer (ClientIo.buf_in cs.1)) = l ∧ len (ClientIo.buf_in cs.1) = Z.of_nat (length l).

Lemma recv_line_ok timeout b l r cs :
  holds b (l ++ LF :: r) cs → plain_line l →
  ∃ cs', libmygpio_socket_recv_line timeout cs = Some (true, cs') ∧ has_line b l r cs' ∧
    version cs'.1 = version cs.1.
Proof.
  destruct cs as [c s]. intros (Hs & Hf & Hb & Hin) (Hlf & Hnul & Hlen). cbn [fst snd] in *.
  unfold libmygpio_socket_recv_line.
  assert (Hgo : ∀ s, incoming s = l ++ LF :: r →
    ∃ s', recv_go (ClientIo.fd c) (timeout =? 0) BUFFER_SIZE_MAX [] s = (true, l, s') ∧ incoming s' = r).
  { intros s1 Hs1. exact (recv_go_line _ _ BUFFER_SIZE_MAX [] l r s1 Hs1 Hlf Hlen). }
  assert (Hpost : ∀ s', incoming s' = r →
    has_line b l r (c <| ClientIo.buf_in := Buf (l ++ [NUL]) (Z.of_nat (length l)) |>, s')).
  { intros s' Hr. split; [by split_and!|]. split; [|done]. simpl.
    unfold c_str. rewrite take_while_all by done. simpl. by rewrite app_nil_r. }
  destruct (0 <? timeout).
  - destruct (poll_incoming (ClientIo.fd c) timeout s) as (n & s1 & Hp & Hn & Hs1).
    { rewrite Hin. by destruct l. }
    cbn [ClientIo.fd set_field]. rewrite Hp. rewrite (proj2 (Z.leb_gt n 0)) by done. simpl.
    destruct (Hgo s1 ltac:(congruence)) as (s' & -> & Hr). eexists. split; [done|]. split; [auto|done].
  - simpl. destruct (Hgo s Hin) as (s' & -> & Hr). eexists. split; [done|]. split; [auto|done].
Qed.

(** A pair whose line fits into the buffer. *)
Definition pair_line (k v : bytes) : bytes := k ++ ":"%char :: v.

Definition plain_pair (k v : bytes) : Prop :=
  Forall (λ c, ch c ":" = false) k ∧ plain_line (pair_line k v).

Lemma parse_pair_line k v :
  Forall (λ c, ch c ":" = false) k → no_nul (pair_line k v) →
  libmygpio_parse_pair (pair_line k v) = Some (Pair k v).
Proof.
  intros Hk Hn. unfold libmygpio_parse_pair, strchr. rewrite !(c_str_id (pair_line k v)) by done.
  assert (Hk' : Forall (λ x, negb (ch x ":") = true) k).
  { eapply Forall_impl; [exact Hk|]. intros c Hc. cbn in *. by rewrite Hc. }
  unfold pair_line. rewrite drop_while_all, take_while_all by done. simpl. by rewrite app_nil_r.
Qed.

Lemma not_end k v : pair_line k v ≠ bs "END".
Proof.
  intros E. assert (Hin : ":"%char ∈ bs "END") by (rewrite <- E; apply elem_of_app; right; by left).
  revert Hin. change (bs "END") with ["E"; "N"; "D"]%char. rewrite !elem_of_cons.
  intros [?|[?|[?|[]%elem_of_nil]]]; done.
Qed.

Lemma recv_pair_ok b k v r cs :
  holds b (pair_line k v ++ LF :: r) cs → plain_pair k v →
  ∃ cs', mygpio_recv_pair cs = Some (Some (Pair k v), cs') ∧ holds b r cs' ∧ version cs'.1 = version cs.1.
Proof.
  intros Hcs [Hk Hl]. destruct (recv_line_ok 0 _ _ _ _ Hcs Hl) as (cs' & Hrun & (Hh & Hb & Hlen) & Hv).
  exists cs'. split; [|done]. unfold mygpio_recv_pair.
  erewrite C_bind_run by (eapply check_ok; exact Hcs). cbn [negb].
  erewrite C_bind_run by exact Hrun. erewrite C_bind_run by done.
  rewrite Hlen. destruct (Z.eqb_spec (Z.of_nat (length (pair_line k v))) 0) as [E|_].
  { exfalso. unfold pair_line in E. rewrite length_app in E. simpl in E. lia. }
  erewrite C_bind_run by done. rewrite Hb.
  replace (strcmp0 (pair_line k v) (bs "END")) with false.
  - rewrite parse_pair_line; [done|done|apply Hl].
  - symmetry. apply not_true_iff_false. rewrite strcmp0_true, c_str_id by apply Hl.
    apply not_end.
Qed.

Lemma recv_pair_name_ok b k v r cs :
  holds b (pair_line k v ++ LF :: r) cs → plain_pair k v →
  ∃ cs', mygpio_recv_pair_name k cs = Some (Some v, cs') ∧ holds b r cs'.
Proof.
  intros Hcs Hp. destruct (recv_pair_ok _ _ _ _ _ Hcs Hp) as (cs' & Hrun & Hh & _).
  exists cs'. split; [|done]. unfold mygpio_recv_pair_name. erewrite C_bind_run by exact Hrun.
  simpl. by rewrite strcmp0_refl.
Qed.

Lemma recv_status_ok b r cs :
  holds b (bs "OK" ++ LF :: r) cs →
  ∃ cs', libmygpio_recv_response_status cs = Some (true, cs') ∧ holds b r cs' ∧ version cs'.1 = version cs.1.
Proof.
  intros Hcs. assert (Hl : plain_line (bs "OK")).
  { split_and!; [repeat constructor..|]. apply Nat.ltb_lt. vm_compute. reflexivity. }
  unfold libmygpio_recv_response_status. erewrite C_bind_run by (eapply check_ok; exact Hcs).
  erewrite C_bind_run by done.
  destruct (recv_line_ok (ClientIo.timeout_ms cs.1) _ _ _ _ Hcs Hl) as (cs' & Hrun & (Hh & Hb & Hlen) & Hv).
  erewrite C_bind_run by exact Hrun. cbn [negb]. erewrite C_bind_run by done. rewrite Hb, strcmp0_refl. eauto.
Qed.

(** What "END" does: the next pair is missing, and the response is at its end. *)
Lemma end_line : plain_line (bs "END").
Proof. split_and!; [repeat constructor..|]. apply Nat.ltb_lt. vm_compute. reflexivity. Qed.

Lemma recv_pair_end b r cs :
  holds b (bs "END" ++ LF :: r) cs → ∃ cs', mygpio_recv_pair cs = Some (None, cs') ∧ holds b r cs'.
Proof.
  intros Hcs. destruct (recv_line_ok 0 _ _ _ _ Hcs end_line) as (cs' & Hrun & (Hh & Hb & Hlen) & Hv).
  exists cs'. split; [|done]. unfold mygpio_recv_pair.
  erewrite C_bind_run by (eapply check_ok; exact Hcs). cbn [negb].
  erewrite C_bind_run by exact Hrun. erewrite C_bind_run by done. rewrite Hlen. simpl.
  erewrite C_bind_run by done. by rewrite Hb, strcmp0_refl.
Qed.

Lemma response_end_ok b r cs fuel :
  holds b (bs "END" ++ LF :: r) cs → (0 < fuel)%nat →
  ∃ cs', mygpio_response_end fuel cs = Some (true, cs') ∧ holds b r cs' ∧ version cs'.1 = version cs.1.
Proof.
  intros Hcs Hf. destruct fuel as [|fuel]; [lia|].
  destruct (recv_line_ok 0 _ _ _ _ Hcs end_line) as (cs' & Hrun & (Hh & Hb & Hlen) & Hv).
  unfold mygpio_response_end. erewrite C_bind_run by (eapply check_ok; exact Hcs). cbn [negb response_end_go].
  erewrite C_bind_run by exact Hrun. cbn [negb]. erewrite C_bind_run by done. rewrite Hb, strcmp0_refl.
  erewrite C_bind_run by done. eexists. split; [done|]. by destruct cs' as [[] ?].
Qed.

(** The lines before "END" are skipped. *)
Lemma response_end_lines b ls r cs fuel :
  Forall (λ l, plain_line l ∧ l ≠ bs "END") ls → holds b (unlines (ls ++ [bs "END"]) ++ r) cs →
  (length ls < fuel)%nat → ∃ cs', mygpio_response_end fuel cs = Some (true, cs') ∧ holds b r cs'.
Proof.
  intros Hls Hcs Hf. unfold mygpio_response_end. erewrite C_bind_run by (eapply check_ok; exact Hcs). cbn [negb].
  revert cs fuel Hcs Hf. induction Hls as [|l ls [Hl Hne] _ IH]; intros cs [|fuel] Hcs Hf;
    cbn [length] in Hf; try lia; cbn [response_end_go].
  - destruct (recv_line_ok 0 _ (bs "END") r cs Hcs end_line) as (cs1 & Hrun & (Hh & Hb & _) & _).
    erewrite C_bind_run by exact Hrun. cbn [negb]. erewrite C_bind_run by done. rewrite Hb, strcmp0_refl.
    erewrite C_bind_run by done. eexists. split; [done|]. by destruct cs1 as [[] ?].
  - cbn [app] in Hcs. change (l :: ls ++ [bs "END"]) with ([l] ++ (ls ++ [bs "END"])) in Hcs.
    rewrite unlines_app, <- app_assoc in Hcs.
    assert (Hcs' : holds b (l ++ LF :: unlines (ls ++ [bs "END"]) ++ r) cs).
    { unfold unlines at 1 in Hcs. cbn [map concat] in Hcs. rewrite app_nil_r, <- app_assoc in Hcs. exact Hcs. }
    destruct (recv_line_ok 0 _ l _ cs Hcs' Hl) as (cs1 & Hrun & (Hh & Hb & _) & _).
    erewrite C_bind_run by exact Hrun. cbn [negb]. erewrite C_bind_run by done. rewrite Hb.
    replace (strcmp0 l (bs "END")) with false.
    + apply IH; [exact Hh|lia].
    + symmetry. apply not_true_iff_false. rewrite strcmp0_true, c_str_id by apply Hl. done.
Qed.

(** Nothing has arrived: the terminating NUL is written before the buffer. *)
Lemma response_end_nothing b cs fuel :
  holds b [] cs → (0 < fuel)%nat →
  ∃ cs', mygpio_response_end fuel cs = Some (false, cs') ∧ holds true [] cs'.
Proof.
  intros Hcs Hf. destruct fuel as [|fuel]; [lia|].
  unfold mygpio_response_end. erewrite C_bind_run by (eapply check_ok; exact Hcs). cbn [negb response_end_go].
  destruct cs as [c s]. destruct Hcs as (Hs & Hfd & Hb & Hin). cbn [fst snd] in *.
  destruct (recv_nothing (ClientIo.fd c) s Hin) as (s' & Hr & Hin').
  assert (Hline : libmygpio_socket_recv_line 0 (c, s)
    = Some (false, (c <| ClientIo.buf_in := libmygpio_buf_init |> <| wrote_below := true |>, s'))).
  { unfold libmygpio_socket_recv_line. cbn [ClientIo.fd set_field].
    assert (Hgo : ∀ n, recv_go (ClientIo.fd c) true n [] s = (false, [], if n is O then s else s')).
    { intros [|n]; simpl; [done|]. by rewrite Hr. }
    cbn [Z.ltb Z.compare negb Z.eqb]. change (ClientIo.fd (_ <| _ := _ |>)) with (ClientIo.fd c).
    rewrite Hgo. by destruct BUFFER_SIZE_MAX eqn:?. }
  erewrite C_bind_run by exact Hline. cbn [negb]. erewrite C_bind_run by done.
  eexists. split; [done|]. by destruct c.
Qed.

(** ** Values that fit *)

Definition plain_value (v : bytes) : Prop :=
  Forall (λ c, ch c LF = false) v ∧ no_nul v ∧ (length v ≤ 900)%nat.

Definition key_char (c : ascii) : bool := negb (ch c ":") && negb (ch c LF) && negb (ch c NUL).

Lemma plain_pair_key k v :
  forallb key_char k && (length k <=? 40)%nat = true → plain_value v → plain_pair k v.
Proof.
  intros [Hk Hl]%andb_true_iff (Hlf & Hn & Hv). apply Nat.leb_le in Hl.
  assert (Hall : Forall (λ c, key_char c = true) k).
  { apply Forall_forall. intros c Hc%list_elem_of_In. by eapply forallb_forall. }
  assert (Hsub : ∀ P : ascii → Prop, (∀ c, key_char c = true → P c) → Forall P k).
  { intros P HP. by eapply Forall_impl. }
  assert (Hkc : ∀ c, key_char c = true → ch c ":" = false ∧ ch c LF = false ∧ negb (ch c NUL) = true).
  { intros c. unfold key_char. rewrite !andb_true_iff, !negb_true_iff. tauto. }
  split; [apply Hsub; intros; by apply Hkc|]. split_and!.
  - apply Forall_app. split; [apply Hsub; intros; by apply Hkc|by constructor].
  - apply Forall_app. split; [apply Hsub; intros; by apply Hkc|by constructor].
  - apply Nat.lt_le_trans with 1024%nat; [|apply Nat.leb_le; vm_compute; reflexivity].
    unfold pair_line. rewrite length_app. cbn [length]. lia.
Qed.

Lemma plain_value_lit v :
  forallb key_char v && (length v <=? 900)%nat = true → plain_value v.
Proof.
  intros [Hk Hl]%andb_true_iff. apply Nat.leb_le in Hl.
  assert (Hall : Forall (λ c, key_char c = true) v).
  { apply Forall_forall. intros c Hc%list_elem_of_In. by eapply forallb_forall. }
  split_and!; [| |done]; (eapply Forall_impl; [exact Hall|]); intros c;
    unfold key_char; rewrite !andb_true_iff, !negb_true_iff; tauto.
Qed.

Lemma plain_value_num n : 0 ≤ n ≤ ULONG_MAX → plain_value (print_u n).
Proof.
  intros Hn. pose proof (print_u_digits n) as Hd. split_and!.
  - eapply Forall_impl; [exact Hd|]. intros c Hc. by apply isdigit_not_char.
  - auto with gpio.
  - transitivity 65%nat; [apply (print_u_length n 64); unfold ULONG_MAX in *; lia|].
    apply Nat.leb_le. vm_compute. reflexivity.
Qed.

(** ** Answers made of pairs *)

Definition pairs (kvs : list (bytes * bytes)) : bytes :=
  unlines (map (λ kv, pair_line kv.1 kv.2) kvs).

Lemma pairs_cons k v kvs r : pairs ((k, v) :: kvs) ++ r = pair_line k v ++ LF :: pairs kvs ++ r.
Proof. unfold pairs, unlines. cbn [map concat fst snd]. by rewrite <- !app_assoc. Qed.

Lemma pairs_app kvs1 kvs2 r : pairs (kvs1 ++ kvs2) ++ r = pairs kvs1 ++ pairs kvs2 ++ r.
Proof. unfold pairs. by rewrite map_app, unlines_app, app_assoc. Qed.

(** The next pair is received. *)
Lemma pair_step {A} b k v kvs r cs (f : bytes → C Sk (option A)) :
  holds b (pairs ((k, v) :: kvs) ++ r) cs →
  forallb key_char k && (length k <=? 40)%nat = true → plain_value v →
  ∃ cs', bind_some (mygpio_recv_pair_name k) f cs = f v cs' ∧ holds b (pairs kvs ++ r) cs'.
Proof.
  rewrite pairs_cons. intros Hcs Hk Hv.
  destruct (recv_pair_name_ok _ _ _ _ _ Hcs (plain_pair_key k v Hk Hv)) as (cs' & Hrun & Hh).
  exists cs'. split; [|done]. unfold bind_some. by erewrite C_bind_run by exact Hrun.
Qed.

Lemma check_some_step {A B} (a : A) (f : A → C Sk (option B)) cs :
  bind_some (check_some (Some a)) f cs = f a cs.
Proof. done. Qed.

Lemma check_that_step {B} (f : unit → C Sk (option B)) c cs :
  c = true → bind_some (check_that c) f cs = f tt cs.
Proof. by intros ->. Qed.

(** The text ends with "END". *)
Lemma pair_end {A} b k r cs (f : bytes → C Sk (option A)) :
  holds b (bs "END" ++ LF :: r) cs →
  ∃ cs', bind_some (mygpio_recv_pair_name k) f cs = Some (None, cs') ∧ holds b r cs'.
Proof.
  intros Hcs. destruct (recv_pair_end _ _ _ Hcs) as (cs' & Hrun & Hh). exists cs'. split; [|done].
  unfold bind_some, mygpio_recv_pair_name. rewrite (C_bind_run _ _ cs None cs'); [done|].
  by erewrite C_bind_run by exact Hrun.
Qed.
End stream.

(** [recv_step H]: the receiver of the goal takes the next pair of [H]. *)
Ltac recv_step Hcs :=
  let cs := fresh "cs" in
  let E := fresh "E" in
  let Hnew := fresh "Hcs" in
  lazymatch goal with
  | |- context [bind_some (mygpio_recv_pair_name _) ?f _] =>
      edestruct (pair_step _ _ _ _ _ _ f Hcs) as (cs & E & Hnew);
      [reflexivity| |rewrite E; clear Hcs E; rename Hnew into Hcs]
  end.

(** [recv_end H]: it finds the end of the answer. *)
Ltac recv_end Hcs :=
  let cs := fresh "cs" in
  let E := fresh "E" in
  let Hnew := fresh "Hcs" in
  lazymatch goal with
  | |- context [bind_some (mygpio_recv_pair_name ?k) ?f] =>
      edestruct (pair_end _ k _ _ f Hcs) as (cs & E & Hnew);
      exists cs; split; [|done]; try (by erewrite C_bind_run by exact E)
  end.

(** ** Idle events *)

(** What the client library calls the events of the daemon: it knows the
    events of GPIOs; the daemon's name for input events it does not know. *)
Definition of_event_type (t : mygpiod_event_types) : mygpio_event :=
  match t with
  | MYGPIOD_EVENT_GPIO_FALLING => MYGPIO_EVENT_GPIO_FALLING
  | MYGPIOD_EVENT_GPIO_RISING => MYGPIO_EVENT_GPIO_RISING
  | MYGPIOD_EVENT_GPIO_LONG_PRESS => MYGPIO_EVENT_GPIO_LONG_PRESS
  | MYGPIOD_EVENT_GPIO_LONG_PRESS_RELEASE => MYGPIO_EVENT_GPIO_LONG_PRESS_RELEASE
  | _ => MYGPIO_EVENT_UNKNOWN
  end.

Definition decoded (n : node t_event_data) : t_mygpio_idle_event :=
  IdleEvent (of_event_type (mygpiod_event_type (n_data n))) (timestamp_ns (n_data n) / 1000000)
    (Some (n_id n)) None None None None.

(** Numbers of the widths that C gives them. *)
Definition event_numbers (n : node t_event_data) : Prop :=
  0 ≤ n_id n ≤ UINT_MAX ∧ 0 ≤ timestamp_ns (n_data n) ≤ ULONG_MAX.

(** An event of a GPIO. *)
Definition of_gpio (n : node t_event_data) : Prop :=
  of_event_type (mygpiod_event_type (n_data n)) ≠ MYGPIO_EVENT_UNKNOWN.

#[export] Instance of_gpio_dec n : Decision (of_gpio n).
Proof. apply _. Defined.

(** What the library understands: events of GPIOs with numbers up to GPIOS_MAX. *)
Definition understood (n : node t_event_data) : bool :=
  bool_decide (of_gpio n) && (n_id n <=? GPIOS_MAX).

(** The events behind the first one that is refused. *)
Definition unread (q : t_list t_event_data) : t_list t_event_data := drop 1 (drop_while understood q).

Lemma take_while_id {A} (p : A → bool) (s : list A) : forallb p s = true → take_while p s = s.
Proof. induction s as [|c s IH]; [done|]. cbn. intros [-> ?]%andb_true_iff. f_equal. auto. Qed.

Lemma parse_uint_max n max :
  0 ≤ n ≤ UINT_MAX →
  mygpio_parse_uint (Some (print_u n)) true 0 max = if n <=? max then Some (n, []) else None.
Proof.
  intros Hn. unfold mygpio_parse_uint, UINT_MAX in *. rewrite <- (app_nil_r (print_u n)).
  rewrite parse_guard_digits, digits_not_minus by auto with gpio.
  rewrite strtoul_digits; auto with gpio; rewrite !print_u_value; unfold ULONG_MAX; try lia.
  cbn. rewrite (proj2 (Z.ltb_ge _ _)) by lia. unfold parse_finish. cbn.
  rewrite (proj2 (Z.leb_le 0 n)) by lia. by destruct (n <=? max).
Qed.

Lemma parse_event_name t : mygpio_parse_event (mygpiod_event_name t) = of_event_type t.
Proof. by destruct t. Qed.

Lemma event_name_plain `{StreamSocket Sk} t : plain_value (mygpiod_event_name t).
Proof. apply plain_value_lit. by destruct t. Qed.

Section idle.
Context `{StreamSocket Sk}.
Context `{Kernel K} `{Build}.

Lemma recv_idle_event_ok devs n b r (cs : t_mygpio_connection * Sk) :
  event_numbers n → holds b (unlines (event_lines devs n) ++ r) cs →
  ∃ cs', mygpio_recv_idle_event cs = Some (if understood n then Some (decoded n) else None, cs') ∧
    (of_gpio n → holds b r cs').
Proof.
  intros (Hid & Hts) Hcs. unfold understood. case_bool_decide as Hg; cbn [andb].
  2:{ assert (Hcs' : ∃ r', holds b (pairs [(bs "event", mygpiod_event_name (mygpiod_event_type (n_data n)))] ++ r') cs).
      { eexists. unfold event_lines, pairs, unlines in *. cbn [map concat app] in *.
        rewrite <- !app_assoc in *. exact Hcs. }
      clear Hcs. destruct Hcs' as (r' & Hcs). unfold mygpio_recv_idle_event.
      recv_step Hcs; [apply event_name_plain|]. rewrite parse_event_name.
      assert (of_event_type (mygpiod_event_type (n_data n)) = MYGPIO_EVENT_UNKNOWN) as -> by (by apply dec_stable).
      rewrite bool_decide_true by done. by eexists. }
  assert (Hni : mygpiod_event_type (n_data n) ≠ MYGPIOD_EVENT_INPUT) by (intros E; by apply Hg; rewrite E).
  assert (Hms : 0 ≤ timestamp_ns (n_data n) / 1000000 ≤ ULONG_MAX).
  { split; [apply Z.div_pos; lia|]. transitivity (timestamp_ns (n_data n)); [|lia].
    apply Z.div_le_upper_bound; lia. }
  unfold event_lines in Hcs. rewrite decide_False in Hcs by done.
  change (holds b (pairs [(bs "event", mygpiod_event_name (mygpiod_event_type (n_data n)));
      (bs "timestamp_ms", print_u (timestamp_ns (n_data n) / 1000000));
      (bs "gpio", print_u (n_id n))] ++ r) cs) in Hcs.
  unfold mygpio_recv_idle_event.
  recv_step Hcs; [apply event_name_plain|].
  rewrite parse_event_name, check_that_step by (by rewrite bool_decide_false).
  recv_step Hcs; [by apply plain_value_num|].
  rewrite parse_uint64_print, check_some_step by done. cbn [fst].
  rewrite decide_False by (by destruct (mygpiod_event_type (n_data n))).
  recv_step Hcs; [apply plain_value_num; unfold UINT_MAX, ULONG_MAX in *; lia|].
  rewrite parse_uint_max by done. destruct (n_id n <=? GPIOS_MAX); [rewrite check_some_step|]; by eexists.
Qed.

(** The lines of an event of a GPIO. *)
Lemma event_lines_plain devs n :
  of_gpio n → event_numbers n →
  length (event_lines devs n) = 3%nat ∧ Forall (λ l, plain_line l ∧ l ≠ bs "END") (event_lines devs n).
Proof.
  intros Hg [Hid Hts]. assert (Hni : mygpiod_event_type (n_data n) ≠ MYGPIOD_EVENT_INPUT) by (intros E; by apply Hg; rewrite E).
  assert (Hms : 0 ≤ timestamp_ns (n_data n) / 1000000 ≤ ULONG_MAX).
  { split; [apply Z.div_pos; lia|]. transitivity (timestamp_ns (n_data n)); [|lia]. apply Z.div_le_upper_bound; lia. }
  assert (Hl : ∀ k v, forallb key_char k && (length k <=? 40)%nat = true → plain_value v →
    plain_line (pair_line k v) ∧ pair_line k v ≠ bs "END").
  { intros k v Hk Hv. split; [apply (plain_pair_key k v Hk Hv)|apply not_end]. }
  unfold event_lines. rewrite decide_False by done. split; [done|].
  repeat (apply Forall_cons; split); [..|apply Forall_nil_2].
  - apply (Hl (bs "event")); [done|apply event_name_plain].
  - apply (Hl (bs "timestamp_ms")); [done|by apply plain_value_num].
  - apply (Hl (bs "gpio")); [done|apply plain_value_num; unfold UINT_MAX, ULONG_MAX in *; lia].
Qed.

Lemma idle_lines_plain devs q :
  Forall of_gpio q → Forall event_numbers q →
  length (concat (map (event_lines devs) q)) = (3 * length q)%nat ∧
  Forall (λ l, plain_line l ∧ l ≠ bs "END") (concat (map (event_lines devs) q)).
Proof.
  intros Hg Hq. induction q as [|n q IH]; [by split; [|constructor]|].
  apply Forall_cons in Hg as [Hn Hg]. apply Forall_cons in Hq as [Hn' Hq].
  destruct (event_lines_plain devs n Hn Hn') as [Hl Hp]. destruct (IH Hg Hq) as [Hl' Hp'].
  cbn [map concat]. split; [rewrite length_app, Hl, Hl'; cbn [length]; lia|by apply Forall_app].
Qed.

Lemma recv_idle_events_ok devs q b r (cs : t_mygpio_connection * Sk) fuel :
  Forall event_numbers q → (length q < fuel)%nat → holds b (idle_text devs false q ++ r) cs →
  ∃ cs', recv_idle_events fuel cs = Some (map decoded (take_while understood q), cs') ∧
    (forallb understood q = true → holds b r cs') ∧
    (forallb understood q = false → Forall of_gpio q → holds b (idle_text devs false (unread q) ++ r) cs').
Proof.
  intros Hq. unfold unread. revert cs fuel. induction Hq as [|n q Hn _ IH]; intros cs fuel Hf Hcs.
  - destruct fuel as [|fuel]; [simpl in Hf; lia|]. cbn [recv_idle_events].
    change (holds b (bs "END" ++ LF :: r) cs) in Hcs.
    unfold mygpio_recv_idle_event.
    recv_end Hcs.
  - destruct fuel as [|fuel]; [simpl in Hf; lia|]. cbn [recv_idle_events].
    unfold idle_text in Hcs. cbn [map concat app] in Hcs. rewrite <- app_assoc, unlines_app, <- app_assoc in Hcs.
    destruct (recv_idle_event_ok _ _ _ _ _ Hn Hcs) as (cs1 & E1 & Hcs1).
    erewrite C_bind_run by exact E1. cbn [take_while drop_while forallb].
    destruct (understood n) eqn:Eu; cbn [andb].
    + assert (Hg : of_gpio n) by (by apply andb_true_iff in Eu as [?%bool_decide_eq_true _]).
      destruct (IH cs1 fuel ltac:(simpl in Hf; lia) (Hcs1 Hg)) as (cs' & E2 & Hall & Hnot).
      exists cs'. split; [by erewrite C_bind_run by exact E2|]. split; [done|].
      intros Hu Hg'. apply Hnot; [done|]. by apply Forall_cons in Hg' as [_ ?].
    + exists cs1. split; [done|]. split; [done|]. intros _ [Hg _]%Forall_cons. exact (Hcs1 Hg).
Qed.

Context `{BL : !BuildLaws} `{KL : !KernelLaws K}.

(** C10: From an event to the application. The answer to "idle" that the daemon
    queues for a client with waiting events, in any reachable state, is read by the
    client library event by event, oldest first, with type, GPIO number and time in
    milliseconds, up to the first event that the library does not know: one of an
    input device, or of a GPIO with a number above 64 (get_config accepts numbers up
    to 99). If there is none, then its loop has returned exactly the waiting events
    and ends, and what arrived after the answer is left in the socket. GPIO numbers
    and times are taken to be of the widths that C gives them. *)
Theorem idle_events_end_to_end st p n b r (cs : t_mygpio_connection * Sk) fuel :
  reachable st → list_deref (clients (config (l_world st))) p = Some n →
  waiting_events (n_data n) ≠ [] → Forall event_numbers (waiting_events (n_data n)) →
  (10 < fuel)%nat →
  let q := waiting_events (n_data n) in
  ∃ w' n', handle_idle p (l_world st) = Done (true, w') ∧
    list_deref (clients (config w')) p = Some n' ∧
    (holds b (Config.buf_out (n_data n') ++ r) cs →
     ∃ cs', recv_idle_events fuel cs = Some (map decoded (take_while understood q), cs') ∧
       (forallb understood q = true →
        recv_idle_events fuel cs = Some (map decoded q, cs') ∧ holds b r cs')).
Proof.
  intros Hst Hn E Hq Hf q. destruct (handle_idle_waiting st p n Hst Hn E) as (Hrun & Hn' & Hlen).
  eexists _, _. split; [exact Hrun|]. split; [exact Hn'|]. intros Hcs.
  destruct (recv_idle_events_ok (devs_of (l_world st)) q b r cs fuel) as (cs' & Ecs & Hall & _); [done|unfold q; lia|exact Hcs|].
  exists cs'. split; [exact Ecs|]. intros Hu. split; [|by apply Hall].
  by rewrite Ecs, take_while_id.
Qed.

(** An input event in the answer of the daemon ends the client's loop: the
    daemon names it "input", the library only knows "gpio_input", so neither
    the event nor those behind it are ever returned. *)
Theorem input_event_not_understood devs e q b r (cs : t_mygpio_connection * Sk) fuel :
  mygpiod_event_type (n_data e) = MYGPIOD_EVENT_INPUT → (0 < fuel)%nat →
  holds b (idle_text devs false (e :: q) ++ r) cs →
  ∃ cs', recv_idle_events fuel cs = Some ([], cs') ∧
    mygpio_parse_event (mygpio_lookup_event MYGPIO_EVENT_INPUT) = MYGPIO_EVENT_UNKNOWN.
Proof.
  intros He Hf Hcs. destruct fuel as [|fuel]; [lia|]. cbn [recv_idle_events].
  unfold idle_text in Hcs. cbn [map concat app] in Hcs.
  assert (Hcs' : ∃ r', holds b (pairs [(bs "event", bs "input")] ++ r') cs).
  { eexists. unfold event_lines in Hcs. rewrite He in Hcs. unfold pairs, unlines in *.
    cbn [map concat app mygpiod_event_name n_data] in *. rewrite <- !app_assoc in *. exact Hcs. }
  clear Hcs. destruct Hcs' as (r' & Hcs). unfold mygpio_recv_idle_event.
  assert (Hrun : ∃ cs', mygpio_recv_idle_event cs = Some (None, cs')).
  { unfold mygpio_recv_idle_event. recv_step Hcs; [by apply plain_value_lit|]. by eexists. }
  destruct Hrun as (cs' & Hrun). exists cs'. split; [|done].
  by erewrite C_bind_run by exact Hrun.
Qed.
End idle.
