(* ===== verification/EndToEnd.v ===== *)
(** * The daemon and the client library together

    A command of the client library, the line it sends, the handler that the
    daemon runs for it, the answer it queues, and what the library makes of
    that answer. *)

From S2P Require Import Prelude CLib ParseUtil Sds Lists GpioUtil Config Kernel Sim Timer InputNames.
From S2P Require Import Events Gpio Actions GpioEvent Protocol Socket EventLoop.
From S2P Require Import Invariant InvOps InvProtocol InvLoop Daemon EventSpec SocketSpec GpioSpec.
From S2P Require Import Requests ClientIo Client ClientSpec.

#[local] Opaque BUFFER_SIZE_MAX.

(** A socket whose peer answers: [outgoing] is the line that is being written,
    and when its line feed is written, [reply] arrives. *)
Class AnsweringSocket (Sk : Type) `{StreamSocket Sk} (reply : bytes → bytes) := {
  outgoing : Sk → bytes;
  write_part fd l s : l ≠ [] → Forall (λ c, ch c LF = false) l →
    ∃ n s', cl_write fd l s = (n, s') ∧ 1 ≤ n ≤ Z.of_nat (length l) ∧
      outgoing s' = outgoing s ++ take (Z.to_nat n) l ∧ incoming s' = incoming s;
  write_lf fd s :
    ∃ s', cl_write fd [LF] s = (1, s') ∧ outgoing s' = [] ∧
      incoming s' = incoming s ++ reply (outgoing s);
  recv_outgoing fd flag s : outgoing (recv fd flag s).2 = outgoing s;
  poll_outgoing fd t s : outgoing (poll_in fd t s).2 = outgoing s;
}.

Section client.
Context `{AnsweringSocket Sk reply}.
Implicit Types (cs : t_mygpio_connection * Sk).

(** A connection in order, with nothing in transit. *)
Definition quiet (b : bool) cs : Prop := holds b [] cs ∧ outgoing cs.2 = [].

Lemma send_go_ok fd fuel l s :
  l ≠ [] → Forall (λ c, ch c LF = false) l → (length l ≤ fuel)%nat →
  ∃ s', send_go fuel fd l s = (true, s') ∧ outgoing s' = [] ∧
    incoming s' = incoming s ++ reply (outgoing s ++ l).
Proof.
  revert l s. induction fuel as [|fuel IH]; intros l s Hne Hl Hf; [by destruct l; simpl in Hf; [|lia]|].
  cbn [send_go]. destruct (write_part fd l s Hne Hl) as (n & s1 & -> & Hn & Ho & Hi).
  rewrite (proj2 (Z.leb_gt n 0)) by lia.
  destruct (drop (Z.to_nat n) l) as [|c r] eqn:E.
  - destruct (write_lf fd s1) as (s' & -> & Ho' & Hi'). exists s'. split; [done|]. split; [done|].
    rewrite Hi', Hi, Ho. do 3 f_equal. rewrite take_ge; [done|].
    apply (f_equal length) in E. rewrite length_drop in E. simpl in E. lia.
  - destruct (IH (c :: r) s1) as (s' & Hs' & Ho' & Hi').
    + done.
    + rewrite <- E. by apply Forall_drop.
    + rewrite <- E, length_drop. lia.
    + exists s'. split; [done|]. split; [done|]. rewrite Hi', Hi, Ho, <- E, <- app_assoc, take_drop. done.
Qed.

Lemma send_line_ok b l cs :
  quiet b cs → l ≠ [] → plain_line l →
  ∃ cs', libmygpio_send_line l cs = Some (true, cs') ∧ holds b (reply l) cs' ∧ outgoing cs'.2 = [].
Proof.
  intros [Hcs Ho] Hne (Hlf & Hn & Hlen). unfold libmygpio_send_line.
  erewrite C_bind_run by (eapply check_ok; exact Hcs). cbn [negb].
  rewrite c_str_id by done.
  rewrite (proj2 (Z.leb_gt (Z.of_nat (length l)) 0)) by (destruct l; simpl; [done|lia]).
  rewrite (proj2 (Z.leb_gt (Z.of_nat BUFFER_SIZE_MAX) (Z.of_nat (length l)))) by lia. cbn [orb].
  destruct cs as [c s]. destruct Hcs as (Hs & Hfd & Hb & Hi). cbn [fst snd] in *.
  destruct (send_go_ok (ClientIo.fd c) (length l) l s Hne Hlf ltac:(lia)) as (s' & E & Ho' & Hi').
  rewrite Ho, Hi in Hi'. cbn [app] in Hi'.
  erewrite C_bind_run by done. erewrite C_bind_run.
  2:{ unfold libmygpio_socket_send_line. cbn [upd_conn fst snd].
      change (ClientIo.fd (_ <| _ := _ |>)) with (ClientIo.fd c).
      change (buffer (ClientIo.buf_out (_ <| _ := _ |>))) with l. rewrite E. reflexivity. }
  cbv iota. erewrite C_bind_run by done. eexists. split; [done|]. split; [|done].
  by destruct c.
Qed.

(** An ERROR line makes the status false, and its text the error message. *)
Lemma recv_status_error b msg r cs :
  holds b (bs "ERROR:" ++ msg ++ LF :: r) cs → plain_value msg →
  ∃ cs', libmygpio_recv_response_status cs = Some (false, cs') ∧
    ClientIo.state cs'.1 = MYGPIO_STATE_ERROR ∧ ClientIo.error cs'.1 = Some msg.
Proof.
  intros Hcs Hm. rewrite app_assoc in Hcs.
  assert (Hl : plain_line (bs "ERROR:" ++ msg)).
  { apply (plain_pair_key (bs "ERROR") msg); [reflexivity|done]. }
  unfold libmygpio_recv_response_status. erewrite C_bind_run by (eapply check_ok; exact Hcs).
  erewrite C_bind_run by done.
  destruct (recv_line_ok (ClientIo.timeout_ms cs.1) _ _ _ _ Hcs Hl) as (cs' & Hrun & (Hh & Hb & Hlen) & Hv).
  erewrite C_bind_run by exact Hrun. cbn [negb]. erewrite C_bind_run by done. rewrite Hb.
  assert (Hc : c_str (bs "ERROR:" ++ msg) = bs "ERROR:" ++ msg) by (apply c_str_id, Hl).
  replace (strcmp0 (bs "ERROR:" ++ msg) (bs "OK")) with false.
  2:{ symmetry. apply not_true_iff_false. rewrite strcmp0_true, Hc. done. }
  erewrite C_bind_run by done.
  replace (strprefix (bs "ERROR:") (bs "ERROR:" ++ msg)) with true.
  2:{ symmetry. unfold strprefix. rewrite Hc, take_app_length. by apply bool_decide_eq_true. }
  erewrite C_bind_run by done. eexists. split; [done|]. split; [done|].
  cbn [upd_conn fst]. change (ClientIo.error (_ <| _ := ?e |>)) with e.
  unfold strchr. rewrite Hc. done.
Qed.

(** An answer of pairs. *)
Lemma ok_pairs_text kvs :
  unlines (bs "OK" :: map (λ kv, pair_line kv.1 kv.2) kvs ++ [bs "END"])
  = bs "OK" ++ LF :: pairs kvs ++ bs "END" ++ [LF].
Proof.
  unfold pairs. change (bs "OK" :: ?l) with ([bs "OK"] ++ l). rewrite !unlines_app. done.
Qed.

(** ** gpioget *)

Definition of_value (v : gpiod_line_value) : mygpio_gpio_value :=
  match v with
  | GPIOD_LINE_VALUE_ACTIVE => MYGPIO_GPIO_VALUE_ACTIVE
  | GPIOD_LINE_VALUE_INACTIVE => MYGPIO_GPIO_VALUE_INACTIVE
  | GPIOD_LINE_VALUE_ERROR => MYGPIO_GPIO_VALUE_UNKNOWN
  end.

Lemma parse_value_name v : mygpio_gpio_parse_value (lookup_gpio_value v) = of_value v.
Proof. by destruct v. Qed.

Lemma value_name_plain v : plain_value (lookup_gpio_value v).
Proof. apply plain_value_lit. by destruct v. Qed.

Lemma plain_command k n :
  forallb key_char k && (length k <=? 40)%nat = true → 0 ≤ n ≤ ULONG_MAX → plain_line (k ++ bs " " ++ print_u n).
Proof.
  intros Hk Hn. destruct (plain_value_num n Hn) as (Hlf & Hnul & Hlen).
  assert (Hv : plain_value (print_u n)) by done.
  destruct (plain_pair_key k (print_u n) Hk Hv) as [_ (Hl1 & Hl2 & Hl3)]. unfold pair_line in *.
  apply Forall_app in Hl1 as [Hl1 _]. apply Forall_app in Hl2 as [Hl2 _].
  rewrite length_app in Hl3. split_and!.
  - apply Forall_app. split; [done|]. apply Forall_app. split; [by repeat constructor|done].
  - apply Forall_app. split; [done|]. apply Forall_app. split; [by repeat constructor|done].
  - rewrite length_app. exact Hl3.
Qed.

Lemma gpioget_reads b gpio v cs :
  quiet b cs → 0 ≤ gpio ≤ GPIOS_MAX → reply (bs "gpioget " ++ print_u gpio) = gpioget_text v →
  ∃ cs', mygpio_gpioget gpio cs = Some (of_value v, cs') ∧
    (v = GPIOD_LINE_VALUE_ERROR → ClientIo.error cs'.1 = Some (bs "Getting GPIO value failed")) ∧
    (v ≠ GPIOD_LINE_VALUE_ERROR → holds b (bs "END" ++ [LF]) cs').
Proof.
  intros Hq Hg Hr. unfold mygpio_gpioget. rewrite (proj2 (Z.ltb_ge GPIOS_MAX gpio)) by lia.
  assert (Hl : plain_line (bs "gpioget " ++ print_u gpio)).
  { apply (plain_command (bs "gpioget")); [reflexivity|unfold GPIOS_MAX, ULONG_MAX in *; lia]. }
  assert (Hne : bs "gpioget " ++ print_u gpio ≠ []) by done.
  destruct (send_line_ok b _ cs Hq Hne Hl) as (cs1 & E1 & Hcs1 & _). rewrite Hr in Hcs1.
  unfold bind_true. unfold gpioget_text in Hcs1. destruct (decide (v = GPIOD_LINE_VALUE_ERROR)) as [-> |Hv].
  - assert (Hp : plain_value (bs "Getting GPIO value failed")) by (apply plain_value_lit; reflexivity).
    destruct (recv_status_error b (bs "Getting GPIO value failed") [] cs1 Hcs1 Hp) as (cs2 & E2 & Hs & He).
    exists cs2. split; [|by split].
    erewrite C_bind_run; [|by erewrite C_bind_run by exact E1]. done.
  - pose proof (ok_pairs_text [(bs "value", lookup_gpio_value v)] :
      unlines [bs "OK"; bs "value:" ++ lookup_gpio_value v; bs "END"] = _) as Ht.
    rewrite Ht in Hcs1. clear Ht.
    destruct (recv_status_ok b _ cs1 Hcs1) as (cs2 & E2 & Hcs2 & _).
    rewrite pairs_cons in Hcs2.
    destruct (recv_pair_ok b _ _ _ cs2 Hcs2) as (cs3 & E3 & Hcs3 & _).
    { apply plain_pair_key; [reflexivity|apply value_name_plain]. }
    exists cs3. split; [|done].
    erewrite C_bind_run; [|by erewrite C_bind_run by exact E1]. cbn [negb].
    erewrite C_bind_run by exact E3. cbn [name value]. rewrite strcmp0_refl, parse_value_name. done.
Qed.

(** ** gpiolist *)

Definition of_direction (dir : bytes) : mygpio_gpio_direction :=
  if bool_decide (dir = bs "in") then MYGPIO_GPIO_DIRECTION_IN else MYGPIO_GPIO_DIRECTION_OUT.

Definition listed_gpio (e : listed * gpiod_line_value) : t_mygpio_gpio :=
  MygpioGpio e.1.2 (of_direction e.1.1.1) (of_value e.2) None None e.1.1.2.

Definition listed_ok (e : listed) : Prop := 0 ≤ e.2 ≤ UINT_MAX ∧ plain_value e.1.2.

Definition listed_entry (e : listed) : Prop := (e.1.1 = bs "in" ∨ e.1.1 = bs "out") ∧ listed_ok e.

Lemma listed_entries c : Forall listed_ok (listed_gpios c) → Forall listed_entry (listed_gpios c).
Proof.
  intros Hok. apply Forall_forall. intros e He. split; [|by apply (proj1 (Forall_forall _ _) Hok)].
  unfold listed_gpios in He. apply elem_of_app in He as [He|He];
    apply list_elem_of_fmap_1 in He as (n & -> & _); [by left|by right].
Qed.

(** What the library understands: a number up to GPIOS_MAX, and a value. *)
Definition readable (e : listed * gpiod_line_value) : bool :=
  (e.1.2 <=? GPIOS_MAX) && negb (bool_decide (e.2 = GPIOD_LINE_VALUE_ERROR)).

Lemma listed_pairs e r : unlines (listed_lines e) ++ r
  = pairs [(bs "gpio", print_u e.1.2); (bs "direction", e.1.1.1);
           (bs "value", lookup_gpio_value e.2); (bs "name", e.1.1.2)] ++ r.
Proof. done. Qed.

Lemma parse_uint_gpio n : 0 ≤ n ≤ GPIOS_MAX →
  plain_value (print_u n) ∧ mygpio_parse_uint (Some (print_u n)) true 0 GPIOS_MAX = Some (n, []).
Proof.
  intros Hn. split; [apply plain_value_num; unfold GPIOS_MAX, ULONG_MAX in *; lia|by apply parse_gpio_number].
Qed.

Lemma parse_direction_name e : listed_entry e →
  plain_value e.1.1 ∧ mygpio_gpio_parse_direction e.1.1 = of_direction e.1.1 ∧
  of_direction e.1.1 ≠ MYGPIO_GPIO_DIRECTION_UNKNOWN.
Proof. intros ([-> | ->] & _); (split; [by apply plain_value_lit|done]). Qed.

Lemma recv_gpio_list_ok e b r cs :
  listed_entry e.1 → holds b (unlines (listed_lines e) ++ r) cs →
  ∃ cs', mygpio_recv_gpio_list cs = Some (if readable e then Some (listed_gpio e) else None, cs') ∧
    (readable e = true → holds b r cs').
Proof.
  intros He Hcs. rewrite listed_pairs in Hcs. destruct (parse_direction_name e.1 He) as (Hd & Hdp & Hd0).
  destruct He as (_ & Hid & Hnm).
  assert (Hg : plain_value (print_u e.1.2)) by (apply plain_value_num; unfold UINT_MAX, ULONG_MAX in *; lia).
  unfold mygpio_recv_gpio_list, readable.
  assert (Hhead : ∃ cs', recv_gpio_head cs
    = Some (if readable e then Some (e.1.2, of_direction e.1.1.1, of_value e.2) else None, cs') ∧
    (readable e = true → holds b (pairs [(bs "name", e.1.1.2)] ++ r) cs')).
  { unfold recv_gpio_head. recv_step Hcs; [done|]. rewrite parse_uint_max by done. unfold readable.
    destruct (e.1.2 <=? GPIOS_MAX); cbn [andb]; [|by eexists]. rewrite check_some_step. cbn [fst].
    recv_step Hcs; [done|]. rewrite Hdp, check_that_step by (by rewrite bool_decide_false).
    recv_step Hcs; [apply value_name_plain|]. rewrite parse_value_name.
    destruct e.2; simpl; (eexists; split; [reflexivity|]); done. }
  destruct Hhead as (cs1 & E1 & Hcs1). unfold readable in *. unfold bind_some at 1.
  erewrite C_bind_run by exact E1. destruct (_ && _); [|by eexists].
  specialize (Hcs1 eq_refl). recv_step Hcs1; [done|]. eexists. split; [done|]. done.
Qed.

Lemma recv_gpio_lists_ok es b r cs fuel :
  Forall (λ e, listed_entry e.1) es → (length es < fuel)%nat →
  holds b (unlines (concat (map listed_lines es)) ++ bs "END" ++ LF :: r) cs →
  ∃ cs', recv_gpio_lists fuel cs = Some (map listed_gpio (take_while readable es), cs') ∧
    (forallb readable es = true → holds b r cs').
Proof.
  intros Hes. revert cs fuel. induction Hes as [|e es He _ IH]; intros cs [|fuel] Hf Hcs;
    cbn [length] in Hf; try lia; cbn [recv_gpio_lists map concat take_while forallb].
  - cbn [app] in Hcs. unfold mygpio_recv_gpio_list.
    assert (Hend : ∃ cs', bind_some recv_gpio_head
      (λ h, bind_some (mygpio_recv_pair_name (bs "name"))
         (λ nm, let '(nr, dir, val) := h in mret (Some (MygpioGpio nr dir val None None nm)))) cs
      = Some (None, cs') ∧ holds b r cs').
    { unfold recv_gpio_head. unfold bind_some at 1.
      lazymatch goal with
      | |- context [bind_some (mygpio_recv_pair_name ?k) ?f] =>
          edestruct (pair_end _ k _ _ f Hcs) as (cs' & E & Hh)
      end.
      exists cs'. split; [|done]. by erewrite C_bind_run by exact E. }
    destruct Hend as (cs' & E & Hh). exists cs'. split; [|done]. by erewrite C_bind_run by exact E.
  - cbn [map concat] in Hcs. rewrite unlines_app, <- app_assoc in Hcs.
    destruct (recv_gpio_list_ok e b _ cs He Hcs) as (cs1 & E1 & Hcs1).
    erewrite C_bind_run by exact E1. destruct (readable e); [|by eexists].
    destruct (IH cs1 fuel ltac:(lia) (Hcs1 eq_refl)) as (cs' & E2 & Hh).
    exists cs'. split; [|done]. by erewrite C_bind_run by exact E2.
Qed.

Context `{Kernel K} `{Build} `{BL : !BuildLaws} `{KL : !KernelLaws K}.
Implicit Types (st : @loop_state K) (p : positive).

(** A client [n] at [p], not waited for by anyone, whose request is complete
    when the chunk that its socket holds is read. *)
Definition requests_line st p (n : node t_client_data) (ws : list bytes) : Prop :=
  list_deref (clients (config (l_world st))) p = Some n ∧
  Config.state (n_data n) = CLIENT_SOCKET_STATE_READING ∧
  ∃ r k, read_fd (client_fd (n_data n)) BUFFER_SIZE (kern (l_world st)) = (Some r, k) ∧ r ≠ [] ∧
    Config.buf_in (n_data n) ++ r = request ws ++ [LF] ∧ Forall plain_word ws.

(** A handler that queues [text] answers the request. *)
Lemma request_answered st p n ws (P : bytes → Prop) :
  requests_line st p n ws → ws ≠ [] →
  (∀ w, line_taken p (l_world st) w → ∃ text k b,
     dispatch_command (parse_command (default [] (head ws))) ws p w
     = Done (b, (w_clients (list_upd p (respond text)) w) <| kern := k |> <| update_pollfds := true |>) ∧
     P text) →
  ∃ w' n', server_client_read p (l_world st) = Done (true, w') ∧
    list_deref (clients (config w')) p = Some n' ∧
    Config.state (n_data n') = CLIENT_SOCKET_STATE_WRITING ∧ P (Config.buf_out (n_data n')).
Proof.
  intros (Hn & Hs & r & k & Hr & Hr0 & Hbuf & Hws) Hws0 Hd.
  assert (Hwp : wp (server_client_read p) (λ ok w', ok = true ∧ ∃ n',
      list_deref (clients (config w')) p = Some n' ∧
      Config.state (n_data n') = CLIENT_SOCKET_STATE_WRITING ∧ P (Config.buf_out (n_data n'))) (l_world st)).
  { eapply read_dispatch; try done. intros w1 n1 Hn1 Hb.
    destruct (Hd w1 Hb) as (text & k' & b & E & Hp). unfold wp. rewrite E. split; [done|].
    eexists. split; [exact (deref_upd_clients p (respond text) n1 w1 Hn1)|]. done. }
  apply wp_run in Hwp as (ok & w' & E & -> & n' & ?). exists w', n'. split; [done|]. done.
Qed.

(** C11: "gpioget" from end to end. When a client that is read from has sent
    the line that [mygpio_gpioget] writes for a configured GPIO, in whatever
    chunks, the daemon queues an answer, and [mygpio_gpioget] makes of that
    answer the value the kernel reported for the line; if the kernel could not
    read it, the value is unknown and the error message says so. *)
Theorem gpioget_end_to_end st p n gpio b cs :
  requests_line st p n [bs "gpioget"; print_u gpio] →
  0 ≤ gpio ≤ GPIOS_MAX → configured (config (l_world st)) gpio → quiet b cs →
  ∃ w' n' v, server_client_read p (l_world st) = Done (true, w') ∧
    list_deref (clients (config w')) p = Some n' ∧ line_value gpio v ∧
    (reply (bs "gpioget " ++ print_u gpio) = Config.buf_out (n_data n') →
     ∃ cs', mygpio_gpioget gpio cs = Some (of_value v, cs') ∧
       (v = GPIOD_LINE_VALUE_ERROR →
        ClientIo.error cs'.1 = Some (bs "Getting GPIO value failed"))).
Proof.
  intros Hreq Hg Hc Hq.
  destruct (request_answered st p n _ (λ text, ∃ v, line_value gpio v ∧ text = gpioget_text v) Hreq)
    as (w' & n' & E & Hn' & _ & v & Hv & Ht); [done| |].
  - intros w Hb%line_taken_but. destruct (handle_gpioget_run (bs "gpioget") gpio p w Hg) as (v & k & ok & E & Hv).
    { unfold configured in *. rewrite (but_clients_config gpios_in _ _ Hb) by done.
      by rewrite (but_clients_config gpios_out _ _ Hb). }
    exists (gpioget_text v), k, ok. split; [exact E|eauto].
  - exists w', n', v. split; [done|]. split; [done|]. split; [done|]. rewrite Ht. intros Hr.
    destruct (gpioget_reads b gpio v cs Hq Hg Hr) as (cs' & Ecs & He & _). eauto.
Qed.

(** C13: "gpiolist" from end to end. The answer of the daemon to the line that
    [mygpio_gpiolist] writes shows every configured GPIO, inputs before
    outputs, with a value the kernel reported for its line; the client's loop
    returns these GPIOs with number, direction, value and name, up to the first
    whose line could not be read, or whose number is above 64 (get_config accepts
    numbers up to 99): that one, and all behind it, are left out. The names of the
    lines are taken to have no line feed and at most 900 bytes (the kernel's have
    at most 31). *)
Theorem gpiolist_end_to_end st p n b cs fuel :
  requests_line st p n [bs "gpiolist"] → quiet b cs →
  Forall listed_ok (listed_gpios (config (l_world st))) →
  (length (listed_gpios (config (l_world st))) < fuel)%nat →
  ∃ w' n' vs, server_client_read p (l_world st) = Done (true, w') ∧
    list_deref (clients (config w')) p = Some n' ∧
    Forall2 line_value (map snd (listed_gpios (config (l_world st)))) vs ∧
    (reply (bs "gpiolist") = Config.buf_out (n_data n') →
     ∃ cs1 cs', mygpio_gpiolist cs = Some (true, cs1) ∧
       recv_gpio_lists fuel cs1
       = Some (map listed_gpio (take_while readable (zip (listed_gpios (config (l_world st))) vs)), cs')).
Proof.
  intros Hreq Hq Hok Hf.
  destruct (request_answered st p n _ (λ text, ∃ vs,
      Forall2 line_value (map snd (listed_gpios (config (l_world st)))) vs ∧
      text = gpiolist_text (config (l_world st)) vs) Hreq)
    as (w' & n' & E & Hn' & _ & vs & Hv & Ht); [done| |].
  - intros w Hb%line_taken_but. destruct (handle_gpiolist_run p w) as (vs & k & E & Hv).
    assert (Hl : listed_gpios (config w) = listed_gpios (config (l_world st))).
    { unfold listed_gpios. rewrite (but_clients_config gpios_in _ _ Hb) by done.
      by rewrite (but_clients_config gpios_out _ _ Hb). }
    exists (gpiolist_text (config w) vs), k, true. split; [exact E|]. exists vs. unfold gpiolist_text.
    by rewrite Hl in *.
  - exists w', n', vs. split; [done|]. split; [done|]. split; [done|]. rewrite Ht. intros Hr.
    set (es := zip (listed_gpios (config (l_world st))) vs).
    assert (Hlen : length vs = length (listed_gpios (config (l_world st)))).
    { apply Forall2_length in Hv. by rewrite length_map in Hv. }
    assert (Hpl : plain_line (bs "gpiolist")).
    { split_and!; [repeat constructor..|]. apply Nat.ltb_lt. vm_compute. reflexivity. }
    assert (Hne : bs "gpiolist" ≠ []) by done.
    destruct (send_line_ok b _ cs Hq Hne Hpl) as (cs1 & E1 & Hcs1 & _). rewrite Hr in Hcs1.
    assert (Htext : gpiolist_text (config (l_world st)) vs
      = bs "OK" ++ LF :: unlines (concat (map listed_lines es)) ++ bs "END" ++ LF :: []).
    { unfold gpiolist_text. change (bs "OK" :: ?l) with ([bs "OK"] ++ l). by rewrite !unlines_app. }
    rewrite Htext in Hcs1. destruct (recv_status_ok b _ cs1 Hcs1) as (cs2 & E2 & Hcs2 & _).
    destruct (recv_gpio_lists_ok es b [] cs2 fuel) as (cs3 & E3 & _); [| |exact Hcs2|].
    + apply Forall_forall. intros [e v] He. apply elem_of_zip_l in He.
      by apply (proj1 (Forall_forall _ _) (listed_entries _ Hok)).
    + unfold es. rewrite length_zip. lia.
    + exists cs2, cs3. split; [|exact E3]. unfold mygpio_gpiolist, bind_true. by erewrite C_bind_run by exact E1.
Qed.

(** ** The handshake *)

Lemma version_part_ok v rest : 0 ≤ v ≤ 99 → no_nul rest → stops_digits rest →
  version_part (print_u v ++ rest) = Some (v, rest).
Proof.
  intros Hv Hn Hs. unfold version_part. apply parse_uint_print; try done. unfold UINT_MAX. lia.
Qed.

Lemma parse_version_ok v0 v1 v2 old :
  0 ≤ v0 ≤ 99 → 0 ≤ v1 ≤ 99 → 0 ≤ v2 ≤ 99 →
  libmygpio_parse_version (print_u v0 ++ bs "." ++ print_u v1 ++ bs "." ++ print_u v2) old
  = (true, (v0, v1, v2)).
Proof.
  intros H0' H1' H2'. destruct old as [[o0 o1] o2]. unfold libmygpio_parse_version.
  assert (Hd : ∀ n r, no_nul r → no_nul (print_u n ++ r)) by (intros; auto with gpio).
  assert (Hp : ∀ r, no_nul r → no_nul (bs "." ++ r)) by (intros; apply no_nul_app; [by repeat constructor|done]).
  rewrite (version_part_ok v0) by (try done; auto with gpio).
  change (bs "." ++ ?r) with ("."%char :: r). cbv beta iota. rewrite ch_refl. cbv beta iota delta [negb].
  rewrite (version_part_ok v1) by (try done; auto with gpio).
  change (bs "." ++ ?r) with ("."%char :: r). cbv beta iota. rewrite ch_refl. cbv beta iota delta [negb].
  rewrite <- (app_nil_r (print_u v2)), (version_part_ok v2) by (try done; auto with gpio). done.
Qed.

Create HintDb silent.

(** Functions that only read leave what was written alone. *)
Definition writes_nothing {A} (m : C Sk A) : Prop :=
  ∀ cs a cs', m cs = Some (a, cs') → outgoing cs'.2 = outgoing cs.2.

Lemma silent_ret {A} (a : A) : writes_nothing (mret a).
Proof. by intros cs b cs' [= _ <-]. Qed.

Lemma silent_bind {A B} (m : C Sk A) (f : A → C Sk B) :
  writes_nothing m → (∀ a, writes_nothing (f a)) → writes_nothing (mbind f m).
Proof.
  intros Hm Hf cs b cs'. unfold mbind, C_bind. destruct (m cs) as [[a cs1]|] eqn:E; [|done].
  intros E'. rewrite (Hf _ _ _ _ E'). by eapply Hm.
Qed.

Lemma silent_conn {A} (f : t_mygpio_connection → A) : writes_nothing (conn f).
Proof. by intros cs a cs' [= _ <-]. Qed.

Lemma silent_upd f : writes_nothing (upd_conn f).
Proof. by intros cs a cs' [= _ <-]. Qed.

Lemma recv_go_outgoing fd flag n buf s : outgoing (recv_go fd flag n buf s).2 = outgoing s.
Proof.
  revert buf s. induction n as [|n IH]; intros buf s; [done|]. simpl.
  pose proof (recv_outgoing fd flag s) as Ho. destruct (recv fd flag s) as [[c|] s1]; [|done].
  destruct (ch c LF); [done|]. by rewrite IH.
Qed.

Lemma silent_recv_line timeout : writes_nothing (libmygpio_socket_recv_line timeout).
Proof.
  intros [c s] a cs'. unfold libmygpio_socket_recv_line. cbn [snd].
  assert (Hgo : ∀ s1, outgoing s1 = outgoing s →
    outgoing (recv_go (ClientIo.fd c) (timeout =? 0) BUFFER_SIZE_MAX [] s1).2 = outgoing s).
  { intros s1 <-. apply recv_go_outgoing. }
  change (ClientIo.fd (c <| ClientIo.buf_in := libmygpio_buf_init |>)) with (ClientIo.fd c).
  pose proof (poll_outgoing (ClientIo.fd c) timeout s) as Hp.
  destruct (poll_in (ClientIo.fd c) timeout s) as [rc s1]. destruct (0 <? timeout); [destruct (negb (negb _))|];
    try (by intros [= _ <-]); cbn [negb].
  all: match goal with |- context [recv_go _ _ _ _ ?s2] => pose proof (Hgo s2 ltac:(done)) as Hs;
         destruct (recv_go _ _ _ _ s2) as [[[] [|]] s3] end; by intros [= _ <-].
Qed.

#[local] Hint Resolve silent_ret silent_bind silent_conn silent_upd silent_recv_line : silent.

Lemma silent_status : writes_nothing libmygpio_recv_response_status.
Proof.
  unfold libmygpio_recv_response_status, mygpio_connection_check, line_in, libmygpio_connection_set_state.
  repeat (apply silent_bind; [|intros]; try case_match; auto with silent).
Qed.

Lemma silent_pair : writes_nothing mygpio_recv_pair.
Proof.
  unfold mygpio_recv_pair, mygpio_connection_check, line_in.
  repeat (apply silent_bind; [|intros]; try case_match; auto with silent).
Qed.

Lemma silent_version : writes_nothing libmygpio_recv_version.
Proof.
  unfold libmygpio_recv_version. apply silent_bind; [apply silent_pair|]. intros [p|]; [|auto with silent].
  destruct (negb _); [auto with silent|]. apply silent_bind; [auto with silent|]. intros v.
  destruct (libmygpio_parse_version _ _). apply silent_bind; auto with silent.
Qed.

Lemma silent_response_end fuel : writes_nothing (mygpio_response_end fuel).
Proof.
  unfold mygpio_response_end, mygpio_connection_check. apply silent_bind; [auto with silent|]. intros ok.
  destruct (negb ok); [auto with silent|]. clear ok.
  induction fuel as [|fuel IH]; [done|]. cbn [response_end_go]. unfold line_in.
  repeat (apply silent_bind; [|intros]; try case_match; auto with silent).
Qed.

Lemma connection_outgoing fuel path timeout s fd s1 c s' :
  libmygpio_socket_connect path s = (fd, s1) →
  mygpio_connection_new fuel path timeout s = Some (c, s') → outgoing s' = outgoing s1.
Proof.
  intros Hc. unfold mygpio_connection_new. rewrite Hc. match goal with |- context [snd <$> ?m ?cs] => set (go := m); set (cs0 := cs) end.
  assert (Hgo : writes_nothing go).
  { subst go. destruct (fd =? -1); [unfold libmygpio_connection_set_state; auto with silent|].
    unfold bind_true, libmygpio_connection_set_state.
    apply silent_bind; [|intros []; auto with silent]. apply silent_bind; [apply silent_status|].
    intros []; [|auto with silent]. apply silent_bind; [apply silent_version|].
    intros []; [apply silent_response_end|auto with silent]. }
  destruct (go cs0) as [[a cs']|] eqn:E; [|done]. intros [= ->]. by apply Hgo in E.
Qed.

(** The version of the build is three numbers up to 99. *)
Definition version_is (v0 v1 v2 : Z) : Prop :=
  MYGPIO_VERSION = print_u v0 ++ bs "." ++ print_u v1 ++ bs "." ++ print_u v2 ∧
  0 ≤ v0 ≤ 99 ∧ 0 ≤ v1 ≤ 99 ∧ 0 ≤ v2 ≤ 99.

(** The library on the greeting of the daemon. *)
Lemma connection_new_ok v0 v1 v2 path timeout fuel fd (s s1 : Sk) :
  version_is v0 v1 v2 →
  libmygpio_socket_connect path s = (fd, s1) → 0 ≤ fd → (0 < fuel)%nat →
  incoming s1 = c_str MSG_VERSION ++ [LF] →
  ∃ c s', mygpio_connection_new fuel path timeout s = Some (c, s') ∧
    holds false [] (c, s') ∧ ClientIo.version c = (v0, v1, v2).
Proof.
  intros (Hver & H0' & H1' & H2') Hconn Hfd Hf Hin.
  assert (Hv : plain_value MYGPIO_VERSION).
  { assert (Hvp : ∀ v, 0 ≤ v ≤ 99 → plain_value (print_u v) ∧ (length (print_u v) ≤ 8)%nat).
    { intros v Hv. split; [apply plain_value_num; unfold ULONG_MAX; lia|].
      apply (print_u_length v 7). lia. }
    destruct (Hvp v0 H0') as [(? & ? & _) ?], (Hvp v1 H1') as [(? & ? & _) ?], (Hvp v2 H2') as [(? & ? & _) ?].
    rewrite Hver. split_and!.
    - repeat (apply Forall_app; split); try done; by repeat constructor.
    - repeat (apply Forall_app; split); try done; by repeat constructor.
    - rewrite !length_app. cbn [length]. change (length (bs ".")) with 1%nat. lia. }
  assert (Htext : c_str MSG_VERSION ++ [LF]
    = bs "OK" ++ LF :: pairs [(bs "version", MYGPIO_VERSION)] ++ bs "END" ++ [LF]).
  { rewrite <- (ok_pairs_text [(bs "version", MYGPIO_VERSION)]). apply MSG_VERSION_lines. }
  rewrite Htext in Hin. clear Htext. unfold mygpio_connection_new. rewrite Hconn.
  rewrite (proj2 (Z.eqb_neq fd (-1))) by lia.
  set (c := Connection _ _ _ _ _ _ _ _).
  assert (Hcs : holds false (bs "OK" ++ LF :: pairs [(bs "version", MYGPIO_VERSION)] ++ bs "END" ++ [LF]) (c, s1)).
  { split_and!; try done. simpl. lia. }
  destruct (recv_status_ok _ _ _ Hcs) as (cs1 & E1 & Hcs1 & _). rewrite pairs_cons in Hcs1.
  destruct (recv_pair_ok _ _ _ _ cs1 Hcs1) as (cs2 & E2 & Hcs2 & Hver2).
  { by apply plain_pair_key. }
  assert (E3 : libmygpio_recv_version cs1
    = Some (true, (cs2.1 <| ClientIo.version := (v0, v1, v2) |>, cs2.2))).
  { unfold libmygpio_recv_version. erewrite C_bind_run by exact E2. cbn [name value].
    rewrite strcmp0_refl. cbn [negb]. erewrite C_bind_run by done.
    rewrite Hver, parse_version_ok by done. done. }
  assert (Hcs3 : holds false (bs "END" ++ LF :: []) (cs2.1 <| ClientIo.version := (v0, v1, v2) |>, cs2.2)).
  { destruct Hcs2 as (? & ? & ? & ?). by split_and!. }
  destruct (response_end_ok _ _ _ fuel Hcs3 Hf) as (cs4 & E4 & Hcs4 & Hv4).
  exists cs4.1, cs4.2. split_and!.
  - erewrite C_bind_run.
    2:{ unfold bind_true. erewrite C_bind_run by exact E1. cbv iota.
        erewrite C_bind_run by exact E3. cbv iota. exact E4. }
    by destruct cs4.
  - by destruct cs4.
  - done.
Qed.

(** C16: From the connection to the greeting and back. When the daemon, in a
    reachable state and with fewer than ten clients, accepts a connection whose
    flags can be set, then the new client, on the descriptor of the connection, is
    to be written a greeting that the library waits for: if that is what arrives,
    and the version of the build is three numbers up to 99, [mygpio_connection_new]
    returns a connection in order with these numbers, and nothing is left in the
    socket. *)
Theorem handshake_end_to_end st server_fd cfd k flags k1 k2 v0 v1 v2 path timeout fuel fd (s s1 : Sk) :
  reachable st → accept server_fd (kern (l_world st)) = (cfd, k) → 0 ≤ cfd →
  Z.of_nat (length (clients (config (l_world st)))) < CLIENT_CONNECTIONS_MAX →
  fcntl cfd F_GETFD 0 k = (flags, k1) → fcntl cfd F_SETFD (Z.lor (Z.lor flags O_NONBLOCK) O_CLOEXEC) k1 = (0, k2) →
  version_is v0 v1 v2 → libmygpio_socket_connect path s = (fd, s1) → 0 ≤ fd → (0 < fuel)%nat →
  ∃ w' n, server_client_connection_accept server_fd (l_world st) = Done (true, w') ∧
    clients (config w') = clients (config (l_world st)) ++ [n] ∧ client_fd (n_data n) = cfd ∧
    Config.state (n_data n) = CLIENT_SOCKET_STATE_WRITING ∧ bytes_out (n_data n) = 0 ∧
    (incoming s1 = Config.buf_out (n_data n) →
     ∃ c s', mygpio_connection_new fuel path timeout s = Some (c, s') ∧
       holds false [] (c, s') ∧ ClientIo.version c = (v0, v1, v2)).
Proof.
  intros (sh & Hw & _)%reachable_inv Hacc Hcfd Hlim Hget Hset Hver Hconn Hfd Hf.
  destruct (accept_run sh _ _ _ _ _ _ _ _ Hw Hacc Hget Hset) as (ok & w' & Hrun & Hok & _ & Hnew).
  assert (ok = true) as -> by by apply Hok. destruct (Hnew eq_refl) as (_ & n & Hc & _ & (Q1 & Q2 & _ & Q3 & Q4 & _)).
  exists w', n. split_and!; try done. rewrite Q4. intros Hin. eapply connection_new_ok; try done.
  rewrite Hin. symmetry. apply MSG_VERSION_lines.
Qed.
End client.

(** ** Witnesses

    A socket that writes at most three bytes at once and is answered by [r]. *)

Definition sim_sock (r : bytes → bytes) : Type := bytes * bytes.

#[export] Instance sim_sock_socket r : Socket (sim_sock r) := {|
  socket s := (7, s);
  cl_fcntl fd c a s := (0, s);
  connect fd path s := (0, s);
  cl_close fd s := s;
  poll_in fd t s := (if bool_decide (s.1 = []) then 0 else 1, s);
  recv fd flag s := match s.1 with c :: i => (Some c, (i, s.2)) | [] => (None, s) end;
  cl_write fd l s :=
    if bool_decide (l = [LF]) then (1, (s.1 ++ r s.2, []))
    else (Z.of_nat (Nat.min 3 (length l)), (s.1, s.2 ++ take 3 l));
|}.

#[export] Program Instance sim_sock_stream r : StreamSocket (sim_sock r) := {| incoming := fst |}.
Next Obligation. intros r fd flag [i o] c l Hi. simpl in *. subst. eexists. by split. Qed.
Next Obligation. intros r fd [i o] Hi. simpl in *. subst. eexists. by split. Qed.
Next Obligation.
  intros r fd t [i o] Hi. eexists _, _. split; [done|]. simpl in *. by rewrite bool_decide_false.
Qed.

#[export] Program Instance sim_sock_answering r : AnsweringSocket (sim_sock r) r := {| outgoing := snd |}.
Next Obligation.
  intros r fd l [i o] Hne Hl. assert (l ≠ [LF]).
  { intros ->. apply Forall_cons in Hl as [Hl _]. done. }
  eexists _, _. unfold cl_write, sim_sock_socket. rewrite bool_decide_false by done.
  split; [done|]. split.
  - destruct l; [done|]. cbn [length]. lia.
  - split; [|done]. cbn [snd]. rewrite Nat2Z.id. f_equal.
    destruct (le_lt_dec 3 (length l)); [by rewrite Nat.min_l by lia|].
    rewrite Nat.min_r, !take_ge by lia. done.
Qed.
Next Obligation. intros r fd [i o]. eexists. simpl. by split. Qed.
Next Obligation. by intros r fd flag [[|c i] o]. Qed.
Next Obligation. by intros r fd t [i o]. Qed.

Definition sim_conn : t_mygpio_connection :=
  Connection 7 libmygpio_buf_init libmygpio_buf_init (0, 0, 0) 1000 MYGPIO_STATE_OK None false.

Lemma sim_conn_quiet r : quiet (reply := r) (Sk := sim_sock r) false (sim_conn, ([], [])).
Proof. done. Qed.

(** The request has arrived in part; the rest waits in the socket. *)
Lemma sim_request (ws : list bytes) (st : @loop_state sim) (c : bytes) :
  list_deref (clients (config (l_world st))) 2 = Some (sim_client st) →
  Config.state (n_data (sim_client st)) = CLIENT_SOCKET_STATE_READING →
  sim_read (client_fd (n_data (sim_client st))) BUFFER_SIZE (kern (l_world st))
  = (Some c, (kern (l_world st)) <| sim_in := [] |>) → c ≠ [] →
  Config.buf_in (n_data (sim_client st)) ++ c = request ws ++ [LF] → Forall plain_word ws →
  requests_line st 2 (sim_client st) ws.
Proof. intros Hn Hs Hr Hc Hb Hws. split; [exact Hn|]. split; [exact Hs|]. exists c. eauto. Qed.

(** What the client that was read from is about to be written. *)
Definition sim_out_of (w : world sim) : option bytes :=
  (λ n, Config.buf_out (n_data n)) <$> list_deref (clients (config w)) 2.

Lemma sim_answer {A} (m : M sim A) (w w' : world sim) a n text :
  m w = Done (a, w') → list_deref (clients (config w')) 2 = Some n →
  sim_out_of (sim_run m w) = Some text → text = Config.buf_out (n_data n).
Proof. unfold sim_run, sim_out_of. intros -> -> [= ->]. done. Qed.

Lemma gpioget_end_to_end_witness :
  let st := sim_session [bs "gpioget 1"; bs "7" ++ [LF]] [[0; 0; 0; POLLIN; 0]] in
  let r := λ _ : bytes, gpioget_text GPIOD_LINE_VALUE_ACTIVE in
  ∃ w' cs', server_client_read 2 (l_world st) = Done (true, w') ∧
    mygpio_gpioget (Sk := sim_sock r) 17 (sim_conn, ([], [])) = Some (MYGPIO_GPIO_VALUE_ACTIVE, cs').
Proof.
  intros st r.
  destruct (gpioget_end_to_end (Sk := sim_sock r) (reply := r) st 2 (sim_client st) 17 false (sim_conn, ([], [])))
    as (w' & n' & v & E & Hn & Hv & Hcl).
  - apply (sim_request [bs "gpioget"; print_u 17] st (bs "7" ++ [LF])).
    + vm_compute. reflexivity.
    + vm_compute. reflexivity.
    + vm_compute. reflexivity.
    + done.
    + vm_compute. reflexivity.
    + repeat constructor; discriminate.
  - unfold GPIOS_MAX. lia.
  - left. vm_compute. by eexists.
  - done.
  - destruct Hcl as (cs' & Ecs & _).
    { apply (sim_answer _ _ _ _ _ _ E Hn). vm_compute. reflexivity. }
    exists w', cs'. split; [exact E|]. rewrite Ecs. f_equal. f_equal.
    assert (Hc : mygpio_gpioget (Sk := sim_sock r) 17 (sim_conn, ([], []))
                 = Some (of_value v, cs')) by exact Ecs.
    apply (f_equal (fmap fst)) in Hc. vm_compute in Hc. by injection Hc.
Defined.

Lemma gpiolist_end_to_end_witness :
  let st := sim_session [bs "gpiolist" ++ [LF]] [] in
  let vs := [GPIOD_LINE_VALUE_ACTIVE; GPIOD_LINE_VALUE_INACTIVE] in
  let r := λ _ : bytes, gpiolist_text (config (l_world st)) vs in
  ∃ w' cs1 cs' gs, server_client_read 2 (l_world st) = Done (true, w') ∧
    mygpio_gpiolist (Sk := sim_sock r) (sim_conn, ([], [])) = Some (true, cs1) ∧
    recv_gpio_lists 3 cs1 = Some (gs, cs') ∧ (length gs ≤ 2)%nat.
Proof.
  intros st vs r.
  assert (Hl : listed_gpios (config (l_world st)) = [(bs "in", bs "GPIO17", 17); (bs "out", bs "GPIO4", 4)])
    by (vm_compute; reflexivity).
  destruct (gpiolist_end_to_end (Sk := sim_sock r) (reply := r) st 2 (sim_client st) false (sim_conn, ([], [])) 3)
    as (w' & n' & vs' & E & Hn & Hv & Hcl).
  - apply (sim_request [bs "gpiolist"] st (bs "gpiolist" ++ [LF])).
    + vm_compute. reflexivity.
    + vm_compute. reflexivity.
    + vm_compute. reflexivity.
    + done.
    + vm_compute. reflexivity.
    + repeat constructor; discriminate.
  - exact (sim_conn_quiet r).
  - rewrite Hl. repeat (apply Forall_cons; split); [..|apply Forall_nil_2];
      (split; [unfold UINT_MAX; simpl; lia|apply plain_value_lit; reflexivity]).
  - rewrite Hl. by apply Nat.ltb_lt.
  - destruct Hcl as (cs1 & cs' & E1 & E2).
    { apply (sim_answer _ _ _ _ _ _ E Hn). vm_compute. reflexivity. }
    exists w', cs1, cs'. eexists. split; [exact E|]. split; [exact E1|]. split; [exact E2|].
    rewrite length_map. etransitivity; [apply length_take_while|]. rewrite length_zip, Hl.
    apply Nat.le_min_l.
Defined.

Lemma handshake_end_to_end_witness :
  let r := λ _ : bytes, @nil ascii in
  ∃ w' n c s', server_client_connection_accept 4 (l_world (sim_boot [])) = Done (true, w') ∧
    clients (config w') = [n] ∧ Config.buf_out (n_data n) = c_str MSG_VERSION ++ [LF] ∧
    mygpio_connection_new (Sk := sim_sock r) 1 (bs "/run/mygpiod/socket") 1000
            (c_str MSG_VERSION ++ [LF], []) = Some (c, s') ∧ ClientIo.version c = (0, 9, 0).
Proof.
  intros r. set (k := (sim_new_fd (kern (l_world (sim_boot [])))).2).
  destruct (handshake_end_to_end (Sk := sim_sock r) (sim_boot []) 4 10 k 0 k k 0 9 0
      (bs "/run/mygpiod/socket") 1000 1 7 (c_str MSG_VERSION ++ [LF], []) (c_str MSG_VERSION ++ [LF], []))
    as (w' & n & E & Hn & _ & _ & _ & Hc); try lia.
  - exists (sim_boot []). split; [apply sim_boot_ok|apply rtc_refl].
  - vm_compute. reflexivity.
  - vm_compute. reflexivity.
  - reflexivity.
  - reflexivity.
  - split; [reflexivity|lia].
  - reflexivity.
  - assert (Hb : c_str MSG_VERSION ++ [LF] = Config.buf_out (n_data n)).
    { revert E Hn. vm_compute. by intros [= <-] [= <-]. }
    destruct (Hc Hb) as (c & s' & Ec & _ & Hv).
    exists w', n, c, s'. split; [exact E|]. split; [exact Hn|]. split; [by rewrite Hb|]. split; [exact Ec|exact Hv].
Defined.

(** An output was set, so its event waits for the client. *)
Lemma idle_events_end_to_end_witness :
  let st := sim_session [bs "gpioset 4 active" ++ [LF]] [[0; 0; 0; POLLIN; 0]] in
  let r := λ _ : bytes, @nil ascii in
  let e := Node 2 4 (event_data_new_gpio MYGPIOD_EVENT_GPIO_RISING 1000000000000) in
  ∃ w' n' cs', handle_idle 2 (l_world st) = Done (true, w') ∧
    list_deref (clients (config w')) 2 = Some n' ∧
    recv_idle_events (Sk := sim_sock r) 11 (sim_conn, (Config.buf_out (n_data n') ++ [], []))
    = Some ([decoded e], cs').
Proof.
  intros st r e.
  assert (Hq : waiting_events (n_data (sim_client st)) = [e]) by (vm_compute; reflexivity).
  destruct (idle_events_end_to_end (Sk := sim_sock r) st 2 (sim_client st) false []
      (sim_conn, (idle_text (input_devices (config (l_world st))) false [e] ++ [], [])) 11)
    as (w' & n' & E & Hn & Hcl).
  - apply sim_session_reachable.
  - vm_compute. reflexivity.
  - rewrite Hq. discriminate.
  - rewrite Hq. apply Forall_cons. split; [|apply Forall_nil_2].
    split; [unfold UINT_MAX|unfold ULONG_MAX]; simpl; lia.
  - apply Nat.ltb_lt. reflexivity.
  - assert (Ht : idle_text (input_devices (config (l_world st))) false [e] = Config.buf_out (n_data n')).
    { apply (sim_answer _ _ _ _ _ _ E Hn). vm_compute. reflexivity. }
    rewrite Ht, Hq in Hcl. destruct Hcl as (cs' & Ecs & _); [by split_and!|].
    exists w', n', cs'. split; [exact E|]. split; [exact Hn|exact Ecs].
Defined.

Definition sim_rising : node t_event_data :=
  Node 1 17 (event_data_new_gpio MYGPIOD_EVENT_GPIO_RISING 5000000).

Lemma input_event_not_understood_witness :
  let r := λ _ : bytes, @nil ascii in
  let e := Node 1 0 (EventData MYGPIOD_EVENT_INPUT 5000000 None) in
  ∃ cs', recv_idle_events (Sk := sim_sock r) 3
           (sim_conn, (idle_text [] false [e; sim_rising] ++ [], [])) = Some ([], cs').
Proof.
  intros r e.
  destruct (input_event_not_understood (Sk := sim_sock r) [] e [sim_rising] false []
    (sim_conn, (idle_text [] false [e; sim_rising] ++ [], [])) 3) as (cs' & E & _).
  - reflexivity.
  - lia.
  - split_and!; done.
  - exists cs'. exact E.
Defined.
