(* ===== verification/CliSpec.v ===== *)
(** * The command line client and the daemon

    What the commands "gpioset" and "idle" of mygpioc do on an open connection,
    from their arguments to the line on the chip and back to the exit code. *)

From S2P Require Import Prelude CLib ParseUtil Sds Lists GpioUtil Config Kernel Sim Timer InputNames.
From S2P Require Import Events Gpio Actions GpioEvent Protocol Socket EventLoop.
From S2P Require Import Invariant InvOps InvProtocol InvLoop Daemon EventSpec SocketSpec GpioSpec.
From S2P Require Import Requests ClientIo Client Cli ClientSpec EndToEnd.

#[local] Opaque BUFFER_SIZE_MAX.

Section daemon.
Context `{Kernel K} `{Build} `{BL : !BuildLaws} `{KL : !KernelLaws K}.
Implicit Types (w : world K) (st : @loop_state K) (p : positive).

(** The answer [text] is queued for [p]. *)
Definition answered p (text : bytes) w : world K :=
  (w_clients (list_upd p (respond text)) w) <| update_pollfds := true |>.

(** The answer of a command that returns no data. *)
Definition done_text (err : bytes) (ok : bool) : bytes :=
  if ok then unlines [bs "OK"; bs "END"] else bs "ERROR:" ++ err ++ [LF].

Lemma done_run err ok p w :
  c_str (bs "ERROR:" ++ err) = bs "ERROR:" ++ err →
  (if ok : bool then send_ok_end p else send_error p err) w = Done (ok, answered p (done_text err ok) w).
Proof.
  intros He. destruct ok; [unfold send_ok_end; by erewrite bind_run by apply send_run|]. unfold send_error, done_text. rewrite app_assoc. erewrite bind_run by apply send_run.
  change DEFAULT_MSG_ERROR with (bs "ERROR:"). by rewrite He.
Qed.

(** A handler that queues [text] in the world [w2] answers the request. *)
Lemma request_handled st p n ws (P : bytes → world K → Prop) :
  requests_line st p n ws → ws ≠ [] →
  (∀ w, line_taken p (l_world st) w → p ∈ ptrs (clients (config w)) → ∃ text w2 b,
     dispatch_command (parse_command (default [] (head ws))) ws p w = Done (b, answered p text w2) ∧
     p ∈ ptrs (clients (config w2)) ∧ P text w2) →
  ∃ text w2 n', server_client_read p (l_world st) = Done (true, answered p text w2) ∧
    list_deref (clients (config (answered p text w2))) p = Some n' ∧
    Config.buf_out (n_data n') = text ∧ P text w2.
Proof.
  intros (Hn & Hs & r & k & Hr & Hr0 & Hbuf & Hws) Hws0 Hd.
  assert (Hwp : wp (server_client_read p) (λ ok w', ok = true ∧ ∃ text w2 n', w' = answered p text w2 ∧
      list_deref (clients (config w')) p = Some n' ∧ Config.buf_out (n_data n') = text ∧ P text w2) (l_world st)).
  { eapply read_dispatch; try done. intros w1 n1 Hn1 Hb.
    destruct (Hd w1 Hb) as (text & w2 & b & E & Hp & HP); [by eapply list_deref_in_ptrs|].
    unfold wp. rewrite E. split; [done|]. destruct (list_deref_is_Some _ _ Hp) as [n2 E2].
    exists text, w2, (n2 <| n_data ::= respond text |>). split_and!; [done| |done|done].
    exact (deref_upd_clients p (respond text) n2 w2 E2). }
  apply wp_run in Hwp as (ok & w' & E & -> & text & w2 & n' & -> & ?). exists text, w2, n'. split; [done|]. done.
Qed.

(** ** gpioset *)

Lemma line_set_ptrs request gpio v w ok w' :
  line_set request gpio v w ok w' → ptrs (clients (config w')) = ptrs (clients (config w)).
Proof.
  unfold line_set. destruct (gpiod_line_request_set_value _ _ _ _) as [rc k]. destruct (rc =? 0); [|by intros [_ ->]].
  intros (_ & sec & nsec & k' & _ & Hc & _). rewrite Hc. unfold ptrs. cbn. rewrite map_map. done.
Qed.

Lemma timer_stopped_clients g w : clients (config (timer_stopped g w)) = clients (config w).
Proof. unfold timer_stopped. by destruct (-1 <? _). Qed.

Lemma handle_gpioset_run cmd gpio v g p w :
  0 ≤ gpio ≤ GPIOS_MAX → v ≠ GPIOD_LINE_VALUE_ERROR → enqueue_pre w → NoDup (ptrs (gpios_out (config w))) →
  list_node_by_id (gpios_out (config w)) gpio = Some g →
  ∃ ok w2, handle_gpioset [cmd; print_u gpio; lookup_gpio_value v] p w
    = Done (ok, answered p (done_text (bs "Setting GPIO value failed") ok) w2) ∧
    line_set (out_request (n_data g)) gpio v (timer_stopped g w) ok w2.
Proof.
  intros Hg Hv Hpre Hnd E. destruct (gpio_set_value_run gpio v g w Hpre Hnd E) as (ok & w2 & Hrun & Hset).
  exists ok, w2. split; [|done]. unfold handle_gpioset. change (negb _) with false. cbv iota.
  change (arg [cmd; print_u gpio; _] 1) with (Some (print_u gpio)). rewrite parse_gpio_number by done.
  change (parse_gpio_value (default [] (arg _ 2))) with (parse_gpio_value (lookup_gpio_value v)).
  assert (parse_gpio_value (lookup_gpio_value v) = (v, false)) as -> by (by destruct v).
  erewrite bind_run by exact Hrun. by apply done_run.
Qed.
End daemon.

Section cli.
Context `{AnsweringSocket Sk reply}.
Implicit Types (cs : t_mygpio_connection * Sk) (line : bytes).

Lemma says_run verbose text (m : C Sk cli_result) cs r cs' :
  m cs = Some (r, cs') → says verbose text m cs = Some (said verbose text r, cs').
Proof. intros E. unfold says. by erewrite C_bind_run by exact E. Qed.

Lemma command_ok b line err cs fuel :
  quiet b cs → line ≠ [] → plain_line line → reply line = done_text err true → (0 < fuel)%nat →
  ∃ cs', command_ok_end fuel line cs = Some (true, cs') ∧ holds b [] cs'.
Proof.
  intros Hq Hne Hl Hr Hf. destruct (send_line_ok b line cs Hq Hne Hl) as (cs1 & E1 & Hcs1 & _). rewrite Hr in Hcs1.
  destruct (recv_status_ok b _ cs1 Hcs1) as (cs2 & E2 & Hcs2 & _).
  destruct (response_end_ok b [] cs2 fuel Hcs2 Hf) as (cs3 & E3 & Hcs3 & _). exists cs3. split; [|done].
  unfold command_ok_end, bind_true. erewrite C_bind_run by exact E1. cbv iota.
  erewrite C_bind_run by exact E2. exact E3.
Qed.

Lemma command_failed b line err cs fuel :
  quiet b cs → line ≠ [] → plain_line line → reply line = done_text err false → plain_value err →
  ∃ cs', command_ok_end fuel line cs = Some (false, cs') ∧
    ClientIo.state cs'.1 = MYGPIO_STATE_ERROR ∧ ClientIo.error cs'.1 = Some err.
Proof.
  intros Hq Hne Hl Hr He. destruct (send_line_ok b line cs Hq Hne Hl) as (cs1 & E1 & Hcs1 & _). rewrite Hr in Hcs1.
  destruct (recv_status_error b err [] cs1 Hcs1 He) as (cs2 & E2 & Hs & Herr). exists cs2. split; [|done].
  unfold command_ok_end, bind_true. erewrite C_bind_run by exact E1. cbv iota. by erewrite C_bind_run by exact E2.
Qed.

(** The second end of the response finds nothing; a failed connection is not read. *)
Lemma ok_or_failed_true b (m : C Sk bool) cs cs1 fuel :
  m cs = Some (true, cs1) → holds b [] cs1 → (0 < fuel)%nat →
  ∃ cs', ok_or_failed fuel m cs = Some (success [], cs') ∧ wrote_below cs'.1 = true.
Proof.
  intros E Hcs1 Hf. destruct (response_end_nothing b cs1 fuel Hcs1 Hf) as (cs' & E' & (_ & _ & Hb & _)).
  exists cs'. split; [|done]. unfold ok_or_failed. erewrite C_bind_run by exact E.
  unfold succeeded. by erewrite C_bind_run by exact E'.
Qed.

Lemma ok_or_failed_false (m : C Sk bool) cs cs1 fuel err :
  m cs = Some (false, cs1) → ClientIo.state cs1.1 = MYGPIO_STATE_ERROR → ClientIo.error cs1.1 = Some err →
  ok_or_failed fuel m cs = Some (failure (bs "Error: " ++ err ++ [LF]), cs1).
Proof.
  intros E Hs He. unfold ok_or_failed. erewrite C_bind_run by exact E. unfold failed.
  erewrite C_bind_run by (unfold error_text, mygpio_connection_get_error; erewrite C_bind_run by done; rewrite He; reflexivity).
  unfold mygpio_response_end. erewrite C_bind_run; [done|].
  erewrite C_bind_run by (unfold mygpio_connection_check, conn; rewrite Hs; reflexivity). done.
Qed.

(** What a command without data prints, and its exit code. *)
Definition done_result (err : bytes) (ok : bool) : cli_result :=
  if ok then success [] else failure (bs "Error: " ++ err ++ [LF]).

Lemma command_done b line err ok cs fuel :
  quiet b cs → line ≠ [] → plain_line line → reply line = done_text err ok → plain_value err → (0 < fuel)%nat →
  ∃ cs', ok_or_failed fuel (command_ok_end fuel line) cs = Some (done_result err ok, cs') ∧
    (ok = true → wrote_below cs'.1 = true).
Proof.
  intros Hq Hne Hl Hr He Hf. destruct ok.
  - destruct (command_ok b line err cs fuel Hq Hne Hl Hr Hf) as (cs1 & E1 & Hcs1).
    destruct (ok_or_failed_true b _ cs cs1 fuel E1 Hcs1 Hf) as (cs' & E & Hb). by exists cs'.
  - destruct (command_failed b line err cs fuel Hq Hne Hl Hr He) as (cs1 & E1 & Hs & Herr).
    exists cs1. split; [|done]. by eapply ok_or_failed_false.
Qed.
End cli.

Section set.
Context `{AnsweringSocket Sk reply} `{Kernel K} `{Build} `{BL : !BuildLaws} `{KL : !KernelLaws K}.
Implicit Types (st : @loop_state K) (p : positive) (cs : t_mygpio_connection * Sk).

Lemma value_names v : v ≠ GPIOD_LINE_VALUE_ERROR → mygpio_gpio_lookup_value (of_value v) = lookup_gpio_value v.
Proof. by destruct v. Qed.

Lemma gpioset_line gpio v :
  0 ≤ gpio ≤ GPIOS_MAX → plain_line (bs "gpioset " ++ print_u gpio ++ bs " " ++ lookup_gpio_value v).
Proof.
  intros Hg. destruct (plain_command (bs "gpioset") gpio) as (Hlf & Hnul & _);
    [reflexivity|unfold GPIOS_MAX, ULONG_MAX in *; lia|].
  destruct (value_name_plain v) as (Hvlf & Hvnul & _).
  assert (Hlen : (length (print_u gpio) ≤ 8)%nat) by (apply (print_u_length gpio 7); unfold GPIOS_MAX in *; lia).
  change (bs "gpioset " ++ ?t) with (bs "gpioset" ++ bs " " ++ t). rewrite !(app_assoc _ _ (_ ++ _)). split_and!.
  - apply Forall_app. split; [by rewrite <- app_assoc|]. apply (Forall_app _ (bs " ")). split; [by repeat constructor|done].
  - apply Forall_app. split; [by rewrite <- app_assoc|]. apply (Forall_app _ (bs " ")). split; [by repeat constructor|done].
  - rewrite !length_app. apply Nat.le_lt_trans with (8 + 8 + (1 + 8))%nat; [|by apply Nat.ltb_lt].
    destruct v; simpl; lia.
Qed.

(** What [cli_gpioset] does when the daemon's answer is the [ok] one or not. *)
Lemma cli_gpioset_done verbose b gpio v ok a0 r a1 cs fuel :
  mygpio_parse_uint (Some a0) true 0 GPIOS_MAX = Some (gpio, r) → 0 ≤ gpio ≤ GPIOS_MAX →
  mygpio_gpio_parse_value a1 = of_value v → v ≠ GPIOD_LINE_VALUE_ERROR → quiet b cs → (0 < fuel)%nat →
  reply (bs "gpioset " ++ print_u gpio ++ bs " " ++ lookup_gpio_value v)
  = done_text (bs "Setting GPIO value failed") ok →
  ∃ cs', cli_gpioset verbose fuel [a0; a1] cs
    = Some (said verbose (bs "Sending gpioset") (done_result (bs "Setting GPIO value failed") ok), cs') ∧
    (ok = true → wrote_below cs'.1 = true).
Proof.
  intros Ha0 Hg Ha1 Hv Hq Hf Hr. unfold cli_gpioset, with_gpio. cbn [argument lookup list_lookup].
  rewrite Ha0, Ha1, decide_False by (by destruct v). unfold mygpio_gpioset. rewrite value_names by done.
  assert (Hne : bs "gpioset " ++ print_u gpio ++ bs " " ++ lookup_gpio_value v ≠ []) by done.
  destruct (command_done b _ (bs "Setting GPIO value failed") ok cs fuel Hq Hne (gpioset_line gpio v Hg) Hr)
    as (cs' & E & Hb); [by apply plain_value_lit|done|]. exists cs'. split; [by apply says_run|done].
Qed.

(** The daemon's half: what it does with the line, and its answer. *)
Lemma gpioset_answered st p n g gpio v :
  reachable st → requests_line st p n [bs "gpioset"; print_u gpio; lookup_gpio_value v] →
  list_node_by_id (gpios_out (config (l_world st))) gpio = Some g →
  0 ≤ gpio ≤ GPIOS_MAX → v ≠ GPIOD_LINE_VALUE_ERROR →
  let err := bs "Setting GPIO value failed" in
  ∃ ok w1 w2 n', server_client_read p (l_world st) = Done (true, answered p (done_text err ok) w2) ∧
    line_taken p (l_world st) w1 ∧
    line_set (out_request (n_data g)) gpio v (timer_stopped g w1) ok w2 ∧
    list_deref (clients (config (answered p (done_text err ok) w2))) p = Some n' ∧
    Config.buf_out (n_data n') = done_text err ok.
Proof.
  intros (s & Hw & _)%reachable_inv Hreq Hout Hg Hv err.
  destruct (request_handled st p n _ (λ text w2, ∃ ok w1, text = done_text err ok ∧
      line_taken p (l_world st) w1 ∧ line_set (out_request (n_data g)) gpio v (timer_stopped g w1) ok w2) Hreq)
    as (text & w2 & n' & E & Hn' & Ht & ok & w1 & -> & Hw1 & Hset); [done| |].
  - intros w1 Hw1 Hp. pose proof (line_taken_but _ _ _ Hw1) as Hb.
    pose proof (but_clients_config gpios_out _ _ Hb ltac:(done)) as Hgo. cbv beta in Hgo.
    destruct (handle_gpioset_run (bs "gpioset") gpio v g p w1 Hg Hv) as (ok & w2 & E & Hset).
    + eapply line_taken_pre, inv_enqueue_pre; eassumption.
    + rewrite Hgo, (inv_out _ _ _ Hw). apply Hw.
    + by rewrite Hgo.
    + exists (done_text err ok), w2, ok. split; [exact E|]. split; [|eauto].
      by rewrite (line_set_ptrs _ _ _ _ _ _ Hset), timer_stopped_clients.
  - exists ok, w1, w2, n'. by split_and!.
Qed.

(** "mygpioc gpioset" from the command line to the chip and back. When
    the arguments are a GPIO number and a value that the client accepts, and
    the daemon reads the line that the client sends for them, for a configured
    output, then: the blink timer of the output is stopped, the line is set and
    the event goes to everyone when the kernel accepts it, and nobody is told
    otherwise; the answer tells which of the two it was; and the client exits
    with 0 and prints nothing, or with the option --verbose the one message, when
    the line was set, and with 1 and the daemon's message when it was not. On success it ends the response twice, and the
    second time writes before its buffer. *)
Theorem gpioset_end_to_end verbose st p n g gpio v b a0 r a1 cs fuel :
  reachable st → requests_line st p n [bs "gpioset"; print_u gpio; lookup_gpio_value v] →
  list_node_by_id (gpios_out (config (l_world st))) gpio = Some g →
  mygpio_parse_uint (Some a0) true 0 GPIOS_MAX = Some (gpio, r) → 0 ≤ gpio ≤ GPIOS_MAX →
  mygpio_gpio_parse_value a1 = of_value v → v ≠ GPIOD_LINE_VALUE_ERROR → quiet b cs → (0 < fuel)%nat →
  ∃ ok w1 w2 n', server_client_read p (l_world st)
      = Done (true, answered p (done_text (bs "Setting GPIO value failed") ok) w2) ∧
    line_taken p (l_world st) w1 ∧
    line_set (out_request (n_data g)) gpio v (timer_stopped g w1) ok w2 ∧
    list_deref (clients (config (answered p (done_text (bs "Setting GPIO value failed") ok) w2))) p = Some n' ∧
    (reply (bs "gpioset " ++ print_u gpio ++ bs " " ++ lookup_gpio_value v) = Config.buf_out (n_data n') →
     ∃ cs', cli_gpioset verbose fuel [a0; a1] cs
    = Some (said verbose (bs "Sending gpioset") (done_result (bs "Setting GPIO value failed") ok), cs') ∧
       (ok = true → wrote_below cs'.1 = true)).
Proof.
  intros Hst Hreq Hout Ha0 Hg Ha1 Hv Hq Hf.
  destruct (gpioset_answered st p n g gpio v Hst Hreq Hout Hg Hv) as (ok & w1 & w2 & n' & E & Hw1 & Hset & Hn' & Htext).
  exists ok, w1, w2, n'. split_and!; try done. rewrite Htext. by eapply cli_gpioset_done.
Qed.
End set.

(** ** idle *)

(** A printed event, in the daemon's name and with its time in milliseconds. *)
Definition event_printed (n : node t_event_data) : bytes :=
  bs "GPIO " ++ print_u (n_id n) ++ bs ", event " ++ mygpiod_event_name (mygpiod_event_type (n_data n))
    ++ bs ", timestamp " ++ print_u (timestamp_ns (n_data n) / 1000000) ++ bs " ms" ++ [LF].

Lemma print_events q :
  Forall of_gpio q → mapM print_event (map decoded q) = Some (map event_printed q).
Proof.
  induction 1 as [|n q Hn _ IH]; [done|]. cbn [map mapM]. rewrite IH. clear IH.
  unfold of_gpio in Hn. destruct n as [ptr id [[] ts dat]]; done.
Qed.

Section idle.
Context `{AnsweringSocket Sk reply} `{Build}.
Implicit Types (cs : t_mygpio_connection * Sk).

(** C15: "mygpioc idle". When the daemon answers the line "idle" with waiting
    GPIO events, the client prints a line for each of them, oldest first, with
    the GPIO, the daemon's name of the event and its time in milliseconds, and
    exits with 0; but an event of a GPIO with a number above 64, which get_config
    accepts, ends the output: it and the events behind it are skipped, and the exit
    code is 0 all the same. With the option --verbose four messages come before the
    events. When all events were printed, the loop has consumed the end of the
    response that the client then waits for once more: nothing else has arrived, so
    the receive function ends its empty line in front of the input buffer. GPIO
    numbers and times are taken to be of the widths that C gives them. *)
Theorem cli_idle_prints verbose devs q b cs fuel :
  quiet b cs → reply (bs "idle") = idle_text devs false q →
  Forall of_gpio q → Forall event_numbers q → (3 * length q + 1 < fuel)%nat →
  ∃ cs', cli_idle verbose fuel [] cs
    = Some (said verbose (bs "Sending idle") (said verbose (bs "In idle mode")
              (said verbose (bs "Waiting for idle events") (said verbose (bs "Events waiting")
                 (success (concat (map event_printed (take_while understood q))))))), cs') ∧
    wrote_below cs'.1 = b || forallb understood q.
Proof.
  intros Hq Hr Hg Hn Hf. unfold cli_idle. cbn [length]. rewrite bool_decide_false by done.
  assert (Hl : plain_line (bs "idle")) by (split_and!; [by repeat constructor..|by apply Nat.ltb_lt]).
  assert (Hne : bs "idle" ≠ []) by done.
  destruct (send_line_ok b _ cs Hq Hne Hl) as (cs1 & E1 & Hcs1 & _). rewrite Hr in Hcs1.
  assert (Hw : ∃ cs2, mygpio_wait_idle (-1) cs1 = Some (true, cs2) ∧ holds b (idle_text devs false q) cs2).
  { destruct cs1 as [c s]. destruct Hcs1 as (Hs & Hfd & Hb & Hi). cbn [fst snd] in *.
    destruct (poll_incoming (ClientIo.fd c) (-1) s) as (k & s' & E & Hk & Hi').
    { rewrite Hi. unfold idle_text. cbn [app]. rewrite unlines_app. by intros [_ ?]%app_nil. }
    exists (c, s'). split; [|split_and!; [done|done|done|exact (eq_trans Hi' Hi)]].
    unfold mygpio_wait_idle. erewrite C_bind_run by done. erewrite C_bind_run by (unfold call; cbn [snd fst]; rewrite E; reflexivity).
    by rewrite (proj2 (Z.ltb_lt _ _)) by lia. }
  destruct Hw as (cs2 & E2 & Hcs2). rewrite <- (app_nil_r (idle_text _ _ _)) in Hcs2.
  destruct (recv_idle_events_ok devs q b [] cs2 fuel Hn ltac:(lia) Hcs2) as (cs3 & E3 & Hall & Hnot).
  assert (Hend : ∃ done cs4, mygpio_response_end fuel cs3 = Some (done, cs4) ∧
    wrote_below cs4.1 = b || forallb understood q).
  { destruct (forallb understood q) eqn:Eu.
    - destruct (response_end_nothing b cs3 fuel (Hall eq_refl) ltac:(lia)) as (cs4 & E4 & (_ & _ & Hb & _)).
      exists false, cs4. by rewrite orb_true_r.
    - specialize (Hnot eq_refl Hg).
      assert (Hsub : ∀ P : node t_event_data → Prop, Forall P q → Forall P (unread q)).
      { intros P HP. unfold unread. rewrite <- (take_drop_while understood q) in HP.
        apply Forall_app in HP as [_ HP]. by apply Forall_drop. }
      destruct (idle_lines_plain devs (unread q) (Hsub _ Hg) (Hsub _ Hn)) as [Hlen Hp].
      destruct (response_end_lines b _ [] cs3 fuel Hp) as (cs4 & E4 & (_ & _ & Hb & _)); [exact Hnot| |].
      + rewrite Hlen. assert (length (unread q) ≤ length q)%nat; [|lia].
        unfold unread. rewrite length_drop. rewrite <- (take_drop_while understood q) at 2. rewrite length_app. lia.
      + exists true, cs4. by rewrite orb_false_r. }
  destruct Hend as (fin & cs4 & E4 & Hb).
  assert (Hp : Forall of_gpio (take_while understood q)).
  { eapply Forall_impl; [apply take_while_Forall|]. by intros n [?%bool_decide_eq_true _]%andb_true_iff. }
  exists cs4. split; [|exact Hb]. apply says_run. erewrite C_bind_run by exact E1. apply says_run, says_run.
  erewrite C_bind_run by exact E2. apply says_run. erewrite C_bind_run by exact E3. rewrite print_events by done.
  erewrite C_bind_run by (unfold aborting; reflexivity). unfold succeeded. by erewrite C_bind_run by exact E4.
Qed.
End idle.

(** ** Witnesses *)

(** Two events, the second of a GPIO that the client refuses. *)
Definition sim_refused : node t_event_data :=
  Node 2 70 (event_data_new_gpio MYGPIOD_EVENT_GPIO_FALLING 6000000).

Lemma cli_idle_prints_witness :
  let r := λ _ : bytes, idle_text [] false [sim_rising; sim_refused; sim_rising] in
  ∃ cs', cli_idle (Sk := sim_sock r) false 11 [] (sim_conn, ([], []))
         = Some (success (event_printed sim_rising ++ []), cs') ∧ wrote_below cs'.1 = false.
Proof.
  intros r.
  apply (cli_idle_prints (Sk := sim_sock r) (reply := r) false [] [sim_rising; sim_refused; sim_rising] false
           (sim_conn, ([], [])) 11).
  - exact (sim_conn_quiet r).
  - reflexivity.
  - repeat (apply Forall_cons; split; [discriminate|]). apply Forall_nil_2.
  - repeat (apply Forall_cons; split; [split; [unfold UINT_MAX|unfold ULONG_MAX]; simpl; lia|]). apply Forall_nil_2.
  - simpl. lia.
Defined.

Lemma gpioset_end_to_end_witness :
  let st := sim_session [bs "gpioset 4 active" ++ [LF]] [] in
  let r := λ _ : bytes, done_text (bs "Setting GPIO value failed") true in
  ∃ w2 cs', server_client_read 2 (l_world st)
      = Done (true, answered 2 (done_text (bs "Setting GPIO value failed") true) w2) ∧
    cli_gpioset (Sk := sim_sock r) false 1 [bs "0004"; bs "ACTIVE"] (sim_conn, ([], [])) = Some (success [], cs') ∧
    wrote_below cs'.1 = true.
Proof.
  intros st r.
  destruct (gpioset_end_to_end (Sk := sim_sock r) (reply := r) false st 2 (sim_client st)
      (Node 1 4 sim_gpio_out) 4 GPIOD_LINE_VALUE_ACTIVE false
      (bs "0004") [] (bs "ACTIVE") (sim_conn, ([], [])) 1)
    as (ok & w1 & w2 & n' & E & _ & _ & Hn & Hcl).
  - apply sim_session_reachable.
  - apply (sim_request [bs "gpioset"; print_u 4; bs "active"] st (bs "gpioset 4 active" ++ [LF])).
    + vm_compute. reflexivity.
    + vm_compute. reflexivity.
    + vm_compute. reflexivity.
    + done.
    + vm_compute. reflexivity.
    + repeat constructor; discriminate.
  - vm_compute. reflexivity.
  - vm_compute. reflexivity.
  - unfold GPIOS_MAX. lia.
  - vm_compute. reflexivity.
  - discriminate.
  - exact (sim_conn_quiet r).
  - lia.
  - destruct Hcl as (cs' & Ecs & Hb).
    { apply (sim_answer _ _ _ _ _ _ E Hn). vm_compute. reflexivity. }
    assert (Hok : ok = true).
    { apply (f_equal (fmap fst)) in Ecs. vm_compute in Ecs. by destruct ok. }
    rewrite Hok in E, Ecs, Hb. exists w2, cs'. split; [exact E|]. split; [exact Ecs|by apply Hb].
Defined.
