(* ===== verification/InfoSpec.v ===== *)
(** * gpioinfo from end to end

    What the daemon answers to "gpioinfo", and which of these answers the client
    understands. *)

From S2P Require Import Prelude CLib ParseUtil Sds Lists GpioUtil Config Kernel Sim Timer InputNames.
From S2P Require Import Events Gpio Actions GpioEvent Protocol Socket EventLoop.
From S2P Require Import Invariant InvOps InvProtocol InvLoop Daemon EventSpec SocketSpec GpioSpec.
From S2P Require Import Requests ClientIo Client Cli ClientSpec EndToEnd CliSpec.

#[local] Opaque BUFFER_SIZE_MAX.

(** What an answer shows of a line. *)
Inductive shown :=
  | ShownIn (v : gpiod_line_value) (low : bool) (b : gpiod_line_bias) (e : gpiod_line_edge)
      (deb : bool) (period : Z) (c : gpiod_line_clock)
  | ShownOut (v : gpiod_line_value) (d : gpiod_line_drive).

Definition shown_value (s : shown) : gpiod_line_value := match s with ShownIn v _ _ _ _ _ _ | ShownOut v _ => v end.

(** The pairs behind the number; there are none when the kernel has no
    information about the line. *)
Definition shown_pairs (nm : bytes) (s : option shown) : list (bytes * bytes) :=
  match s with
  | None => []
  | Some (ShownIn v low b e deb period c) =>
      [(bs "direction", bs "in"); (bs "value", lookup_gpio_value v);
       (bs "active_low", mygpio_bool_to_str low); (bs "bias", lookup_bias b);
       (bs "event_request", lookup_event_request e); (bs "is_debounced", mygpio_bool_to_str deb);
       (bs "debounce_period_us", print_u period); (bs "event_clock", lookup_event_clock c); (bs "name", nm)]
  | Some (ShownOut v d) =>
      [(bs "direction", bs "out"); (bs "value", lookup_gpio_value v); (bs "drive", lookup_drive d); (bs "name", nm)]
  end.

Definition info_pairs (gpio : Z) (nm : bytes) (s : option shown) : list (bytes * bytes) :=
  (bs "gpio", print_u gpio) :: shown_pairs nm s.

Definition info_text (gpio : Z) (nm : bytes) (s : option shown) : bytes :=
  unlines (bs "OK" :: map (λ kv, pair_line kv.1 kv.2) (info_pairs gpio nm s) ++ [bs "END"]).

Definition info_lines (nm : bytes) (s : option shown) : list bytes :=
  map (λ kv, pair_line kv.1 kv.2) (shown_pairs nm s).

(** ** The daemon *)

Section daemon.
Context `{Kernel K} `{Build} `{BL : !BuildLaws} `{KL : !KernelLaws K}.
Implicit Types (w : world K) (p : positive).

Lemma sys_run {A} (f : K → A * K) w a k : f (kern w) = (a, k) → sys f w = Done (a, w <| kern := k |>).
Proof. unfold sys. by intros ->. Qed.

(** The input or output with this number and its name; an input comes first. *)
Definition info_target (c : t_config) (gpio : Z) : option (bool * bytes) :=
  match list_node_by_id (gpios_in c) gpio with
  | Some n => Some (true, c_str (in_name (n_data n)))
  | None => (λ n, (false, c_str (out_name (n_data n)))) <$> list_node_by_id (gpios_out c) gpio
  end.

Definition shown_of (input : bool) (v : gpiod_line_value) (info : line_info) : shown :=
  if input then
    ShownIn v (gpiod_line_info_is_active_low info) (gpiod_line_info_get_bias info)
      (gpiod_line_info_get_edge_detection info) (gpiod_line_info_is_debounced info)
      (gpiod_line_info_get_debounce_period_us info) (gpiod_line_info_get_event_clock info)
  else ShownOut v (gpiod_line_info_get_drive info).

(** [s] is what the kernel reported for the line. *)
Definition reports (gpio : Z) (input : bool) (s : option shown) : Prop :=
  ∃ c k, let info := (gpiod_chip_get_line_info c gpio k).1 in
    match info with
    | None => s = None
    | Some info => ∃ v, line_value gpio v ∧ s = Some (shown_of input v info)
    end.

Lemma info_target_configured c gpio t : info_target c gpio = Some t → configured c gpio.
Proof.
  unfold info_target, configured. destruct (list_node_by_id (gpios_in c) gpio); [by left|].
  destruct (list_node_by_id (gpios_out c) gpio); [by right|done].
Qed.

(** The two bodies differ in the lines alone. *)
Ltac info_run gpio input :=
  erewrite bind_run by done;
  lazymatch goal with
  | |- context [appended ?p ?ls ?k ?w] =>
      let info := fresh "info" in let k' := fresh "k" in let E := fresh "E" in
      destruct (gpiod_chip_get_line_info (chip (config (appended p ls k w))) gpio k) as [[info|] k'] eqn:E;
      [|exists None, k'; erewrite bind_run by (apply sys_run; exact E);
        rewrite appended_kern, app_nil_r; split; [done|eexists _, _; by rewrite E]];
      erewrite bind_run by (apply sys_run; exact E); rewrite appended_kern;
      erewrite bind_run by apply appended_append;
      let v := fresh "v" in let k2 := fresh "k" in let Hv := fresh "Hv" in let Hl := fresh "Hl" in
      edestruct (gpio_get_value_run gpio) as (v & k2 & Hv & Hl); erewrite bind_run by exact Hv;
      rewrite appended_kern; exists (Some (shown_of input v info)), k2; split;
      [repeat erewrite bind_run by apply appended_append; rewrite appended_append;
       unfold info_lines; cbn [shown_pairs shown_of map fst snd]; by rewrite <- !app_assoc
      |eexists _, _; rewrite E; exists v; split; [by apply Hl|done]]
  end.

Lemma gpioinfo_in_run p gpio d ls k w :
  configured (config w) gpio →
  ∃ s k', gpioinfo_in p gpio gpio d (appended p ls k w)
    = Done (tt, appended p (ls ++ info_lines (c_str (in_name d)) s) k' w) ∧ reports gpio true s.
Proof. intros Hc. unfold gpioinfo_in. info_run gpio true. Qed.

Lemma gpioinfo_out_run p gpio d ls k w :
  configured (config w) gpio →
  ∃ s k', gpioinfo_out p gpio gpio d (appended p ls k w)
    = Done (tt, appended p (ls ++ info_lines (c_str (out_name d)) s) k' w) ∧ reports gpio false s.
Proof. intros Hc. unfold gpioinfo_out. info_run gpio false. Qed.

Lemma gpioinfo_answer_run p gpio body nm input w :
  (∃ s k', body (appended p [bs "OK"; bs "gpio:" ++ print_u gpio] (kern w) (started p w))
    = Done (tt, appended p ([bs "OK"; bs "gpio:" ++ print_u gpio] ++ info_lines nm s) k' (started p w))
    ∧ reports gpio input s) →
  ∃ s k', gpioinfo_answer p gpio body w
    = Done (true, (w_clients (list_upd p (respond (info_text gpio nm s))) w) <| kern := k' |>
                    <| update_pollfds := true |>) ∧ reports gpio input s.
Proof.
  intros (s & k' & E & Hr). exists s, k'. split; [|done]. unfold gpioinfo_answer.
  erewrite bind_run by apply start_run. fold (started p w).
  erewrite bind_run by apply started_append. erewrite bind_run by apply appended_append.
  erewrite bind_run by exact E. erewrite bind_run by apply appended_append.
  by erewrite bind_run by apply appended_end.
Qed.

Lemma handle_gpioinfo_run cmd gpio p input nm w :
  0 ≤ gpio ≤ GPIOS_MAX → info_target (config w) gpio = Some (input, nm) →
  ∃ s k, handle_gpioinfo [cmd; print_u gpio] p w
    = Done (true, (w_clients (list_upd p (respond (info_text gpio nm s))) w) <| kern := k |>
                    <| update_pollfds := true |>) ∧ reports gpio input s.
Proof.
  intros Hg Ht. pose proof (info_target_configured _ _ _ Ht) as Hc. unfold handle_gpioinfo.
  change (negb _) with false. cbv iota. change (arg [cmd; print_u gpio] 1) with (Some (print_u gpio)).
  rewrite parse_gpio_number by done. erewrite bind_run by done. cbv beta. unfold info_target in Ht.
  destruct (list_node_by_id (gpios_in (config w)) gpio) as [n|] eqn:E.
  - injection Ht as <- <-. pose proof E as [_ ->%Z.eqb_eq]%list_find_node_Some.
    apply gpioinfo_answer_run, gpioinfo_in_run, Hc.
  - erewrite bind_run by done. cbv beta. destruct (list_node_by_id (gpios_out (config w)) gpio) as [n|] eqn:E2; [|done].
    injection Ht as <- <-. pose proof E2 as [_ ->%Z.eqb_eq]%list_find_node_Some.
    apply gpioinfo_answer_run, gpioinfo_out_run, Hc.
Qed.
End daemon.

(** ** The client *)

(** The client has no name for an unreadable value, for an unknown bias and for
    a line without edge detection, and its debounce period is an [int]. *)
Definition value_known (v : gpiod_line_value) : bool := match v with GPIOD_LINE_VALUE_ERROR => false | _ => true end.
Definition bias_known (b : gpiod_line_bias) : bool := match b with GPIOD_LINE_BIAS_UNKNOWN => false | _ => true end.
Definition edge_known (e : gpiod_line_edge) : bool := match e with GPIOD_LINE_EDGE_NONE => false | _ => true end.

Definition understood (s : shown) : bool :=
  value_known (shown_value s) &&
  match s with
  | ShownIn _ _ b e _ period _ => bias_known b && edge_known e && (period <=? INT_MAX)
  | ShownOut _ _ => true
  end.

Definition of_bias (b : gpiod_line_bias) : mygpio_gpio_bias :=
  match b with
  | GPIOD_LINE_BIAS_AS_IS => MYGPIO_BIAS_AS_IS
  | GPIOD_LINE_BIAS_UNKNOWN => MYGPIO_BIAS_UNKNOWN
  | GPIOD_LINE_BIAS_DISABLED => MYGPIO_BIAS_DISABLED
  | GPIOD_LINE_BIAS_PULL_UP => MYGPIO_BIAS_PULL_UP
  | GPIOD_LINE_BIAS_PULL_DOWN => MYGPIO_BIAS_PULL_DOWN
  end.

Definition of_edge (e : gpiod_line_edge) : mygpio_event_request :=
  match e with
  | GPIOD_LINE_EDGE_NONE => MYGPIO_EVENT_REQUEST_UNKNOWN
  | GPIOD_LINE_EDGE_RISING => MYGPIO_EVENT_REQUEST_RISING
  | GPIOD_LINE_EDGE_FALLING => MYGPIO_EVENT_REQUEST_FALLING
  | GPIOD_LINE_EDGE_BOTH => MYGPIO_EVENT_REQUEST_BOTH
  end.

Definition of_clock (c : gpiod_line_clock) : mygpio_event_clock :=
  match c with
  | GPIOD_LINE_CLOCK_MONOTONIC => MYGPIO_EVENT_CLOCK_MONOTONIC
  | GPIOD_LINE_CLOCK_REALTIME => MYGPIO_EVENT_CLOCK_REALTIME
  | GPIOD_LINE_CLOCK_HTE => MYGPIO_EVENT_CLOCK_HTE
  end.

Definition of_drive (d : gpiod_line_drive) : mygpio_drive :=
  match d with
  | GPIOD_LINE_DRIVE_PUSH_PULL => MYGPIO_DRIVE_PUSH_PULL
  | GPIOD_LINE_DRIVE_OPEN_DRAIN => MYGPIO_DRIVE_OPEN_DRAIN
  | GPIOD_LINE_DRIVE_OPEN_SOURCE => MYGPIO_DRIVE_OPEN_SOURCE
  end.

Definition decoded_info (gpio : Z) (nm : bytes) (s : shown) : t_mygpio_gpio :=
  match s with
  | ShownIn v low b e deb period c =>
      MygpioGpio gpio MYGPIO_GPIO_DIRECTION_IN (of_value v)
        (Some (MygpioIn low (of_bias b) (of_edge e) deb period (of_clock c))) None nm
  | ShownOut v d => MygpioGpio gpio MYGPIO_GPIO_DIRECTION_OUT (of_value v) None (Some (MygpioOut (of_drive d))) nm
  end.

(** What "mygpioc gpioinfo" prints, in the daemon's names. *)
Definition info_printed (gpio : Z) (nm : bytes) (s : shown) : bytes :=
  bs "GPIO: " ++ print_u gpio ++ [LF] ++ bs "Name: " ++ nm ++ [LF] ++
  match s with
  | ShownIn v low b e deb period c =>
      bs "Direction: in" ++ [LF] ++ bs "Value: " ++ lookup_gpio_value v ++ [LF]
      ++ bs "Active low: " ++ mygpio_bool_to_str low ++ [LF]
      ++ bs "Bias: " ++ lookup_bias b ++ [LF]
      ++ bs "Event request: " ++ lookup_event_request e ++ [LF]
      ++ bs "Is debounced: " ++ mygpio_bool_to_str deb ++ [LF]
      ++ bs "Debounce period: " ++ print_u period ++ bs " us" ++ [LF]
      ++ bs "Event clock: " ++ lookup_event_clock c ++ [LF]
  | ShownOut v d =>
      bs "Direction: out" ++ [LF] ++ bs "Value: " ++ lookup_gpio_value v ++ [LF]
      ++ bs "Drive: " ++ lookup_drive d ++ [LF]
  end.

Definition info_result (gpio : Z) (nm : bytes) (s : option shown) : cli_result :=
  match s with
  | Some s => if understood s then success (info_printed gpio nm s) else failure []
  | None => failure []
  end.

Definition period_ok (s : shown) : Prop :=
  match s with ShownIn _ _ _ _ _ period _ => 0 ≤ period ≤ ULONG_MAX | ShownOut _ _ => True end.

Lemma setting_names :
  (∀ b, mygpio_gpio_parse_bias (lookup_bias b) = of_bias b ∧ plain_value (lookup_bias b)) ∧
  (∀ e, mygpio_gpio_parse_event_request (lookup_event_request e) = of_edge e ∧ plain_value (lookup_event_request e)) ∧
  (∀ c, mygpio_gpio_parse_event_clock (lookup_event_clock c) = of_clock c ∧ plain_value (lookup_event_clock c)) ∧
  (∀ d, mygpio_gpio_parse_drive (lookup_drive d) = of_drive d ∧ plain_value (lookup_drive d)) ∧
  (∀ x, mygpio_parse_bool (mygpio_bool_to_str x) = (x, false) ∧ plain_value (mygpio_bool_to_str x)).
Proof. split_and!; intros []; (split; [done|by apply plain_value_lit]). Qed.

Lemma print_info_understood gpio nm s :
  period_ok s → understood s = true → print_info (decoded_info gpio nm s) = Some (info_printed gpio nm s).
Proof.
  unfold understood. intros Hp [Hv Hs]%andb_prop. destruct s as [v low b e deb period c|v d]; simpl in Hp, Hv, Hs.
  - apply andb_prop in Hs as [[Hb He]%andb_prop _].
    assert (mygpio_gpio_lookup_bias (of_bias b) = lookup_bias b) as Hb' by (by destruct b).
    assert (mygpio_gpio_lookup_event_request (of_edge e) = lookup_event_request e) as He' by (by destruct e).
    assert (mygpio_gpio_lookup_event_clock (of_clock c) = lookup_event_clock c) as Hc' by (by destruct c).
    assert (mygpio_gpio_lookup_value (of_value v) = lookup_gpio_value v) as Hv' by (by destruct v).
    unfold print_info, print_info_in. cbn -[bs app]. rewrite Hb', He', Hc', Hv'. unfold info_printed, print_d.
    rewrite (proj2 (Z.ltb_ge _ _)) by lia. rewrite <- !app_assoc. reflexivity.
  - assert (mygpio_gpio_lookup_value (of_value v) = lookup_gpio_value v) as Hv' by (by destruct v).
    assert (mygpio_gpio_lookup_drive (of_drive d) = lookup_drive d) as Hd' by (by destruct d).
    unfold print_info. cbn -[bs app]. rewrite Hd', Hv'. unfold info_printed. rewrite <- !app_assoc. reflexivity.
Qed.

Section client.
Context `{AnsweringSocket Sk reply}.
Implicit Types (cs : t_mygpio_connection * Sk).

Lemma check_that_fails {A} (f : unit → C Sk (option A)) c cs :
  c = false → bind_some (check_that c) f cs = Some (None, cs).
Proof. by intros ->. Qed.

Lemma bind_some_run {A B} (m : C Sk (option A)) (f : A → C Sk (option B)) cs o cs' :
  m cs = Some (o, cs') →
  bind_some m f cs = match o with Some a => f a cs' | None => Some (None, cs') end.
Proof. intros E. unfold bind_some. erewrite C_bind_run by exact E. by destruct o. Qed.

(** The number, the direction and the value. *)
Lemma recv_head_ok b gpio dir v kvs r cs :
  0 ≤ gpio ≤ GPIOS_MAX → mygpio_gpio_parse_direction dir ≠ MYGPIO_GPIO_DIRECTION_UNKNOWN → plain_value dir →
  holds b (pairs ((bs "gpio", print_u gpio) :: (bs "direction", dir) :: (bs "value", lookup_gpio_value v) :: kvs) ++ r) cs →
  ∃ cs', recv_gpio_head cs
    = Some (if value_known v then Some (gpio, mygpio_gpio_parse_direction dir, of_value v) else None, cs') ∧
    holds b (pairs kvs ++ r) cs'.
Proof.
  intros Hg Hd Hdp Hcs. destruct (parse_uint_gpio gpio Hg) as [Hgp Hgu]. unfold recv_gpio_head.
  recv_step Hcs; [done|]. rewrite Hgu, check_some_step. cbn [fst].
  recv_step Hcs; [done|]. rewrite check_that_step by (by rewrite bool_decide_false).
  recv_step Hcs; [apply value_name_plain|]. rewrite parse_value_name.
  destruct v; simpl; (eexists; split; [reflexivity|done]).
Qed.

Lemma recv_in_ok b low bi e deb period c kvs r cs :
  0 ≤ period ≤ ULONG_MAX →
  holds b (pairs ([(bs "active_low", mygpio_bool_to_str low); (bs "bias", lookup_bias bi);
       (bs "event_request", lookup_event_request e); (bs "is_debounced", mygpio_bool_to_str deb);
       (bs "debounce_period_us", print_u period); (bs "event_clock", lookup_event_clock c)] ++ kvs) ++ r) cs →
  ∃ cs', recv_gpio_in cs
    = Some (if bias_known bi && edge_known e && (period <=? INT_MAX)
            then Some (MygpioIn low (of_bias bi) (of_edge e) deb period (of_clock c)) else None, cs') ∧
    (bias_known bi && edge_known e && (period <=? INT_MAX) = true → holds b (pairs kvs ++ r) cs').
Proof.
  intros Hp Hcs. destruct setting_names as (Nb & Ne & Nc & _ & Nx). cbn [app] in Hcs. unfold recv_gpio_in.
  recv_step Hcs; [apply Nx|]. rewrite (proj1 (Nx low)). recv_step Hcs; [apply Nb|]. rewrite (proj1 (Nb bi)).
  destruct (bias_known bi) eqn:Eb.
  2:{ rewrite check_that_fails by (by destruct bi). by eexists. }
  rewrite check_that_step by (by destruct bi). recv_step Hcs; [apply Ne|]. rewrite (proj1 (Ne e)).
  destruct (edge_known e) eqn:Ee.
  2:{ rewrite check_that_fails by (by destruct e). by eexists. }
  rewrite check_that_step by (by destruct e). recv_step Hcs; [apply Nx|]. rewrite (proj1 (Nx deb)).
  recv_step Hcs; [by apply plain_value_num|]. destruct (Z.leb_spec period INT_MAX) as [Hle|Hgt].
  2:{ rewrite parse_int_large by done. by eexists. }
  rewrite <- (app_nil_r (print_u period)), parse_int_print by (auto with gpio; lia). rewrite check_some_step.
  recv_step Hcs; [apply Nc|]. rewrite (proj1 (Nc c)), check_that_step by (by destruct c). by eexists.
Qed.

Lemma recv_info_ok b gpio nm s r cs :
  0 ≤ gpio ≤ GPIOS_MAX → plain_value nm → period_ok s → holds b (pairs (info_pairs gpio nm (Some s)) ++ r) cs →
  ∃ cs', mygpio_recv_gpio_info cs = Some (if understood s then Some (decoded_info gpio nm s) else None, cs') ∧
    (understood s = true → holds b r cs').
Proof.
  intros Hg Hnm Hp Hcs. unfold mygpio_recv_gpio_info, understood. destruct s as [v low bi e deb period c|v d];
    cbn [info_pairs shown_pairs shown_value] in *.
  - destruct (recv_head_ok b gpio (bs "in") v _ r cs Hg ltac:(done) ltac:(by apply plain_value_lit) Hcs) as (cs1 & E1 & Hc1).
    erewrite bind_some_run by exact E1. destruct (value_known v); [|by eexists]. cbn [andb]. cbv beta iota.
    rewrite decide_True by done.
    destruct (recv_in_ok b low bi e deb period c [(bs "name", nm)] r cs1 Hp Hc1) as (cs2 & E2 & Hc2).
    erewrite bind_some_run by exact E2. destruct (bias_known bi && _ && _); [|by eexists].
    specialize (Hc2 eq_refl). recv_step Hc2; [done|]. by eexists.
  - destruct (recv_head_ok b gpio (bs "out") v _ r cs Hg ltac:(done) ltac:(by apply plain_value_lit) Hcs) as (cs1 & E1 & Hc1).
    erewrite bind_some_run by exact E1. destruct (value_known v); [|by eexists]. cbn [andb]. cbv beta iota.
    rewrite decide_False by done. unfold recv_gpio_out. destruct setting_names as (_ & _ & _ & Nd & _).
    assert (E2 : ∃ cs2, recv_gpio_out cs1 = Some (Some (MygpioOut (of_drive d)), cs2) ∧ holds b (pairs [(bs "name", nm)] ++ r) cs2).
    { unfold recv_gpio_out. recv_step Hc1; [apply Nd|]. rewrite (proj1 (Nd d)), check_that_step by (by destruct d). by eexists. }
    destruct E2 as (cs2 & E2 & Hc2). erewrite bind_some_run by exact E2. cbv beta iota. recv_step Hc2; [done|]. by eexists.
Qed.
Lemma recv_no_info b gpio nm r cs :
  0 ≤ gpio ≤ GPIOS_MAX → holds b (pairs (info_pairs gpio nm None) ++ bs "END" ++ LF :: r) cs →
  ∃ cs', mygpio_recv_gpio_info cs = Some (None, cs').
Proof.
  intros Hg Hcs. destruct (parse_uint_gpio gpio Hg) as [Hgp Hgu]. unfold mygpio_recv_gpio_info.
  assert (E : ∃ cs1, recv_gpio_head cs = Some (None, cs1)).
  { unfold recv_gpio_head. recv_step Hcs; [done|]. rewrite Hgu, check_some_step. cbn [fst].
    lazymatch goal with
    | |- context [bind_some (mygpio_recv_pair_name ?k) ?f] => edestruct (pair_end _ k _ _ f Hcs) as (cs' & E & _)
    end. exists cs'. exact E. }
  destruct E as (cs1 & E). exists cs1. by erewrite bind_some_run by exact E.
Qed.

(** What [cli_gpioinfo] makes of an answer of the daemon. *)
Lemma cli_gpioinfo_done verbose b gpio nm s a0 rest cs fuel :
  mygpio_parse_uint (Some a0) true 0 GPIOS_MAX = Some (gpio, rest) → 0 ≤ gpio ≤ GPIOS_MAX →
  plain_value nm → (∀ i, s = Some i → period_ok i) → quiet b cs → (0 < fuel)%nat →
  reply (bs "gpioinfo " ++ print_u gpio) = info_text gpio nm s →
  ∃ cs', cli_gpioinfo verbose fuel [a0] cs
    = Some (said verbose (bs "Sending gpioinfo") (said verbose (bs "Retrieving gpio info") (info_result gpio nm s)), cs').
Proof.
  intros Ha Hg Hnm Hp Hq Hf Hr. unfold cli_gpioinfo, with_gpio. cbn [argument lookup list_lookup]. rewrite Ha.
  assert (Hl : plain_line (bs "gpioinfo " ++ print_u gpio)).
  { apply (plain_command (bs "gpioinfo")); [reflexivity|unfold GPIOS_MAX, ULONG_MAX in *; lia]. }
  assert (Hne : bs "gpioinfo " ++ print_u gpio ≠ []) by done.
  destruct (send_line_ok b _ cs Hq Hne Hl) as (cs1 & E1 & Hcs1 & _). rewrite Hr in Hcs1.
  unfold info_text in Hcs1. rewrite ok_pairs_text in Hcs1.
  destruct (recv_status_ok b _ cs1 Hcs1) as (cs2 & E2 & Hcs2 & _).
  assert (E : mygpio_gpioinfo gpio cs = Some (true, cs2)).
  { unfold mygpio_gpioinfo, bind_true. by erewrite C_bind_run by exact E1. }
  enough (Hrest : ∃ cs', (g ← mygpio_recv_gpio_info;
      match g with
      | None => mret (failure [])
      | Some g => out ← aborting (print_info g); succeeded fuel out
      end) cs2 = Some (info_result gpio nm s, cs')).
  { destruct Hrest as (cs' & Er). exists cs'. apply says_run. erewrite C_bind_run by exact E. by apply says_run. }
  destruct s as [i|].
  - destruct (recv_info_ok b gpio nm i _ cs2 Hg Hnm (Hp i eq_refl) Hcs2) as (cs3 & E3 & Hcs3).
    erewrite C_bind_run by exact E3. unfold info_result. destruct (understood i) eqn:Eu; [|by eexists].
    destruct (response_end_ok b [] cs3 fuel (Hcs3 eq_refl) Hf) as (cs4 & E4 & _). exists cs4.
    rewrite print_info_understood by auto. erewrite C_bind_run by done.
    unfold succeeded. by erewrite C_bind_run by exact E4.
  - destruct (recv_no_info b gpio nm [] cs2 Hg Hcs2) as (cs3 & E3). exists cs3.
    by erewrite C_bind_run by exact E3.
Qed.

Context `{Kernel K} `{Build} `{BL : !BuildLaws} `{KL : !KernelLaws K}.
Implicit Types (st : @loop_state K) (p : positive).

Lemma info_target_but w w' gpio : but_clients (K := K) w w' → info_target (config w') gpio = info_target (config w) gpio.
Proof.
  intros Hb. unfold info_target. rewrite (but_clients_config gpios_in _ _ Hb) by done.
  by rewrite (but_clients_config gpios_out _ _ Hb).
Qed.

(** C14: "mygpioc gpioinfo" from the command line to the chip and back. The
    daemon answers the line that the client sends for a configured GPIO with
    what the kernel reports for its line. The client prints all of it, in the
    names of the daemon, and exits with 0, if the kernel has information about
    the line, its value could be read, its bias is known, its edges are detected
    and its debounce period is an [int]. In every other case it exits with 1 and
    prints nothing of it and no error, although the daemon has answered; so an input without
    edge detection, which the daemon shows as "none", cannot be shown. *)
Theorem gpioinfo_end_to_end verbose st p n gpio input nm b a0 rest cs fuel :
  requests_line st p n [bs "gpioinfo"; print_u gpio] →
  info_target (config (l_world st)) gpio = Some (input, nm) → plain_value nm →
  mygpio_parse_uint (Some a0) true 0 GPIOS_MAX = Some (gpio, rest) → 0 ≤ gpio ≤ GPIOS_MAX →
  (∀ info, 0 ≤ gpiod_line_info_get_debounce_period_us info ≤ ULONG_MAX) → quiet b cs → (0 < fuel)%nat →
  ∃ w' n' s, server_client_read p (l_world st) = Done (true, w') ∧
    list_deref (clients (config w')) p = Some n' ∧ reports gpio input s ∧
    (reply (bs "gpioinfo " ++ print_u gpio) = Config.buf_out (n_data n') →
     ∃ cs', cli_gpioinfo verbose fuel [a0] cs
       = Some (said verbose (bs "Sending gpioinfo") (said verbose (bs "Retrieving gpio info") (info_result gpio nm s)), cs')).
Proof.
  intros Hreq Ht Hnm Ha Hg Hper Hq Hf.
  destruct (request_answered st p n _ (λ text, ∃ s, reports gpio input s ∧ text = info_text gpio nm s) Hreq)
    as (w' & n' & E & Hn' & _ & s & Hs & Htext); [done| |].
  - intros w Hb%line_taken_but.
    destruct (handle_gpioinfo_run (bs "gpioinfo") gpio p input nm w Hg) as (s & k & E & Hs).
    { by rewrite (info_target_but _ _ _ Hb). }
    exists (info_text gpio nm s), k, true. split; [exact E|eauto].
  - exists w', n', s. split_and!; try done. rewrite Htext. intros Hr.
    eapply cli_gpioinfo_done; try done. intros i ->. destruct Hs as (c & k & Hs). cbv zeta in Hs.
    destruct ((gpiod_chip_get_line_info c gpio k).1) as [info|]; [|done].
    destruct Hs as (v & _ & [= ->]). destruct input; [apply Hper|done].
Qed.
End client.

(** ** Witness *)

Lemma gpioinfo_end_to_end_witness :
  let st := sim_session [bs "gpioinfo 4" ++ [LF]] [] in
  let s := Some (ShownOut GPIOD_LINE_VALUE_INACTIVE GPIOD_LINE_DRIVE_PUSH_PULL) in
  let r := λ _ : bytes, info_text 4 (bs "GPIO4") s in
  ∃ w' cs', server_client_read 2 (l_world st) = Done (true, w') ∧
    cli_gpioinfo (Sk := sim_sock r) false 1 [bs "4"] (sim_conn, ([], [])) = Some (info_result 4 (bs "GPIO4") s, cs').
Proof.
  intros st s r.
  destruct (gpioinfo_end_to_end (Sk := sim_sock r) (reply := r) false st 2 (sim_client st) 4 false (bs "GPIO4") false
      (bs "4") [] (sim_conn, ([], [])) 1) as (w' & n' & s' & E & Hn & Hs & Hcl).
  - apply (sim_request [bs "gpioinfo"; print_u 4] st (bs "gpioinfo 4" ++ [LF])).
    + vm_compute. reflexivity.
    + vm_compute. reflexivity.
    + vm_compute. reflexivity.
    + done.
    + vm_compute. reflexivity.
    + repeat constructor; discriminate.
  - vm_compute. reflexivity.
  - by apply plain_value_lit.
  - vm_compute. reflexivity.
  - unfold GPIOS_MAX. lia.
  - intros []. unfold ULONG_MAX. simpl. lia.
  - exact (sim_conn_quiet r).
  - lia.
  - destruct Hcl as (cs' & Ecs).
    { apply (sim_answer _ _ _ _ _ _ E Hn). vm_compute. reflexivity. }
    destruct Hs as (c & k & v & _ & Hs). change (shown_of false v _) with (ShownOut v GPIOD_LINE_DRIVE_PUSH_PULL) in Hs.
    assert (Hv : v = GPIOD_LINE_VALUE_INACTIVE).
    { rewrite Hs in Ecs. apply (f_equal (fmap fst)) in Ecs. destruct v; [| |done]; vm_compute in Ecs; done. }
    exists w', cs'. split; [exact E|]. by rewrite Ecs, Hs, Hv.
Defined.
