(* ===== verification/CliMain.v ===== *)
(** * The whole command line client

    The main function of mygpioc, from its options and arguments through the
    greeting of the daemon to the end of the connection: what it prints and
    returns for a command, and all of it for "gpioset". *)

From S2P Require Import Prelude CLib ParseUtil Lists GpioUtil Config Kernel Sim Timer Events Protocol Socket EventLoop.
From S2P Require Import Daemon EventSpec SocketSpec GpioSpec Requests ClientIo Client Cli ClientSpec EndToEnd CliSpec.

(** ** The descriptor of the connection

    No function but mygpio_connection_new chooses it. *)

Section fd.
Context `{Socket Sk}.

Definition keeps_fd {A} (m : C Sk A) : Prop :=
  ∀ cs a cs', m cs = Some (a, cs') → ClientIo.fd cs'.1 = ClientIo.fd cs.1.

Lemma fd_ret {A} (a : A) : keeps_fd (mret a).
Proof. by intros cs b cs' [= _ <-]. Qed.
Lemma fd_bind {A B} (m : C Sk A) (f : A → C Sk B) : keeps_fd m → (∀ a, keeps_fd (f a)) → keeps_fd (mbind f m).
Proof.
  intros Hm Hf cs b cs'. unfold mbind, C_bind. destruct (m cs) as [[a cs1]|] eqn:E; [|done].
  intros E'. rewrite (Hf _ _ _ _ E'). by eapply Hm.
Qed.
Lemma fd_conn {A} (f : t_mygpio_connection → A) : keeps_fd (conn f).
Proof. by intros cs a cs' [= _ <-]. Qed.
Lemma fd_upd f : (∀ c, ClientIo.fd (f c) = ClientIo.fd c) → keeps_fd (upd_conn f).
Proof. intros Hf cs a cs' [= _ <-]. apply Hf. Qed.
Lemma fd_none {A} : keeps_fd (λ _, None : option (A * _)).
Proof. by intros cs a cs'. Qed.

Lemma fd_recv_line timeout : keeps_fd (libmygpio_socket_recv_line timeout).
Proof.
  intros [c s] a cs'. unfold libmygpio_socket_recv_line.
  destruct (0 <? timeout); [destruct (poll_in _ _ _) as [rc s1]; destruct (negb (negb _)); [by intros [= _ <-]|]|cbn [negb]].
  all: destruct (recv_go _ _ _ _ _) as [[[] [|]] s3]; by intros [= _ <-].
Qed.

Lemma fd_send_line : keeps_fd libmygpio_socket_send_line.
Proof. intros [c s] a cs'. unfold libmygpio_socket_send_line. destruct (send_go _ _ _ _). by intros [= _ <-]. Qed.
End fd.

Create HintDb fd discriminated.
#[export] Hint Resolve fd_ret fd_conn fd_none fd_recv_line fd_send_line : fd.

Ltac fd_step :=
  lazymatch goal with
  | |- keeps_fd (mbind _ _) => apply fd_bind; [|intros ?]
  | |- keeps_fd (upd_conn _) => by apply fd_upd
  | |- keeps_fd (match ?x with _ => _ end) => destruct x
  | |- keeps_fd (let _ := _ in _) => cbv zeta
  end.
Ltac keep_fd := repeat (first [solve [eauto 2 with fd] | fd_step]).

Section commands.
Context `{Socket Sk}.

Lemma fd_status : keeps_fd libmygpio_recv_response_status.
Proof. unfold libmygpio_recv_response_status, mygpio_connection_check, line_in, libmygpio_connection_set_state. keep_fd. Qed.
Lemma fd_line line : keeps_fd (libmygpio_send_line line).
Proof. unfold libmygpio_send_line, mygpio_connection_check, libmygpio_connection_set_state. keep_fd. Qed.
Hint Resolve fd_status fd_line : fd.

Lemma fd_version : keeps_fd libmygpio_recv_version.
Proof. unfold libmygpio_recv_version, mygpio_recv_pair, mygpio_connection_check, line_in. keep_fd. Qed.
Hint Resolve fd_version : fd.

Lemma fd_response_end fuel : keeps_fd (mygpio_response_end fuel).
Proof.
  unfold mygpio_response_end, mygpio_connection_check. apply fd_bind; [auto with fd|]. intros ok.
  destruct (negb ok); [auto with fd|]. induction fuel as [|fuel IH]; [apply fd_none|].
  cbn [response_end_go]. unfold line_in. keep_fd; exact IH.
Qed.
Hint Resolve fd_response_end : fd.

Lemma fd_cli_gpioset verbose fuel args : keeps_fd (cli_gpioset verbose fuel args).
Proof.
  unfold cli_gpioset, with_gpio, says, ok_or_failed, succeeded, failed, error_text, mygpio_gpioset,
    command_ok_end, bind_true. keep_fd.
Qed.

Lemma connection_fd fuel path timeout s fd s1 c s2 :
  libmygpio_socket_connect path s = (fd, s1) → mygpio_connection_new fuel path timeout s = Some (c, s2) →
  ClientIo.fd c = fd.
Proof.
  intros Hc. unfold mygpio_connection_new. rewrite Hc.
  match goal with |- context [snd <$> ?m ?cs] => set (go := m); set (cs0 := cs) end.
  assert (Hgo : keeps_fd go).
  { subst go. destruct (fd =? -1); unfold bind_true, libmygpio_connection_set_state; keep_fd. }
  destruct (go cs0) as [[a cs']|] eqn:E; [|done]. intros [= ->]. by apply Hgo in E.
Qed.
End commands.

Section main.
Context `{AnsweringSocket Sk reply} `{Kernel K} `{Build} `{BL : !BuildLaws} `{KL : !KernelLaws K}.
Implicit Types (cs : t_mygpio_connection * Sk) (s : Sk).

(** What main adds to the output of a command with the option --verbose. *)
Definition session (options : t_options) (version : Z * Z * Z) (r : cli_result) : cli_result :=
  said (opt_verbose options) (connecting_text options)
    (said (opt_verbose options) (connected_text version) (said_last (opt_verbose options) (bs "Closing connection") r)).

(** The daemon has accepted the connection and written its greeting. *)
Definition greeted (options : t_options) (fd : Z) s : Prop :=
  ∃ s1, libmygpio_socket_connect (opt_socket options) s = (fd, s1) ∧ 0 ≤ fd ∧
    incoming s1 = c_str MSG_VERSION ++ [LF] ∧ outgoing s1 = [].

(** A command that gives [r] on every fresh connection: the connection is made, the
    command runs on it, and its descriptor is closed. *)
Lemma main_run fuel opts options command args p fd s v0 v1 v2 r :
  handle_options opts init_options = inl options →
  get_command (opt_verbose options) command (Z.of_nat (length args)) = inl p →
  version_is v0 v1 v2 → greeted options fd s → (0 < fuel)%nat → keeps_fd (handler p fuel args) →
  (∀ cs, quiet false cs → ∃ cs', handler p fuel args cs = Some (r, cs')) →
  ∃ c s2 cs', mygpio_connection_new fuel (opt_socket options) (opt_timeout_ms options) s = Some (c, s2) ∧
    handler p fuel args (c, s2) = Some (r, cs') ∧
    main fuel opts (command :: args) s
    = Some (session options (v0, v1, v2) r, if 0 <? fd then cl_close fd cs'.2 else cs'.2).
Proof.
  intros Ho Hp Hver (s1 & Hc & Hfd & Hin & Hout) Hf Hkeep Hrun.
  destruct (connection_new_ok v0 v1 v2 _ (opt_timeout_ms options) fuel fd s s1 Hver Hc Hfd Hf Hin)
    as (c & s2 & Enew & Hh & Hv).
  pose proof (connection_outgoing _ _ _ _ _ _ _ _ Hc Enew) as Hout2. rewrite Hout in Hout2.
  destruct (Hrun (c, s2)) as ([c' s3] & Erun); [by split|]. exists c, s2, (c', s3). split; [done|]. split; [done|].
  apply Hkeep in Erun as Efd. cbn [fst] in Efd. rewrite (connection_fd _ _ _ _ _ _ _ _ Hc Enew) in Efd.
  unfold main. rewrite Ho. cbv zeta. rewrite Hp, Enew. cbn [mbind option_bind].
  rewrite decide_True by apply Hh. rewrite Erun. cbn [mbind option_bind].
  unfold mygpio_connection_get_version, mygpio_connection_free, libmygpio_socket_close. by rewrite Hv, Efd.
Qed.

(** Commands are found whatever the case of their letters. *)
Lemma get_command_gpioset verbose command :
  strcasecmp0 command (bs "gpioset") = true →
  get_command verbose command 2 = inl (Command (bs "gpioset") (cli_gpioset (Sk := Sk) verbose) 2 2).
Proof.
  unfold strcasecmp0. intros E%bool_decide_eq_true. unfold get_command, commands, strcasecmp0. cbn [find Cli.command].
  rewrite E. reflexivity.
Qed.

Implicit Types (st : @loop_state K).

(** C12: "mygpioc gpioset" from the command line to the chip and back. The client
    connects, with any options that it accepts, reads the greeting of the daemon
    (of a build whose version is three numbers up to 99) and sends the line for a
    GPIO number and a value that it accepts. When the daemon reads this line, in any
    reachable state, and the GPIO is a configured output, then: the blink timer of
    the output is stopped, the line is set and the event goes to everyone when the
    kernel accepts it, and nobody is told otherwise; the answer tells which of the
    two it was; and the client runs the command on the connection, closes the
    descriptor of the connection as its last act (but 0, which
    libmygpio_socket_close leaves open) and exits with 0 when the line was set,
    with 1 and the daemon's message when it was not, and prints nothing else but the
    four messages of the option --verbose. *)
Theorem mygpioc_gpioset st p n g gpio v opts options command a0 rest a1 fd s v0 v1 v2 fuel :
  reachable st → requests_line st p n [bs "gpioset"; print_u gpio; lookup_gpio_value v] →
  list_node_by_id (gpios_out (config (l_world st))) gpio = Some g →
  handle_options opts init_options = inl options → strcasecmp0 command (bs "gpioset") = true →
  mygpio_parse_uint (Some a0) true 0 GPIOS_MAX = Some (gpio, rest) → 0 ≤ gpio ≤ GPIOS_MAX →
  mygpio_gpio_parse_value a1 = of_value v → v ≠ GPIOD_LINE_VALUE_ERROR →
  version_is v0 v1 v2 → greeted options fd s → (0 < fuel)%nat →
  let err := bs "Setting GPIO value failed" in
  ∃ ok w1 w2 n', server_client_read p (l_world st) = Done (true, answered p (done_text err ok) w2) ∧
    line_taken p (l_world st) w1 ∧
    line_set (out_request (n_data g)) gpio v (timer_stopped g w1) ok w2 ∧
    list_deref (clients (config (answered p (done_text err ok) w2))) p = Some n' ∧
    (reply (bs "gpioset " ++ print_u gpio ++ bs " " ++ lookup_gpio_value v) = Config.buf_out (n_data n') →
     let r := said (opt_verbose options) (bs "Sending gpioset") (done_result err ok) in
     ∃ c s2 cs', mygpio_connection_new fuel (opt_socket options) (opt_timeout_ms options) s = Some (c, s2) ∧
       cli_gpioset (opt_verbose options) fuel [a0; a1] (c, s2) = Some (r, cs') ∧
       main fuel opts [command; a0; a1] s
       = Some (session options (v0, v1, v2) r, if 0 <? fd then cl_close fd cs'.2 else cs'.2)).
Proof.
  intros Hst Hreq Hout Ho Hcmd Ha0 Hg Ha1 Hv Hver Hs Hf err.
  destruct (gpioset_answered st p n g gpio v Hst Hreq Hout Hg Hv) as (ok & w1 & w2 & n' & E & Hw1 & Hset & Hn' & Htext).
  exists ok, w1, w2, n'. split_and!; try done. rewrite Htext. intros Hr.
  cbv zeta. eapply (main_run fuel opts options command [a0; a1]
    (Command (bs "gpioset") (cli_gpioset (Sk := Sk) (opt_verbose options)) 2 2)); try done;
    [by apply get_command_gpioset|apply fd_cli_gpioset|]. intros cs Hq.
  destruct (cli_gpioset_done (opt_verbose options) false gpio v ok a0 rest a1 cs fuel) as (cs' & Ecs & _); try done.
  by exists cs'.
Qed.
End main.

(** ** Witness *)

Lemma mygpioc_gpioset_witness :
  let st := sim_session [bs "gpioset 4 active" ++ [LF]] [] in
  let r := λ _ : bytes, done_text (bs "Setting GPIO value failed") true in
  ∃ w2 (cs' : t_mygpio_connection * sim_sock r), server_client_read 2 (l_world st)
      = Done (true, answered 2 (done_text (bs "Setting GPIO value failed") true) w2) ∧
    main (Sk := sim_sock r) 1 [OptVerbose] [bs "GpioSet"; bs "0004"; bs "ACTIVE"] (c_str MSG_VERSION ++ [LF], [])
    = Some (Result EXIT_SUCCESS (unlines [bs "Connecting to myGPIOd: /run/mygpiod/socket";
                                          bs "Connected, server version 0.9.0"; bs "Sending gpioset";
                                          bs "Closing connection"]) [], cl_close (Socket := sim_sock_socket r) 7 cs'.2).
Proof.
  intros st r.
  destruct (mygpioc_gpioset (Sk := sim_sock r) (reply := r) st 2 (sim_client st)
      (Node 1 4 sim_gpio_out) 4 GPIOD_LINE_VALUE_ACTIVE [OptVerbose] (Options CFG_SOCKET_PATH 10000 true) (bs "GpioSet")
      (bs "0004") [] (bs "ACTIVE") 7 (c_str MSG_VERSION ++ [LF], []) 0 9 0 1)
    as (ok & w1 & w2 & n' & E & _ & _ & Hn & Hcl).
  - apply sim_session_reachable.
  - apply (sim_request [bs "gpioset"; print_u 4; bs "active"] st (bs "gpioset 4 active" ++ [LF])).
    + vm_compute. reflexivity.
    + vm_compute. reflexivity.
    + vm_compute. reflexivity.
    + done.
    + vm_compute. reflexivity.
    + repeat constructor; discriminate.
  - vm_compute. reflexivity.
  - reflexivity.
  - reflexivity.
  - vm_compute. reflexivity.
  - unfold GPIOS_MAX. lia.
  - vm_compute. reflexivity.
  - discriminate.
  - split; [reflexivity|lia].
  - exists (c_str MSG_VERSION ++ [LF], []). split; [reflexivity|]. split; [lia|]. split; reflexivity.
  - lia.
  - destruct Hcl as (c & s2 & cs' & _ & _ & Es).
    { apply (sim_answer _ _ _ _ _ _ E Hn). vm_compute. reflexivity. }
    assert (Hok : ok = true).
    { apply (f_equal (fmap fst)) in Es. vm_compute in Es. by destruct ok. }
    rewrite Hok in E, Es. exists w2, cs'. split; [exact E|exact Es].
Defined.
